(** * GasGuru: the batch lifecycle manager, the network client's savings
      estimator and the two POST routes, embedded from the TypeScript sources

    Sources embedded here:
    - [lib/batching-service.ts]  (class [BatchingService])
    - [lib/shardeum.ts]          (class [ShardeumAPI])
    - [app/api/batch/route.ts]   ([POST /api/batch])
    - [app/api/shardeum/route.ts] ([POST /api/shardeum])
    - [lib/database.ts]          (the tables [batched_transactions] and
                                  [gas_analytics])

    Conventions.
    - A JavaScript string is a [string]: a sequence of code units below 256.
    - A [bigint] is a [Z]; a JavaScript [number] that the source only uses as
      a counter (row counts, [INTEGER] columns, array lengths) is a [Z]; a
      [number] the source does floating-point arithmetic on is a binary64
      value [spec_float], computed with the operations of [SpecFloat] at
      precision 53 and maximal exponent 1024.
    - An [async] method is a function from the state of the outside world
      to an outcome (a returned value or a thrown error message) and the
      new state; [await] is sequencing.
    - The PostgreSQL server, the JSON-RPC node, the wallet, the clock and
      [Math.random] are not code of the repository: they are the fields of
      an environment [Env] over which every theorem quantifies. *)

From Stdlib Require Import ZArith List String Ascii Bool Lia.
From Stdlib Require Import Permutation Sorted SpecFloat.
From Stdlib Require DecimalString HexadecimalString.
From Stdlib Require DecimalPos DecimalZ HexadecimalPos HexadecimalZ.
Import ListNotations.

Local Open Scope string_scope.
Local Open Scope list_scope.
Local Open Scope Z_scope.

(* ================================================================== *)
(** * JavaScript built-ins used by the sources *)
(* ================================================================== *)

Module Js.

(** ** Characters *)

(** [WhiteSpace] and [LineTerminator] code units below 256: TAB, LF, VT, FF,
    CR, SP and NBSP. *)
Definition is_ws (c : ascii) : bool :=
  let n := nat_of_ascii c in
  ((n =? 9) || (n =? 10) || (n =? 11) || (n =? 12) || (n =? 13)
   || (n =? 32) || (n =? 160))%nat.

Fixpoint drop_ws (l : list ascii) : list ascii :=
  match l with
  | c :: r => if is_ws c then drop_ws r else l
  | [] => []
  end.

Definition trim (l : list ascii) : list ascii :=
  rev (drop_ws (rev (drop_ws l))).

(** Value of a character read as a digit: [0-9] are 0..9 and [a-z], [A-Z]
    are 10..35. *)
Definition digit_val (c : ascii) : option Z :=
  let n := Z.of_nat (nat_of_ascii c) in
  if (48 <=? n) && (n <=? 57) then Some (n - 48)
  else if (97 <=? n) && (n <=? 122) then Some (n - 87)
  else if (65 <=? n) && (n <=? 90) then Some (n - 55)
  else None.

Definition digit_in (radix : Z) (c : ascii) : option Z :=
  match digit_val c with
  | Some d => if d <? radix then Some d else None
  | None => None
  end.

Definition is_digit_in (radix : Z) (c : ascii) : bool :=
  match digit_in radix c with Some _ => true | None => false end.

(** Value of a list of digits, most significant first; [None] when a
    character is not a digit of the radix. *)
Fixpoint digits_value (radix : Z) (l : list ascii) (acc : Z) : option Z :=
  match l with
  | [] => Some acc
  | c :: r =>
      match digit_in radix c with
      | Some d => digits_value radix r (acc * radix + d)
      | None => None
      end
  end.

(** A non-empty list of digits. *)
Definition parse_digits (radix : Z) (l : list ascii) : option Z :=
  match l with
  | [] => None
  | _ => digits_value radix l 0
  end.

(** Longest prefix of characters satisfying [p], and the rest. *)
Fixpoint span (p : ascii -> bool) (l : list ascii) : list ascii * list ascii :=
  match l with
  | c :: r =>
      if p c then let (a, b) := span p r in (c :: a, b) else ([], l)
  | [] => ([], [])
  end.

Definition chr (c : ascii) (d : ascii) : bool := Ascii.eqb c d.

(** The non-decimal prefix [0x], [0o] or [0b] (either case) of a literal:
    the radix and the digits that follow. *)
Definition non_decimal_prefix (l : list ascii) : option (Z * list ascii) :=
  match l with
  | z :: k :: r =>
      if chr z "0" then
        if chr k "x" || chr k "X" then Some (16, r)
        else if chr k "o" || chr k "O" then Some (8, r)
        else if chr k "b" || chr k "B" then Some (2, r)
        else None
      else None
  | _ => None
  end.

(** ** [BigInt(string)] : StringToBigInt.  [None] is the [SyntaxError]. *)
Definition BigInt (s : string) : option Z :=
  let l := trim (list_ascii_of_string s) in
  match l with
  | [] => Some 0
  | c :: r =>
      match non_decimal_prefix l with
      | Some (radix, ds) => parse_digits radix ds
      | None =>
          if chr c "+" then parse_digits 10 r
          else if chr c "-" then option_map Z.opp (parse_digits 10 r)
          else parse_digits 10 l
      end
  end.

(** [BigInt.prototype.toString()] and [toString(16)]. *)
Definition BigInt_toString (z : Z) : string :=
  DecimalString.NilZero.string_of_int (Z.to_int z).

Definition BigInt_toString16 (z : Z) : string :=
  HexadecimalString.NilZero.string_of_int (Z.to_hex_int z).

(** ** The regular expression [/^0x[a-fA-F0-9]{40}$/] *)
Definition addressRegex_test (s : string) : bool :=
  match list_ascii_of_string s with
  | z :: x :: r =>
      chr z "0" && chr x "x" && (List.length r =? 40)%nat
      && forallb (is_digit_in 16) r
  | _ => false
  end.

(** ** [Number(string)] : StringToNumber

    The sources only test the result with [isNaN] and [<= 0], so the
    literal is kept exact: a sign, a decimal mantissa and a power of ten.
    The tests below are those of the binary64 value it rounds to. *)
Inductive NumericLiteral : Type :=
| LitNaN
| LitInfinity (neg : bool)
| LitValue (neg : bool) (mantissa : Z) (exp10 : Z).

Definition is_dec (c : ascii) : bool := is_digit_in 10 c.

Definition digits_or_zero (l : list ascii) : Z :=
  match digits_value 10 l 0 with Some v => v | None => 0 end.

(** [ExponentPart]: [e] or [E], an optional sign and at least one digit;
    nothing may follow it. *)
Definition exponent_part (l : list ascii) : option Z :=
  match l with
  | [] => Some 0
  | e :: r =>
      if chr e "e" || chr e "E" then
        match r with
        | s :: r' =>
            if chr s "+" then parse_digits 10 r'
            else if chr s "-" then option_map Z.opp (parse_digits 10 r')
            else parse_digits 10 r
        | [] => None
        end
      else None
  end.

(** [StrUnsignedDecimalLiteral] without [Infinity]. *)
Definition unsigned_decimal (neg : bool) (l : list ascii) : NumericLiteral :=
  let (int_part, rest) := span is_dec l in
  let (frac_part, rest') :=
    match rest with
    | d :: r => if chr d "." then span is_dec r else ([], rest)
    | [] => ([], [])
    end in
  match int_part ++ frac_part with
  | [] => LitNaN
  | ds =>
      match exponent_part rest' with
      | Some e =>
          LitValue neg (digits_or_zero ds) (e - Z.of_nat (List.length frac_part))
      | None => LitNaN
      end
  end.

Definition list_eqb (a b : list ascii) : bool :=
  String.eqb (string_of_list_ascii a) (string_of_list_ascii b).

Definition str_decimal (neg : bool) (l : list ascii) : NumericLiteral :=
  if list_eqb l (list_ascii_of_string "Infinity") then LitInfinity neg
  else unsigned_decimal neg l.

Definition StringToNumber (s : string) : NumericLiteral :=
  let l := trim (list_ascii_of_string s) in
  match l with
  | [] => LitValue false 0 0
  | c :: r =>
      match non_decimal_prefix l with
      | Some (radix, ds) =>
          match parse_digits radix ds with
          | Some v => LitValue false v 0
          | None => LitNaN
          end
      | None =>
          if chr c "+" then str_decimal false r
          else if chr c "-" then str_decimal true r
          else str_decimal false l
      end
  end.

(** A literal [m * 10^e] rounds to the binary64 zero exactly when it is at
    most half the least subnormal [2^-1074] (the tie goes to the even
    neighbour, which is zero). *)
Definition rounds_to_zero (m e : Z) : bool :=
  (m =? 0) || ((e <? 0) && (m * 2 ^ 1075 <=? 10 ^ (- e))).

(** [isNaN(Number(s))] *)
Definition Number_isNaN (s : string) : bool :=
  match StringToNumber s with LitNaN => true | _ => false end.

(** [Number(s) <= 0] *)
Definition Number_le_zero (s : string) : bool :=
  match StringToNumber s with
  | LitNaN => false
  | LitInfinity neg => neg
  | LitValue neg m e => neg || rounds_to_zero m e
  end.

(** ** Binary64 numbers *)

Definition prec : Z := 53.
Definition emax : Z := 1024.

Definition number : Type := spec_float.

(** The number whose value is the integer [z], rounded to nearest even. *)
Definition of_Z (z : Z) : number := binary_normalize prec emax z 0 false.

Definition add (x y : number) : number := SFadd prec emax x y.
Definition sub (x y : number) : number := SFsub prec emax x y.
Definition mul (x y : number) : number := SFmul prec emax x y.
Definition div (x y : number) : number := SFdiv prec emax x y.

(** The literal [0.7]: the binary64 number nearest to 7/10. *)
Definition lit_0_7 : number := div (of_Z 7) (of_Z 10).

(** [parseInt(s, 16)]: leading white space, a sign, an optional [0x], then
    the longest run of hexadecimal digits; [NaN] when there is none. *)
Definition parseInt16 (s : string) : number :=
  let l := drop_ws (list_ascii_of_string s) in
  let (neg, l1) :=
    match l with
    | c :: r =>
        if chr c "-" then (true, r)
        else if chr c "+" then (false, r) else (false, l)
    | [] => (false, l)
    end in
  let l2 :=
    match non_decimal_prefix l1 with
    | Some (16, r) => r
    | _ => l1
    end in
  match fst (span (is_digit_in 16) l2) with
  | [] => S754_nan
  | ds =>
      let v := match digits_value 16 ds 0 with Some v => v | None => 0 end in
      if v =? 0 then S754_zero neg
      else binary_normalize prec emax (if neg then - v else v) 0 false
  end.

(** [Math.floor] *)
Definition Math_floor (x : number) : number :=
  match x with
  | S754_finite s m e =>
      if 0 <=? e then x
      else
        let q := Z.pos m / 2 ^ (- e) in
        let exact := Z.pos m mod 2 ^ (- e) =? 0 in
        if s then of_Z (- (if exact then q else q + 1))
        else of_Z q
  | _ => x
  end.

(** Hexadecimal digits of the fraction [r / 2^k], most significant first,
    without trailing zeros. *)
Fixpoint frac_digits16 (fuel : nat) (r k : Z) : string :=
  match fuel with
  | O => ""
  | S fuel' =>
      if r =? 0 then ""
      else
        let r16 := r * 16 in
        (BigInt_toString16 (r16 / 2 ^ k)
         ++ frac_digits16 fuel' (r16 mod 2 ^ k) k)%string
  end.

(** [Number.prototype.toString(16)].  The digits are the exact ones; an
    engine may print fewer of them for a number that is not a safe integer
    (one with a fractional part, or of magnitude above 2^53). *)
Definition Number_toString16 (x : number) : string :=
  match x with
  | S754_nan => "NaN"
  | S754_infinity s => if s then "-Infinity" else "Infinity"
  | S754_zero _ => "0"
  | S754_finite s m e =>
      let sign := if s then "-" else "" in
      if 0 <=? e then (sign ++ BigInt_toString16 (Z.pos m * 2 ^ e))%string
      else
        let k := - e in
        let q := Z.pos m / 2 ^ k in
        let r := Z.pos m mod 2 ^ k in
        if r =? 0 then (sign ++ BigInt_toString16 q)%string
        else (sign ++ BigInt_toString16 q ++ "."
              ++ frac_digits16 (Z.to_nat k) r k)%string
  end.

(** ** [BigInt(number)] : NumberToBigInt.  [None] is the [RangeError]
    thrown for a number that is not an integer ([NaN] and the infinities
    included). *)
Definition NumberToBigInt (x : number) : option Z :=
  match x with
  | S754_zero _ => Some 0
  | S754_finite s m e =>
      if 0 <=? e
      then Some (if s then - (Z.pos m * 2 ^ e) else Z.pos m * 2 ^ e)
      else if Z.pos m mod 2 ^ (- e) =? 0
      then Some (if s then - (Z.pos m / 2 ^ (- e)) else Z.pos m / 2 ^ (- e))
      else None
  | _ => None
  end.

End Js.

(* ================================================================== *)
(** * The persistent store ([lib/database.ts]) *)
(* ================================================================== *)

Module Db.

(** The [status] column; the values are those of the TypeScript union. *)
Inductive Status : Type := pending | scheduled | executing | completed | failed.

Definition Status_eqb (a b : Status) : bool :=
  match a, b with
  | pending, pending | scheduled, scheduled | executing, executing
  | completed, completed | failed, failed => true
  | _, _ => false
  end.

(** A row of [batched_transactions].  Timestamps are instants of the
    clock. *)
Record TxRow : Type := mkTxRow {
  id : Z;
  batch_id : string;
  user_address : string;
  to_address : string;
  amount : string;
  token_address : option string;
  gas_estimate : option Z;
  status : Status;
  scheduled_for : option Z;
  created_at : Z;
  executed_at : option Z;
  tx_hash : option string;
  error_message : option string
}.

(** A row of [gas_analytics].  [average_batch_size] holds the number the
    statement sends; the column keeps two decimals of it. *)
Record AnalyticsRow : Type := mkAnalyticsRow {
  dapp_id : string;
  total_gas_saved : Z;
  total_batches : Z;
  total_transactions : Z;
  average_batch_size : Js.number;
  last_updated : Z
}.

(** The statements the sources send, with their parameters, and
    [pool.connect()]. *)
Inductive Query : Type :=
| Connect
| InsertTx (batchId userAddress toAddress amount : string)
           (tokenAddress : option string) (gasEstimate : Z)
           (scheduledFor : option Z)
| SelectPending (limit : Z)
| SelectTx (batchId : string)
| SetExecuting (batchId : string)
| SetExecutingAny (batchIds : list string)
| SetCompleted (txHash batchId : string)
| SetFailed (errorMessage batchId : string)
| SetFailedAny (errorMessage : string) (batchIds : list string)
| SelectAnalytics (dappId : string)
| InsertAnalytics (dappId : string) (gasSaved batches transactions : Z)
                  (average : Js.number)
| UpdateAnalytics (gasSaved batches transactions : Z) (average : Js.number)
                  (dappId : string).

(** ** Effect of the [UPDATE] statements on one row *)

Definition set_executing (r : TxRow) : TxRow :=
  mkTxRow (id r) (batch_id r) (user_address r) (to_address r) (amount r)
    (token_address r) (gas_estimate r) executing (scheduled_for r)
    (created_at r) (executed_at r) (tx_hash r) (error_message r).

Definition set_completed (now : Z) (txHash : string) (r : TxRow) : TxRow :=
  mkTxRow (id r) (batch_id r) (user_address r) (to_address r) (amount r)
    (token_address r) (gas_estimate r) completed (scheduled_for r)
    (created_at r) (Some now) (Some txHash) (error_message r).

Definition set_failed (errorMessage : string) (r : TxRow) : TxRow :=
  mkTxRow (id r) (batch_id r) (user_address r) (to_address r) (amount r)
    (token_address r) (gas_estimate r) failed (scheduled_for r)
    (created_at r) (executed_at r) (tx_hash r) (Some errorMessage).

(** [UPDATE ... WHERE batch_id = $n] and [WHERE batch_id = ANY($n)] *)
Definition update_where (batchId : string) (f : TxRow -> TxRow)
    (rows : list TxRow) : list TxRow :=
  map (fun r => if String.eqb (batch_id r) batchId then f r else r) rows.

Definition mem_string (x : string) (l : list string) : bool :=
  existsb (String.eqb x) l.

Definition update_where_any (batchIds : list string) (f : TxRow -> TxRow)
    (rows : list TxRow) : list TxRow :=
  map (fun r => if mem_string (batch_id r) batchIds then f r else r) rows.

(** [ORDER BY created_at ASC]: rows of equal [created_at] keep the order of
    the table (SQL leaves their order open). *)
Fixpoint insert_by_created_at (r : TxRow) (l : list TxRow) : list TxRow :=
  match l with
  | [] => [r]
  | x :: l' =>
      if created_at r <? created_at x then r :: l
      else x :: insert_by_created_at r l'
  end.

Definition order_by_created_at (l : list TxRow) : list TxRow :=
  fold_left (fun acc r => insert_by_created_at r acc) l [].

Definition set_analytics (now gasSaved batches transactions : Z)
    (average : Js.number) (r : AnalyticsRow) : AnalyticsRow :=
  mkAnalyticsRow (dapp_id r) gasSaved batches transactions average now.

(** [ORDER BY created_at DESC], with the same convention for rows of equal
    [created_at]. *)
Fixpoint insert_by_created_at_desc (r : TxRow) (l : list TxRow)
    : list TxRow :=
  match l with
  | [] => [r]
  | x :: l' =>
      if created_at x <? created_at r then r :: l
      else x :: insert_by_created_at_desc r l'
  end.

Definition order_by_created_at_desc (l : list TxRow) : list TxRow :=
  fold_left (fun acc r => insert_by_created_at_desc r acc) l [].

(** The statement of [getUserBatches], with its parameters. *)
Inductive ReportQuery : Type :=
| SelectByUser (userAddress : string) (limit : Z).

End Db.

(* ================================================================== *)
(** * The outside world and asynchronous computations *)
(* ================================================================== *)

(** The value of a settled promise: fulfilled with a value, or rejected
    with an error, kept as its message. *)
Inductive Outcome (A : Type) : Type :=
| Returned (a : A)
| Thrown (message : string).
Arguments Returned {A} a.
Arguments Thrown {A} message.

(** [TransactionObject] of [lib/shardeum.ts] *)
Record TransactionObject : Type := mkTransactionObject {
  from : string;
  to : option string;
  gas : option string;
  gasPrice : option string;
  value : option string;
  data : option string;
  nonce : option string
}.

(** What is outside the repository.  Every interaction with the outside
    advances a counter, and each answer may depend on it.
    - [db_fault n q]: the server rejects statement [q] (connection lost,
      constraint or type error, ...) with this message;
    - [now n]: the reading of the clock ([NOW()], [Date.now()]);
    - [random36 n], [random16 n]: [Math.random().toString(36).substr(2, 9)]
      and [Math.random().toString(16).substr(2, 64)];
    - [rpc_estimateGas n t]: answer of the node to [eth_estimateGas], a
      rejection standing for every way [makeRPCCall] throws;
    - [wallet_sendTransaction n to amount]: the wallet given to
      [executeImmediateTransaction]. *)
Record Env : Type := mkEnv {
  db_fault : nat -> Db.Query -> option string;
  now : nat -> Z;
  random36 : nat -> string;
  random16 : nat -> string;
  rpc_estimateGas : nat -> TransactionObject -> Outcome string;
  wallet_sendTransaction : nat -> string -> string -> Outcome string
}.

(** The state of the outside world: the two tables, the sequence behind
    the [SERIAL] column, the interaction counter, and the calls received
    by the wallet so far (recipient, amount), oldest first. *)
Record World : Type := mkWorld {
  batched_transactions : list Db.TxRow;
  gas_analytics : list Db.AnalyticsRow;
  next_id : Z;
  ticks : nat;
  signer_calls : list (string * string)
}.

Definition Async (A : Type) : Type := World -> Outcome A * World.

Definition ret {A} (a : A) : Async A := fun w => (Returned a, w).

Definition throw {A} (message : string) : Async A :=
  fun w => (Thrown message, w).

Definition bind {A B} (c : Async A) (k : A -> Async B) : Async B :=
  fun w =>
    match c w with
    | (Returned a, w') => k a w'
    | (Thrown e, w') => (Thrown e, w')
    end.

(** [try { c } catch (error) { handler(message of error) }] *)
Definition try_catch {A} (c : Async A) (handler : string -> Async A)
    : Async A :=
  fun w =>
    match c w with
    | (Returned a, w') => (Returned a, w')
    | (Thrown e, w') => handler e w'
    end.

(** A synchronous computation that may throw. *)
Definition lift {A} (o : Outcome A) : Async A := fun w => (o, w).

Declare Scope async_scope.
Delimit Scope async_scope with async.
Notation "x <- c ;; k" := (bind c (fun x => k))
  (at level 61, c at next level, right associativity) : async_scope.
Notation "c ;; k" := (bind c (fun _ => k))
  (at level 61, right associativity) : async_scope.
Local Open Scope async_scope.

Definition tick (w : World) : World :=
  mkWorld (batched_transactions w) (gas_analytics w) (next_id w)
    (S (ticks w)) (signer_calls w).

Definition set_transactions (rows : list Db.TxRow) (w : World) : World :=
  mkWorld rows (gas_analytics w) (next_id w) (ticks w) (signer_calls w).

Definition set_analytics_rows (rows : list Db.AnalyticsRow) (w : World)
    : World :=
  mkWorld (batched_transactions w) rows (next_id w) (ticks w)
    (signer_calls w).

Section Outside.

Variable E : Env.

(** A statement reaches the server: it is rejected, or [effect] gives its
    result and the new tables; [n] is the instant of the statement. *)
Definition statement {A} (q : Db.Query)
    (effect : nat -> World -> Outcome A * World) : Async A :=
  fun w =>
    let n := ticks w in
    match db_fault E n q with
    | Some message => (Thrown message, tick w)
    | None => effect n (tick w)
    end.

(** [pool.connect()]; [client.release()] has no effect on the tables. *)
Definition connect : Async unit :=
  statement Db.Connect (fun _ w => (Returned tt, w)).

(** [INSERT INTO batched_transactions ...]: [id], [status] and
    [created_at] take their defaults, [batch_id] is [UNIQUE] (the sequence
    behind [id] advances even when the row is refused).  The string
    columns have a width ([VARCHAR(42)] for the addresses and the token,
    [VARCHAR(255)] for the identifier and the amount): a value within the
    width is stored as it is, which is what this definition does for
    every value; a wider one is rejected by the server, which is one of
    the faults of [db_fault], or cut to the width when only spaces exceed
    it, which this definition does not follow.  A statement about the
    strings that are stored is therefore about values within the
    widths. *)
Definition insert_transaction (batchId userAddress toAddress amount : string)
    (tokenAddress : option string) (gasEstimate : Z)
    (scheduledFor : option Z) : Async unit :=
  statement
    (Db.InsertTx batchId userAddress toAddress amount tokenAddress
       gasEstimate scheduledFor)
    (fun n w =>
       if Db.mem_string batchId (map Db.batch_id (batched_transactions w))
       then
         (Thrown "duplicate key value violates unique constraint",
          mkWorld (batched_transactions w) (gas_analytics w) (next_id w + 1)
            (ticks w) (signer_calls w))
       else
         let row :=
           Db.mkTxRow (next_id w) batchId userAddress toAddress amount
             tokenAddress (Some gasEstimate) Db.pending scheduledFor
             (now E n) None None None in
         (Returned tt,
          mkWorld (batched_transactions w ++ [row]) (gas_analytics w)
            (next_id w + 1) (ticks w) (signer_calls w))).

(** [SELECT * ... WHERE status = 'pending' ORDER BY created_at ASC LIMIT $1] *)
Definition select_pending (limit : Z) : Async (list Db.TxRow) :=
  statement (Db.SelectPending limit)
    (fun _ w =>
       if limit <? 0 then (Thrown "LIMIT must not be negative", w)
       else
         (Returned
            (firstn (Z.to_nat limit)
               (Db.order_by_created_at
                  (filter (fun r => Db.Status_eqb (Db.status r) Db.pending)
                     (batched_transactions w)))), w)).

(** [SELECT * FROM batched_transactions WHERE batch_id = $1] *)
Definition select_transaction (batchId : string) : Async (list Db.TxRow) :=
  statement (Db.SelectTx batchId)
    (fun _ w =>
       (Returned
          (filter (fun r => String.eqb (Db.batch_id r) batchId)
             (batched_transactions w)), w)).

(** [UPDATE ... SET status = 'executing' WHERE batch_id = $1] *)
Definition update_executing (batchId : string) : Async unit :=
  statement (Db.SetExecuting batchId)
    (fun _ w =>
       (Returned tt,
        set_transactions
          (Db.update_where batchId Db.set_executing (batched_transactions w))
          w)).

(** [UPDATE ... SET status = 'executing' WHERE batch_id = ANY($1)] *)
Definition update_executing_any (batchIds : list string) : Async unit :=
  statement (Db.SetExecutingAny batchIds)
    (fun _ w =>
       (Returned tt,
        set_transactions
          (Db.update_where_any batchIds Db.set_executing
             (batched_transactions w)) w)).

(** [UPDATE ... SET status = 'completed', executed_at = NOW(), tx_hash = $1
    WHERE batch_id = $2] *)
Definition update_completed (txHash batchId : string) : Async unit :=
  statement (Db.SetCompleted txHash batchId)
    (fun n w =>
       (Returned tt,
        set_transactions
          (Db.update_where batchId (Db.set_completed (now E n) txHash)
             (batched_transactions w)) w)).

(** [UPDATE ... SET status = 'failed', error_message = $1
    WHERE batch_id = $2] *)
Definition update_failed (errorMessage batchId : string) : Async unit :=
  statement (Db.SetFailed errorMessage batchId)
    (fun _ w =>
       (Returned tt,
        set_transactions
          (Db.update_where batchId (Db.set_failed errorMessage)
             (batched_transactions w)) w)).

(** [UPDATE ... SET status = 'failed', error_message = $1
    WHERE batch_id = ANY($2)] *)
Definition update_failed_any (errorMessage : string)
    (batchIds : list string) : Async unit :=
  statement (Db.SetFailedAny errorMessage batchIds)
    (fun _ w =>
       (Returned tt,
        set_transactions
          (Db.update_where_any batchIds (Db.set_failed errorMessage)
             (batched_transactions w)) w)).

(** [SELECT * FROM gas_analytics WHERE dapp_id = $1] *)
Definition select_analytics (dappId : string)
    : Async (list Db.AnalyticsRow) :=
  statement (Db.SelectAnalytics dappId)
    (fun _ w =>
       (Returned
          (filter (fun r => String.eqb (Db.dapp_id r) dappId)
             (gas_analytics w)), w)).

(** [INSERT INTO gas_analytics ...] *)
Definition insert_analytics (dappId : string)
    (gasSaved batches transactions : Z) (average : Js.number)
    : Async unit :=
  statement (Db.InsertAnalytics dappId gasSaved batches transactions average)
    (fun n w =>
       (Returned tt,
        set_analytics_rows
          (gas_analytics w
           ++ [Db.mkAnalyticsRow dappId gasSaved batches transactions
                 average (now E n)]) w)).

(** [UPDATE gas_analytics SET ... last_updated = NOW() WHERE dapp_id = $5] *)
Definition update_analytics (gasSaved batches transactions : Z)
    (average : Js.number) (dappId : string) : Async unit :=
  statement (Db.UpdateAnalytics gasSaved batches transactions average dappId)
    (fun n w =>
       (Returned tt,
        set_analytics_rows
          (map (fun r =>
                  if String.eqb (Db.dapp_id r) dappId
                  then Db.set_analytics (now E n) gasSaved batches
                         transactions average r
                  else r) (gas_analytics w)) w)).

(** [Math.random().toString(36).substr(2, 9)] and the same in base 16 *)
Definition random_base36 : Async string :=
  fun w => (Returned (random36 E (ticks w)), tick w).

Definition random_base16 : Async string :=
  fun w => (Returned (random16 E (ticks w)), tick w).

(** [Date.now()] *)
Definition Date_now : Async Z :=
  fun w => (Returned (now E (ticks w)), tick w).

(** [this.shardeumAPI.estimateGas(t)], that is
    [makeRPCCall('eth_estimateGas', [t, 'latest'])] *)
Definition estimateGas (t : TransactionObject) : Async string :=
  fun w => (rpc_estimateGas E (ticks w) t, tick w).

(** [walletService.sendTransaction(to, amount)] *)
Definition sendTransaction (toAddress amount : string) : Async string :=
  fun w =>
    (wallet_sendTransaction E (ticks w) toAddress amount,
     mkWorld (batched_transactions w) (gas_analytics w) (next_id w)
       (S (ticks w)) (signer_calls w ++ [(toAddress, amount)])).

End Outside.

(* ================================================================== *)
(** * [lib/batching-service.ts] *)
(* ================================================================== *)

Module BatchingService.

(** [interface BatchTransaction]; an absent and a [null] field are both
    [None]. *)
Record BatchTransaction : Type := mkBatchTransaction {
  id : option Z;
  batchId : string;
  userAddress : string;
  toAddress : string;
  amount : string;
  tokenAddress : option string;
  gasEstimate : option Z;
  status : Db.Status;
  scheduledFor : option Z;
  createdAt : option Z;
  executedAt : option Z;
  txHash : option string;
  errorMessage : option string
}.

Inductive Frequency : Type := immediate | hourly | daily | weekly.

(** [interface BatchConfig] *)
Record BatchConfig : Type := mkBatchConfig {
  dappId : string;
  maxBatchSize : Z;
  executionFrequency : Frequency;
  minTransactionCount : Z;
  maxWaitTime : Z
}.

(** The result object of the two execute methods. *)
Record ExecResult : Type := mkExecResult {
  success : bool;
  res_txHash : option string;
  res_gasUsed : option Z;
  res_error : option string
}.

(** The [updates] argument of [updateAnalytics]. *)
Record AnalyticsUpdates : Type := mkAnalyticsUpdates {
  batchCount : option Z;
  transactionCount : option Z;
  gasSaved : option Z
}.

(** [x || 0] on an optional count *)
Definition or_zero (x : option Z) : Z :=
  match x with Some v => v | None => 0 end.

(** The row mapping of [getPendingTransactions] *)
Definition of_row (row : Db.TxRow) : BatchTransaction :=
  mkBatchTransaction (Some (Db.id row)) (Db.batch_id row)
    (Db.user_address row) (Db.to_address row) (Db.amount row)
    (Db.token_address row) (Db.gas_estimate row) (Db.status row)
    (Db.scheduled_for row) (Some (Db.created_at row)) (Db.executed_at row)
    (Db.tx_hash row) (Db.error_message row).

(** [BigInt(s)] as a computation: the [SyntaxError] is thrown. *)
Definition BigInt_or_throw (s : string) : Outcome Z :=
  match Js.BigInt s with
  | Some z => Returned z
  | None => Thrown ("Cannot convert " ++ s ++ " to a BigInt")%string
  end.

(** ** [optimizeBatch] *)

(** [`${tx.toAddress}_${tx.tokenAddress || 'native'}`] *)
Definition token_or_native (tx : BatchTransaction) : string :=
  match tokenAddress tx with
  | Some t => if String.eqb t "" then "native" else t
  | None => "native"
  end.

Definition group_key (tx : BatchTransaction) : string :=
  (toAddress tx ++ "_" ++ token_or_native tx)%string.

(** The [Map] from keys to arrays, in insertion order of the keys. *)
Definition Groups : Type := list (string * list BatchTransaction).

(** [if (!groups.has(key)) groups.set(key, []); groups.get(key)!.push(tx)] *)
Fixpoint push_to_group (key : string) (tx : BatchTransaction) (groups : Groups)
    : Groups :=
  match groups with
  | [] => [(key, [tx])]
  | (k, g) :: rest =>
      if String.eqb k key then (k, g ++ [tx]) :: rest
      else (k, g) :: push_to_group key tx rest
  end.

Definition group_by_key (transactions : list BatchTransaction) : Groups :=
  fold_left (fun groups tx => push_to_group (group_key tx) tx groups)
    transactions [].

(** [a.reduce((sum, tx) => sum + BigInt(tx.amount), BigInt(0))] *)
Fixpoint total_from (sum : Z) (a : list BatchTransaction) : Outcome Z :=
  match a with
  | [] => Returned sum
  | tx :: rest =>
      match BigInt_or_throw (amount tx) with
      | Returned v => total_from (sum + v) rest
      | Thrown e => Thrown e
      end
  end.

Definition group_total (a : list BatchTransaction) : Outcome Z :=
  total_from 0 a.

(** The comparator given to [sort]: [bTotal > aTotal ? 1 : -1] *)
Definition compare_groups (a b : list BatchTransaction) : Outcome Z :=
  match group_total a with
  | Returned aTotal =>
      match group_total b with
      | Returned bTotal => Returned (if bTotal >? aTotal then 1 else -1)
      | Thrown e => Thrown e
      end
  | Thrown e => Thrown e
  end.

(** [Array.prototype.sort(comparefn)] as insertion sort: each element is
    placed, in the part already sorted, before the first element it
    compares below.  The comparator never answers 0, so engines may differ
    in the order of groups of equal total, and in nothing else. *)
Fixpoint sort_insert {A} (comparefn : A -> A -> Outcome Z) (x : A)
    (sorted : list A) : Outcome (list A) :=
  match sorted with
  | [] => Returned [x]
  | y :: rest =>
      match comparefn x y with
      | Returned c =>
          if c <? 0 then Returned (x :: sorted)
          else
            match sort_insert comparefn x rest with
            | Returned l => Returned (y :: l)
            | Thrown e => Thrown e
            end
      | Thrown e => Thrown e
      end
  end.

Fixpoint sort_from {A} (comparefn : A -> A -> Outcome Z) (sorted : list A)
    (l : list A) : Outcome (list A) :=
  match l with
  | [] => Returned sorted
  | x :: rest =>
      match sort_insert comparefn x sorted with
      | Returned sorted' => sort_from comparefn sorted' rest
      | Thrown e => Thrown e
      end
  end.

Definition Array_sort {A} (comparefn : A -> A -> Outcome Z) (l : list A)
    : Outcome (list A) :=
  sort_from comparefn [] l.

Definition optimizeBatch (transactions : list BatchTransaction)
    : Outcome (list (list BatchTransaction)) :=
  Array_sort compare_groups (map snd (group_by_key transactions)).

Section Methods.

Variable E : Env.

(** ** [generateBatchId] *)
Definition generateBatchId : Async string :=
  t <- Date_now E ;;
  r <- random_base36 E ;;
  ret ("batch_" ++ Js.BigInt_toString t ++ "_" ++ r)%string.

(** ** [estimateTransactionGas] *)
Definition estimateTransactionGas (transaction : TransactionObject)
    : Async Z :=
  try_catch
    (formatted_value <-
       match value transaction with
       | Some v =>
           if String.eqb v "" then ret None
           else
             b <- lift (BigInt_or_throw v) ;;
             ret (Some ("0x" ++ Js.BigInt_toString16 b)%string)
       | None => ret None
       end ;;
     let formattedTransaction :=
       mkTransactionObject (from transaction) (to transaction)
         (gas transaction) (gasPrice transaction) formatted_value
         (data transaction) (nonce transaction) in
     gasHex <- estimateGas E formattedTransaction ;;
     lift (BigInt_or_throw gasHex))
    (fun _ => ret 21000).

(** ** [addToBatch] *)
Definition addToBatch (userAddress toAddress amount : string)
    (tokenAddress : option string) (scheduledFor : option Z)
    : Async string :=
  connect E ;;
  batchId <- generateBatchId ;;
  try_catch
    (gasEstimate <-
       estimateTransactionGas
         (mkTransactionObject userAddress (Some toAddress) None None
            (Some amount) None None) ;;
     insert_transaction E batchId userAddress toAddress amount tokenAddress
       gasEstimate scheduledFor ;;
     ret batchId)
    (fun message =>
       throw ("Failed to add transaction to batch: " ++ message)%string).

(** ** [getPendingTransactions] *)
Definition getPendingTransactions (limit : Z)
    : Async (list BatchTransaction) :=
  connect E ;;
  rows <- select_pending E limit ;;
  ret (map of_row rows).

(** ** [updateAnalytics] *)
Definition updateAnalytics (dappId : string) (updates : AnalyticsUpdates)
    : Async unit :=
  connect E ;;
  rows <- select_analytics E dappId ;;
  match rows with
  | [] =>
      insert_analytics E dappId
        (or_zero (gasSaved updates))
        (or_zero (batchCount updates))
        (or_zero (transactionCount updates))
        (if negb (or_zero (transactionCount updates) =? 0)
            && negb (or_zero (batchCount updates) =? 0)
         then Js.div (Js.of_Z (or_zero (transactionCount updates)))
                (Js.of_Z (or_zero (batchCount updates)))
         else Js.of_Z 0)
  | current :: _ =>
      let newTotalBatches :=
        Db.total_batches current + or_zero (batchCount updates) in
      let newTotalTransactions :=
        Db.total_transactions current + or_zero (transactionCount updates) in
      let newGasSaved :=
        Db.total_gas_saved current + or_zero (gasSaved updates) in
      update_analytics E newGasSaved newTotalBatches newTotalTransactions
        (if newTotalBatches >? 0
         then Js.div (Js.of_Z newTotalTransactions) (Js.of_Z newTotalBatches)
         else Js.of_Z 0)
        dappId
  end.

(** ** [executeImmediateTransaction] *)

(** [(BigInt(transaction.amount) / BigInt('1000000000000000000')).toString()];
    the division of [bigint]s truncates toward zero. *)
Definition amountInSHM (amount : string) : Outcome string :=
  match BigInt_or_throw amount with
  | Returned a =>
      Returned (Js.BigInt_toString (Z.quot a 1000000000000000000))
  | Thrown e => Thrown e
  end.

Definition executeImmediateTransaction (batchId : string)
    : Async ExecResult :=
  connect E ;;
  try_catch
    (rows <- select_transaction E batchId ;;
     match rows with
     | [] =>
         ret (mkExecResult false None None (Some "Transaction not found"))
     | transaction :: _ =>
         update_executing E batchId ;;
         amount <- lift (amountInSHM (Db.amount transaction)) ;;
         txHash <- sendTransaction E (Db.to_address transaction) amount ;;
         let gasUsed := 21000 in
         update_completed E txHash batchId ;;
         updateAnalytics "default"
           (mkAnalyticsUpdates (Some 1) (Some 1)
              (Some (Z.quot (gasUsed * 30) 100))) ;;
         ret (mkExecResult true (Some txHash) (Some gasUsed) None)
     end)
    (fun errorMessage =>
       update_failed E errorMessage batchId ;;
       ret (mkExecResult false None None (Some errorMessage))).

(** ** [executeBatch] *)

(** One turn of the loop.  [totalGasUsed] and [txHashes] are updated
    before the [UPDATE] is awaited, so they keep the transaction's share
    when the [UPDATE] throws and the inner [catch] runs. *)
Definition executeBatch_step (acc : Z * list string) (tx : BatchTransaction)
    : Async (Z * list string) :=
  r <- random_base16 E ;;
  let mockTxHash := ("0x" ++ r)%string in
  let gasUsed := 21000 in
  let acc' := (fst acc + gasUsed, snd acc ++ [mockTxHash]) in
  try_catch
    (update_completed E mockTxHash (batchId tx))
    (fun txError => update_failed E txError (batchId tx)) ;;
  ret acc'.

Fixpoint executeBatch_loop (acc : Z * list string)
    (transactions : list BatchTransaction) : Async (Z * list string) :=
  match transactions with
  | [] => ret acc
  | tx :: rest =>
      acc' <- executeBatch_step acc tx ;;
      executeBatch_loop acc' rest
  end.

Definition executeBatch (transactions : list BatchTransaction)
    : Async ExecResult :=
  match transactions with
  | [] =>
      ret (mkExecResult false None None (Some "No transactions to execute"))
  | _ =>
      connect E ;;
      try_catch
        (let batchIds := map batchId transactions in
         update_executing_any E batchIds ;;
         acc <- executeBatch_loop (0, []) transactions ;;
         let totalGasUsed := fst acc in
         let txHashes := snd acc in
         updateAnalytics "default"
           (mkAnalyticsUpdates (Some 1)
              (Some (Z.of_nat (List.length transactions)))
              (Some (Z.quot (totalGasUsed * 30) 100))) ;;
         ret (mkExecResult true (nth_error txHashes 0) (Some totalGasUsed)
                None))
        (fun errorMessage =>
           update_failed_any E errorMessage (map batchId transactions) ;;
           ret (mkExecResult false None None (Some errorMessage)))
  end.

(** ** [processAutoBatching] *)

Fixpoint execute_groups (minTransactionCount : Z)
    (optimizedBatches : list (list BatchTransaction)) : Async unit :=
  match optimizedBatches with
  | [] => ret tt
  | batch :: rest =>
      (if Z.of_nat (List.length batch) >=? minTransactionCount
       then (executeBatch batch ;; ret tt)
       else ret tt) ;;
      execute_groups minTransactionCount rest
  end.

Definition processAutoBatching (config : BatchConfig) : Async unit :=
  pendingTransactions <- getPendingTransactions (maxBatchSize config) ;;
  if Z.of_nat (List.length pendingTransactions) <? minTransactionCount config
  then ret tt
  else
    optimizedBatches <- lift (optimizeBatch pendingTransactions) ;;
    execute_groups (minTransactionCount config) optimizedBatches.

(** ** [getTransactionStatus]; [null] is [None] *)
Definition getTransactionStatus (batchId : string)
    : Async (option BatchTransaction) :=
  connect E ;;
  rows <- select_transaction E batchId ;;
  match rows with
  | [] => ret None
  | row :: _ => ret (Some (of_row row))
  end.

End Methods.

Section Reports.

Variable E : Env.

(** [report_fault n q]: the server rejects the statement [q] of
    [getUserBatches] with this message. *)
Variable report_fault : nat -> Db.ReportQuery -> option string.

(** [SELECT * FROM batched_transactions WHERE user_address = $1
    ORDER BY created_at DESC LIMIT $2] *)
Definition select_by_user (userAddress : string) (limit : Z)
    : Async (list Db.TxRow) :=
  fun w =>
    match report_fault (ticks w) (Db.SelectByUser userAddress limit) with
    | Some message => (Thrown message, tick w)
    | None =>
        if limit <? 0 then (Thrown "LIMIT must not be negative", tick w)
        else
          (Returned
             (firstn (Z.to_nat limit)
                (Db.order_by_created_at_desc
                   (filter
                      (fun r => String.eqb (Db.user_address r) userAddress)
                      (batched_transactions w)))), tick w)
    end.

(** ** [getUserBatches] *)
Definition getUserBatches (userAddress : string) (limit : Z)
    : Async (list BatchTransaction) :=
  connect E ;;
  rows <- select_by_user userAddress limit ;;
  ret (map of_row rows).

End Reports.

End BatchingService.

(* ================================================================== *)
(** * [lib/shardeum.ts] *)
(* ================================================================== *)

Module ShardeumAPI.

(** The result object of [estimateBatchGasSavings]. *)
Record BatchGasSavings : Type := mkBatchGasSavings {
  individualGas : list string;
  batchGas : string;
  totalSavings : string;
  savingsPercentage : Js.number
}.

(** [individualEstimates.reduce((sum, gas) => sum + parseInt(gas, 16), 0)] *)
Definition totalIndividualGas (individualEstimates : list string)
    : Js.number :=
  fold_left (fun sum gas => Js.add sum (Js.parseInt16 gas))
    individualEstimates (Js.of_Z 0).

Definition batchOverhead : Js.number := Js.of_Z 21000.

(** [Math.floor(totalIndividualGas * 0.7) + batchOverhead] *)
Definition estimatedBatchGas (total : Js.number) : Js.number :=
  Js.add (Js.Math_floor (Js.mul total Js.lit_0_7)) batchOverhead.

Section Methods.

Variable E : Env.

(** [Promise.all(transactions.map(tx => this.estimateGas(tx)))]: every
    call is made; the result is the list of answers, or a rejection when
    one of the calls is rejected (the first of them in the list; the
    message plays no role in the sources). *)
Fixpoint estimate_all (transactions : list TransactionObject)
    : Async (list string) :=
  fun w =>
    match transactions with
    | [] => (Returned [], w)
    | tx :: rest =>
        let (o, w1) := estimateGas E tx w in
        let (os, w2) := estimate_all rest w1 in
        (match o, os with
         | Returned g, Returned gs => Returned (g :: gs)
         | Thrown e, _ => Thrown e
         | Returned _, Thrown e => Thrown e
         end, w2)
    end.

Definition estimateBatchGasSavings (transactions : list TransactionObject)
    : Async BatchGasSavings :=
  individualEstimates <- estimate_all transactions ;;
  let total := totalIndividualGas individualEstimates in
  let batch := estimatedBatchGas total in
  let savings := Js.sub total batch in
  let percentage := Js.mul (Js.div savings total) (Js.of_Z 100) in
  ret (mkBatchGasSavings individualEstimates
         ("0x" ++ Js.Number_toString16 batch)%string
         ("0x" ++ Js.Number_toString16 savings)%string
         percentage).

End Methods.

End ShardeumAPI.

(* ================================================================== *)
(** * [calculateBatchSavings] of [lib/batching-service.ts] *)
(* ================================================================== *)

Module Savings.

(** The result object of [calculateBatchSavings]. *)
Record BatchSavings : Type := mkBatchSavings {
  individualGasCost : Z;
  batchGasCost : Z;
  savings : Z;
  savingsPercentage : Js.number
}.

(** [BigInt(x)] on a number, as a computation: the [RangeError] is
    thrown. *)
Definition NumberToBigInt_or_throw (x : Js.number) : Outcome Z :=
  match Js.NumberToBigInt x with
  | Some z => Returned z
  | None => Thrown "The number cannot be converted to a BigInt"
  end.

Section Methods.

Variable E : Env.

(** The [reduce] over [savings.individualGas] is the one of the estimator,
    [totalIndividualGas]. *)
Definition calculateBatchSavings
    (transactions : list BatchingService.BatchTransaction)
    : Async BatchSavings :=
  let transactionObjects :=
    map (fun tx =>
           mkTransactionObject (BatchingService.userAddress tx)
             (Some (BatchingService.toAddress tx)) None None
             (Some (BatchingService.amount tx)) None None)
      transactions in
  savings <- ShardeumAPI.estimateBatchGasSavings E transactionObjects ;;
  individualGasCost <-
    lift (NumberToBigInt_or_throw
            (ShardeumAPI.totalIndividualGas
               (ShardeumAPI.individualGas savings))) ;;
  batchGasCost <-
    lift (BatchingService.BigInt_or_throw (ShardeumAPI.batchGas savings)) ;;
  totalSavings <-
    lift (BatchingService.BigInt_or_throw
            (ShardeumAPI.totalSavings savings)) ;;
  ret (mkBatchSavings individualGasCost batchGasCost totalSavings
         (ShardeumAPI.savingsPercentage savings)).

End Methods.

End Savings.

(* ================================================================== *)
(** * The routes [POST /api/batch] and [POST /api/shardeum] *)
(* ================================================================== *)

Module Routes.

(** What [NextResponse.json] is given: an error with its status, or one of
    the two success bodies (status 200). *)
Inductive Response : Type :=
| ErrorResponse (status : Z) (error : string)
| BatchAdded (batchId : string) (message : string)
| SavingsEstimated (data : ShardeumAPI.BatchGasSavings).

Definition http_status (r : Response) : Z :=
  match r with
  | ErrorResponse status _ => status
  | BatchAdded _ _ => 200
  | SavingsEstimated _ => 200
  end.

(** The fields read from the body of [POST /api/batch]: JSON strings, or
    absent; [scheduledFor] is an instant. *)
Record BatchBody : Type := mkBatchBody {
  userAddress : option string;
  toAddress : option string;
  amount : option string;
  tokenAddress : option string;
  scheduledFor : option Z
}.

(** [!x] on an optional string: absent or empty. *)
Definition falsy (x : option string) : bool :=
  match x with
  | Some s => String.eqb s ""
  | None => true
  end.

Definition text (x : option string) : string :=
  match x with Some s => s | None => "" end.

(** The field [transactions] of the body of [POST /api/shardeum]. *)
Inductive TransactionsField : Type :=
| Missing
| NotAnArray
| ArrayOf (transactions : list TransactionObject).

Section Handlers.

Variable E : Env.

(** [POST] of [app/api/batch/route.ts].  [body] is [None] when
    [request.json()] or the destructuring of its result throws (a body
    that is not JSON, or is [null]).  [initDB] creates the tables when
    they are missing and adds no row. *)
Definition POST_batch (body : option BatchBody) : Async Response :=
  try_catch
    (match body with
     | None => throw "Unexpected end of JSON input"
     | Some b =>
         if falsy (userAddress b) || falsy (toAddress b) || falsy (amount b)
         then
           ret (ErrorResponse 400
                  "Missing required fields: userAddress, toAddress, amount")
         else if negb (Js.addressRegex_test (text (userAddress b)))
                 || negb (Js.addressRegex_test (text (toAddress b)))
         then ret (ErrorResponse 400 "Invalid Ethereum address format")
         else if Js.Number_isNaN (text (amount b))
                 || Js.Number_le_zero (text (amount b))
         then ret (ErrorResponse 400 "Invalid amount value")
         else
           let scheduledDate :=
             match scheduledFor b with
             | Some t => if t =? 0 then None else Some t
             | None => None
             end in
           batchId <-
             BatchingService.addToBatch E (text (userAddress b))
               (text (toAddress b)) (text (amount b)) (tokenAddress b)
               scheduledDate ;;
           ret (BatchAdded batchId "Transaction added to batch successfully")
     end)
    (fun _ => ret (ErrorResponse 500 "Failed to add transaction to batch")).

(** [POST] of [app/api/shardeum/route.ts] *)
Definition POST_shardeum (body : option TransactionsField)
    : Async Response :=
  try_catch
    (match body with
     | None => throw "Unexpected end of JSON input"
     | Some (ArrayOf transactions) =>
         batchSavings <-
           ShardeumAPI.estimateBatchGasSavings E transactions ;;
         ret (SavingsEstimated batchSavings)
     | Some _ => ret (ErrorResponse 400 "Invalid transactions array")
     end)
    (fun _ => ret (ErrorResponse 500 "Failed to estimate gas savings")).

End Handlers.

End Routes.

(* ================================================================== *)
(** * [lib/wallet-service.ts]: the state [isConnected] reads *)
(* ================================================================== *)

Module WalletService.

Inductive WalletType : Type := metamask | walletconnect.

(** The fields of the service that [isConnected] reads, and what is
    behind them:
    - [currentWalletType]: [null] until one of the two connect methods has
      succeeded, and again after [disconnect];
    - [ethereum]: [window.ethereum], with its answer to [eth_accounts]
      (a rejection when the request throws);
    - [walletConnectProvider]: the provider, with its flag [connected]. *)
Record State : Type := mkState {
  currentWalletType : option WalletType;
  ethereum : option (Outcome (list string));
  walletConnectProvider : option bool
}.

(** [isConnected] *)
Definition isConnected (ws : State) : bool :=
  match currentWalletType ws, ethereum ws with
  | Some metamask, Some accounts =>
      match accounts with
      | Returned l => (0 <? List.length l)%nat
      | Thrown _ => false
      end
  | _, _ =>
      match currentWalletType ws, walletConnectProvider ws with
      | Some walletconnect, Some connected => connected
      | _, _ => false
      end
  end.

End WalletService.

(* ================================================================== *)
(** * The routes [GET /api/batch] and [POST /api/batch/execute] *)
(* ================================================================== *)

Module BatchRoutes.

(** [{...transaction, gasEstimate: transaction.gasEstimate?.toString()}]:
    the transaction, and the field that replaces its [gasEstimate]. *)
Record ResponseTransaction : Type := mkResponseTransaction {
  transaction : BatchingService.BatchTransaction;
  gasEstimate : option string
}.

Definition responseTransaction (tx : BatchingService.BatchTransaction)
    : ResponseTransaction :=
  mkResponseTransaction tx
    (option_map Js.BigInt_toString (BatchingService.gasEstimate tx)).

(** What [NextResponse.json] is given by the two routes: an error with its
    status, or one of the three success bodies (status 200). *)
Inductive Response : Type :=
| ErrorResponse (status : Z) (error : string)
| TransactionFound (transaction : ResponseTransaction)
| UserBatches (batches : list ResponseTransaction)
| Executed (txHash : option string) (gasUsed : option string)
           (message : string).

Definition http_status (r : Response) : Z :=
  match r with
  | ErrorResponse status _ => status
  | _ => 200
  end.

Section Handlers.

Variable E : Env.
Variable report_fault : nat -> Db.ReportQuery -> option string.

(** [GET] of [app/api/batch/route.ts]; the two arguments are
    [searchParams.get('batchId')] and [searchParams.get('userAddress')],
    [null] being [None].  As for [POST], the statements of [initDB], which
    create the tables when they are missing and add no row, are left
    out. *)
Definition GET_batch (batchId userAddress : option string)
    : Async Response :=
  try_catch
    (if negb (Routes.falsy batchId) then
       transaction <-
         BatchingService.getTransactionStatus E (Routes.text batchId) ;;
       match transaction with
       | None => ret (ErrorResponse 404 "Transaction not found")
       | Some tx => ret (TransactionFound (responseTransaction tx))
       end
     else if negb (Routes.falsy userAddress) then
       if negb (Js.addressRegex_test (Routes.text userAddress))
       then ret (ErrorResponse 400 "Invalid user address format")
       else
         batches <-
           BatchingService.getUserBatches E report_fault
             (Routes.text userAddress) 50 ;;
         ret (UserBatches (map responseTransaction batches))
     else ret (ErrorResponse 400 "Missing batchId or userAddress parameter"))
    (fun _ => ret (ErrorResponse 500 "Failed to fetch batch data")).

(** [result.error || 'Transaction execution failed'] *)
Definition error_or_default (error : option string) : string :=
  if Routes.falsy error then "Transaction execution failed"
  else Routes.text error.

(** [POST] of [app/api/batch/execute/route.ts].  [body] is [None] when
    [request.json()] or the destructuring throws, and else the field
    [batchId] of the body, a JSON string or absent.  [walletService] is
    the instance the module [lib/wallet-service.ts] exports, in the state
    [ws]. *)
Definition POST_batch_execute (ws : WalletService.State)
    (body : option (option string)) : Async Response :=
  try_catch
    (match body with
     | None => throw "Unexpected end of JSON input"
     | Some batchId =>
         if Routes.falsy batchId
         then ret (ErrorResponse 400 "Missing batchId parameter")
         else if negb (WalletService.isConnected ws)
         then
           ret (ErrorResponse 400
                  "Wallet not connected. Please connect your wallet first.")
         else
           result <-
             BatchingService.executeImmediateTransaction E
               (Routes.text batchId) ;;
           if BatchingService.success result
           then
             ret (Executed (BatchingService.res_txHash result)
                    (option_map Js.BigInt_toString
                       (BatchingService.res_gasUsed result))
                    "Transaction executed successfully")
           else
             ret (ErrorResponse 500
                    (error_or_default (BatchingService.res_error result)))
     end)
    (fun _ => ret (ErrorResponse 500 "Failed to execute transaction")).

End Handlers.

End BatchRoutes.

(* ================================================================== *)
(** * Safe integers among the binary64 numbers *)
(* ================================================================== *)

Module Binary64.

(** The number of bits of a positive integer. *)
Definition bits (z : Z) : Z := Z.log2 z + 1.

(** The number whose value is the positive integer [w] below 2^53, with
    sign [s]: the mantissa is [w] scaled to 53 bits. *)
Definition normal (s : bool) (w : Z) : spec_float :=
  S754_finite s (Z.to_pos (w * 2 ^ (53 - bits w))) (bits w - 53).

(** An integer given as sign and magnitude. *)
Definition signed (s : bool) (w : Z) : Z := if s then - w else w.

(** The rounding record after [k] one-bit shifts of the mantissa [M]:
    the quotient, the last bit shifted out and whether a lower bit was
    set. *)
Definition shifted (M : Z) (k : nat) : shr_record :=
  Build_shr_record (M / 2 ^ Z.of_nat k)
    (Z.odd (M / 2 ^ (Z.of_nat k - 1)))
    (negb (M mod 2 ^ (Z.of_nat k - 1) =? 0)).

End Binary64.

(* ================================================================== *)
(** * Notions of the specification *)
(* ================================================================== *)

Module Spec.

(** The batch gas as the specification words it, on an exact sum [S]:
    [floor(0.7 * S) + 21000]. *)
Definition batch_gas_in_exact_arithmetic (S : Z) : Z := 7 * S / 10 + 21000.

(** A field of the body of [POST /batch] matches [^0x[0-9a-fA-F]{40}$]. *)
Definition is_address (x : option string) : bool :=
  match x with
  | Some s => Js.addressRegex_test s
  | None => false
  end.

(** A field of the body parses as a positive number: [Number] of it is
    neither [NaN] nor at most zero ([Number(undefined)] is [NaN]). *)
Definition is_positive_number (x : option string) : bool :=
  match x with
  | Some s => negb (Js.Number_isNaN s) && negb (Js.Number_le_zero s)
  | None => false
  end.

(** The server accepts every statement at every instant. *)
Definition store_healthy (E : Env) : Prop :=
  forall n q, db_fault E n q = None.


(** The two tables of the store. *)
Definition tables (w : World) : list Db.TxRow * list Db.AnalyticsRow :=
  (batched_transactions w, gas_analytics w).

(** [completed] and [failed], the terminal states. *)
Definition terminal (r : Db.TxRow) : Prop :=
  Db.status r = Db.completed \/ Db.status r = Db.failed.

(** Every record of [t] whose identifier is not in [ids] is in [t'] with
    every column as it was. *)
Definition untouched (ids : list string) (t t' : list Db.TxRow) : Prop :=
  forall r,
    In r t -> Db.mem_string (Db.batch_id r) ids = false -> In r t'.

(** A computation relates the world it starts in to the world it ends
    in, whatever its outcome. *)
Definition keeps {A} (P : World -> World -> Prop) (c : Async A) : Prop :=
  forall w, P w (snd (c w)).

Definition same_tables (w w' : World) : Prop := tables w' = tables w.

Definition same_calls (w w' : World) : Prop :=
  signer_calls w' = signer_calls w.

Definition untouched_outside (ids : list string) (w w' : World) : Prop :=
  untouched ids (batched_transactions w) (batched_transactions w').

(** Two transactions go to the same recipient in the same token, an
    absent or empty token standing for the native one. *)
Definition same_destination (tx tx' : BatchingService.BatchTransaction)
    : bool :=
  String.eqb (BatchingService.toAddress tx') (BatchingService.toAddress tx)
  && String.eqb (BatchingService.token_or_native tx')
       (BatchingService.token_or_native tx).

(** The amount of a transaction as an integer (0 when it is not one). *)
Definition amount_of (tx : BatchingService.BatchTransaction) : Z :=
  match Js.BigInt (BatchingService.amount tx) with
  | Some v => v
  | None => 0
  end.

Definition integer_amount (tx : BatchingService.BatchTransaction) : Prop :=
  Js.BigInt (BatchingService.amount tx) <> None.

(** The summed amount of a group. *)
Definition summed_amount (g : list BatchingService.BatchTransaction) : Z :=
  fold_right (fun tx s => amount_of tx + s) 0 g.

(** Groups in descending order of summed amount. *)
Definition descending (groups : list (list BatchingService.BatchTransaction))
    : Prop :=
  StronglySorted (fun a b => summed_amount a >= summed_amount b) groups.

(** A string without the separator [_] of the grouping key; every string
    that matches the address pattern is one. *)
Definition no_underscore (s : string) : bool :=
  forallb (fun c => negb (Ascii.eqb c "_")) (list_ascii_of_string s).

(** The keys of a list of transactions, each once, in order of first
    appearance. *)
Definition distinct_keys (txs : list BatchingService.BatchTransaction)
    : list string :=
  fold_left
    (fun ks tx =>
       if Db.mem_string (BatchingService.group_key tx) ks then ks
       else ks ++ [BatchingService.group_key tx])
    txs [].

(** The transactions of a list that have a given key, in order. *)
Definition with_key (k : string)
    (txs : list BatchingService.BatchTransaction)
    : list BatchingService.BatchTransaction :=
  filter (fun tx => String.eqb (BatchingService.group_key tx) k) txs.

(** The operations of the lifecycle manager that act on the store. *)
Inductive Operation : Type :=
| Enqueue (userAddress toAddress amount : string)
          (tokenAddress : option string) (scheduledFor : option Z)
| ExecuteOne (batchId : string)
| ExecuteBatch (transactions : list BatchingService.BatchTransaction)
| AutoProcess (config : BatchingService.BatchConfig).

(** The world after an operation, whatever its outcome. *)
Definition perform (E : Env) (op : Operation) (w : World) : World :=
  match op with
  | Enqueue u t a tok s => snd (BatchingService.addToBatch E u t a tok s w)
  | ExecuteOne b => snd (BatchingService.executeImmediateTransaction E b w)
  | ExecuteBatch txs => snd (BatchingService.executeBatch E txs w)
  | AutoProcess config => snd (BatchingService.processAutoBatching E config w)
  end.

Definition perform_all (E : Env) (ops : list Operation) (w : World) : World :=
  fold_left (fun w op => perform E op w) ops w.

(** The operation is an execution requested for the record [b]. *)
Definition names (op : Operation) (b : string) : bool :=
  match op with
  | ExecuteOne b' => String.eqb b' b
  | ExecuteBatch txs => Db.mem_string b (map BatchingService.batchId txs)
  | _ => false
  end.

(** The identifiers of the queued records are pairwise distinct
    ([batch_id] is [UNIQUE]). *)
Definition unique_ids (w : World) : Prop :=
  NoDup (map Db.batch_id (batched_transactions w)).

Definition keeps_unique_ids (w w' : World) : Prop :=
  unique_ids w -> unique_ids w'.

(** The server accepts every statement that is not the completion of a
    record. *)
Definition accepts_all_but_completions (E : Env) : Prop :=
  forall n q,
    (forall h b, q <> Db.SetCompleted h b) -> db_fault E n q = None.

(** The completion of record [b] is rejected with message [failing b], or
    accepted when there is none: this is the per-transaction step of
    [executeBatch] failing or succeeding. *)
Definition completions_fail_as (E : Env) (failing : string -> option string)
    : Prop :=
  forall n h b, db_fault E n (Db.SetCompleted h b) = failing b.

(** What the loop of [executeBatch] makes of a record [r] of transaction
    [tx], whose generated hash is [h]. *)
Definition step_result (failing : string -> option string)
    (tx : BatchingService.BatchTransaction) (h : string)
    (r r' : Db.TxRow) : Prop :=
  match failing (BatchingService.batchId tx) with
  | Some message => r' = Db.set_failed message r
  | None => exists t, r' = Db.set_completed t h r
  end.

End Spec.

(* ================================================================== *)
(** * Sample environments and records *)
(* ================================================================== *)

Module Samples.

(** No statement is rejected, the node answers [0x5208] (21000) to every
    estimate and the wallet answers a fixed hash. *)
Definition env_ok : Env :=
  mkEnv (fun _ _ => None) (fun n => 1700000000000 + Z.of_nat n)
    (fun _ => "k3j9x0q1z") (fun n => Js.BigInt_toString16 (982451653 + Z.of_nat n))
    (fun _ _ => Returned "0x5208")
    (fun _ _ _ => Returned "0xfeed").


Definition world0 : World := mkWorld [] [] 1 0 [].

Definition addrA : string := "0xAAAAAAAAAAAAAAAAAAAAAAAAAAAAAAAAAAAAAAAA".
Definition addrB : string := "0xBBBBBBBBBBBBBBBBBBBBBBBBBBBBBBBBBBBBBBBB".
Definition addrC : string := "0xCCCCCCCCCCCCCCCCCCCCCCCCCCCCCCCCCCCCCCCC".

Definition transfer (toAddress amount : string) : TransactionObject :=
  mkTransactionObject addrA (Some toAddress) None None (Some amount) None
    None.

(** A queued transfer as [getPendingTransactions] returns it. *)
Definition queued (batchId toAddress amount : string)
    (tokenAddress : option string) : BatchingService.BatchTransaction :=
  BatchingService.mkBatchTransaction None batchId addrA toAddress amount
    tokenAddress (Some 21000) Db.pending None None None None None.

Definition three_transfers : list BatchingService.BatchTransaction :=
  [queued "b1" addrB "5" None; queued "b2" addrC "7" None;
   queued "b3" addrB "1" None].

(** The wallet refuses to send. *)
Definition env_wallet_down : Env :=
  mkEnv (db_fault env_ok) (now env_ok) (random36 env_ok) (random16 env_ok)
    (rpc_estimateGas env_ok)
    (fun _ _ _ => Thrown "Transaction failed: insufficient funds").

Definition row (id : Z) (batchId toAddress amount : string)
    (status : Db.Status) (txHash errorMessage : option string) : Db.TxRow :=
  Db.mkTxRow id batchId addrA toAddress amount None (Some 21000) status None
    (1690000000000 + id)
    (match txHash with Some _ => Some 1695000000000 | None => None end)
    txHash errorMessage.

(** A store with one completed and one failed record. *)
Definition world_done : World :=
  mkWorld
    [row 1 "b1" addrB "2000000000000000000" Db.completed (Some "0xold") None;
     row 2 "b9" addrC "5" Db.failed None (Some "boom")]
    [] 3 0 [].

(** A store with three pending records, and a configuration asking for
    five. *)
Definition world_three_pending : World :=
  mkWorld
    [row 1 "p1" addrB "5" Db.pending None None;
     row 2 "p2" addrB "6" Db.pending None None;
     row 3 "p3" addrC "7" Db.pending None None]
    [] 4 0 [].

Definition config_five : BatchingService.BatchConfig :=
  BatchingService.mkBatchConfig "default" 50 BatchingService.hourly 5 60.

(** The completion of record [p1] is rejected. *)
Definition env_reject_p1 : Env :=
  mkEnv
    (fun _ q =>
       match q with
       | Db.SetCompleted _ b =>
           if String.eqb b "p1" then Some "deadlock detected" else None
       | _ => None
       end)
    (now env_ok) (random36 env_ok) (random16 env_ok) (rpc_estimateGas env_ok)
    (wallet_sendTransaction env_ok).

(** The server rejects the first [UPDATE] of a batch. *)
Definition env_reject_executing : Env :=
  mkEnv
    (fun _ q =>
       match q with
       | Db.SetExecutingAny _ => Some "Connection terminated unexpectedly"
       | _ => None
       end)
    (now env_ok) (random36 env_ok) (random16 env_ok) (rpc_estimateGas env_ok)
    (wallet_sendTransaction env_ok).

End Samples.

(* ================================================================== *)
(** * Notions for the invariants of the store *)
(* ================================================================== *)

Module Lifecycle.

(** The columns of a record that describe the request: all but [status],
    [executed_at], [tx_hash] and [error_message]. *)
Definition request (r : Db.TxRow)
    : Z * string * string * string * string * option string * option Z
      * option Z * Z :=
  (Db.id r, Db.batch_id r, Db.user_address r, Db.to_address r, Db.amount r,
   Db.token_address r, Db.gas_estimate r, Db.scheduled_for r,
   Db.created_at r).

(** A record, and what the operations may have made of it: the request is
    the same, and the status is the same or one of [executing],
    [completed], [failed]. *)
Definition evolves (r r' : Db.TxRow) : Prop :=
  request r' = request r /\
  (Db.status r' = Db.status r \/ Db.status r' = Db.executing \/
   Db.status r' = Db.completed \/ Db.status r' = Db.failed).

(** The table of records after some operations: the records it had, in
    place and evolved, followed by new ones. *)
Definition history (w w' : World) : Prop :=
  exists kept added,
    batched_transactions w' = kept ++ added /\
    Forall2 evolves (batched_transactions w) kept.

(** The analytics rows of the other dApps than ['default']. *)
Definition other_dapps (rows : list Db.AnalyticsRow) : list Db.AnalyticsRow :=
  filter (fun r => negb (String.eqb (Db.dapp_id r) "default")) rows.

Definition same_other_dapps (w w' : World) : Prop :=
  other_dapps (gas_analytics w') = other_dapps (gas_analytics w).

(** An analytics row, and a later state of it: no counter is lower. *)
Definition grows (r r' : Db.AnalyticsRow) : Prop :=
  Db.dapp_id r' = Db.dapp_id r /\
  Db.total_gas_saved r <= Db.total_gas_saved r' /\
  Db.total_batches r <= Db.total_batches r' /\
  Db.total_transactions r <= Db.total_transactions r'.

(** No two analytics rows are of the same dApp (the table declares no
    such constraint). *)
Definition one_row_per_dapp (w : World) : Prop :=
  NoDup (map Db.dapp_id (gas_analytics w)).

Definition analytics_grow (w w' : World) : Prop :=
  one_row_per_dapp w ->
  one_row_per_dapp w' /\
  exists kept added,
    gas_analytics w' = kept ++ added /\
    Forall2 grows (gas_analytics w) kept.

(** The wallet has received at most one more call than before. *)
Definition one_more_call (w w' : World) : Prop :=
  exists more,
    signer_calls w' = signer_calls w ++ more /\ (List.length more <= 1)%nat.

(** A store with a record in each of three states and the analytics of
    two dApps. *)
Definition world_mixed : World :=
  mkWorld
    [Samples.row 1 "m1" Samples.addrB "5" Db.pending None None;
     Samples.row 2 "m2" Samples.addrB "6" Db.completed (Some "0xold") None;
     Samples.row 3 "m3" Samples.addrC "7" Db.pending None None]
    [Db.mkAnalyticsRow "shop" 12600 2 4 (Js.of_Z 2) 1690000000000;
     Db.mkAnalyticsRow "default" 6300 1 1 (Js.of_Z 1) 1690000000001]
    4 0 [].

Definition config_two : BatchingService.BatchConfig :=
  BatchingService.mkBatchConfig "shop" 50 BatchingService.hourly 2 60.

Definition some_operations : list Spec.Operation :=
  [Spec.Enqueue Samples.addrA Samples.addrB "9" None (Some 1800000000000);
   Spec.ExecuteOne "m3";
   Spec.AutoProcess config_two;
   Spec.ExecuteBatch [Samples.queued "m2" Samples.addrB "6" None]].

End Lifecycle.

(* ================================================================== *)
(** * Environments with a failing part *)
(* ================================================================== *)

Module Faults.

(** The server accepts every statement that is not the [SELECT] on
    [gas_analytics], and rejects that one. *)
Definition accepts_all_but_analytics (E : Env) : Prop :=
  forall n q, (forall d, q <> Db.SelectAnalytics d) -> db_fault E n q = None.

Definition analytics_unavailable (E : Env) (message : string) : Prop :=
  forall n d, db_fault E n (Db.SelectAnalytics d) = Some message.

(** The wallet sends every transfer and answers this hash. *)
Definition wallet_answers (E : Env) (h : string) : Prop :=
  forall n t a, wallet_sendTransaction E n t a = Returned h.

Definition env_analytics_down : Env :=
  mkEnv
    (fun _ q =>
       match q with
       | Db.SelectAnalytics _ => Some "relation gas_analytics does not exist"
       | _ => None
       end)
    (now Samples.env_ok) (random36 Samples.env_ok) (random16 Samples.env_ok)
    (rpc_estimateGas Samples.env_ok)
    (wallet_sendTransaction Samples.env_ok).

End Faults.

(* ================================================================== *)
(** * Notions for the queries *)
(* ================================================================== *)

Module Queries.

Definition is_pending (r : Db.TxRow) : bool :=
  Db.Status_eqb (Db.status r) Db.pending.

(** The pending records of the store. *)
Definition pending_records (w : World) : list Db.TxRow :=
  filter is_pending (batched_transactions w).

(** The records of a user. *)
Definition records_of (userAddress : string) (w : World) : list Db.TxRow :=
  filter (fun r => String.eqb (Db.user_address r) userAddress)
    (batched_transactions w).

Definition oldest_first (rows : list Db.TxRow) : Prop :=
  StronglySorted (fun a b => Db.created_at a <= Db.created_at b) rows.

Definition newest_first (rows : list Db.TxRow) : Prop :=
  StronglySorted (fun a b => Db.created_at b <= Db.created_at a) rows.

(** No statement of [getUserBatches] is rejected. *)
Definition no_report_fault : nat -> Db.ReportQuery -> option string :=
  fun _ _ => None.

(** A store with three records of one user and one of another, not in
    order of creation. *)
Definition world_two_users : World :=
  mkWorld
    [Db.mkTxRow 1 "u1" Samples.addrA Samples.addrB "5" None (Some 21000)
       Db.pending None 1690000000300 None None None;
     Db.mkTxRow 2 "u2" Samples.addrC Samples.addrB "6" None (Some 21000)
       Db.pending None 1690000000100 None None None;
     Db.mkTxRow 3 "u3" Samples.addrA Samples.addrC "7" None (Some 21000)
       Db.completed None 1690000000200 (Some 1690000000900) (Some "0xabc")
       None;
     Db.mkTxRow 4 "u4" Samples.addrA Samples.addrC "8" None (Some 21000)
       Db.pending (Some 1999999999999) 1690000000400 None None None]
    [] 5 0 [].

End Queries.

(* ================================================================== *)
(** * Notions for batches *)
(* ================================================================== *)

Module Batches.

(** The analytics rows of the dApp ['default']. *)
Definition default_rows (w : World) : list Db.AnalyticsRow :=
  filter (fun r => String.eqb (Db.dapp_id r) "default") (gas_analytics w).

(** The table of analytics has been credited one batch of [n]
    transactions, 6300 of gas each: a first row for ['default'] holding
    these figures, or the figures added to those of the row the [SELECT]
    gives first. *)
Definition credited (n : Z) (w w' : World) : Prop :=
  match default_rows w with
  | [] =>
      exists average t,
        gas_analytics w'
        = gas_analytics w
          ++ [Db.mkAnalyticsRow "default" (6300 * n) 1 n average t]
  | current :: _ =>
      List.length (gas_analytics w') = List.length (gas_analytics w) /\
      forall r,
        In r (gas_analytics w') -> Db.dapp_id r = "default" ->
        Db.total_gas_saved r = Db.total_gas_saved current + 6300 * n /\
        Db.total_batches r = Db.total_batches current + 1 /\
        Db.total_transactions r = Db.total_transactions current + n
  end.

(** The completion of every record is rejected. *)
Definition env_no_completion : Env :=
  mkEnv
    (fun _ q =>
       match q with
       | Db.SetCompleted _ _ => Some "could not serialize access"
       | _ => None
       end)
    (now Samples.env_ok) (random36 Samples.env_ok) (random16 Samples.env_ok)
    (rpc_estimateGas Samples.env_ok)
    (wallet_sendTransaction Samples.env_ok).

(** A store with three pending records to three recipients. *)
Definition world_three_recipients : World :=
  mkWorld
    [Samples.row 1 "r1" Samples.addrA "5" Db.pending None None;
     Samples.row 2 "r2" Samples.addrB "6" Db.pending None None;
     Samples.row 3 "r3" Samples.addrC "7" Db.pending None None]
    [] 4 0 [].

End Batches.

(* ================================================================== *)
(** * Notions for the grouping *)
(* ================================================================== *)

Module Grouping.

(** The total of a group can be computed: every amount is accepted by
    [BigInt]. *)
Definition good (g : list BatchingService.BatchTransaction) : Prop :=
  exists v, BatchingService.group_total g = Returned v.

(** Computing the total of the group throws. *)
Definition bad (g : list BatchingService.BatchTransaction) : Prop :=
  exists e, BatchingService.group_total g = Thrown e.

End Grouping.

(* ================================================================== *)
(** * [calculateOptimalGasPrice] of [lib/shardeum.ts] *)
(* ================================================================== *)

Module GasPrice.

(** The literal [0.95]: the binary64 number nearest to 95/100. *)
Definition lit_0_95 : Js.number := Js.div (Js.of_Z 95) (Js.of_Z 100).

(** [Math.max] of two numbers: [NaN] when one of them is, and [+0] above
    [-0]. *)
Definition Math_max (x y : Js.number) : Js.number :=
  match SFcompare x y with
  | None => S754_nan
  | Some Lt => y
  | Some Gt => x
  | Some Eq => match x with S754_zero true => y | _ => x end
  end.

Record Amount : Type := mkAmount {
  amount : string;
  currency : string
}.

Record NetworkAccount : Type := mkNetworkAccount {
  activeVersion : string;
  latestVersion : string;
  minVersion : string;
  certCycleDuration : Js.number;
  maintenanceFee : string;
  maintenanceInterval : Js.number;
  penalty : Amount;
  reward : Amount;
  requiredStake : Amount;
  timestamp : Js.number
}.

(** The result object of [calculateOptimalGasPrice]. *)
Record OptimalGasPrice : Type := mkOptimalGasPrice {
  current : string;
  recommended : string;
  savings : Js.number
}.

Definition minimum_wei : Z := 1000000000.

Section Methods.

(** The node's answers to [eth_gasPrice] and to
    [shardeum_getNetworkAccount], by the number of interactions made
    before the call; a rejection is any of the errors of [makeRPCCall]. *)
Variable rpc_gasPrice : nat -> Outcome string.
Variable rpc_getNetworkAccount : nat -> Outcome NetworkAccount.

Definition getGasPrice : Async string :=
  fun w => (rpc_gasPrice (ticks w), tick w).

Definition getNetworkAccount : Async NetworkAccount :=
  fun w => (rpc_getNetworkAccount (ticks w), tick w).

Definition calculateOptimalGasPrice : Async OptimalGasPrice :=
  currentGasPrice <- getGasPrice ;;
  networkInfo <- getNetworkAccount ;;
  let currentPriceWei := Js.parseInt16 currentGasPrice in
  let recommendedPriceWei :=
    Math_max (Js.Math_floor (Js.mul currentPriceWei lit_0_95))
      (Js.of_Z minimum_wei) in
  ret (mkOptimalGasPrice currentGasPrice
         ("0x" ++ Js.Number_toString16 recommendedPriceWei)%string
         (Js.mul
            (Js.div (Js.sub currentPriceWei recommendedPriceWei)
               currentPriceWei)
            (Js.of_Z 100))).

End Methods.

(** A node that answers one gwei and an account. *)
Definition sample_account : NetworkAccount :=
  mkNetworkAccount "1.0.0" "1.0.0" "1.0.0" (Js.of_Z 60) "0" (Js.of_Z 3600)
    (mkAmount "0" "shm") (mkAmount "0" "shm") (mkAmount "0" "shm")
    (Js.of_Z 0).

Definition node_one_gwei : nat -> Outcome string :=
  fun _ => Returned "0x3b9aca00".

Definition node_half_gwei : nat -> Outcome string :=
  fun _ => Returned "0x1dcd6500".

Definition node_account : nat -> Outcome NetworkAccount :=
  fun _ => Returned sample_account.

End GasPrice.

(* ================================================================== *)
(** * The client: [GasGuruSDK] of [lib/gasguru-sdk.ts] *)
(* ================================================================== *)

Module GasGuruSDK.

(** A parsed JSON value; the fields of an object in the order of the
    text. *)
#[warnings="-register-all"] Inductive Json : Type :=
| JNull
| JBool (b : bool)
| JNumber (x : Js.number)
| JString (s : string)
| JArray (items : list Json)
| JObject (fields : list (string * Json)).

(** [value.name] for a name that is no built-in property: [None] is
    [undefined].  Of a name given twice in the text the last value
    stands.  (The access throws on [null], which the callers treat
    apart.) *)
Definition field (name : string) (value : Json) : option Json :=
  match value with
  | JObject fields =>
      fold_left
        (fun found kv => if String.eqb (fst kv) name then Some (snd kv)
                         else found)
        fields None
  | _ => None
  end.

(** ToBoolean *)
Definition truthy (value : option Json) : bool :=
  match value with
  | None => false
  | Some JNull => false
  | Some (JBool b) => b
  | Some (JNumber x) =>
      match x with
      | S754_zero _ => false
      | S754_nan => false
      | _ => true
      end
  | Some (JString s) => negb (String.eqb s "")
  | Some (JArray _) => true
  | Some (JObject _) => true
  end.

(** [GasGuruConfig], as given to the constructor. *)
Module Options.
Record GasGuruConfig : Type := mkGasGuruConfig {
  apiUrl : option string;
  dappId : string;
  autoBackoff : option bool;
  maxRetries : option Z;
  batchSize : option Z;
  minBatchWait : option Z
}.
End Options.

(** [Required<GasGuruConfig>]; the numbers are integers. *)
Record Config : Type := mkConfig {
  apiUrl : string;
  dappId : string;
  autoBackoff : bool;
  maxRetries : Z;
  batchSize : Z;
  minBatchWait : Z
}.

Definition or_default {A} (x : option A) (d : A) : A :=
  match x with Some a => a | None => d end.

Definition constructor (config : Options.GasGuruConfig) : Config :=
  mkConfig
    (match Options.apiUrl config with
     | Some url => if String.eqb url "" then "/api" else url
     | None => "/api"
     end)
    (Options.dappId config)
    (or_default (Options.autoBackoff config) true)
    (or_default (Options.maxRetries config) 3)
    (or_default (Options.batchSize config) 10)
    (or_default (Options.minBatchWait config) 5).

Inductive Method : Type := GET | POST.

(** What [fetch] answers: a rejection (a [TypeError] with its message), or
    a response, whose [json()] is the parsed body or the rejection of a
    body that is no JSON text. *)
Inductive FetchResult : Type :=
| Rejected (message : string)
| Responded (ok : bool) (status : Z) (statusText : string)
    (json : Outcome Json).

(** What [apiCall] settles with: a value, or what it throws, which is an
    [Error] with its message or [null]. *)
Inductive Settled (A : Type) : Type :=
| Fulfilled (a : A)
| ThrewError (message : string)
| ThrewNull.
Arguments Fulfilled {A} a.
Arguments ThrewError {A} message.
Arguments ThrewNull {A}.

Definition throw_lastError {A} (lastError : option string) : Settled A :=
  match lastError with
  | Some message => ThrewError message
  | None => ThrewNull
  end.

Section Client.

(** The type of the values sent as bodies. *)
Variable Body : Type.

Record Request : Type := mkRequest {
  url : string;
  method : Method;
  body : option Body
}.

(** The requests made and the delays waited for, in milliseconds, oldest
    first. *)
Record Net : Type := mkNet {
  requests : list Request;
  sleeps : list Z
}.

(** The answer to a request, by the number of requests made before it. *)
Variable fetch : nat -> Request -> FetchResult.

Variable config : Config.

Definition options (endpoint : string) (method : Method)
    (body : option Body) : Request :=
  mkRequest (apiUrl config ++ endpoint)%string method
    (match method with POST => body | GET => None end).

(** The [try] block of one turn of the loop. *)
Definition attempt_once (endpoint : string) (method : Method)
    (body : option Body) (net : Net) : Outcome Json * Net :=
  let request := options endpoint method body in
  let net1 := mkNet (requests net ++ [request]) (sleeps net) in
  match fetch (List.length (requests net)) request with
  | Rejected message => (Thrown message, net1)
  | Responded ok status statusText json =>
      if negb ok
      then (Thrown ("HTTP " ++ Js.BigInt_toString status ++ ": "
                    ++ statusText)%string, net1)
      else (json, net1)
  end.

(** [Math.min(1000 * Math.pow(2, attempt - 1), 10000)] *)
Definition delay (attempt : Z) : Z :=
  Z.min (1000 * 2 ^ (attempt - 1)) 10000.

Definition setTimeout (ms : Z) (net : Net) : Net :=
  mkNet (requests net) (sleeps net ++ [ms]).

(** The loop [for (attempt = 1; attempt <= maxRetries; attempt++)], by the
    number of turns that are left. *)
Fixpoint apiCall_loop (turns : nat) (attempt : Z) (lastError : option string)
    (endpoint : string) (method : Method) (body : option Body) (net : Net)
    : Settled Json * Net :=
  match turns with
  | O => (throw_lastError lastError, net)
  | S turns' =>
      match attempt_once endpoint method body net with
      | (Returned value, net1) => (Fulfilled value, net1)
      | (Thrown message, net1) =>
          let net2 :=
            if (attempt <? maxRetries config) && autoBackoff config
            then setTimeout (delay attempt) net1
            else net1 in
          apiCall_loop turns' (attempt + 1) (Some message)
            endpoint method body net2
      end
  end.

Definition apiCall (endpoint : string) (method : Method)
    (body : option Body) (net : Net) : Settled Json * Net :=
  apiCall_loop (Z.to_nat (maxRetries config)) 1 None
    endpoint method body net.

End Client.

Arguments mkRequest {Body} url method body.
Arguments url {Body} r.
Arguments method {Body} r.
Arguments body {Body} r.
Arguments mkNet {Body} requests sleeps.
Arguments requests {Body} n.
Arguments sleeps {Body} n.

(** [BatchResponse]; a field is whatever the answer holds. *)
Record BatchResponse : Type := mkBatchResponse {
  success : bool;
  batchId : option Json;
  error : option Json;
  gasEstimate : option Json
}.

(** The body that [addToBatch] posts. *)
Record BatchBody : Type := mkBatchBody {
  userAddress : string;
  toAddress : string;
  amount : string;
  tokenAddress : option string;
  scheduledFor : option string
}.

Section Methods.

(** Dates, and [Date.prototype.toISOString], which throws a [RangeError]
    on an invalid date. *)
Variable Date : Type.
Variable toISOString : Date -> Outcome string.

(** [TransactionRequest] without its [metadata], which no method reads. *)
Record TransactionRequest : Type := mkTransactionRequest {
  tx_from : string;
  tx_to : string;
  tx_amount : string;
  tx_tokenAddress : option string;
  tx_scheduledFor : option Date
}.

Variable fetch : nat -> Request BatchBody -> FetchResult.
Variable config : Config.

(** The message of the [TypeError] for a property read on [null]. *)
Variable null_message : string.

Definition failed (message : string) : BatchResponse :=
  mkBatchResponse false None (Some (JString message)) None.

Definition addToBatch (transaction : TransactionRequest)
    (net : Net BatchBody) : BatchResponse * Net BatchBody :=
  let scheduled :=
    match tx_scheduledFor transaction with
    | Some date =>
        match toISOString date with
        | Returned text => Returned (Some text)
        | Thrown message => Thrown message
        end
    | None => Returned None
    end in
  match scheduled with
  | Thrown message => (failed message, net)
  | Returned scheduledFor =>
      match
        apiCall BatchBody fetch config "/batch" POST
          (Some (mkBatchBody (tx_from transaction) (tx_to transaction)
                   (tx_amount transaction) (tx_tokenAddress transaction)
                   scheduledFor)) net
      with
      | (Fulfilled JNull, net1) => (failed null_message, net1)
      | (Fulfilled response, net1) =>
          if truthy (field "success" response)
          then (mkBatchResponse true (field "batchId" response) None
                  (field "gasEstimate" response), net1)
          else (mkBatchResponse false None (field "error" response) None,
                net1)
      | (ThrewError message, net1) => (failed message, net1)
      | (ThrewNull, net1) => (failed "Unknown error", net1)
      end
  end.

End Methods.

Arguments mkTransactionRequest {Date} _ _ _ _ _.
Arguments tx_from {Date} t.
Arguments tx_to {Date} t.
Arguments tx_amount {Date} t.
Arguments tx_tokenAddress {Date} t.
Arguments tx_scheduledFor {Date} t.

End GasGuruSDK.

(* ================================================================== *)
(** * Notions for the statements about the client *)
(* ================================================================== *)

Module Transport.

Import GasGuruSDK.

(** The message with which an attempt fails, if it does. *)
Definition failure (r : FetchResult) : option string :=
  match r with
  | Rejected message => Some message
  | Responded false status statusText _ =>
      Some ("HTTP " ++ Js.BigInt_toString status ++ ": " ++ statusText)%string
  | Responded true _ _ (Thrown message) => Some message
  | Responded true _ _ (Returned _) => None
  end.

(** The numbers of [count] attempts from [first] on. *)
Fixpoint attempts (first : Z) (count : nat) : list Z :=
  match count with
  | O => []
  | S count' => first :: attempts (first + 1) count'
  end.

(** The delays after [count] failed attempts from [first] on. *)
Definition backoffs (autoBackoff : bool) (first : Z) (count : nat) : list Z :=
  if autoBackoff then map delay (attempts first count) else [].

(** Samples: a server that refuses twice, then answers. *)
Definition accepted : Json :=
  JObject [("success", JBool true); ("batchId", JString "batch_1_abc")].

Definition refusal : Json :=
  JObject [("success", JBool false);
           ("error", JString "Invalid toAddress format")].

Definition third_time_lucky : nat -> Request BatchBody -> FetchResult :=
  fun n _ =>
    match n with
    | O => Rejected "fetch failed"
    | S O => Responded false 500 "Internal Server Error" (Returned refusal)
    | _ => Responded true 200 "OK" (Returned accepted)
    end.

Definition always_bad_request : nat -> Request BatchBody -> FetchResult :=
  fun _ _ => Responded false 400 "Bad Request" (Returned refusal).

Definition defaults : Config :=
  constructor (Options.mkGasGuruConfig None "shop" None None None None).

Definition no_retries : Config :=
  constructor (Options.mkGasGuruConfig None "shop" None (Some 0) None None).

Definition net0 : Net BatchBody := mkNet [] [].

Definition a_body : BatchBody :=
  mkBatchBody Samples.addrA Samples.addrB "5" None None.

Definition a_transaction : TransactionRequest Z :=
  mkTransactionRequest Samples.addrA Samples.addrB "5" None None.

Definition iso_of_any : Z -> Outcome string :=
  fun _ => Returned "2025-01-01T00:00:00.000Z".

End Transport.

(* ================================================================== *)
(** * What a computation leaves alone *)
(* ================================================================== *)

Section Keeps.

Variable E : Env.
Variable P : World -> World -> Prop.
Hypothesis P_refl : forall w, P w w.
Hypothesis P_trans : forall w1 w2 w3, P w1 w2 -> P w2 w3 -> P w1 w3.
Hypothesis P_tick : forall w, P w (tick w).

Lemma keeps_ret {A} (a : A) : Spec.keeps P (ret a).
Proof. intros w. apply P_refl. Qed.

Lemma keeps_throw {A} (e : string) : Spec.keeps P (@throw A e).
Proof. intros w. apply P_refl. Qed.

Lemma keeps_lift {A} (o : Outcome A) : Spec.keeps P (lift o).
Proof. intros w. apply P_refl. Qed.

Lemma keeps_bind {A B} (c : Async A) (k : A -> Async B) :
  Spec.keeps P c -> (forall a, Spec.keeps P (k a)) -> Spec.keeps P (bind c k).
Proof.
  intros Hc Hk w. unfold bind. specialize (Hc w).
  destruct (c w) as [[a|e] w1]; simpl in *.
  - eapply P_trans; [exact Hc|]. apply Hk.
  - exact Hc.
Qed.

Lemma keeps_try_catch {A} (c : Async A) (h : string -> Async A) :
  Spec.keeps P c -> (forall e, Spec.keeps P (h e)) ->
  Spec.keeps P (try_catch c h).
Proof.
  intros Hc Hh w. unfold try_catch. specialize (Hc w).
  destruct (c w) as [[a|e] w1]; simpl in *.
  - exact Hc.
  - eapply P_trans; [exact Hc|]. apply Hh.
Qed.

Lemma keeps_statement {A} (q : Db.Query)
    (effect : nat -> World -> Outcome A * World) :
  (forall n w, P w (snd (effect n w))) -> Spec.keeps P (statement E q effect).
Proof.
  intros He w. unfold statement.
  destruct (db_fault E (ticks w) q); simpl.
  - apply P_tick.
  - eapply P_trans; [apply P_tick|]. apply He.
Qed.

Lemma keeps_connect : Spec.keeps P (connect E).
Proof. apply keeps_statement. intros n w. apply P_refl. Qed.

Lemma keeps_random_base16 : Spec.keeps P (random_base16 E).
Proof. intros w. apply P_tick. Qed.

Lemma keeps_random_base36 : Spec.keeps P (random_base36 E).
Proof. intros w. apply P_tick. Qed.

Lemma keeps_Date_now : Spec.keeps P (Date_now E).
Proof. intros w. apply P_tick. Qed.

Lemma keeps_estimateGas (t : TransactionObject) :
  Spec.keeps P (estimateGas E t).
Proof. intros w. apply P_tick. Qed.

Lemma keeps_select_pending (limit : Z) : Spec.keeps P (select_pending E limit).
Proof.
  apply keeps_statement. intros n w. destruct (limit <? 0); apply P_refl.
Qed.

Lemma keeps_select_transaction (b : string) :
  Spec.keeps P (select_transaction E b).
Proof. apply keeps_statement. intros n w. apply P_refl. Qed.

Lemma keeps_select_analytics (d : string) :
  Spec.keeps P (select_analytics E d).
Proof. apply keeps_statement. intros n w. apply P_refl. Qed.

End Keeps.

Lemma same_calls_refl w : Spec.same_calls w w.
Proof. reflexivity. Qed.

Lemma same_calls_trans w1 w2 w3 :
  Spec.same_calls w1 w2 -> Spec.same_calls w2 w3 -> Spec.same_calls w1 w3.
Proof. unfold Spec.same_calls. congruence. Qed.

Lemma same_calls_tick w : Spec.same_calls w (tick w).
Proof. reflexivity. Qed.

Lemma same_tables_refl w : Spec.same_tables w w.
Proof. reflexivity. Qed.

Lemma same_tables_trans w1 w2 w3 :
  Spec.same_tables w1 w2 -> Spec.same_tables w2 w3 -> Spec.same_tables w1 w3.
Proof. unfold Spec.same_tables. congruence. Qed.

Lemma same_tables_tick w : Spec.same_tables w (tick w).
Proof. reflexivity. Qed.

Lemma untouched_refl ids t : Spec.untouched ids t t.
Proof. intros r Hin _. exact Hin. Qed.

Lemma untouched_trans ids t1 t2 t3 :
  Spec.untouched ids t1 t2 -> Spec.untouched ids t2 t3 ->
  Spec.untouched ids t1 t3.
Proof. intros H12 H23 r Hin Hout. apply H23; auto. Qed.

Lemma untouched_outside_refl ids w : Spec.untouched_outside ids w w.
Proof. apply untouched_refl. Qed.

Lemma untouched_outside_trans ids w1 w2 w3 :
  Spec.untouched_outside ids w1 w2 -> Spec.untouched_outside ids w2 w3 ->
  Spec.untouched_outside ids w1 w3.
Proof. apply untouched_trans. Qed.

Lemma untouched_outside_tick ids w : Spec.untouched_outside ids w (tick w).
Proof. apply untouched_refl. Qed.

Lemma keeps_unique_ids_refl w : Spec.keeps_unique_ids w w.
Proof. intros H. exact H. Qed.

Lemma keeps_unique_ids_trans w1 w2 w3 :
  Spec.keeps_unique_ids w1 w2 -> Spec.keeps_unique_ids w2 w3 ->
  Spec.keeps_unique_ids w1 w3.
Proof. unfold Spec.keeps_unique_ids. auto. Qed.

Lemma keeps_unique_ids_tick w : Spec.keeps_unique_ids w (tick w).
Proof. intros H. exact H. Qed.

(** The three facts a relation needs to be followed along a computation. *)
Ltac rel_fact :=
  first
    [ exact same_calls_refl | exact same_calls_trans | exact same_calls_tick
    | exact same_tables_refl | exact same_tables_trans
    | exact same_tables_tick
    | exact keeps_unique_ids_refl | exact keeps_unique_ids_trans
    | exact keeps_unique_ids_tick
    | exact (untouched_outside_refl _) | exact (untouched_outside_trans _)
    | exact (untouched_outside_tick _) ].

Lemma untouched_update_where ids b f t :
  Db.mem_string b ids = true ->
  Spec.untouched ids t (Db.update_where b f t).
Proof.
  intros Hb r Hin Hout. unfold Db.update_where. apply in_map_iff.
  exists r. split; [|exact Hin].
  destruct (String.eqb_spec (Db.batch_id r) b) as [Heq|Hne]; [|reflexivity].
  rewrite Heq in Hout. congruence.
Qed.

Lemma untouched_update_where_any ids ids' f t :
  (forall x, Db.mem_string x ids' = true -> Db.mem_string x ids = true) ->
  Spec.untouched ids t (Db.update_where_any ids' f t).
Proof.
  intros Hsub r Hin Hout. unfold Db.update_where_any. apply in_map_iff.
  exists r. split; [|exact Hin].
  destruct (Db.mem_string (Db.batch_id r) ids') eqn:Hm; [|reflexivity].
  apply Hsub in Hm. congruence.
Qed.

Lemma untouched_app ids t l : Spec.untouched ids t (t ++ l).
Proof. intros r Hin _. apply in_or_app. left. exact Hin. Qed.

(** One step of a proof that a computation keeps a relation. *)
Ltac keeps_step :=
  match goal with
  | |- Spec.keeps _ (bind _ _) => apply keeps_bind; [rel_fact | | intros ?]
  | |- Spec.keeps _ (try_catch _ _) =>
      apply keeps_try_catch; [rel_fact | | intros ?]
  | |- Spec.keeps _ (ret _) => apply keeps_ret; rel_fact
  | |- Spec.keeps _ (throw _) => apply keeps_throw; rel_fact
  | |- Spec.keeps _ (lift _) => apply keeps_lift; rel_fact
  | |- Spec.keeps _ (connect _) => apply keeps_connect; rel_fact
  | |- Spec.keeps _ (select_transaction _ _) =>
      apply keeps_select_transaction; rel_fact
  | |- Spec.keeps _ (select_analytics _ _) =>
      apply keeps_select_analytics; rel_fact
  | |- Spec.keeps _ (select_pending _ _) =>
      apply keeps_select_pending; rel_fact
  | |- Spec.keeps _ (random_base16 _) => apply keeps_random_base16; rel_fact
  | |- Spec.keeps _ (random_base36 _) => apply keeps_random_base36; rel_fact
  | |- Spec.keeps _ (Date_now _) => apply keeps_Date_now; rel_fact
  | |- Spec.keeps _ (estimateGas _ _) => apply keeps_estimateGas; rel_fact
  | |- Spec.keeps _ (statement _ _ _) =>
      apply keeps_statement; [rel_fact | rel_fact | intros ? ?]
  | |- Spec.keeps _ (match ?x with _ => _ end) => destruct x
  end.

Section KeepsInstances.

Import BatchingService.

Variable E : Env.

(** *** The wallet is called by [sendTransaction] only *)

Lemma calls_update_completed h b :
  Spec.keeps Spec.same_calls (update_completed E h b).
Proof. unfold update_completed. keeps_step. reflexivity. Qed.

Lemma calls_update_failed e b :
  Spec.keeps Spec.same_calls (update_failed E e b).
Proof. unfold update_failed. keeps_step. reflexivity. Qed.

Lemma calls_updateAnalytics d u :
  Spec.keeps Spec.same_calls (updateAnalytics E d u).
Proof.
  unfold updateAnalytics, insert_analytics, update_analytics.
  repeat keeps_step; reflexivity.
Qed.

(** *** Records that a computation does not name are not written *)

Variable ids : list string.

Lemma untouched_update_executing b :
  Db.mem_string b ids = true ->
  Spec.keeps (Spec.untouched_outside ids) (update_executing E b).
Proof.
  intros Hb. unfold update_executing. keeps_step.
  apply untouched_update_where; exact Hb.
Qed.

Lemma untouched_update_completed h b :
  Db.mem_string b ids = true ->
  Spec.keeps (Spec.untouched_outside ids) (update_completed E h b).
Proof.
  intros Hb. unfold update_completed. keeps_step.
  apply untouched_update_where; exact Hb.
Qed.

Lemma untouched_update_failed e b :
  Db.mem_string b ids = true ->
  Spec.keeps (Spec.untouched_outside ids) (update_failed E e b).
Proof.
  intros Hb. unfold update_failed. keeps_step.
  apply untouched_update_where; exact Hb.
Qed.

Lemma untouched_update_executing_any ids' :
  (forall x, Db.mem_string x ids' = true -> Db.mem_string x ids = true) ->
  Spec.keeps (Spec.untouched_outside ids) (update_executing_any E ids').
Proof.
  intros Hsub. unfold update_executing_any. keeps_step.
  apply untouched_update_where_any; exact Hsub.
Qed.

Lemma untouched_update_failed_any e ids' :
  (forall x, Db.mem_string x ids' = true -> Db.mem_string x ids = true) ->
  Spec.keeps (Spec.untouched_outside ids) (update_failed_any E e ids').
Proof.
  intros Hsub. unfold update_failed_any. keeps_step.
  apply untouched_update_where_any; exact Hsub.
Qed.

Lemma untouched_sendTransaction t a :
  Spec.keeps (Spec.untouched_outside ids) (sendTransaction E t a).
Proof. intros w. apply untouched_refl. Qed.

Lemma untouched_updateAnalytics d u :
  Spec.keeps (Spec.untouched_outside ids) (updateAnalytics E d u).
Proof.
  unfold updateAnalytics, insert_analytics, update_analytics.
  repeat keeps_step; apply untouched_refl.
Qed.

Lemma untouched_insert_transaction b u t a tok g s :
  Spec.keeps (Spec.untouched_outside ids)
    (insert_transaction E b u t a tok g s).
Proof.
  unfold insert_transaction. keeps_step.
  match goal with |- context [if ?c then _ else _] => destruct c end.
  - apply untouched_refl.
  - apply untouched_app.
Qed.

Lemma untouched_estimateTransactionGas t :
  Spec.keeps (Spec.untouched_outside ids) (estimateTransactionGas E t).
Proof.
  unfold estimateTransactionGas. repeat keeps_step.
Qed.

(** *** The identifiers stay pairwise distinct *)

Lemma update_where_ids b f t :
  (forall r, Db.batch_id (f r) = Db.batch_id r) ->
  map Db.batch_id (Db.update_where b f t) = map Db.batch_id t.
Proof.
  intros Hf. unfold Db.update_where. rewrite map_map. apply map_ext.
  intros r. destruct (String.eqb (Db.batch_id r) b); [apply Hf|reflexivity].
Qed.

Lemma update_where_any_ids l f t :
  (forall r, Db.batch_id (f r) = Db.batch_id r) ->
  map Db.batch_id (Db.update_where_any l f t) = map Db.batch_id t.
Proof.
  intros Hf. unfold Db.update_where_any. rewrite map_map. apply map_ext.
  intros r. destruct (Db.mem_string (Db.batch_id r) l); [apply Hf|reflexivity].
Qed.

Lemma unique_update_executing b :
  Spec.keeps Spec.keeps_unique_ids (update_executing E b).
Proof.
  unfold update_executing. keeps_step. unfold Spec.keeps_unique_ids,
    Spec.unique_ids. simpl. rewrite update_where_ids; auto.
Qed.

Lemma unique_update_completed h b :
  Spec.keeps Spec.keeps_unique_ids (update_completed E h b).
Proof.
  unfold update_completed. keeps_step. unfold Spec.keeps_unique_ids,
    Spec.unique_ids. simpl. rewrite update_where_ids; auto.
Qed.

Lemma unique_update_failed e b :
  Spec.keeps Spec.keeps_unique_ids (update_failed E e b).
Proof.
  unfold update_failed. keeps_step. unfold Spec.keeps_unique_ids,
    Spec.unique_ids. simpl. rewrite update_where_ids; auto.
Qed.

Lemma unique_update_executing_any l :
  Spec.keeps Spec.keeps_unique_ids (update_executing_any E l).
Proof.
  unfold update_executing_any. keeps_step. unfold Spec.keeps_unique_ids,
    Spec.unique_ids. simpl. rewrite update_where_any_ids; auto.
Qed.

Lemma unique_update_failed_any e l :
  Spec.keeps Spec.keeps_unique_ids (update_failed_any E e l).
Proof.
  unfold update_failed_any. keeps_step. unfold Spec.keeps_unique_ids,
    Spec.unique_ids. simpl. rewrite update_where_any_ids; auto.
Qed.

Lemma unique_sendTransaction t a :
  Spec.keeps Spec.keeps_unique_ids (sendTransaction E t a).
Proof. intros w H. exact H. Qed.

Lemma unique_updateAnalytics d u :
  Spec.keeps Spec.keeps_unique_ids (updateAnalytics E d u).
Proof.
  unfold updateAnalytics, insert_analytics, update_analytics.
  repeat keeps_step; intros H; exact H.
Qed.

Lemma unique_insert_transaction b u t a tok g s :
  Spec.keeps Spec.keeps_unique_ids (insert_transaction E b u t a tok g s).
Proof.
  unfold insert_transaction. keeps_step.
  match goal with |- context [if ?c then _ else _] => destruct c eqn:Hmem end.
  - intros H. exact H.
  - unfold Spec.keeps_unique_ids, Spec.unique_ids. simpl. intros Hnd.
    rewrite map_app. simpl.
    apply NoDup_app; [exact Hnd|repeat constructor; simpl; tauto|].
    intros x Hx [Hx'|[]]. subst x.
    unfold Db.mem_string in Hmem.
    assert (Hex : existsb (String.eqb b) (map Db.batch_id (batched_transactions w))
                  = true).
    { apply existsb_exists. exists b. split; [exact Hx|apply String.eqb_refl]. }
    congruence.
Qed.

Lemma unique_estimateTransactionGas t :
  Spec.keeps Spec.keeps_unique_ids (estimateTransactionGas E t).
Proof.
  unfold estimateTransactionGas. repeat keeps_step.
Qed.

End KeepsInstances.

(* ================================================================== *)
(** * Binary64 arithmetic on safe integers *)
(* ================================================================== *)

Section SafeIntegers.

Lemma digits2_pos_bounds (p : positive) :
  2 ^ (Z.pos (digits2_pos p) - 1) <= Z.pos p < 2 ^ Z.pos (digits2_pos p).
Proof.
  induction p as [p IH|p IH|]; simpl digits2_pos.
  - rewrite Pos2Z.inj_succ.
    replace (Z.succ (Z.pos (digits2_pos p)) - 1) with
      (Z.succ (Z.pos (digits2_pos p) - 1)) by lia.
    rewrite !Z.pow_succ_r by lia. lia.
  - rewrite Pos2Z.inj_succ.
    replace (Z.succ (Z.pos (digits2_pos p)) - 1) with
      (Z.succ (Z.pos (digits2_pos p) - 1)) by lia.
    rewrite !Z.pow_succ_r by lia. lia.
  - simpl. lia.
Qed.

Lemma digits2_pos_unique (p : positive) (d : Z) :
  2 ^ (d - 1) <= Z.pos p < 2 ^ d -> Z.pos (digits2_pos p) = d.
Proof.
  intros H. pose proof (digits2_pos_bounds p) as B.
  assert (0 < d).
  { destruct (Z_lt_le_dec 0 d); [assumption|].
    assert (2 ^ d <= 2 ^ 0) by (apply Z.pow_le_mono_r; lia).
    simpl in *. lia. }
  destruct (Z_lt_le_dec (Z.pos (digits2_pos p)) d) as [Hlt|Hge].
  - assert (2 ^ Z.pos (digits2_pos p) <= 2 ^ (d - 1))
      by (apply Z.pow_le_mono_r; lia). lia.
  - destruct (Z_lt_le_dec d (Z.pos (digits2_pos p))) as [Hlt|Hle]; [|lia].
    assert (2 ^ d <= 2 ^ (Z.pos (digits2_pos p) - 1))
      by (apply Z.pow_le_mono_r; lia). lia.
Qed.

Lemma iter_pos_nat {A} (f : A -> A) (p : positive) :
  forall x, iter_pos f p x = Nat.iter (Pos.to_nat p) f x.
Proof.
  induction p as [p IH|p IH|]; intros x; simpl iter_pos.
  - rewrite !IH. rewrite Pos2Nat.inj_xI.
    replace (S (2 * Pos.to_nat p))%nat
      with (Pos.to_nat p + (Pos.to_nat p + 1))%nat by lia.
    rewrite !Nat.iter_add. simpl. reflexivity.
  - rewrite !IH. rewrite Pos2Nat.inj_xO.
    replace (2 * Pos.to_nat p)%nat
      with (Pos.to_nat p + Pos.to_nat p)%nat by lia.
    rewrite Nat.iter_add. reflexivity.
  - reflexivity.
Qed.

Lemma shr_1_nonneg (m : Z) (r s : bool) :
  0 <= m ->
  shr_1 (Build_shr_record m r s)
  = Build_shr_record (m / 2) (Z.odd m) (r || s).
Proof.
  intros Hm. destruct m as [|p|p]; [reflexivity| |lia].
  destruct p as [p|p|]; simpl shr_1.
  - f_equal. rewrite Pos2Z.inj_xI.
    apply Z.div_unique with (r := 1); lia.
  - f_equal. rewrite Pos2Z.inj_xO.
    apply Z.div_unique with (r := 0); lia.
  - reflexivity.
Qed.

Lemma odd_or_low_bits (M j : Z) :
  0 <= M -> 0 <= j ->
  Z.odd (M / 2 ^ j) || negb (M mod 2 ^ j =? 0)
  = negb (M mod 2 ^ (j + 1) =? 0).
Proof.
  intros HM Hj.
  assert (Hp : 0 < 2 ^ j) by (apply Z.pow_pos_nonneg; lia).
  rewrite Z.pow_add_r by lia. change (2 ^ 1) with 2.
  rewrite Z.rem_mul_r by lia.
  pose proof (Z.mod_pos_bound M (2 ^ j) Hp) as Hb.
  rewrite <- Z.bit0_mod, Z.bit0_odd.
  destruct (Z.odd (M / 2 ^ j)); simpl Z.b2z; simpl orb.
  - symmetry. apply negb_true_iff. apply Z.eqb_neq. lia.
  - rewrite Z.mul_0_r, Z.add_0_r. reflexivity.
Qed.

Lemma iter_shr_1 (M : Z) :
  0 <= M ->
  forall k,
    Nat.iter (S k) shr_1 (Build_shr_record M false false) = Binary64.shifted M (S k).
Proof.
  intros HM. induction k as [|k IH].
  - change (Nat.iter 1 shr_1 (Build_shr_record M false false))
      with (shr_1 (Build_shr_record M false false)).
    rewrite shr_1_nonneg by assumption.
    unfold Binary64.shifted. simpl Z.of_nat. change (2 ^ 1) with 2.
    change (1 - 1) with 0. change (2 ^ 0) with 1.
    rewrite Z.div_1_r, Z.mod_1_r. reflexivity.
  - change (Nat.iter (S (S k)) shr_1 ?x) with (shr_1 (Nat.iter (S k) shr_1 x)).
    rewrite IH. unfold Binary64.shifted.
    assert (Hp : 0 < 2 ^ Z.of_nat (S k)) by (apply Z.pow_pos_nonneg; lia).
    rewrite shr_1_nonneg by (apply Z.div_pos; lia).
    f_equal.
    + rewrite Z.div_div by lia.
      replace (Z.of_nat (S (S k))) with (Z.of_nat (S k) + 1) by lia.
      rewrite Z.pow_add_r by lia. reflexivity.
    + f_equal. f_equal. f_equal. lia.
    + replace (Z.of_nat (S (S k)) - 1) with (Z.of_nat (S k) - 1 + 1) by lia.
      rewrite <- odd_or_low_bits by lia. reflexivity.
Qed.

(** The shift of [shr_fexp] for mantissas of our exponent range. *)
Lemma shr_fexp_exact (m : positive) (e n : Z) :
  -1074 <= Z.pos (digits2_pos m) + e - 53 ->
  n = Z.pos (digits2_pos m) - 53 ->
  shr_fexp 53 1024 (Z.pos m) e loc_Exact
  = shr (Build_shr_record (Z.pos m) false false) e n.
Proof.
  intros Hmin Hn. unfold shr_fexp, fexp, emin, Zdigits2.
  simpl shr_record_of_loc. f_equal. lia.
Qed.

Lemma shr_positive (M e n : Z) :
  0 <= M -> 0 < n ->
  shr (Build_shr_record M false false) e n
  = (Build_shr_record (M / 2 ^ n) (Z.odd (M / 2 ^ (n - 1)))
       (negb (M mod 2 ^ (n - 1) =? 0)), e + n).
Proof.
  intros HM Hn. destruct n as [|p|p]; try lia.
  unfold shr. rewrite iter_pos_nat.
  destruct (Pos.to_nat p) as [|k] eqn:Hk; [lia|].
  rewrite iter_shr_1 by assumption. unfold Binary64.shifted.
  rewrite <- Hk, positive_nat_Z. reflexivity.
Qed.

Lemma shr_zero (mrs : shr_record) (e : Z) : shr mrs e 0 = (mrs, e).
Proof. reflexivity. Qed.

(** A 53-bit mantissa in range is kept as it is. *)
Lemma round_aux_53 (s : bool) (m : positive) (e : Z) :
  Z.pos (digits2_pos m) = 53 -> -1074 <= e <= 971 ->
  binary_round_aux 53 1024 s (Z.pos m) e loc_Exact = S754_finite s m e.
Proof.
  intros Hd He. unfold binary_round_aux.
  rewrite (shr_fexp_exact m e 0) by lia. rewrite shr_zero.
  cbn [shr_m loc_of_shr_record round_nearest_even].
  rewrite (shr_fexp_exact m e 0) by lia. rewrite shr_zero.
  cbn [shr_m].
  destruct (Z.leb_spec e (1024 - 53)); [reflexivity|lia].
Qed.

Lemma pos_iter_xO (m d : positive) :
  Z.pos (Pos.iter xO m d) = Z.pos m * 2 ^ Z.pos d.
Proof.
  change (Pos.iter xO m d) with (Zpower.shift_pos d m).
  rewrite Zpower.shift_pos_correct, Zpower.Zpower_pos_nat,
    Zpower.Zpower_nat_Z, positive_nat_Z. lia.
Qed.

Lemma digits_scaled (m : positive) (k : Z) (p : positive) :
  0 <= k -> Z.pos p = Z.pos m * 2 ^ k ->
  Z.pos (digits2_pos p) = Z.pos (digits2_pos m) + k.
Proof.
  intros Hk Hp. apply digits2_pos_unique. rewrite Hp.
  pose proof (digits2_pos_bounds m) as B.
  replace (Z.pos (digits2_pos m) + k - 1)
    with (Z.pos (digits2_pos m) - 1 + k) by lia.
  rewrite !Z.pow_add_r by lia.
  assert (0 < 2 ^ k) by (apply Z.pow_pos_nonneg; lia).
  split; [apply Z.mul_le_mono_nonneg_r; lia|apply Z.mul_lt_mono_pos_r; lia].
Qed.

Lemma digits2_pos_bits (p : positive) : Z.pos (digits2_pos p) = Binary64.bits (Z.pos p).
Proof.
  apply digits2_pos_unique. unfold Binary64.bits.
  replace (Z.log2 (Z.pos p) + 1 - 1) with (Z.log2 (Z.pos p)) by lia.
  pose proof (Z.log2_spec (Z.pos p) ltac:(lia)) as H.
  replace (Z.log2 (Z.pos p) + 1) with (Z.succ (Z.log2 (Z.pos p))) by lia.
  exact H.
Qed.

Lemma bits_bounds (z : Z) : 0 < z -> 2 ^ (Binary64.bits z - 1) <= z < 2 ^ Binary64.bits z.
Proof.
  intros Hz. unfold Binary64.bits.
  replace (Z.log2 z + 1 - 1) with (Z.log2 z) by lia.
  replace (Z.log2 z + 1) with (Z.succ (Z.log2 z)) by lia.
  apply Z.log2_spec. exact Hz.
Qed.

Lemma bits_upper (z d : Z) : 0 < z -> 0 <= d -> z < 2 ^ d -> Binary64.bits z <= d.
Proof.
  intros Hz Hd Hlt. pose proof (bits_bounds z Hz) as [Hlo _].
  destruct (Z_le_gt_dec (Binary64.bits z) d) as [H|H]; [exact H|].
  assert (2 ^ d <= 2 ^ (Binary64.bits z - 1)) by (apply Z.pow_le_mono_r; lia). lia.
Qed.

Lemma bits_pos (z : Z) : 0 < z -> 0 < Binary64.bits z.
Proof. intros Hz. unfold Binary64.bits. pose proof (Z.log2_nonneg z). lia. Qed.

(** The Binary64.normal form of a safe integer: its mantissa is the integer scaled
    to 53 Binary64.bits. *)
Lemma binary_round_scaled (s : bool) (T : positive) (ez : Z) (w : Z) :
  0 < w < 2 ^ 53 -> -1000 <= ez <= 0 -> Z.pos T = w * 2 ^ (- ez) ->
  binary_round 53 1024 s T ez
  = S754_finite s (Z.to_pos (w * 2 ^ (53 - Binary64.bits w))) (Binary64.bits w - 53).
Proof.
  intros Hw Hez HT.
  assert (Hbw : 0 < Binary64.bits w <= 53).
  { split; [apply bits_pos; lia|apply bits_upper; lia]. }
  pose proof (bits_bounds w ltac:(lia)) as Bw.
  assert (Hpow : 0 < 2 ^ (- ez)) by (apply Z.pow_pos_nonneg; lia).
  assert (HdT : Z.pos (digits2_pos T) = Binary64.bits w - ez).
  { apply digits2_pos_unique. rewrite HT.
    replace (Binary64.bits w - ez - 1) with (Binary64.bits w - 1 + - ez) by lia.
    replace (Binary64.bits w - ez) with (Binary64.bits w + - ez) by lia.
    rewrite !Z.pow_add_r by lia.
    split; [apply Z.mul_le_mono_nonneg_r; lia|apply Z.mul_lt_mono_pos_r; lia]. }
  assert (Hnorm : 2 ^ 52 <= w * 2 ^ (53 - Binary64.bits w) < 2 ^ 53).
  { replace 52 with (Binary64.bits w - 1 + (53 - Binary64.bits w)) at 1 by lia.
    replace 53 with (Binary64.bits w + (53 - Binary64.bits w)) at 4 by lia.
    rewrite !Z.pow_add_r by lia.
    assert (0 < 2 ^ (53 - Binary64.bits w)) by (apply Z.pow_pos_nonneg; lia).
    split; [apply Z.mul_le_mono_nonneg_r; lia|apply Z.mul_lt_mono_pos_r; lia]. }
  unfold binary_round, shl_align, fexp, emin.
  rewrite HdT.
  replace (Binary64.bits w - ez + ez - 53) with (Binary64.bits w - 53) by lia.
  rewrite Z.max_l by lia.
  destruct (Binary64.bits w - 53 - ez) as [|p|p] eqn:Hdiff.
  - (* already aligned *)
    assert (Hez' : ez = Binary64.bits w - 53) by lia.
    rewrite round_aux_53; [|lia|lia].
    f_equal; [|lia].
    apply Pos2Z.inj. rewrite Z2Pos.id by lia. rewrite HT. f_equal. f_equal. lia.
  - (* more than 53 Binary64.bits: an exact shift to the right *)
    unfold binary_round_aux.
    rewrite (shr_fexp_exact T ez (Z.pos p)) by lia.
    rewrite shr_positive by lia.
    assert (Hsplit : Z.pos T = w * 2 ^ (53 - Binary64.bits w) * 2 ^ Z.pos p).
    { rewrite HT, <- Z.mul_assoc, <- Z.pow_add_r by lia. f_equal. f_equal. lia. }
    assert (Hp : 0 < 2 ^ Z.pos p) by (apply Z.pow_pos_nonneg; lia).
    assert (Hq : Z.pos T / 2 ^ Z.pos p = w * 2 ^ (53 - Binary64.bits w)).
    { rewrite Hsplit. apply Z.div_mul. lia. }
    assert (Hsplit' : Z.pos T
                      = (w * 2 ^ (53 - Binary64.bits w) * 2) * 2 ^ (Z.pos p - 1)).
    { assert (Hpp : 2 ^ Z.pos p = 2 * 2 ^ (Z.pos p - 1)).
      { rewrite <- Z.pow_succ_r by lia. f_equal. lia. }
      rewrite Hsplit, Hpp. ring. }
    assert (Hp' : 0 < 2 ^ (Z.pos p - 1)) by (apply Z.pow_pos_nonneg; lia).
    assert (Hodd : Z.odd (Z.pos T / 2 ^ (Z.pos p - 1)) = false).
    { rewrite Hsplit', Z.div_mul by lia.
      rewrite Z.odd_mul. simpl. apply andb_false_r. }
    assert (Hmod : Z.pos T mod 2 ^ (Z.pos p - 1) = 0).
    { rewrite Hsplit'. apply Z.mod_mul. lia. }
    rewrite Hq, Hodd, Hmod.
    cbn [Z.eqb negb loc_of_shr_record shr_m round_nearest_even].
    destruct (w * 2 ^ (53 - Binary64.bits w)) as [|q|q] eqn:Hqv; try lia.
    rewrite (shr_fexp_exact q (ez + Z.pos p) 0).
    + rewrite shr_zero. cbn [shr_m].
      destruct (Z.leb_spec (ez + Z.pos p) (1024 - 53)); [|lia].
      f_equal. lia.
    + rewrite (digits2_pos_unique q 53) by lia. lia.
    + rewrite (digits2_pos_unique q 53) by lia. lia.
  - (* fewer than 53 Binary64.bits: a shift to the left *)
    rewrite round_aux_53.
    + f_equal. apply Pos2Z.inj. rewrite pos_iter_xO, Z2Pos.id by lia.
      rewrite HT, <- Z.mul_assoc, <- Z.pow_add_r by lia. f_equal. f_equal. lia.
    + apply digits2_pos_unique. rewrite pos_iter_xO, HT.
      rewrite <- Z.mul_assoc, <- Z.pow_add_r by lia.
      replace (- ez + Z.pos p) with (53 - Binary64.bits w) by lia. exact Hnorm.
    + lia.
Qed.

Lemma of_Z_positive (w : Z) : 0 < w < 2 ^ 53 -> Js.of_Z w = Binary64.normal false w.
Proof.
  intros Hw. unfold Js.of_Z, Js.prec, Js.emax, binary_normalize. destruct w as [|p|p]; try lia.
  apply binary_round_scaled; [lia|lia|]. simpl. lia.
Qed.

Lemma of_Z_negative (w : Z) : 0 < w < 2 ^ 53 -> Js.of_Z (- w) = Binary64.normal true w.
Proof.
  intros Hw. unfold Js.of_Z, Js.prec, Js.emax, binary_normalize. destruct w as [|p|p]; try lia.
  simpl Z.opp. apply binary_round_scaled; [lia|lia|]. simpl. lia.
Qed.

(** Normalising a safe integer given with a scale. *)
Lemma normalize_scaled (z ez : Z) :
  Z.abs z < 2 ^ 53 -> -1000 <= ez <= 0 ->
  binary_normalize 53 1024 (z * 2 ^ (- ez)) ez false = Js.of_Z z.
Proof.
  intros Hz Hez.
  assert (Hpow : 0 < 2 ^ (- ez)) by (apply Z.pow_pos_nonneg; lia).
  destruct (Z.lt_trichotomy z 0) as [Hneg|[Hzero|Hpos]].
  - replace z with (- (- z)) at 2 by lia.
    rewrite of_Z_negative by lia.
    destruct (z * 2 ^ (- ez)) as [|T|T] eqn:HT; try nia.
    unfold binary_normalize. apply binary_round_scaled; [lia|lia|].
    change (Z.pos T) with (- Z.neg T). rewrite <- HT. ring.
  - subst z. reflexivity.
  - rewrite of_Z_positive by lia.
    destruct (z * 2 ^ (- ez)) as [|T|T] eqn:HT; try nia.
    unfold binary_normalize. apply binary_round_scaled; [lia|lia|].
    symmetry. exact HT.
Qed.

Lemma shl_align_value (m : positive) (e e' : Z) :
  e' <= e -> Z.pos (fst (shl_align m e e')) = Z.pos m * 2 ^ (e - e').
Proof.
  intros He. unfold shl_align. destruct (e' - e) as [|d|d] eqn:Hd; try lia.
  - simpl fst. replace (e - e') with 0 by lia. lia.
  - simpl fst. rewrite pos_iter_xO. f_equal. f_equal. lia.
Qed.

Lemma normal_mantissa (w : Z) :
  0 < w < 2 ^ 53 ->
  Z.pos (Z.to_pos (w * 2 ^ (53 - Binary64.bits w))) = w * 2 ^ (53 - Binary64.bits w) /\
  0 < Binary64.bits w <= 53.
Proof.
  intros Hw.
  assert (Hb : 0 < Binary64.bits w <= 53).
  { split; [apply bits_pos; lia|apply bits_upper; lia]. }
  split; [|exact Hb].
  apply Z2Pos.id.
  assert (0 < 2 ^ (53 - Binary64.bits w)) by (apply Z.pow_pos_nonneg; lia). nia.
Qed.

Lemma add_normal (sa sb : bool) (a b : Z) :
  0 < a < 2 ^ 53 -> 0 < b < 2 ^ 53 ->
  Z.abs (Binary64.signed sa a + Binary64.signed sb b) < 2 ^ 53 ->
  SFadd 53 1024 (Binary64.normal sa a) (Binary64.normal sb b) = Js.of_Z (Binary64.signed sa a + Binary64.signed sb b).
Proof.
  intros Ha Hb Hsum.
  destruct (normal_mantissa a Ha) as [Hma Hba].
  destruct (normal_mantissa b Hb) as [Hmb Hbb].
  unfold Binary64.normal, SFadd.
  set (ez := Z.min (Binary64.bits a - 53) (Binary64.bits b - 53)).
  rewrite !shl_align_value by (unfold ez; lia).
  rewrite Hma, Hmb.
  rewrite <- !Z.mul_assoc, <- !Z.pow_add_r by (unfold ez; lia).
  replace (53 - Binary64.bits a + (Binary64.bits a - 53 - ez)) with (- ez) by lia.
  replace (53 - Binary64.bits b + (Binary64.bits b - 53 - ez)) with (- ez) by lia.
  replace (cond_Zopp sa (a * 2 ^ (- ez)) + cond_Zopp sb (b * 2 ^ (- ez)))
    with ((Binary64.signed sa a + Binary64.signed sb b) * 2 ^ (- ez)).
  - apply normalize_scaled; [exact Hsum|unfold ez; lia].
  - unfold cond_Zopp, Binary64.signed. destruct sa, sb; ring.
Qed.

Lemma sub_normal (sa sb : bool) (a b : Z) :
  0 < a < 2 ^ 53 -> 0 < b < 2 ^ 53 ->
  Z.abs (Binary64.signed sa a - Binary64.signed sb b) < 2 ^ 53 ->
  SFsub 53 1024 (Binary64.normal sa a) (Binary64.normal sb b) = Js.of_Z (Binary64.signed sa a - Binary64.signed sb b).
Proof.
  intros Ha Hb Hsum.
  destruct (normal_mantissa a Ha) as [Hma Hba].
  destruct (normal_mantissa b Hb) as [Hmb Hbb].
  unfold Binary64.normal, SFsub.
  set (ez := Z.min (Binary64.bits a - 53) (Binary64.bits b - 53)).
  rewrite !shl_align_value by (unfold ez; lia).
  rewrite Hma, Hmb.
  rewrite <- !Z.mul_assoc, <- !Z.pow_add_r by (unfold ez; lia).
  replace (53 - Binary64.bits a + (Binary64.bits a - 53 - ez)) with (- ez) by lia.
  replace (53 - Binary64.bits b + (Binary64.bits b - 53 - ez)) with (- ez) by lia.
  replace (cond_Zopp sa (a * 2 ^ (- ez)) - cond_Zopp sb (b * 2 ^ (- ez)))
    with ((Binary64.signed sa a - Binary64.signed sb b) * 2 ^ (- ez)).
  - apply normalize_scaled; [exact Hsum|unfold ez; lia].
  - unfold cond_Zopp, Binary64.signed. destruct sa, sb; ring.
Qed.

(** A safe integer is zero or a Binary64.normal form. *)
Lemma of_Z_cases (z : Z) :
  Z.abs z < 2 ^ 53 ->
  (z = 0 /\ Js.of_Z z = S754_zero false) \/
  (exists s w, 0 < w < 2 ^ 53 /\ z = Binary64.signed s w /\ Js.of_Z z = Binary64.normal s w).
Proof.
  intros Hz. destruct (Z.lt_trichotomy z 0) as [Hneg|[Hzero|Hpos]].
  - right. exists true, (- z). split; [lia|]. split; [simpl; lia|].
    replace z with (- (- z)) at 1 by lia. apply of_Z_negative. lia.
  - left. subst. split; reflexivity.
  - right. exists false, z. split; [lia|]. split; [reflexivity|].
    apply of_Z_positive. lia.
Qed.

(** Addition and subtraction of safe integers are exact. *)
Theorem add_of_Z (a b : Z) :
  Z.abs a < 2 ^ 53 -> Z.abs b < 2 ^ 53 -> Z.abs (a + b) < 2 ^ 53 ->
  SFadd 53 1024 (Js.of_Z a) (Js.of_Z b) = Js.of_Z (a + b).
Proof.
  intros Ha Hb Hab.
  destruct (of_Z_cases a Ha) as [[Ha0 Hza]|(sa & wa & Hwa & Hsa & Hna)];
    destruct (of_Z_cases b Hb) as [[Hb0 Hzb]|(sb & wb & Hwb & Hsb & Hnb)].
  - subst. reflexivity.
  - subst a. change (0 + b) with b. rewrite Hza, Hnb. reflexivity.
  - subst b. rewrite Z.add_0_r, Hna, Hzb. reflexivity.
  - rewrite Hna, Hnb, Hsa, Hsb. apply add_normal; try assumption.
    rewrite <- Hsa, <- Hsb. exact Hab.
Qed.

Theorem sub_of_Z (a b : Z) :
  Z.abs a < 2 ^ 53 -> Z.abs b < 2 ^ 53 -> Z.abs (a - b) < 2 ^ 53 ->
  SFsub 53 1024 (Js.of_Z a) (Js.of_Z b) = Js.of_Z (a - b).
Proof.
  intros Ha Hb Hab.
  destruct (of_Z_cases a Ha) as [[Ha0 Hza]|(sa & wa & Hwa & Hsa & Hna)];
    destruct (of_Z_cases b Hb) as [[Hb0 Hzb]|(sb & wb & Hwb & Hsb & Hnb)].
  - subst. reflexivity.
  - subst a. rewrite Hza, Hnb. change (0 - b) with (- b).
    assert (Hopp : Js.of_Z (- b) = Binary64.normal (negb sb) wb).
    { rewrite Hsb. destruct sb; simpl Binary64.signed; simpl negb.
      - rewrite Z.opp_involutive. apply of_Z_positive. lia.
      - apply of_Z_negative. lia. }
    rewrite Hopp. reflexivity.
  - subst b. rewrite Z.sub_0_r, Hna, Hzb. reflexivity.
  - rewrite Hna, Hnb, Hsa, Hsb. apply sub_normal; try assumption.
    rewrite <- Hsa, <- Hsb. exact Hab.
Qed.

(** Rounding to nearest even of a mantissa of more than 53 Binary64.bits: the
    result is within half a unit of the [n] Binary64.bits dropped. *)
Lemma round_aux_shift (s : bool) (M : positive) (E n : Z) :
  n = Z.pos (digits2_pos M) - 53 -> 0 < n ->
  -1074 <= E + n -> E + n + 1 <= 971 ->
  exists m' e',
    binary_round_aux 53 1024 s (Z.pos M) E loc_Exact = S754_finite s m' e' /\
    E < e' <= E + n + 1 /\
    Z.pos M - 2 ^ (n - 1) <= Z.pos m' * 2 ^ (e' - E) <= Z.pos M + 2 ^ (n - 1).
Proof.
  intros Hn Hpos Hmin Hmax.
  pose proof (digits2_pos_bounds M) as HM.
  replace (Z.pos (digits2_pos M)) with (n + 53) in HM by lia.
  replace (n + 53 - 1) with (52 + n) in HM by lia.
  replace (n + 53) with (53 + n) in HM by lia.
  rewrite !Z.pow_add_r in HM by lia.
  assert (HP : 0 < 2 ^ (n - 1)) by (apply Z.pow_pos_nonneg; lia).
  assert (H2n : 2 ^ n = 2 * 2 ^ (n - 1)).
  { rewrite <- Z.pow_succ_r by lia. f_equal. lia. }
  set (P := 2 ^ (n - 1)) in *.
  set (x := Z.pos M / P).
  set (l := Z.pos M mod P).
  assert (Hdm : Z.pos M = P * x + l) by (apply Z.div_mod; lia).
  assert (Hl : 0 <= l < P) by (apply Z.mod_pos_bound; lia).
  set (q := Z.pos M / 2 ^ n).
  assert (Hq : q = x / 2).
  { unfold q, x. rewrite H2n, Z.mul_comm, Z.div_div by lia. reflexivity. }
  assert (Hx : x = 2 * q + Z.b2z (Z.odd x)).
  { rewrite Hq, <- Z.bit0_odd, Z.bit0_mod. apply Z.div_mod. lia. }
  assert (Hqr : 2 ^ 52 <= q < 2 ^ 53).
  { rewrite H2n in HM. destruct (Z.odd x); simpl Z.b2z in Hx; nia. }
  unfold binary_round_aux.
  rewrite (shr_fexp_exact M E n) by lia.
  rewrite shr_positive by lia.
  fold P. fold x. fold l. fold q.
  cbn [shr_m].
  set (q' := round_nearest_even q
               (loc_of_shr_record
                  {| shr_m := q; shr_r := Z.odd x; shr_s := negb (l =? 0) |})).
  assert (Hq' : (q' = q \/ q' = q + 1) /\
                Z.pos M - P <= q' * 2 ^ n <= Z.pos M + P).
  { unfold q'. rewrite H2n.
    destruct (Z.odd x) eqn:Hodd; simpl Z.b2z in Hx;
      destruct (Z.eqb_spec l 0) as [Hl0|Hl0];
      cbn [negb loc_of_shr_record round_nearest_even].
    - destruct (Z.even q); split; try tauto; nia.
    - split; [tauto|]. nia.
    - split; [tauto|]. nia.
    - split; [tauto|]. nia. }
  destruct Hq' as [Hcase Hbound].
  destruct (Z_lt_le_dec q' (2 ^ 53)) as [Hsmall|Hcarry].
  - (* no carry *)
    destruct q' as [|m'|m'] eqn:Hq'v; try lia.
    assert (Hd : Z.pos (digits2_pos m') = 53)
      by (apply digits2_pos_unique; lia).
    rewrite (shr_fexp_exact m' (E + n) 0) by lia.
    rewrite shr_zero. cbn [shr_m].
    destruct (Z.leb_spec (E + n) (1024 - 53)); [|lia].
    exists m', (E + n). split; [reflexivity|]. split; [lia|].
    replace (E + n - E) with n by lia. exact Hbound.
  - (* the rounding carries to 2^53 *)
    assert (Hq'v : q' = 2 ^ 53) by lia.
    destruct q' as [|m'|m'] eqn:Hq'e; try lia.
    assert (Hd : Z.pos (digits2_pos m') = 54)
      by (apply digits2_pos_unique; rewrite Hq'v; simpl; lia).
    rewrite (shr_fexp_exact m' (E + n) 1) by lia.
    rewrite shr_positive by lia.
    cbn [shr_m]. rewrite Hq'v.
    change (2 ^ 53 / 2 ^ 1) with (Z.pos 4503599627370496).
    cbv iota.
    destruct (Z.leb_spec (E + n + 1) (1024 - 53)); [|lia].
    exists 4503599627370496%positive, (E + n + 1).
    split; [reflexivity|]. split; [lia|].
    replace (E + n + 1 - E) with (n + 1) by lia.
    rewrite Z.pow_add_r by lia. change (2 ^ 1) with 2.
    rewrite Hq'v in Hbound.
    change (2 ^ 53) with (Z.pos 4503599627370496 * 2) in Hbound. lia.
Qed.

Lemma lit_0_7_value : Js.lit_0_7 = S754_finite false 6305039478318694 (-53).
Proof. vm_compute. reflexivity. Qed.

(** [Math.floor(S * 0.7)] is the exact [floor(7 S / 10)] or one less. *)
Lemma floor_mul_0_7 (S : Z) :
  0 < S < 2 ^ 50 ->
  exists k,
    Js.Math_floor (Js.mul (Js.of_Z S) Js.lit_0_7) = Js.of_Z k /\
    7 * S / 10 - 1 <= k <= 7 * S / 10.
Proof.
  intros HS.
  rewrite lit_0_7_value, of_Z_positive by lia.
  destruct (normal_mantissa S ltac:(lia)) as [Hm _].
  pose proof (bits_bounds S ltac:(lia)) as HbS.
  assert (Hd : 0 < Binary64.bits S <= 50).
  { split; [apply bits_pos; lia|apply bits_upper; lia]. }
  set (d := Binary64.bits S) in *.
  set (c := 2 ^ (53 - d)).
  assert (Hc : 8 <= c).
  { unfold c. change 8 with (2 ^ 3). apply Z.pow_le_mono_r; lia. }
  assert (Hcd : c * 2 ^ d = 2 ^ 53).
  { unfold c. rewrite <- Z.pow_add_r by lia. f_equal. lia. }
  assert (Hcd1 : c * 2 ^ (d - 1) = 2 ^ 52).
  { unfold c. rewrite <- Z.pow_add_r by lia. f_equal. lia. }
  assert (Hu : 2 ^ 52 <= S * c < 2 ^ 53) by nia.
  unfold Js.mul, Js.prec, Js.emax, Binary64.normal, SFmul. fold d. cbn [xorb].
  set (mS := Z.to_pos (S * 2 ^ (53 - d))) in *.
  set (M := (mS * 6305039478318694)%positive).
  assert (HMv : Z.pos M = S * c * 6305039478318694).
  { unfold M. rewrite Pos2Z.inj_mul, Hm. reflexivity. }
  pose proof (digits2_pos_bounds M) as HD.
  set (D := Z.pos (digits2_pos M)) in *.
  assert (HDr : 105 <= D <= 106).
  { split.
    - destruct (Z_lt_le_dec D 105) as [Hlt|]; [|lia].
      assert (2 ^ D <= 2 ^ 104) by (apply Z.pow_le_mono_r; lia). nia.
    - destruct (Z_lt_le_dec 106 D) as [Hlt|]; [|lia].
      assert (2 ^ 106 <= 2 ^ (D - 1)) by (apply Z.pow_le_mono_r; lia). nia. }
  destruct (round_aux_shift false M (d - 53 + -53) (D - 53))
    as (m' & e' & Hround & He' & HR); try lia.
  rewrite Hround. unfold Js.Math_floor.
  destruct (Z.leb_spec 0 e') as [Hnonneg|Hnegative]; [lia|].
  exists (Z.pos m' / 2 ^ (- e')). split; [reflexivity|].
  set (K := 7 * S / 10).
  assert (HK : 10 * K <= 7 * S < 10 * K + 10).
  { unfold K. pose proof (Z.mul_div_le (7 * S) 10 ltac:(lia)).
    pose proof (Z.mul_succ_div_gt (7 * S) 10 ltac:(lia)). lia. }
  set (W := 2 ^ (- e')).
  set (V := 2 ^ (e' - (d - 53 + -53))) in *.
  assert (HW : 0 < W) by (apply Z.pow_pos_nonneg; lia).
  assert (HV : 0 < V) by (apply Z.pow_pos_nonneg; lia).
  assert (HWV : W * V = c * 2 ^ 53).
  { unfold W, V, c. rewrite <- !Z.pow_add_r by lia. f_equal. lia. }
  assert (Hhalf : 0 < 2 ^ (D - 53 - 1) <= 2 ^ 52).
  { split; [apply Z.pow_pos_nonneg; lia|apply Z.pow_le_mono_r; lia]. }
  set (h := 2 ^ (D - 53 - 1)) in *.
  set (u := S * c) in *.
  assert (HKu : 10 * K * c <= 7 * u < 10 * K * c + 10 * c) by (unfold u; nia).
  assert (Hlow : (K - 1) * (W * V) <= Z.pos m' * V).
  { rewrite HWV. nia. }
  assert (Hhigh : Z.pos m' * V < (K + 1) * (W * V)).
  { rewrite HWV. nia. }
  split.
  - assert (K - 1 <= Z.pos m' / W); [|lia].
    apply Z.div_le_lower_bound; [exact HW|]. nia.
  - assert (Z.pos m' / W < K + 1); [|lia].
    apply Z.div_lt_upper_bound; [exact HW|]. nia.
Qed.

End SafeIntegers.

(* ================================================================== *)
(** * The batch-savings estimator *)
(* ================================================================== *)

Section EstimatorFacts.

Import ShardeumAPI.

(** When no call is rejected, [Promise.all] gives the answers in order. *)
Lemma estimate_all_answers (E : Env) (transactions : list TransactionObject) :
  forall (w : World) (answers : list string) (w' : World),
    estimate_all E transactions w = (Returned answers, w') ->
    List.length answers = List.length transactions /\
    ticks w' = (ticks w + List.length transactions)%nat /\
    batched_transactions w' = batched_transactions w /\
    gas_analytics w' = gas_analytics w.
Proof.
  induction transactions as [|tx rest IH]; intros w answers w' H.
  - simpl in H. inversion H; subst. simpl. repeat split; auto.
  - simpl in H.
    destruct (estimate_all E rest (tick w)) as [os w2] eqn:Hrest.
    destruct (rpc_estimateGas E (ticks w) tx) as [g|e]; [|discriminate].
    destruct os as [gs|e]; [|discriminate].
    inversion H; subst.
    destruct (IH _ _ _ Hrest) as (Hlen & Htick & Htx & Han).
    simpl in *. repeat split; auto. rewrite Htick. lia.
Qed.

(** A safe integer prints as the integer does. *)
Lemma Number_toString16_of_Z (z : Z) :
  Z.abs z < 2 ^ 53 -> Js.Number_toString16 (Js.of_Z z) = Js.BigInt_toString16 z.
Proof.
  intros Hz.
  destruct (of_Z_cases z Hz) as [[Hz0 Hzero]|(sg & w & Hw & Hsg & Hn)].
  - subst z. reflexivity.
  - rewrite Hn, Hsg. unfold Binary64.normal, Js.Number_toString16.
    destruct (normal_mantissa w Hw) as [Hm Hb]. rewrite Hm.
    assert (Hsign : Js.BigInt_toString16 (Binary64.signed sg w)
                    = ((if sg then "-" else "") ++ Js.BigInt_toString16 w)%string).
    { destruct sg; simpl Binary64.signed; [|reflexivity].
      destruct w as [|q|q]; try lia. reflexivity. }
    rewrite Hsign.
    destruct (Z.leb_spec 0 (Binary64.bits w - 53)) as [Hfull|Hpart].
    + replace (53 - Binary64.bits w) with 0 by lia.
      replace (Binary64.bits w - 53) with 0 by lia.
      change (2 ^ 0) with 1. rewrite !Z.mul_1_r. reflexivity.
    + replace (- (Binary64.bits w - 53)) with (53 - Binary64.bits w) by lia.
      assert (Hp : 0 < 2 ^ (53 - Binary64.bits w))
        by (apply Z.pow_pos_nonneg; lia).
      rewrite Z.mod_mul, Z.div_mul by lia. reflexivity.
Qed.

(** The sum of estimates that are safe integers is their exact sum. *)
Lemma totalIndividualGas_exact (answers : list string) (values : list Z) :
  Forall2 (fun a v => Js.parseInt16 a = Js.of_Z v /\ 0 <= v) answers values ->
  forall acc,
    0 <= acc -> acc + fold_right Z.add 0 values < 2 ^ 53 ->
    fold_left (fun sum gas => Js.add sum (Js.parseInt16 gas)) answers
      (Js.of_Z acc)
    = Js.of_Z (acc + fold_right Z.add 0 values).
Proof.
  induction 1 as [|a v answers values [Ha Hv] Hrest IH]; intros acc Hacc Hsum.
  - simpl. rewrite Z.add_0_r. reflexivity.
  - simpl in *.
    assert (Hnonneg : 0 <= fold_right Z.add 0 values).
    { clear - Hrest. induction Hrest as [|? ? ? ? [_ ?] _ IH']; simpl; lia. }
    rewrite Ha. unfold Js.add, Js.prec, Js.emax.
    rewrite add_of_Z by lia.
    rewrite IH by lia. f_equal. lia.
Qed.

(** C7 (amended).  For every non-empty list of transaction objects whose
    gas estimates are all answered with hexadecimal numerals of sum [S],
    [0 < S < 2^50], the estimator returns the answers unchanged, a batch
    gas that is [floor(0.7 * S) + 21000] or one less (the product is the
    binary64 product of [S] and the number nearest to 0.7), a saving that
    is [S] minus that batch gas, both printed in hexadecimal, and the
    percentage saving / S * 100 computed on binary64 numbers. *)
Theorem estimateBatchGasSavings_formulas (E : Env)
    (transactions : list TransactionObject) (w : World)
    (answers : list string) (values : list Z) (w' : World) :
  transactions <> [] ->
  estimate_all E transactions w = (Returned answers, w') ->
  Forall2 (fun a v => Js.parseInt16 a = Js.of_Z v /\ 0 <= v) answers values ->
  let S := fold_right Z.add 0 values in
  0 < S < 2 ^ 50 ->
  exists r batch,
    estimateBatchGasSavings E transactions w = (Returned r, w') /\
    individualGas r = answers /\
    List.length (individualGas r) = List.length transactions /\
    (batch = Spec.batch_gas_in_exact_arithmetic S \/
     batch = Spec.batch_gas_in_exact_arithmetic S - 1) /\
    batchGas r = ("0x" ++ Js.BigInt_toString16 batch)%string /\
    totalSavings r = ("0x" ++ Js.BigInt_toString16 (S - batch))%string /\
    savingsPercentage r
    = Js.mul (Js.div (Js.of_Z (S - batch)) (Js.of_Z S)) (Js.of_Z 100).
Proof.
  intros Hne Hall Hvalues S HS.
  assert (Htotal : totalIndividualGas answers = Js.of_Z S).
  { unfold totalIndividualGas.
    rewrite (totalIndividualGas_exact answers values Hvalues 0) by (fold S; lia).
    reflexivity. }
  destruct (floor_mul_0_7 S HS) as (k & Hfloor & Hk).
  assert (HK : 0 <= 7 * S / 10 < 2 ^ 50).
  { split; [apply Z.div_pos; lia|].
    apply Z.div_lt_upper_bound; lia. }
  assert (Hbatch : estimatedBatchGas (Js.of_Z S) = Js.of_Z (k + 21000)).
  { unfold estimatedBatchGas, batchOverhead. rewrite Hfloor.
    unfold Js.add, Js.prec, Js.emax. apply add_of_Z; lia. }
  assert (Hsavings : Js.sub (Js.of_Z S) (Js.of_Z (k + 21000))
                     = Js.of_Z (S - (k + 21000))).
  { unfold Js.sub, Js.prec, Js.emax. apply sub_of_Z; lia. }
  exists (mkBatchGasSavings answers
            ("0x" ++ Js.BigInt_toString16 (k + 21000))%string
            ("0x" ++ Js.BigInt_toString16 (S - (k + 21000)))%string
            (Js.mul (Js.div (Js.of_Z (S - (k + 21000))) (Js.of_Z S))
               (Js.of_Z 100))),
    (k + 21000).
  split.
  - unfold estimateBatchGasSavings, bind. rewrite Hall. unfold ret.
    rewrite Htotal, Hbatch, Hsavings.
    rewrite !Number_toString16_of_Z by lia. reflexivity.
  - cbn [individualGas batchGas totalSavings savingsPercentage].
    split; [reflexivity|]. split.
    { apply (estimate_all_answers E transactions w answers w' Hall). }
    split; [|repeat split; reflexivity].
    unfold Spec.batch_gas_in_exact_arithmetic. lia.
Qed.

Lemma estimateBatchGasSavings_formulas_witness :
  exists r batch,
    estimateBatchGasSavings Samples.env_ok
      [Samples.transfer Samples.addrB "1"; Samples.transfer Samples.addrC "2"]
      Samples.world0
    = (Returned r, mkWorld [] [] 1 2 []) /\
    individualGas r = ["0x5208"; "0x5208"] /\
    (batch = 50400 \/ batch = 50399) /\
    batchGas r = ("0x" ++ Js.BigInt_toString16 batch)%string.
Proof.
  destruct (estimateBatchGasSavings_formulas Samples.env_ok
              [Samples.transfer Samples.addrB "1";
               Samples.transfer Samples.addrC "2"]
              Samples.world0 ["0x5208"; "0x5208"] [21000; 21000]
              (mkWorld [] [] 1 2 []))
    as (r & batch & Hrun & Hind & _ & Hbatch & Hgas & _).
  - discriminate.
  - reflexivity.
  - repeat constructor; try (vm_compute; reflexivity); lia.
  - vm_compute. split; reflexivity.
  - exists r, batch. split; [exact Hrun|]. split; [exact Hind|].
    split; [exact Hbatch|exact Hgas].
Defined.

(** C7, as stated, fails on one plain transfer: the sum is 21000, the
    exact [floor(0.7 * 21000) + 21000] is 35700, and the estimator answers
    35699 ([0x8b73]), because the binary64 product 21000 * 0.7 is
    14699.999999999998. *)
Lemma estimateBatchGasSavings_not_exact :
  exists r w',
    estimateBatchGasSavings Samples.env_ok [Samples.transfer Samples.addrB "1"]
      Samples.world0 = (Returned r, w') /\
    totalIndividualGas (individualGas r) = Js.of_Z 21000 /\
    batchGas r = ("0x" ++ Js.BigInt_toString16 35699)%string /\
    Spec.batch_gas_in_exact_arithmetic 21000 = 35700 /\
    batchGas r <>
      ("0x" ++ Js.BigInt_toString16 (Spec.batch_gas_in_exact_arithmetic 21000))%string.
Proof.
  eexists. eexists. split; [vm_compute; reflexivity|].
  repeat split; try (vm_compute; reflexivity).
  vm_compute. discriminate.
Qed.

(** C10.  On the empty list, which [POST /api/shardeum] lets through, the
    sum is 0, the batch gas is 21000, the saving is 0 - 21000 < 0 and the
    percentage is (-21000 / 0) * 100 = -Infinity; the route answers 200
    with these figures and no call to the node is made. *)
Theorem empty_list_savings (E : Env) (w : World) :
  totalIndividualGas [] = Js.of_Z 0 /\
  estimatedBatchGas (totalIndividualGas []) = Js.of_Z 21000 /\
  Js.sub (Js.of_Z 0) (Js.of_Z 21000) = Js.of_Z (-21000) /\
  Js.mul (Js.div (Js.of_Z (-21000)) (Js.of_Z 0)) (Js.of_Z 100)
    = S754_infinity true /\
  estimateBatchGasSavings E [] w
    = (Returned (mkBatchGasSavings [] "0x5208" "0x-5208" (S754_infinity true)),
       w) /\
  Routes.POST_shardeum E (Some (Routes.ArrayOf [])) w
    = (Returned
         (Routes.SavingsEstimated
            (mkBatchGasSavings [] "0x5208" "0x-5208" (S754_infinity true))),
       w) /\
  Routes.http_status
    (Routes.SavingsEstimated
       (mkBatchGasSavings [] "0x5208" "0x-5208" (S754_infinity true))) = 200.
Proof.
  repeat split; vm_compute; reflexivity.
Qed.

End EstimatorFacts.

(* ================================================================== *)
(** * Validation in [POST /api/batch] *)
(* ================================================================== *)

Section ValidationFacts.

Import Routes.

Lemma regex_rejects_empty : Js.addressRegex_test "" = false.
Proof. reflexivity. Qed.

Lemma falsy_text (x : option string) :
  falsy x = false -> x = Some (text x).
Proof. destruct x; simpl; [reflexivity|discriminate]. Qed.

(** C3.  A request to [POST /batch] whose [userAddress] or [toAddress]
    does not match [^0x[0-9a-fA-F]{40}$], or whose [amount] does not parse
    as a positive number, is answered with status 400, and the store is
    left as it was: no statement is sent at all. *)
Theorem POST_batch_rejects_malformed (E : Env) (b : BatchBody) (w : World) :
  Spec.is_address (userAddress b) = false \/
  Spec.is_address (toAddress b) = false \/
  Spec.is_positive_number (amount b) = false ->
  exists message,
    POST_batch E (Some b) w = (Returned (ErrorResponse 400 message), w) /\
    http_status (ErrorResponse 400 message) = 400.
Proof.
  intros H. unfold POST_batch, try_catch.
  destruct (falsy (userAddress b) || falsy (toAddress b) || falsy (amount b))
    eqn:Hfalsy.
  - eexists. split; reflexivity.
  - apply orb_false_elim in Hfalsy. destruct Hfalsy as [Hfalsy Ham].
    apply orb_false_elim in Hfalsy. destruct Hfalsy as [Hus Hto].
    apply falsy_text in Hus, Hto, Ham.
    destruct (negb (Js.addressRegex_test (text (userAddress b)))
              || negb (Js.addressRegex_test (text (toAddress b)))) eqn:Haddr.
    + eexists. split; reflexivity.
    + apply orb_false_elim in Haddr. destruct Haddr as [Ha1 Ha2].
      apply negb_false_iff in Ha1, Ha2.
      destruct (Js.Number_isNaN (text (amount b))
                || Js.Number_le_zero (text (amount b))) eqn:Hnum.
      * eexists. split; reflexivity.
      * exfalso. apply orb_false_elim in Hnum. destruct Hnum as [Hn1 Hn2].
        rewrite Hus, Hto, Ham in H. simpl in H.
        rewrite Ha1, Ha2, Hn1, Hn2 in H. simpl in H.
        destruct H as [H|[H|H]]; discriminate.
Qed.

Lemma POST_batch_rejects_malformed_witness :
  exists message,
    POST_batch Samples.env_ok
      (Some (mkBatchBody (Some Samples.addrA) (Some "0x1234")
               (Some "1000000000000000000") None None))
      Samples.world0
    = (Returned (ErrorResponse 400 message), Samples.world0) /\
    http_status (ErrorResponse 400 message) = 400.
Proof.
  apply (POST_batch_rejects_malformed Samples.env_ok
           (mkBatchBody (Some Samples.addrA) (Some "0x1234")
              (Some "1000000000000000000") None None)
           Samples.world0).
  right. left. reflexivity.
Defined.

(** A body that cannot be read (not JSON, or [null]) is answered 500 by
    the outer [catch]; nothing is persisted either. *)
Lemma POST_batch_unreadable_body (E : Env) (w : World) :
  POST_batch E None w
  = (Returned (ErrorResponse 500 "Failed to add transaction to batch"), w).
Proof. reflexivity. Qed.

End ValidationFacts.

(* ================================================================== *)
(** * Enqueueing: [addToBatch] *)
(* ================================================================== *)

Section EnqueueFacts.

Import BatchingService.

Variable E : Env.



End EnqueueFacts.


(* ================================================================== *)
(** * Grouping and ordering: [optimizeBatch] *)
(* ================================================================== *)

Section OptimizeFacts.

Import BatchingService.

(** ** Membership in a list of strings *)

Lemma mem_string_In (x : string) (l : list string) :
  Db.mem_string x l = true <-> In x l.
Proof.
  unfold Db.mem_string. rewrite existsb_exists. split.
  - intros (y & Hin & Heq). apply String.eqb_eq in Heq. subst. exact Hin.
  - intros Hin. exists x. split; [exact Hin|apply String.eqb_refl].
Qed.

Lemma mem_string_not_In (x : string) (l : list string) :
  Db.mem_string x l = false <-> ~ In x l.
Proof.
  rewrite <- mem_string_In. destruct (Db.mem_string x l); split; congruence.
Qed.

(** ** The grouping pass *)

Lemma perm_concat {A} (l l' : list (list A)) :
  Permutation l l' -> Permutation (List.concat l) (List.concat l').
Proof.
  induction 1; simpl.
  - constructor.
  - apply Permutation_app_head. assumption.
  - rewrite !app_assoc. apply Permutation_app_tail. apply Permutation_app_comm.
  - etransitivity; eassumption.
Qed.

Lemma group_by_key_snoc (txs : list BatchTransaction) (tx : BatchTransaction) :
  group_by_key (txs ++ [tx])
  = push_to_group (group_key tx) tx (group_by_key txs).
Proof. unfold group_by_key. rewrite fold_left_app. reflexivity. Qed.

Lemma distinct_keys_snoc (txs : list BatchTransaction) (tx : BatchTransaction) :
  Spec.distinct_keys (txs ++ [tx])
  = if Db.mem_string (group_key tx) (Spec.distinct_keys txs)
    then Spec.distinct_keys txs
    else Spec.distinct_keys txs ++ [group_key tx].
Proof. unfold Spec.distinct_keys. rewrite fold_left_app. reflexivity. Qed.

Lemma distinct_keys_In (txs : list BatchTransaction) :
  forall k,
    In k (Spec.distinct_keys txs) <-> exists tx, In tx txs /\ group_key tx = k.
Proof.
  induction txs as [|tx txs IH] using rev_ind; intros k.
  - simpl. split; [tauto|]. intros (tx & [] & _).
  - rewrite distinct_keys_snoc.
    destruct (Db.mem_string (group_key tx) (Spec.distinct_keys txs)) eqn:Hm.
    + rewrite IH. split.
      * intros (tx' & Hin & Hk). exists tx'. split; [|exact Hk].
        apply in_or_app. left. exact Hin.
      * intros (tx' & Hin & Hk). apply in_app_or in Hin.
        destruct Hin as [Hin|[Heq|[]]].
        -- exists tx'. split; assumption.
        -- subst tx'. apply mem_string_In in Hm. apply IH in Hm.
           rewrite <- Hk. exact Hm.
    + rewrite in_app_iff, IH. simpl. split.
      * intros [(tx' & Hin & Hk)|[Hk|[]]].
        -- exists tx'. split; [|exact Hk]. apply in_or_app. left. exact Hin.
        -- exists tx. split; [|exact Hk]. apply in_or_app. right. left.
           reflexivity.
      * intros (tx' & Hin & Hk). apply in_app_or in Hin.
        destruct Hin as [Hin|[Heq|[]]].
        -- left. exists tx'. split; assumption.
        -- subst tx'. right. left. exact Hk.
Qed.

Lemma distinct_keys_NoDup (txs : list BatchTransaction) :
  NoDup (Spec.distinct_keys txs).
Proof.
  induction txs as [|tx txs IH] using rev_ind.
  - constructor.
  - rewrite distinct_keys_snoc.
    destruct (Db.mem_string (group_key tx) (Spec.distinct_keys txs)) eqn:Hm.
    + exact IH.
    + apply mem_string_not_In in Hm.
      apply NoDup_app; [exact IH|repeat constructor; simpl; tauto|].
      intros x Hx [Hx'|[]]. subst x. contradiction.
Qed.

Lemma with_key_snoc (k : string) (txs : list BatchTransaction)
    (tx : BatchTransaction) :
  Spec.with_key k (txs ++ [tx])
  = Spec.with_key k txs
    ++ (if String.eqb (group_key tx) k then [tx] else []).
Proof. unfold Spec.with_key. rewrite filter_app. reflexivity. Qed.

Lemma with_key_absent (k : string) (txs : list BatchTransaction) :
  ~ In k (Spec.distinct_keys txs) -> Spec.with_key k txs = [].
Proof.
  intros Hk. unfold Spec.with_key.
  destruct (filter (fun tx => String.eqb (group_key tx) k) txs)
    as [|tx l] eqn:Hf; [reflexivity|].
  exfalso. apply Hk. apply distinct_keys_In.
  assert (Hin : In tx (filter (fun tx => String.eqb (group_key tx) k) txs))
    by (rewrite Hf; left; reflexivity).
  apply filter_In in Hin. destruct Hin as [Hin Heq].
  apply String.eqb_eq in Heq. exists tx. split; assumption.
Qed.

(** Pushing a transaction into the groups of the transactions before it. *)
Lemma push_to_group_classes (k : string) (tx : BatchTransaction)
    (txs : list BatchTransaction) (ks : list string) :
  group_key tx = k ->
  NoDup ks ->
  (~ In k ks -> Spec.with_key k txs = []) ->
  push_to_group k tx (map (fun k' => (k', Spec.with_key k' txs)) ks)
  = map (fun k' => (k', Spec.with_key k' (txs ++ [tx])))
      (if Db.mem_string k ks then ks else ks ++ [k]).
Proof.
  intros Hk. induction ks as [|k0 ks IH]; intros Hnd Habs.
  - simpl. rewrite with_key_snoc, Hk, String.eqb_refl.
    rewrite Habs by (simpl; tauto). reflexivity.
  - simpl. inversion Hnd as [|? ? Hnotin Hnd']; subst.
    destruct (String.eqb_spec k0 (group_key tx)) as [Heq|Hne].
    + subst k0. rewrite String.eqb_refl. simpl.
      rewrite with_key_snoc, String.eqb_refl. f_equal.
      apply map_ext_in. intros k' Hin.
      rewrite with_key_snoc.
      destruct (String.eqb_spec (group_key tx) k') as [Heq'|_].
      * subst k'. contradiction.
      * rewrite app_nil_r. reflexivity.
    + assert (Hne' : String.eqb (group_key tx) k0 = false).
      { apply String.eqb_neq. congruence. }
      unfold Db.mem_string in *. simpl. rewrite Hne'. simpl.
      rewrite IH; [|exact Hnd'|].
      * destruct (existsb (String.eqb (group_key tx)) ks); simpl;
          rewrite with_key_snoc, Hne', app_nil_r; reflexivity.
      * intros Hno. apply Habs. simpl. intros [Heq|Hin]; [congruence|].
        contradiction.
Qed.

(** The groups, before they are ordered: one per key, holding the
    transactions of that key in input order. *)
Lemma group_by_key_classes (txs : list BatchTransaction) :
  group_by_key txs
  = map (fun k => (k, Spec.with_key k txs)) (Spec.distinct_keys txs).
Proof.
  induction txs as [|tx txs IH] using rev_ind.
  - reflexivity.
  - rewrite group_by_key_snoc, IH, distinct_keys_snoc.
    apply push_to_group_classes.
    + reflexivity.
    + apply distinct_keys_NoDup.
    + apply with_key_absent.
Qed.

Lemma push_to_group_concat (k : string) (tx : BatchTransaction)
    (groups : Groups) :
  Permutation (List.concat (map snd (push_to_group k tx groups)))
    (tx :: List.concat (map snd groups)).
Proof.
  induction groups as [|[k0 g] rest IH]; simpl.
  - apply Permutation_refl.
  - destruct (String.eqb k0 k); simpl.
    + rewrite <- app_assoc. simpl.
      apply Permutation_sym. apply Permutation_middle.
    + etransitivity; [apply Permutation_app_head; exact IH|].
      apply Permutation_sym. apply Permutation_middle.
Qed.

Lemma group_by_key_concat (txs : list BatchTransaction) :
  Permutation (List.concat (map snd (group_by_key txs))) txs.
Proof.
  induction txs as [|tx txs IH] using rev_ind.
  - constructor.
  - rewrite group_by_key_snoc.
    etransitivity; [apply push_to_group_concat|].
    etransitivity; [apply perm_skip; exact IH|].
    apply Permutation_cons_append.
Qed.

(** ** The ordering pass *)

Lemma sort_insert_perm {A} (cmp : A -> A -> Outcome Z) (x : A) :
  forall sorted l,
    sort_insert cmp x sorted = Returned l -> Permutation l (x :: sorted).
Proof.
  induction sorted as [|y rest IH]; intros l H; simpl in H.
  - inversion H. apply Permutation_refl.
  - destruct (cmp x y) as [c|e]; [|discriminate].
    destruct (c <? 0).
    + inversion H. apply Permutation_refl.
    + destruct (sort_insert cmp x rest) as [l'|e]; [|discriminate].
      inversion H; subst.
      etransitivity; [apply perm_skip; apply IH; reflexivity|].
      apply perm_swap.
Qed.

Lemma sort_from_perm {A} (cmp : A -> A -> Outcome Z) :
  forall l sorted l',
    sort_from cmp sorted l = Returned l' -> Permutation l' (sorted ++ l).
Proof.
  induction l as [|x rest IH]; intros sorted l' H; simpl in H.
  - inversion H. rewrite app_nil_r. apply Permutation_refl.
  - destruct (sort_insert cmp x sorted) as [s'|e] eqn:Hins; [|discriminate].
    apply IH in H. apply sort_insert_perm in Hins.
    etransitivity; [exact H|].
    etransitivity; [apply Permutation_app_tail; exact Hins|].
    simpl. apply Permutation_middle.
Qed.

(** Whenever [optimizeBatch] returns, its groups hold the input
    transactions, each as often as the input does. *)
Lemma optimizeBatch_permutation (txs : list BatchTransaction)
    (groups : list (list BatchTransaction)) :
  optimizeBatch txs = Returned groups ->
  Permutation groups (map snd (group_by_key txs)) /\
  Permutation (List.concat groups) txs.
Proof.
  unfold optimizeBatch, Array_sort. intros H.
  apply sort_from_perm in H. simpl in H. split; [exact H|].
  etransitivity; [apply perm_concat; exact H|].
  apply group_by_key_concat.
Qed.

(** ** Totals and the comparator on integer amounts *)

Lemma total_from_integer (a : list BatchTransaction) :
  Forall Spec.integer_amount a ->
  forall sum, total_from sum a = Returned (sum + Spec.summed_amount a).
Proof.
  induction 1 as [|tx rest Htx _ IH]; intros sum; simpl.
  - f_equal. lia.
  - unfold BigInt_or_throw, Spec.amount_of. unfold Spec.integer_amount in Htx.
    destruct (Js.BigInt (amount tx)) as [v|]; [|congruence].
    rewrite IH. f_equal. lia.
Qed.

Lemma compare_groups_integer (a b : list BatchTransaction) :
  Forall Spec.integer_amount a -> Forall Spec.integer_amount b ->
  compare_groups a b
  = Returned (if Spec.summed_amount b >? Spec.summed_amount a then 1 else -1).
Proof.
  intros Ha Hb. unfold compare_groups, group_total.
  rewrite (total_from_integer a Ha), (total_from_integer b Hb). reflexivity.
Qed.

Lemma sort_insert_descending (x : list BatchTransaction) :
  Forall Spec.integer_amount x ->
  forall sorted,
    Forall (Forall Spec.integer_amount) sorted ->
    Spec.descending sorted ->
    exists l,
      sort_insert compare_groups x sorted = Returned l /\
      Spec.descending l /\
      Forall (Forall Spec.integer_amount) l.
Proof.
  intros Hx. unfold Spec.descending.
  induction sorted as [|y rest IH]; intros Hint Hsorted; simpl.
  - eexists. split; [reflexivity|]. split; repeat constructor. exact Hx.
  - inversion Hint as [|? ? Hy Hrest]; subst.
    apply StronglySorted_inv in Hsorted. destruct Hsorted as [Hs Hall].
    rewrite (compare_groups_integer x y Hx Hy).
    destruct (Spec.summed_amount y >? Spec.summed_amount x) eqn:Hcmp; simpl.
    + destruct (IH Hrest Hs) as (l & Hl & Hsl & Hil).
      rewrite Hl. eexists. split; [reflexivity|]. split.
      * constructor; [exact Hsl|].
        apply sort_insert_perm in Hl.
        eapply Permutation_Forall; [apply Permutation_sym; exact Hl|].
        constructor; [lia|exact Hall].
      * constructor; assumption.
    + eexists. split; [reflexivity|]. split.
      * constructor; [constructor; assumption|].
        constructor; [lia|].
        eapply Forall_impl; [|exact Hall]. simpl. intros z Hz. lia.
      * constructor; [exact Hx|]. constructor; assumption.
Qed.

Lemma sort_from_descending :
  forall l sorted,
    Forall (Forall Spec.integer_amount) l ->
    Forall (Forall Spec.integer_amount) sorted ->
    Spec.descending sorted ->
    exists l',
      sort_from compare_groups sorted l = Returned l' /\ Spec.descending l'.
Proof.
  induction l as [|x rest IH]; intros sorted Hl Hs Hd; simpl.
  - eexists. split; [reflexivity|exact Hd].
  - inversion Hl as [|? ? Hx Hrest]; subst.
    destruct (sort_insert_descending x Hx sorted Hs Hd) as (s' & Hins & Hd' & Hs').
    rewrite Hins. apply IH; assumption.
Qed.

(** ** The key and the pair (recipient, token) *)

Lemma append_separator_inj (a b x y : string) :
  Spec.no_underscore a = true -> Spec.no_underscore b = true ->
  (a ++ "_" ++ x)%string = (b ++ "_" ++ y)%string -> a = b /\ x = y.
Proof.
  revert b. induction a as [|c a IH]; intros [|d b] Ha Hb H; simpl in *.
  - inversion H. split; reflexivity.
  - inversion H; subst. unfold Spec.no_underscore in Hb. simpl in Hb.
    discriminate.
  - inversion H; subst. unfold Spec.no_underscore in Ha. simpl in Ha.
    discriminate.
  - inversion H; subst.
    unfold Spec.no_underscore in *. simpl in Ha, Hb.
    apply andb_true_iff in Ha, Hb.
    destruct (IH b (proj2 Ha) (proj2 Hb) H2) as [-> ->].
    split; reflexivity.
Qed.

Lemma group_key_same_destination (tx tx' : BatchTransaction) :
  Spec.no_underscore (toAddress tx) = true ->
  Spec.no_underscore (toAddress tx') = true ->
  String.eqb (group_key tx') (group_key tx) = Spec.same_destination tx tx'.
Proof.
  intros H H'. unfold Spec.same_destination, group_key.
  destruct (String.eqb_spec (toAddress tx') (toAddress tx)) as [Hto|Hto];
    destruct (String.eqb_spec (token_or_native tx') (token_or_native tx))
      as [Htok|Htok]; simpl.
  - rewrite Hto, Htok. apply String.eqb_refl.
  - apply String.eqb_neq. intros Heq.
    apply append_separator_inj in Heq; tauto.
  - apply String.eqb_neq. intros Heq.
    apply append_separator_inj in Heq; tauto.
  - apply String.eqb_neq. intros Heq.
    apply append_separator_inj in Heq; tauto.
Qed.

(** A string that matches the address pattern has no underscore. *)
Lemma hex_digit_not_underscore (c : ascii) :
  Js.is_digit_in 16 c = true -> negb (Ascii.eqb c "_") = true.
Proof.
  destruct c as [[] [] [] [] [] [] [] []]; vm_compute; congruence.
Qed.

Lemma address_no_underscore (s : string) :
  Js.addressRegex_test s = true -> Spec.no_underscore s = true.
Proof.
  unfold Js.addressRegex_test, Spec.no_underscore.
  destruct (list_ascii_of_string s) as [|z [|x r]]; try discriminate.
  intros H. apply andb_true_iff in H. destruct H as [H Hhex].
  apply andb_true_iff in H. destruct H as [H _].
  apply andb_true_iff in H. destruct H as [Hz Hx].
  unfold Js.chr in *. apply Ascii.eqb_eq in Hz, Hx. subst z x. simpl.
  rewrite forallb_forall in *. intros c Hc.
  apply hex_digit_not_underscore. apply Hhex. exact Hc.
Qed.

(** ** The groups of [optimizeBatch] *)

Lemma with_key_same_destination (txs : list BatchTransaction)
    (tx : BatchTransaction) :
  Forall (fun t => Spec.no_underscore (toAddress t) = true) txs ->
  In tx txs ->
  Spec.with_key (group_key tx) txs = filter (Spec.same_destination tx) txs.
Proof.
  intros Hno Hin. unfold Spec.with_key. apply filter_ext_in.
  intros tx' Hin'. rewrite Forall_forall in Hno.
  apply group_key_same_destination; apply Hno; assumption.
Qed.

Lemma classes_NoDup (txs : list BatchTransaction) :
  NoDup (map (fun k => Spec.with_key k txs) (Spec.distinct_keys txs)).
Proof.
  apply NoDup_map_NoDup_ForallPairs; [|apply distinct_keys_NoDup].
  intros k k' Hk Hk' Heq.
  apply distinct_keys_In in Hk. destruct Hk as (tx & Hin & Hkey).
  assert (Hmem : In tx (Spec.with_key k txs)).
  { unfold Spec.with_key. apply filter_In. split; [exact Hin|].
    rewrite Hkey. apply String.eqb_refl. }
  rewrite Heq in Hmem. unfold Spec.with_key in Hmem.
  apply filter_In in Hmem. destruct Hmem as [_ Hmem].
  apply String.eqb_eq in Hmem. congruence.
Qed.

(** C5 (amended).  For every input list whose amounts are integer strings
    and whose recipients contain no underscore (every well-formed address
    is such), [optimizeBatch] returns groups that partition the input by
    recipient and token, an absent or empty token counting as the token
    [native]: the groups hold the input transactions (as many times as the
    input does), every input transaction has its group, which is exactly
    the list of the input transactions with its recipient and token, every
    group is such a list, no group occurs twice, and the groups come in
    descending order of summed amount. *)
Theorem optimizeBatch_partition (txs : list BatchTransaction) :
  Forall Spec.integer_amount txs ->
  Forall (fun t => Spec.no_underscore (toAddress t) = true) txs ->
  exists groups,
    optimizeBatch txs = Returned groups /\
    Permutation (List.concat groups) txs /\
    (forall tx, In tx txs ->
       In (filter (Spec.same_destination tx) txs) groups) /\
    (forall g, In g groups ->
       exists tx, In tx txs /\ g = filter (Spec.same_destination tx) txs) /\
    NoDup groups /\
    Spec.descending groups.
Proof.
  intros Hint Hno.
  assert (Hclasses :
            map snd (group_by_key txs)
            = map (fun k => Spec.with_key k txs) (Spec.distinct_keys txs)).
  { rewrite group_by_key_classes, map_map. reflexivity. }
  destruct (sort_from_descending (map snd (group_by_key txs)) [])
    as (groups & Hsort & Hdesc).
  { rewrite Hclasses. apply Forall_map. apply Forall_forall. intros k _.
    unfold Spec.with_key. rewrite Forall_forall in *.
    intros tx Htx. apply filter_In in Htx. apply Hint. tauto. }
  { constructor. }
  { constructor. }
  exists groups.
  assert (Hrun : optimizeBatch txs = Returned groups) by exact Hsort.
  destruct (optimizeBatch_permutation txs groups Hrun) as [Hperm Hconcat].
  rewrite Hclasses in Hperm.
  split; [exact Hrun|]. split; [exact Hconcat|]. split; [|split; [|split]].
  - intros tx Hin.
    eapply Permutation_in; [apply Permutation_sym; exact Hperm|].
    rewrite <- (with_key_same_destination txs tx Hno Hin).
    apply (in_map (fun k => Spec.with_key k txs)).
    apply distinct_keys_In. exists tx. split; [exact Hin|]. reflexivity.
  - intros g Hg.
    eapply Permutation_in in Hg; [|exact Hperm].
    apply in_map_iff in Hg. destruct Hg as (k & Hk & Hin).
    apply distinct_keys_In in Hin. destruct Hin as (tx & Hin & Hkey).
    exists tx. split; [exact Hin|].
    rewrite <- (with_key_same_destination txs tx Hno Hin), Hkey.
    symmetry. exact Hk.
  - eapply Permutation_NoDup; [apply Permutation_sym; exact Hperm|].
    apply classes_NoDup.
  - exact Hdesc.
Qed.

Lemma optimizeBatch_partition_witness :
  exists groups,
    optimizeBatch Samples.three_transfers = Returned groups /\
    groups
    = [[Samples.queued "b2" Samples.addrC "7" None];
       [Samples.queued "b1" Samples.addrB "5" None;
        Samples.queued "b3" Samples.addrB "1" None]] /\
    Spec.descending groups.
Proof.
  destruct (optimizeBatch_partition Samples.three_transfers)
    as (groups & Hrun & _ & _ & _ & _ & Hdesc).
  - repeat constructor; vm_compute; discriminate.
  - repeat constructor.
  - exists groups. split; [exact Hrun|]. split; [|exact Hdesc].
    vm_compute in Hrun. inversion Hrun. reflexivity.
Defined.

(** C5, as stated for every input list, fails twice.  An amount that is
    not an integer string makes the comparator throw as soon as there are
    two groups, and [1.5] is an amount that [POST /batch] accepts.  And
    two recipients are put in one group when the keys built from them
    coincide. *)
Lemma optimizeBatch_not_always_a_partition :
  (Spec.is_positive_number (Some "1.5") = true /\
   optimizeBatch
     [Samples.queued "b1" Samples.addrB "1.5" None;
      Samples.queued "b2" Samples.addrC "2" None]
   = Thrown "Cannot convert 1.5 to a BigInt") /\
  (optimizeBatch
     [Samples.queued "b1" "a_b" "1" None;
      Samples.queued "b2" "a" "1" (Some "b_native")]
   = Returned
       [[Samples.queued "b1" "a_b" "1" None;
         Samples.queued "b2" "a" "1" (Some "b_native")]] /\
   toAddress (Samples.queued "b1" "a_b" "1" None)
   <> toAddress (Samples.queued "b2" "a" "1" (Some "b_native"))).
Proof.
  split; split; try (vm_compute; reflexivity).
  vm_compute. discriminate.
Qed.

End OptimizeFacts.

(* ================================================================== *)
(** * Execution: [executeImmediateTransaction], [executeBatch] and
      [processAutoBatching] *)
(* ================================================================== *)

Section ExecuteFacts.

Import BatchingService.

Variable E : Env.

(** ** Stepping through a computation *)

Lemma try_catch_bind {A B} (c : Async A) (k : A -> Async B)
    (h : string -> Async B) (w : World) :
  try_catch (bind c k) h w
  = match c w with
    | (Returned a, w1) => try_catch (k a) h w1
    | (Thrown e, w1) => h e w1
    end.
Proof.
  unfold try_catch, bind. destruct (c w) as [[a|e] w1]; reflexivity.
Qed.

Lemma statement_accepted {A} (q : Db.Query)
    (effect : nat -> World -> Outcome A * World) (w : World) :
  db_fault E (ticks w) q = None ->
  statement E q effect w = effect (ticks w) (tick w).
Proof. intros H. unfold statement. rewrite H. reflexivity. Qed.

Lemma statement_rejected {A} (q : Db.Query)
    (effect : nat -> World -> Outcome A * World) (w : World) (e : string) :
  db_fault E (ticks w) q = Some e ->
  statement E q effect w = (Thrown e, tick w).
Proof. intros H. unfold statement. rewrite H. reflexivity. Qed.

Lemma keeps_snd {A} (P : World -> World -> Prop) (c : Async A) (w : World) :
  Spec.keeps P c -> P w (snd (c w)).
Proof. intros H. apply H. Qed.

(** ** Records outside the request are not written *)

Lemma untouched_executeImmediateTransaction (ids : list string)
    (b : string) :
  Db.mem_string b ids = true ->
  Spec.keeps (Spec.untouched_outside ids) (executeImmediateTransaction E b).
Proof.
  intros Hb. unfold executeImmediateTransaction.
  repeat first
    [ keeps_step
    | apply untouched_update_executing; exact Hb
    | apply untouched_update_completed; exact Hb
    | apply untouched_update_failed; exact Hb
    | apply untouched_sendTransaction
    | apply untouched_updateAnalytics ].
Qed.

Lemma untouched_executeBatch_loop (ids : list string) :
  forall (txs : list BatchTransaction) (acc : Z * list string),
    (forall tx, In tx txs -> Db.mem_string (batchId tx) ids = true) ->
    Spec.keeps (Spec.untouched_outside ids) (executeBatch_loop E acc txs).
Proof.
  induction txs as [|tx rest IH]; intros acc Hin; simpl.
  - keeps_step.
  - assert (Htx : Db.mem_string (batchId tx) ids = true)
      by (apply Hin; left; reflexivity).
    unfold executeBatch_step.
    repeat first
      [ keeps_step
      | apply untouched_update_completed; exact Htx
      | apply untouched_update_failed; exact Htx ].
    apply IH. intros tx' Hin'. apply Hin. right. exact Hin'.
Qed.

Lemma mem_map_batchId (txs : list BatchTransaction) (tx : BatchTransaction) :
  In tx txs -> Db.mem_string (batchId tx) (map batchId txs) = true.
Proof. intros H. apply mem_string_In. apply in_map. exact H. Qed.

Lemma untouched_executeBatch (ids : list string)
    (txs : list BatchTransaction) :
  (forall tx, In tx txs -> Db.mem_string (batchId tx) ids = true) ->
  Spec.keeps (Spec.untouched_outside ids) (executeBatch E txs).
Proof.
  intros Hin. unfold executeBatch.
  assert (Hsub : forall x,
             Db.mem_string x (map batchId txs) = true ->
             Db.mem_string x ids = true).
  { intros x Hx. apply mem_string_In in Hx. apply in_map_iff in Hx.
    destruct Hx as (tx & <- & Htx). apply Hin. exact Htx. }
  destruct txs as [|tx rest]; [keeps_step|].
  repeat first
    [ keeps_step
    | apply untouched_update_executing_any; exact Hsub
    | apply untouched_update_failed_any; exact Hsub
    | apply untouched_executeBatch_loop; exact Hin
    | apply untouched_updateAnalytics ].
Qed.

Lemma untouched_addToBatch (ids : list string) (u t a : string)
    (tok : option string) (s : option Z) :
  Spec.keeps (Spec.untouched_outside ids) (addToBatch E u t a tok s).
Proof.
  unfold addToBatch, generateBatchId.
  repeat first
    [ keeps_step
    | apply untouched_estimateTransactionGas
    | apply untouched_insert_transaction ].
Qed.

Lemma untouched_execute_groups (ids : list string) (minimum : Z) :
  forall groups : list (list BatchTransaction),
    (forall g tx, In g groups -> In tx g ->
                  Db.mem_string (batchId tx) ids = true) ->
    Spec.keeps (Spec.untouched_outside ids) (execute_groups E minimum groups).
Proof.
  induction groups as [|g rest IH]; intros Hin; simpl.
  - keeps_step.
  - keeps_step.
    + destruct (Z.of_nat (List.length g) >=? minimum).
      * keeps_step; [|keeps_step].
        apply untouched_executeBatch. intros tx Htx.
        apply (Hin g tx); [left; reflexivity|exact Htx].
      * keeps_step.
    + apply IH. intros g' tx Hg' Htx. apply (Hin g' tx); [right|]; assumption.
Qed.

(** ** Reading the pending records *)

Lemma same_tables_getPendingTransactions (limit : Z) :
  Spec.keeps Spec.same_tables (getPendingTransactions E limit).
Proof. unfold getPendingTransactions. repeat keeps_step. Qed.

Lemma same_calls_getPendingTransactions (limit : Z) :
  Spec.keeps Spec.same_calls (getPendingTransactions E limit).
Proof. unfold getPendingTransactions. repeat keeps_step. Qed.

Lemma insert_by_created_at_In (r x : Db.TxRow) (l : list Db.TxRow) :
  In x (Db.insert_by_created_at r l) -> x = r \/ In x l.
Proof.
  induction l as [|y l IH]; simpl.
  - intros [H|[]]. left. congruence.
  - destruct (Db.created_at r <? Db.created_at y); simpl.
    + intros [H|H]; [left; congruence|right; exact H].
    + intros [H|H]; [right; left; exact H|].
      destruct (IH H) as [H'|H']; [left|right; right]; assumption.
Qed.

Lemma order_by_created_at_In (x : Db.TxRow) (l : list Db.TxRow) :
  In x (Db.order_by_created_at l) -> In x l.
Proof.
  unfold Db.order_by_created_at.
  assert (H : forall l acc,
             In x (fold_left
                     (fun acc r => Db.insert_by_created_at r acc) l acc) ->
             In x l \/ In x acc).
  { clear l. induction l as [|r l IH]; intros acc Hin; simpl in *.
    - right. exact Hin.
    - destruct (IH _ Hin) as [H|H]; [left; right; exact H|].
      apply insert_by_created_at_In in H.
      destruct H as [H|H]; [left; left; congruence|right; exact H]. }
  intros Hin. destruct (H l [] Hin) as [H'|[]]. exact H'.
Qed.

Lemma firstn_subset {A} (n : nat) (l : list A) (x : A) :
  In x (firstn n l) -> In x l.
Proof.
  intros H. rewrite <- (firstn_skipn n l). apply in_or_app. left. exact H.
Qed.

(** The transactions read are pending records of the table. *)
Lemma getPendingTransactions_pending (limit : Z) (w w1 : World)
    (pendingTransactions : list BatchTransaction) :
  getPendingTransactions E limit w = (Returned pendingTransactions, w1) ->
  forall tx,
    In tx pendingTransactions ->
    exists row,
      In row (batched_transactions w) /\ Db.status row = Db.pending /\
      batchId tx = Db.batch_id row.
Proof.
  unfold getPendingTransactions, bind, connect, select_pending, statement, ret.
  destruct (db_fault E (ticks w) Db.Connect); [discriminate|].
  simpl.
  destruct (db_fault E (S (ticks w)) (Db.SelectPending limit));
    [discriminate|].
  destruct (limit <? 0); [discriminate|].
  intros H tx Hin. inversion H; subst. clear H.
  apply in_map_iff in Hin. destruct Hin as (row & <- & Hrow).
  apply firstn_subset in Hrow. apply order_by_created_at_In in Hrow.
  apply filter_In in Hrow. destruct Hrow as [Hrow Hst].
  exists row. split; [exact Hrow|]. split; [|reflexivity].
  destruct (Db.status row); try discriminate. reflexivity.
Qed.

(** ** The identifiers stay pairwise distinct *)

Lemma unique_executeImmediateTransaction (b : string) :
  Spec.keeps Spec.keeps_unique_ids (executeImmediateTransaction E b).
Proof.
  unfold executeImmediateTransaction.
  repeat first
    [ keeps_step
    | apply unique_update_executing
    | apply unique_update_completed
    | apply unique_update_failed
    | apply unique_sendTransaction
    | apply unique_updateAnalytics ].
Qed.

Lemma unique_executeBatch_loop :
  forall (txs : list BatchTransaction) (acc : Z * list string),
    Spec.keeps Spec.keeps_unique_ids (executeBatch_loop E acc txs).
Proof.
  induction txs as [|tx rest IH]; intros acc; simpl.
  - keeps_step.
  - unfold executeBatch_step.
    repeat first
      [ keeps_step
      | apply unique_update_completed
      | apply unique_update_failed ].
    apply IH.
Qed.

Lemma unique_executeBatch (txs : list BatchTransaction) :
  Spec.keeps Spec.keeps_unique_ids (executeBatch E txs).
Proof.
  unfold executeBatch. destruct txs as [|tx rest]; [keeps_step|].
  repeat first
    [ keeps_step
    | apply unique_update_executing_any
    | apply unique_update_failed_any
    | apply unique_executeBatch_loop
    | apply unique_updateAnalytics ].
Qed.

Lemma unique_addToBatch (u t a : string) (tok : option string)
    (s : option Z) :
  Spec.keeps Spec.keeps_unique_ids (addToBatch E u t a tok s).
Proof.
  unfold addToBatch, generateBatchId.
  repeat first
    [ keeps_step
    | apply unique_estimateTransactionGas
    | apply unique_insert_transaction ].
Qed.

Lemma unique_execute_groups (minimum : Z) :
  forall groups : list (list BatchTransaction),
    Spec.keeps Spec.keeps_unique_ids (execute_groups E minimum groups).
Proof.
  induction groups as [|g rest IH]; simpl.
  - keeps_step.
  - keeps_step; [|apply IH].
    destruct (Z.of_nat (List.length g) >=? minimum).
    + keeps_step; [apply unique_executeBatch|keeps_step].
    + keeps_step.
Qed.

Lemma unique_processAutoBatching (config : BatchConfig) :
  Spec.keeps Spec.keeps_unique_ids (processAutoBatching E config).
Proof.
  unfold processAutoBatching, getPendingTransactions.
  repeat keeps_step. apply unique_execute_groups.
Qed.

Lemma unique_perform (op : Spec.Operation) (w : World) :
  Spec.unique_ids w -> Spec.unique_ids (Spec.perform E op w).
Proof.
  destruct op; simpl.
  - apply (unique_addToBatch _ _ _ _ _ w).
  - apply (unique_executeImmediateTransaction _ w).
  - apply (unique_executeBatch _ w).
  - apply (unique_processAutoBatching _ w).
Qed.

(** ** [processAutoBatching] writes pending records only *)

Lemma unique_ids_same_row (w : World) (r r' : Db.TxRow) :
  Spec.unique_ids w ->
  In r (batched_transactions w) -> In r' (batched_transactions w) ->
  Db.batch_id r = Db.batch_id r' -> r = r'.
Proof.
  unfold Spec.unique_ids. generalize (batched_transactions w) as t.
  induction t as [|x t IH]; simpl; intros Hnd Hr Hr' Heq; [contradiction|].
  inversion Hnd as [|? ? Hnot Hnd']; subst.
  destruct Hr as [Hr|Hr], Hr' as [Hr'|Hr'].
  - congruence.
  - subst x. exfalso. apply Hnot. rewrite Heq. apply in_map. exact Hr'.
  - subst x. exfalso. apply Hnot. rewrite <- Heq. apply in_map. exact Hr.
  - apply IH; assumption.
Qed.

Lemma processAutoBatching_not_pending (config : BatchConfig) (w : World)
    (r : Db.TxRow) :
  Spec.unique_ids w ->
  In r (batched_transactions w) ->
  Db.status r <> Db.pending ->
  In r (batched_transactions (snd (processAutoBatching E config w))).
Proof.
  intros Hnd Hin Hst. unfold processAutoBatching, bind.
  destruct (getPendingTransactions E (maxBatchSize config) w)
    as [[pendingTransactions|e] w1] eqn:Hget.
  - assert (Hsame : Spec.same_tables w w1).
    { pose proof (same_tables_getPendingTransactions
                    (maxBatchSize config) w) as H.
      rewrite Hget in H. exact H. }
    assert (Hin1 : In r (batched_transactions w1)).
    { unfold Spec.same_tables, Spec.tables in Hsame. inversion Hsame as [[Ht Ha]].
      rewrite Ht. exact Hin. }
    destruct (Z.of_nat (List.length pendingTransactions)
              <? minTransactionCount config); [exact Hin1|].
    unfold lift.
    destruct (optimizeBatch pendingTransactions) as [groups|e] eqn:Hopt;
      [|exact Hin1].
    apply (untouched_execute_groups (map batchId pendingTransactions)).
    + intros g tx Hg Htx. apply mem_map_batchId.
      destruct (optimizeBatch_permutation _ _ Hopt) as [_ Hperm].
      eapply Permutation_in; [exact Hperm|].
      apply in_concat. exists g. split; assumption.
    + exact Hin1.
    + apply mem_string_not_In. intros Hmem.
      apply in_map_iff in Hmem. destruct Hmem as (tx & Hid & Htx).
      destruct (getPendingTransactions_pending _ _ _ _ Hget tx Htx)
        as (row & Hrow & Hpending & Hrid).
      assert (Heq : r = row).
      { apply (unique_ids_same_row w); try assumption. congruence. }
      subst row. contradiction.
  - pose proof (same_tables_getPendingTransactions
                  (maxBatchSize config) w) as H.
    rewrite Hget in H. unfold Spec.same_tables, Spec.tables in H.
    inversion H as [[Ht Ha]]. simpl. rewrite Ht. exact Hin.
Qed.

(** One operation that does not name the record leaves it as it was. *)
Lemma perform_keeps_record (op : Spec.Operation) (w : World) (r : Db.TxRow) :
  Spec.unique_ids w ->
  In r (batched_transactions w) ->
  Spec.terminal r ->
  Spec.names op (Db.batch_id r) = false ->
  In r (batched_transactions (Spec.perform E op w)).
Proof.
  intros Hnd Hin Hterm Hname. destruct op; simpl in *.
  - apply (untouched_addToBatch [] _ _ _ _ _ w r Hin). reflexivity.
  - apply (untouched_executeImmediateTransaction [batchId0] batchId0).
    + simpl. rewrite String.eqb_refl. reflexivity.
    + exact Hin.
    + simpl. rewrite String.eqb_sym, Hname. reflexivity.
  - apply (untouched_executeBatch (map batchId transactions) transactions).
    + apply mem_map_batchId.
    + exact Hin.
    + exact Hname.
  - apply processAutoBatching_not_pending; try assumption.
    destruct Hterm as [H|H]; rewrite H; discriminate.
Qed.

End ExecuteFacts.

(* ================================================================== *)
(** * Terminal records *)
(* ================================================================== *)

(** C1 (amended).  In a store whose identifiers are pairwise distinct, a
    record that is [completed] or [failed] keeps every column, so its
    status, hash and error message, through every sequence of operations
    (enqueue, execute one, execute a batch, automatic processing) in which
    no execution is requested for that very record: no [ExecuteOne] has
    its identifier and no [ExecuteBatch] has it in its list. *)
Theorem terminal_record_kept_unless_named (E : Env)
    (ops : list Spec.Operation) :
  forall (w : World) (r : Db.TxRow),
    Spec.unique_ids w ->
    In r (batched_transactions w) ->
    Spec.terminal r ->
    Forall (fun op => Spec.names op (Db.batch_id r) = false) ops ->
    In r (batched_transactions (Spec.perform_all E ops w)).
Proof.
  unfold Spec.perform_all.
  induction ops as [|op ops IH]; intros w r Hnd Hin Hterm Hnames; simpl.
  - exact Hin.
  - inversion Hnames as [|? ? Hop Hops]; subst.
    apply IH; try assumption.
    + apply unique_perform. exact Hnd.
    + apply perform_keeps_record; assumption.
Qed.

Lemma terminal_record_kept_unless_named_witness :
  In (Samples.row 1 "b1" Samples.addrB "2000000000000000000" Db.completed
        (Some "0xold") None)
     (batched_transactions
        (Spec.perform_all Samples.env_ok
           [Spec.ExecuteOne "b9";
            Spec.Enqueue Samples.addrA Samples.addrC "7" None None;
            Spec.AutoProcess Samples.config_five;
            Spec.ExecuteBatch [Samples.queued "b9" Samples.addrC "5" None]]
           Samples.world_done)).
Proof.
  apply (terminal_record_kept_unless_named Samples.env_ok).
  - unfold Spec.unique_ids. simpl.
    repeat constructor; simpl; intuition discriminate.
  - simpl. left. reflexivity.
  - left. reflexivity.
  - repeat constructor.
Defined.

(** C1, as stated, fails: neither execute method looks at the status.
    [executeImmediateTransaction] on a completed record, the wallet
    refusing, leaves it [failed] with an error message; [executeBatch]
    over a failed record leaves it [completed] with a new hash. *)
Lemma terminal_record_executed_again :
  (batched_transactions
     (snd (BatchingService.executeImmediateTransaction
             Samples.env_wallet_down "b1" Samples.world_done))
   = [Db.mkTxRow 1 "b1" Samples.addrA Samples.addrB "2000000000000000000"
        None (Some 21000) Db.failed None 1690000000001 (Some 1695000000000)
        (Some "0xold") (Some "Transaction failed: insufficient funds");
      Samples.row 2 "b9" Samples.addrC "5" Db.failed None (Some "boom")]) /\
  (batched_transactions
     (snd (BatchingService.executeBatch Samples.env_ok
             [Samples.queued "b9" Samples.addrC "5" None]
             Samples.world_done))
   = [Samples.row 1 "b1" Samples.addrB "2000000000000000000" Db.completed
        (Some "0xold") None;
      Db.mkTxRow 2 "b9" Samples.addrA Samples.addrC "5" None (Some 21000)
        Db.completed None 1690000000002 (Some 1700000000003)
        (Some "0x3a8f05c7") (Some "boom")]).
Proof.
  split; vm_compute; reflexivity.
Qed.

(* ================================================================== *)
(** * Automatic processing below the minimum *)
(* ================================================================== *)

(** C6.  When [processAutoBatching] has fetched fewer pending transactions
    than [minTransactionCount], it returns normally at once: it ends in
    the world in which the fetch ended, where both tables (so every status
    and the analytics record) and the wallet are as they were before the
    call. *)
Theorem processAutoBatching_below_minimum (E : Env)
    (config : BatchingService.BatchConfig) (w w1 : World)
    (pendingTransactions : list BatchingService.BatchTransaction) :
  BatchingService.getPendingTransactions E
    (BatchingService.maxBatchSize config) w
    = (Returned pendingTransactions, w1) ->
  Z.of_nat (List.length pendingTransactions)
    < BatchingService.minTransactionCount config ->
  BatchingService.processAutoBatching E config w = (Returned tt, w1) /\
  batched_transactions w1 = batched_transactions w /\
  gas_analytics w1 = gas_analytics w /\
  signer_calls w1 = signer_calls w.
Proof.
  intros Hget Hlt.
  unfold BatchingService.processAutoBatching, bind. rewrite Hget.
  apply Z.ltb_lt in Hlt. rewrite Hlt. split; [reflexivity|].
  pose proof (same_tables_getPendingTransactions E
                (BatchingService.maxBatchSize config) w) as Htables.
  pose proof (same_calls_getPendingTransactions E
                (BatchingService.maxBatchSize config) w) as Hcalls.
  rewrite Hget in Htables, Hcalls.
  unfold Spec.same_tables, Spec.tables in Htables.
  inversion Htables as [[Ht Ha]].
  repeat split; auto.
Qed.

Lemma processAutoBatching_below_minimum_witness :
  BatchingService.processAutoBatching Samples.env_ok Samples.config_five
    Samples.world_three_pending
  = (Returned tt,
     mkWorld (batched_transactions Samples.world_three_pending) [] 4 2 []) /\
  batched_transactions
    (mkWorld (batched_transactions Samples.world_three_pending) [] 4 2 [])
  = batched_transactions Samples.world_three_pending /\
  gas_analytics
    (mkWorld (batched_transactions Samples.world_three_pending) [] 4 2 [])
  = gas_analytics Samples.world_three_pending /\
  signer_calls
    (mkWorld (batched_transactions Samples.world_three_pending) [] 4 2 [])
  = signer_calls Samples.world_three_pending.
Proof.
  apply (processAutoBatching_below_minimum Samples.env_ok Samples.config_five
           Samples.world_three_pending
           (mkWorld (batched_transactions Samples.world_three_pending) [] 4 2
              [])
           (map BatchingService.of_row
              (batched_transactions Samples.world_three_pending))).
  - vm_compute. reflexivity.
  - vm_compute. reflexivity.
Defined.

(* ================================================================== *)
(** * The amount handed to the wallet *)
(* ================================================================== *)

Lemma quot_below_unit (a : Z) :
  Z.abs a < 1000000000000000000 -> Z.quot a 1000000000000000000 = 0.
Proof.
  intros H. destruct (Z_le_gt_dec 0 a) as [Hpos|Hneg].
  - apply Z.quot_small. lia.
  - replace a with (- (- a)) by lia.
    rewrite Z.quot_opp_l by lia.
    rewrite Z.quot_small by lia. reflexivity.
Qed.

(** C9 (amended).  When [executeImmediateTransaction] reaches the
    conversion of the amount (the record is found, and the connection,
    the [SELECT] and the first [UPDATE] are accepted), what the wallet
    receives depends on whether the stored amount is an integer string.
    If [BigInt] reads it as the integer [a], [sendTransaction] is called
    exactly once, with the recipient of the record and the decimal
    rendering of the quotient of [a] by 10^18 truncated toward zero; for
    an amount of magnitude below 10^18 that is ["0"].  If [BigInt] does
    not accept it (a decimal or exponent form such as ["0.5"] or
    ["5e17"], which the validation of the enqueue admits), nothing is
    sent at all: the wallet is not called, and, the last [UPDATE] being
    accepted, the call returns [success: false] with the message of the
    conversion and every record of that identifier is [failed] with it. *)
Theorem executeImmediateTransaction_amount_sent (E : Env) (batchId : string)
    (w : World) (record : Db.TxRow) (others : list Db.TxRow) :
  (forall n, db_fault E n Db.Connect = None) ->
  (forall n, db_fault E n (Db.SelectTx batchId) = None) ->
  (forall n, db_fault E n (Db.SetExecuting batchId) = None) ->
  filter (fun r => String.eqb (Db.batch_id r) batchId)
    (batched_transactions w) = record :: others ->
  let run := BatchingService.executeImmediateTransaction E batchId w in
  (forall a,
      Js.BigInt (Db.amount record) = Some a ->
      signer_calls (snd run)
      = signer_calls w
        ++ [(Db.to_address record,
             Js.BigInt_toString (Z.quot a 1000000000000000000))] /\
      (Z.abs a < 1000000000000000000 ->
       signer_calls (snd run)
       = signer_calls w ++ [(Db.to_address record, "0")])) /\
  (Js.BigInt (Db.amount record) = None ->
   let message :=
     ("Cannot convert " ++ Db.amount record ++ " to a BigInt")%string in
   signer_calls (snd run) = signer_calls w /\
   ((forall n, db_fault E n (Db.SetFailed message batchId) = None) ->
    fst run
    = Returned (BatchingService.mkExecResult false None None (Some message)) /\
    forall r,
      In r (batched_transactions (snd run)) -> Db.batch_id r = batchId ->
      Db.status r = Db.failed /\ Db.error_message r = Some message)).
Proof.
  intros Hconnect Hselect Hexecuting Hfound run.
  assert (Hrun :
            run
            = try_catch
                (amount <-
                   lift (BatchingService.amountInSHM (Db.amount record)) ;;
                 txHash <-
                   sendTransaction E (Db.to_address record) amount ;;
                 update_completed E txHash batchId ;;
                 BatchingService.updateAnalytics E "default"
                   (BatchingService.mkAnalyticsUpdates (Some 1) (Some 1)
                      (Some (Z.quot (21000 * 30) 100))) ;;
                 ret (BatchingService.mkExecResult true (Some txHash)
                        (Some 21000) None))
                (fun errorMessage =>
                   update_failed E errorMessage batchId ;;
                   ret (BatchingService.mkExecResult false None None
                          (Some errorMessage)))
                (set_transactions
                   (Db.update_where batchId Db.set_executing
                      (batched_transactions w))
                   (tick (tick (tick w))))).
  { subst run. unfold BatchingService.executeImmediateTransaction.
    unfold bind at 1. unfold connect.
    rewrite statement_accepted by apply Hconnect.
    rewrite try_catch_bind. unfold select_transaction.
    rewrite statement_accepted by apply Hselect.
    cbn [batched_transactions tick]. rewrite Hfound.
    rewrite try_catch_bind. unfold update_executing.
    rewrite statement_accepted by apply Hexecuting.
    reflexivity. }
  split.
  - intros a Hamount.
    assert (Hsent :
              signer_calls (snd run)
              = signer_calls w
                ++ [(Db.to_address record,
                     Js.BigInt_toString (Z.quot a 1000000000000000000))]).
    { rewrite Hrun. rewrite try_catch_bind.
      unfold lift, BatchingService.amountInSHM,
        BatchingService.BigInt_or_throw.
      rewrite Hamount.
      rewrite try_catch_bind. unfold sendTransaction at 1.
      match goal with
      | |- context [wallet_sendTransaction E ?n ?t ?m] =>
          destruct (wallet_sendTransaction E n t m) as [txHash|e]
      end.
      - match goal with
        | |- signer_calls (snd (try_catch ?c ?h ?w0)) = _ =>
            assert (Hkeep : Spec.keeps Spec.same_calls (try_catch c h))
        end.
        { repeat first
            [ keeps_step
            | apply calls_update_completed
            | apply calls_update_failed
            | apply calls_updateAnalytics ]. }
        rewrite (Hkeep _). reflexivity.
      - match goal with
        | |- signer_calls (snd (?c ?w0)) = _ =>
            assert (Hkeep : Spec.keeps Spec.same_calls c)
        end.
        { repeat first [ keeps_step | apply calls_update_failed ]. }
        rewrite (Hkeep _). reflexivity. }
    split; [exact Hsent|].
    intros Hsmall. rewrite Hsent, (quot_below_unit a Hsmall). reflexivity.
  - intros Hamount message.
    assert (Hcatch :
              run
              = (update_failed E message batchId ;;
                 ret (BatchingService.mkExecResult false None None
                        (Some message)))
                  (set_transactions
                     (Db.update_where batchId Db.set_executing
                        (batched_transactions w))
                     (tick (tick (tick w))))).
    { rewrite Hrun. rewrite try_catch_bind.
      unfold lift, BatchingService.amountInSHM,
        BatchingService.BigInt_or_throw.
      rewrite Hamount. reflexivity. }
    split.
    + rewrite Hcatch.
      match goal with
      | |- signer_calls (snd (?c ?w0)) = _ =>
          assert (Hkeep : Spec.keeps Spec.same_calls c)
      end.
      { repeat first [ keeps_step | apply calls_update_failed ]. }
      rewrite (Hkeep _). reflexivity.
    + intros Hfailed. rewrite Hcatch.
      unfold bind, update_failed.
      rewrite statement_accepted by apply Hfailed.
      unfold ret. cbn [fst snd]. split; [reflexivity|].
      cbn [batched_transactions set_transactions tick].
      intros r Hin Hid. unfold Db.update_where in Hin.
      rewrite map_map in Hin. apply in_map_iff in Hin.
      destruct Hin as (r0 & Hr & _). subst r.
      destruct (String.eqb (Db.batch_id r0) batchId) eqn:Hr0.
      * cbn [Db.batch_id Db.set_executing] in *. rewrite Hr0.
        split; reflexivity.
      * rewrite Hr0 in *. apply String.eqb_neq in Hr0. contradiction.
Qed.

Lemma executeImmediateTransaction_amount_sent_witness :
  signer_calls
    (snd (BatchingService.executeImmediateTransaction Samples.env_ok "p1"
            Samples.world_three_pending))
  = [(Samples.addrB, "0")].
Proof.
  destruct (executeImmediateTransaction_amount_sent Samples.env_ok "p1"
              Samples.world_three_pending
              (Samples.row 1 "p1" Samples.addrB "5" Db.pending None None)
              []) as [Hinteger _].
  - reflexivity.
  - reflexivity.
  - reflexivity.
  - reflexivity.
  - destruct (Hinteger 5 eq_refl) as [_ Hzero].
    apply Hzero. vm_compute. reflexivity.
Defined.

(** C9, as stated, fails for a stored amount that is not an integer
    string.  The enqueue route admits the amount ["0.5"], which is below
    10^18; executing the record sends nothing, and not ["0"]: the wallet
    is never called and the record ends [failed].  The amount ["5e17"]
    passes the validation of the route and is refused by [BigInt] in the
    same way. *)
Lemma executeImmediateTransaction_sends_nothing_for_decimal_amount :
  exists w1 result w2,
    Routes.POST_batch Samples.env_ok
      (Some (Routes.mkBatchBody (Some Samples.addrA) (Some Samples.addrB)
               (Some "0.5") None None)) Samples.world0
    = (Returned
         (Routes.BatchAdded "batch_1700000000001_k3j9x0q1z"
            "Transaction added to batch successfully"), w1) /\
    map Db.amount (batched_transactions w1) = ["0.5"] /\
    BatchingService.executeImmediateTransaction Samples.env_ok
      "batch_1700000000001_k3j9x0q1z" w1
    = (Returned result, w2) /\
    BatchingService.success result = false /\
    BatchingService.res_error result
    = Some "Cannot convert 0.5 to a BigInt" /\
    signer_calls w2 = [] /\
    signer_calls w2 <> [(Samples.addrB, "0")] /\
    map (fun r => (Db.batch_id r, Db.status r))
      (batched_transactions w2)
    = [("batch_1700000000001_k3j9x0q1z", Db.failed)] /\
    Js.Number_isNaN "5e17" || Js.Number_le_zero "5e17" = false /\
    Js.BigInt "5e17" = None.
Proof.
  eexists. eexists. eexists.
  split; [vm_compute; reflexivity|].
  split; [reflexivity|].
  split; [vm_compute; reflexivity|].
  split; [reflexivity|]. split; [reflexivity|]. split; [reflexivity|].
  split; [discriminate|]. split; [reflexivity|].
  split; vm_compute; reflexivity.
Qed.

(* ================================================================== *)
(** * [executeBatch] with per-transaction failures *)
(* ================================================================== *)

Section BatchFacts.

Import BatchingService.

Variable E : Env.
Variable failing : string -> option string.
Hypothesis Haccepts : Spec.accepts_all_but_completions E.
Hypothesis Hfailing : Spec.completions_fail_as E failing.

Lemma accepted_statement {A} (q : Db.Query)
    (effect : nat -> World -> Outcome A * World) (w : World) :
  (forall h b, q <> Db.SetCompleted h b) ->
  statement E q effect w = effect (ticks w) (tick w).
Proof. intros Hq. apply statement_accepted. apply Haccepts. exact Hq. Qed.

Lemma updateAnalytics_accepted (d : string) (u : AnalyticsUpdates)
    (w : World) :
  exists w',
    updateAnalytics E d u w = (Returned tt, w') /\
    batched_transactions w' = batched_transactions w.
Proof.
  unfold updateAnalytics, bind, connect, select_analytics.
  rewrite accepted_statement by discriminate.
  rewrite accepted_statement by discriminate.
  cbn [fst snd].
  destruct (filter (fun r => String.eqb (Db.dapp_id r) d)
              (gas_analytics (tick (tick w)))) as [|current rest].
  - unfold insert_analytics. rewrite accepted_statement by discriminate.
    eexists. split; reflexivity.
  - unfold update_analytics. rewrite accepted_statement by discriminate.
    eexists. split; reflexivity.
Qed.

(** One turn of the loop: the record of the transaction becomes [failed]
    with the message of the rejection, or [completed] with the hash. *)
Lemma executeBatch_step_spec (acc : Z * list string) (tx : BatchTransaction)
    (w : World) :
  exists w' h f,
    executeBatch_step E acc tx w
    = (Returned (fst acc + 21000, snd acc ++ [h]), w') /\
    batched_transactions w' = map f (batched_transactions w) /\
    (forall r, Db.batch_id (f r) = Db.batch_id r) /\
    (forall r, Db.batch_id r <> batchId tx -> f r = r) /\
    (forall r, Db.batch_id r = batchId tx ->
               Spec.step_result failing tx h r (f r)).
Proof.
  unfold executeBatch_step, bind, random_base16, try_catch, update_completed,
    statement, Spec.step_result.
  cbn [fst snd ticks tick]. rewrite Hfailing.
  destruct (failing (batchId tx)) as [message|].
  - unfold update_failed. rewrite accepted_statement by discriminate.
    cbn [fst snd]. eexists. eexists.
    exists (fun r =>
              if String.eqb (Db.batch_id r) (batchId tx)
              then Db.set_failed message r else r).
    split; [reflexivity|]. split; [reflexivity|]. split; [|split].
    + intros r. destruct (String.eqb (Db.batch_id r) (batchId tx)); reflexivity.
    + intros r Hne. apply String.eqb_neq in Hne. rewrite Hne. reflexivity.
    + intros r Heq. apply String.eqb_eq in Heq. rewrite Heq. reflexivity.
  - cbn [fst snd]. eexists. eexists.
    exists (fun r =>
              if String.eqb (Db.batch_id r) (batchId tx)
              then Db.set_completed (now E (S (ticks w)))
                     ("0x" ++ random16 E (ticks w))%string r
              else r).
    split; [reflexivity|]. split; [reflexivity|]. split; [|split].
    + intros r. destruct (String.eqb (Db.batch_id r) (batchId tx)); reflexivity.
    + intros r Hne. apply String.eqb_neq in Hne. rewrite Hne. reflexivity.
    + intros r Heq. apply String.eqb_eq in Heq. rewrite Heq.
      eexists. reflexivity.
Qed.

(** The loop over transactions of distinct identifiers. *)
Lemma executeBatch_loop_spec :
  forall (txs : list BatchTransaction) (acc : Z * list string) (w : World),
    NoDup (map batchId txs) ->
    exists w' hs f,
      executeBatch_loop E acc txs w
      = (Returned (fst acc + 21000 * Z.of_nat (List.length txs),
                   snd acc ++ hs), w') /\
      batched_transactions w' = map f (batched_transactions w) /\
      List.length hs = List.length txs /\
      (forall r, Db.batch_id (f r) = Db.batch_id r) /\
      (forall r, Db.mem_string (Db.batch_id r) (map batchId txs) = false ->
                 f r = r) /\
      (forall i tx h,
          nth_error txs i = Some tx -> nth_error hs i = Some h ->
          forall r, Db.batch_id r = batchId tx ->
                    Spec.step_result failing tx h r (f r)).
Proof.
  induction txs as [|tx rest IH]; intros acc w Hnd.
  - exists w, [], (fun r => r). destruct acc as [total hashes]. simpl.
    rewrite app_nil_r, map_id, Z.add_0_r. unfold ret.
    repeat split; try reflexivity.
    intros i tx h Htx. destruct i; discriminate.
  - inversion Hnd as [|? ? Hnotin Hnd']; subst.
    destruct (executeBatch_step_spec acc tx w)
      as (w1 & h & f1 & Hstep & Ht1 & Hid1 & Hout1 & Hin1).
    destruct (IH (fst acc + 21000, snd acc ++ [h]) w1 Hnd')
      as (w2 & hs & f2 & Hloop & Ht2 & Hlen & Hid2 & Hout2 & Hin2).
    exists w2, (h :: hs), (fun r => f2 (f1 r)).
    cbn [executeBatch_loop]. unfold bind. rewrite Hstep, Hloop.
    cbn [fst snd]. split; [|split; [|split; [|split; [|split]]]].
    + f_equal. f_equal. f_equal.
      * cbn [List.length]. lia.
      * rewrite <- app_assoc. reflexivity.
    + rewrite Ht2, Ht1, map_map. reflexivity.
    + simpl. rewrite Hlen. reflexivity.
    + intros r. rewrite Hid2. apply Hid1.
    + intros r Hmem. simpl in Hmem. apply orb_false_elim in Hmem.
      destruct Hmem as [Hne Hmem].
      rewrite Hout1.
      * apply Hout2. exact Hmem.
      * intros Heq. rewrite Heq, String.eqb_refl in Hne. discriminate.
    + intros i tx' h' Htx' Hh' r Hr. destruct i as [|i]; simpl in Htx', Hh'.
      * inversion Htx'; inversion Hh'; subst.
        rewrite Hout2.
        -- apply Hin1. exact Hr.
        -- rewrite Hid1, Hr. apply mem_string_not_In. exact Hnotin.
      * rewrite Hout1.
        -- apply (Hin2 i tx' h' Htx' Hh'). exact Hr.
        -- intros Heq. apply Hnotin. rewrite <- Heq, Hr.
           apply in_map. eapply nth_error_In. exact Htx'.
Qed.

(** [executeBatch] on a non-empty list of transactions of distinct
    identifiers, when the server accepts every statement other than
    completions: the call reports success with the first generated hash
    and 21000 per transaction; every record named in the list ends
    [failed] with the message of its rejection or [completed] with its
    own hash; no other record is written. *)
Lemma executeBatch_spec (txs : list BatchTransaction) (w : World) :
  txs <> [] ->
  NoDup (map batchId txs) ->
  exists w' hs f,
    executeBatch E txs w
    = (Returned
         (mkExecResult true (nth_error hs 0)
            (Some (21000 * Z.of_nat (List.length txs))) None), w') /\
    batched_transactions w' = map f (batched_transactions w) /\
    List.length hs = List.length txs /\
    (forall r, Db.mem_string (Db.batch_id r) (map batchId txs) = false ->
               f r = r) /\
    (forall i tx h,
        nth_error txs i = Some tx -> nth_error hs i = Some h ->
        forall r, Db.batch_id r = batchId tx ->
                  Spec.step_result failing tx h (Db.set_executing r) (f r)).
Proof.
  intros Hne Hnd. unfold executeBatch.
  destruct txs as [|tx0 rest0] eqn:Htxs; [congruence|]. rewrite <- Htxs in *.
  unfold bind at 1. unfold connect.
  rewrite accepted_statement by discriminate.
  rewrite try_catch_bind. unfold update_executing_any.
  rewrite accepted_statement by discriminate.
  rewrite try_catch_bind.
  match goal with
  | |- context [executeBatch_loop E ?acc txs ?w0] =>
      destruct (executeBatch_loop_spec txs acc w0 Hnd)
        as (w1 & hs & f & Hloop & Ht & Hlen & Hid & Hout & Hin)
  end.
  rewrite Hloop. cbn [fst snd app].
  rewrite try_catch_bind.
  match goal with
  | |- context [updateAnalytics E ?d ?u ?w0] =>
      destruct (updateAnalytics_accepted d u w0) as (w2 & Hua & Ht2)
  end.
  rewrite Hua. unfold try_catch, ret.
  exists w2, hs.
  exists (fun r =>
            f (if Db.mem_string (Db.batch_id r) (map batchId txs)
               then Db.set_executing r else r)).
  split; [reflexivity|]. split; [|split; [exact Hlen|split]].
  - rewrite Ht2, Ht. cbn [batched_transactions set_transactions tick].
    unfold Db.update_where_any. rewrite map_map. reflexivity.
  - intros r Hmem. rewrite Hmem. apply Hout. exact Hmem.
  - intros i tx h Htx Hh r Hr.
    assert (Hmem : Db.mem_string (Db.batch_id r) (map batchId txs) = true).
    { rewrite Hr. apply mem_map_batchId. eapply nth_error_In. exact Htx. }
    rewrite Hmem. apply (Hin i tx h Htx Hh). exact Hr.
Qed.

End BatchFacts.

(* ================================================================== *)
(** * When [executeBatch] fails as a whole *)
(* ================================================================== *)

Section WholesaleFailure.

Import BatchingService.

Variable E : Env.

(** The [try] block of [executeBatch] returns nothing but a success. *)
Lemma executeBatch_failure_comes_from_catch
    (txs : list BatchTransaction) (w w' : World) (result : ExecResult) :
  txs <> [] ->
  executeBatch E txs w = (Returned result, w') ->
  success result = false ->
  exists e w2,
    result = mkExecResult false None None (Some e) /\
    batched_transactions w'
    = Db.update_where_any (map batchId txs) (Db.set_failed e)
        (batched_transactions w2).
Proof.
  intros Hne Hrun Hfalse. unfold executeBatch in Hrun.
  destruct txs as [|tx0 rest] eqn:Htxs; [congruence|]. rewrite <- Htxs in *.
  unfold bind at 1 in Hrun. unfold connect, statement in Hrun.
  destruct (db_fault E (ticks w) Db.Connect); [discriminate Hrun|].
  unfold try_catch in Hrun.
  match type of Hrun with
  | (let (o, w1) := ?body ?w0 in _) = _ =>
      destruct (body w0) as [[res|e] w2] eqn:Hbody
  end.
  - (* the block returned: its result is a success *)
    exfalso. injection Hrun as Hres Hw. subst res.
    unfold bind in Hbody.
    destruct (update_executing_any E (map batchId txs) (tick w))
      as [[u|e] w3]; [|discriminate Hbody].
    destruct (executeBatch_loop E (0, []) txs w3) as [[acc|e] w4];
      [|discriminate Hbody].
    destruct (updateAnalytics E "default" _ w4) as [[u'|e] w5];
      [|discriminate Hbody].
    unfold ret in Hbody. injection Hbody as Hres _. subst result.
    discriminate Hfalse.
  - (* the block threw: the [catch] ran and its [UPDATE] was accepted *)
    unfold bind, update_failed_any, statement, ret in Hrun.
    destruct (db_fault E (ticks w2) (Db.SetFailedAny e (map batchId txs)));
      [discriminate Hrun|].
    injection Hrun as Hres Hw. subst result w'.
    exists e, w2. split; reflexivity.
Qed.

End WholesaleFailure.

(** C8 (amended).  [executeBatch] on the empty list reports failure and
    leaves the world as it is.  On a non-empty list of transactions of
    distinct identifiers, as long as the server accepts every statement
    other than the completions, the call reports success whichever
    completions are rejected: a rejected completion is recorded on the
    records of its transaction ([failed], with the message), an accepted
    one completes them with the hash of the transaction, and the other
    records are not written.  A non-empty call can still report failure
    as a whole: whenever it returns [success: false], the outer [catch]
    has marked every listed record [failed] with the error that is
    returned, and the records that are not listed are as they were.  This
    is what happens when, the connection being accepted, the first
    [UPDATE] (to [executing]) is rejected and the [UPDATE] of the [catch]
    is accepted; when the [UPDATE] of the [catch] is rejected too, the
    call throws and no record is written. *)
Theorem executeBatch_failure_as_a_whole (E : Env)
    (failing : string -> option string)
    (txs : list BatchingService.BatchTransaction) (w : World) :
  BatchingService.executeBatch E [] w
  = (Returned
       (BatchingService.mkExecResult false None None
          (Some "No transactions to execute")), w) /\
  (txs <> [] ->
   NoDup (map BatchingService.batchId txs) ->
   Spec.accepts_all_but_completions E ->
   Spec.completions_fail_as E failing ->
   exists w' hs f,
     BatchingService.executeBatch E txs w
     = (Returned
          (BatchingService.mkExecResult true (nth_error hs 0)
             (Some (21000 * Z.of_nat (List.length txs))) None), w') /\
     batched_transactions w' = map f (batched_transactions w) /\
     List.length hs = List.length txs /\
     (forall r,
         Db.mem_string (Db.batch_id r) (map BatchingService.batchId txs)
         = false -> f r = r) /\
     (forall i tx h,
         nth_error txs i = Some tx -> nth_error hs i = Some h ->
         forall r, Db.batch_id r = BatchingService.batchId tx ->
                   Spec.step_result failing tx h (Db.set_executing r) (f r))) /\
  (txs <> [] ->
   forall result w',
     BatchingService.executeBatch E txs w = (Returned result, w') ->
     BatchingService.success result = false ->
     exists e,
       result = BatchingService.mkExecResult false None None (Some e) /\
       (forall r,
           In r (batched_transactions w') ->
           Db.mem_string (Db.batch_id r) (map BatchingService.batchId txs)
           = true ->
           Db.status r = Db.failed /\ Db.error_message r = Some e) /\
       (forall r,
           In r (batched_transactions w) ->
           Db.mem_string (Db.batch_id r) (map BatchingService.batchId txs)
           = false ->
           In r (batched_transactions w'))) /\
  (txs <> [] ->
   forall e,
     db_fault E (ticks w) Db.Connect = None ->
     db_fault E (S (ticks w))
       (Db.SetExecutingAny (map BatchingService.batchId txs)) = Some e ->
     BatchingService.executeBatch E txs w
     = match
         db_fault E (S (S (ticks w)))
           (Db.SetFailedAny e (map BatchingService.batchId txs))
       with
       | None =>
           (Returned
              (BatchingService.mkExecResult false None None (Some e)),
            set_transactions
              (Db.update_where_any (map BatchingService.batchId txs)
                 (Db.set_failed e) (batched_transactions w))
              (tick (tick (tick w))))
       | Some e' => (Thrown e', tick (tick (tick w)))
       end).
Proof.
  split; [reflexivity|]. split; [|split].
  - intros Hne Hnd Haccepts Hfailing.
    apply (executeBatch_spec E failing Haccepts Hfailing txs w Hne Hnd).
  - intros Hne result w' Hrun Hfalse.
    destruct (executeBatch_failure_comes_from_catch E txs w w' result
                Hne Hrun Hfalse) as (e & w2 & Hresult & Hrows).
    exists e. split; [exact Hresult|]. split.
    + intros r Hin Hlisted. rewrite Hrows in Hin.
      unfold Db.update_where_any in Hin. apply in_map_iff in Hin.
      destruct Hin as (r0 & Hr & _).
      destruct (Db.mem_string (Db.batch_id r0)
                  (map BatchingService.batchId txs)) eqn:Hmem.
      * subst r. split; reflexivity.
      * subst r. congruence.
    + pose proof (untouched_executeBatch E
                    (map BatchingService.batchId txs) txs
                    (fun tx Hin => mem_map_batchId txs tx Hin) w)
        as Huntouched.
      rewrite Hrun in Huntouched. exact Huntouched.
  - intros Hne e Hconnect Hexecuting.
    unfold BatchingService.executeBatch.
    destruct txs as [|tx0 rest] eqn:Htxs; [congruence|]. rewrite <- Htxs in *.
    unfold bind at 1. unfold connect.
    rewrite statement_accepted by exact Hconnect.
    rewrite try_catch_bind. unfold update_executing_any.
    rewrite (statement_rejected E _ _ (tick w) e) by exact Hexecuting.
    unfold bind, update_failed_any, statement, ret. cbn [ticks tick].
    destruct (db_fault E (S (S (ticks w)))
                (Db.SetFailedAny e (map BatchingService.batchId txs)));
      reflexivity.
Qed.

Lemma executeBatch_failure_as_a_whole_witness :
  exists w' h,
    BatchingService.executeBatch Samples.env_reject_p1
      [Samples.queued "p1" Samples.addrB "5" None;
       Samples.queued "p2" Samples.addrB "6" None]
      Samples.world_three_pending
    = (Returned (BatchingService.mkExecResult true h (Some 42000) None), w').
Proof.
  destruct (executeBatch_failure_as_a_whole Samples.env_reject_p1
              (fun b => if String.eqb b "p1" then Some "deadlock detected"
                        else None)
              [Samples.queued "p1" Samples.addrB "5" None;
               Samples.queued "p2" Samples.addrB "6" None]
              Samples.world_three_pending) as [_ [H _]].
  destruct H as (w' & hs & f & Hrun & _).
  - discriminate.
  - repeat constructor; simpl; intuition discriminate.
  - intros n q Hq. destruct q; try reflexivity.
    exfalso. apply (Hq txHash batchId). reflexivity.
  - intros n h b. reflexivity.
  - exists w', (nth_error hs 0). exact Hrun.
Defined.

(** C8, as stated, fails: on a non-empty list the call reports failure as
    a whole when the server rejects the first [UPDATE]; the outer [catch]
    then marks the listed records [failed]. *)
Lemma executeBatch_fails_on_nonempty_list :
  [Samples.queued "p1" Samples.addrB "5" None] <> [] /\
  fst (BatchingService.executeBatch Samples.env_reject_executing
         [Samples.queued "p1" Samples.addrB "5" None]
         Samples.world_three_pending)
  = Returned
      (BatchingService.mkExecResult false None None
         (Some "Connection terminated unexpectedly")).
Proof.
  split; [discriminate|]. vm_compute. reflexivity.
Qed.

(* ================================================================== *)
(** * A batch of one failing and one succeeding transaction *)
(* ================================================================== *)

Section BatchHashes.

Import BatchingService.

Variable E : Env.
Variable failing : string -> option string.
Hypothesis Haccepts : Spec.accepts_all_but_completions E.
Hypothesis Hfailing : Spec.completions_fail_as E failing.

(** One turn of the loop, with the hash it generates: the reading of
    [Math.random()] at the instant the turn starts.  The turn takes two
    interactions when the completion is accepted and three when it is
    rejected. *)
Lemma executeBatch_step_exact (acc : Z * list string) (tx : BatchTransaction)
    (w : World) :
  exists w',
    executeBatch_step E acc tx w
    = (Returned (fst acc + 21000,
                 snd acc ++ [("0x" ++ random16 E (ticks w))%string]), w') /\
    batched_transactions w'
    = Db.update_where (batchId tx)
        (match failing (batchId tx) with
         | Some message => Db.set_failed message
         | None =>
             Db.set_completed (now E (S (ticks w)))
               ("0x" ++ random16 E (ticks w))
         end) (batched_transactions w) /\
    ticks w'
    = (match failing (batchId tx) with Some _ => 3 | None => 2 end
       + ticks w)%nat.
Proof.
  unfold executeBatch_step, bind, random_base16, try_catch, update_completed,
    statement.
  cbn [fst snd ticks tick]. rewrite Hfailing.
  destruct (failing (batchId tx)) as [message|].
  - unfold update_failed.
    rewrite (accepted_statement E Haccepts) by discriminate.
    cbn [fst snd]. eexists. split; [reflexivity|]. split; reflexivity.
  - cbn [fst snd]. eexists. split; [reflexivity|]. split; reflexivity.
Qed.

End BatchHashes.

(** C2 (amended).  [executeBatch] over two transactions of distinct
    identifiers, the completion of one being rejected and that of the
    other accepted (every other statement being accepted), reports
    success with the hash [h1] generated for the first transaction of the
    list ([txHashes[0]], from the reading of [Math.random()] in the first
    turn of the loop, two interactions after the call) and a gas of
    42000, whichever of the two fails.  The records of the succeeding
    transaction are [completed] with the hash generated for it ([h1] when
    it is first, and when it is second the hash [h2] of the second turn,
    which starts after the two or three interactions of the first), those
    of the failing one are [failed] with the message of the rejection and
    keep the hash column they had, and no other record is written.  So
    when the failing transaction is first, the hash reported is the one
    generated for it, which is not stored on its records, while the
    records of the succeeding transaction carry the hash of the second
    turn. *)
Theorem executeBatch_one_failure_one_success (E : Env)
    (failing : string -> option string)
    (first second : BatchingService.BatchTransaction) (w : World)
    (message : string) :
  BatchingService.batchId first <> BatchingService.batchId second ->
  Spec.accepts_all_but_completions E ->
  Spec.completions_fail_as E failing ->
  (failing (BatchingService.batchId first) = Some message /\
   failing (BatchingService.batchId second) = None) \/
  (failing (BatchingService.batchId first) = None /\
   failing (BatchingService.batchId second) = Some message) ->
  let h1 := ("0x" ++ random16 E (2 + ticks w))%string in
  let h2 :=
    ("0x" ++ random16 E
               (match failing (BatchingService.batchId first) with
                | Some _ => 5
                | None => 4
                end + ticks w))%string in
  exists w' f,
    BatchingService.executeBatch E [first; second] w
    = (Returned (BatchingService.mkExecResult true (Some h1) (Some 42000) None),
       w') /\
    batched_transactions w' = map f (batched_transactions w) /\
    (forall r,
        Db.batch_id r <> BatchingService.batchId first ->
        Db.batch_id r <> BatchingService.batchId second -> f r = r) /\
    (forall r,
        Db.batch_id r = BatchingService.batchId first ->
        match failing (BatchingService.batchId first) with
        | Some m =>
            Db.status (f r) = Db.failed /\ Db.error_message (f r) = Some m /\
            Db.tx_hash (f r) = Db.tx_hash r
        | None =>
            Db.status (f r) = Db.completed /\ Db.tx_hash (f r) = Some h1
        end) /\
    (forall r,
        Db.batch_id r = BatchingService.batchId second ->
        match failing (BatchingService.batchId second) with
        | Some m =>
            Db.status (f r) = Db.failed /\ Db.error_message (f r) = Some m /\
            Db.tx_hash (f r) = Db.tx_hash r
        | None =>
            Db.status (f r) = Db.completed /\ Db.tx_hash (f r) = Some h2
        end).
Proof.
  intros Hdistinct Haccepts Hfailing Hone h1 h2.
  unfold BatchingService.executeBatch.
  unfold bind at 1. unfold connect.
  rewrite (accepted_statement E Haccepts) by discriminate.
  rewrite try_catch_bind. unfold update_executing_any.
  rewrite (accepted_statement E Haccepts) by discriminate.
  rewrite try_catch_bind.
  cbn [BatchingService.executeBatch_loop]. unfold bind at 1.
  match goal with
  | |- context [BatchingService.executeBatch_step E ?acc first ?w0] =>
      destruct (executeBatch_step_exact E failing Haccepts Hfailing acc
                  first w0) as (w1 & Hstep1 & Hrows1 & Hticks1)
  end.
  rewrite Hstep1. unfold bind at 1.
  match goal with
  | |- context [BatchingService.executeBatch_step E ?acc second w1] =>
      destruct (executeBatch_step_exact E failing Haccepts Hfailing acc
                  second w1) as (w2 & Hstep2 & Hrows2 & Hticks2)
  end.
  rewrite Hstep2. unfold ret at 1. cbn [fst snd app].
  rewrite try_catch_bind.
  match goal with
  | |- context [BatchingService.updateAnalytics E ?d ?u ?w0] =>
      destruct (updateAnalytics_accepted E Haccepts d u w0)
        as (w3 & Hanalytics & Hrows3)
  end.
  rewrite Hanalytics. unfold try_catch, ret.
  cbn [ticks tick set_transactions batched_transactions] in Hrows1, Hticks1.
  rewrite Hticks1 in Hrows2, Hticks2.
  set (F1 := match failing (BatchingService.batchId first) with
             | Some m => Db.set_failed m
             | None =>
                 Db.set_completed (now E (S (S (S (ticks w)))))
                   ("0x" ++ random16 E (S (S (ticks w))))
             end) in *.
  exists w3.
  exists (fun r =>
            let r0 :=
              if Db.mem_string (Db.batch_id r)
                   (map BatchingService.batchId [first; second])
              then Db.set_executing r else r in
            let r1 :=
              if String.eqb (Db.batch_id r0) (BatchingService.batchId first)
              then F1 r0 else r0 in
            if String.eqb (Db.batch_id r1) (BatchingService.batchId second)
            then
              (match failing (BatchingService.batchId second) with
               | Some m => Db.set_failed m
               | None =>
                   Db.set_completed
                     (now E
                        (S ((match
                                failing (BatchingService.batchId first)
                              with
                              | Some _ => 3
                              | None => 2
                              end + S (S (ticks w)))%nat)))
                     ("0x" ++ random16 E
                                (match
                                    failing (BatchingService.batchId first)
                                  with
                                  | Some _ => 3
                                  | None => 2
                                  end + S (S (ticks w)))%nat)
               end) r1
            else r1).
  assert (Hids : forall g r,
             Db.batch_id (if Db.mem_string (Db.batch_id r) g
                          then Db.set_executing r else r) = Db.batch_id r).
  { intros g r. destruct (Db.mem_string (Db.batch_id r) g); reflexivity. }
  assert (HF1 : forall r, Db.batch_id (F1 r) = Db.batch_id r).
  { intros r. unfold F1.
    destruct (failing (BatchingService.batchId first)); reflexivity. }
  split; [|split; [|split; [|split]]].
  - reflexivity.
  - rewrite Hrows3, Hrows2, Hrows1.
    unfold Db.update_where, Db.update_where_any. rewrite !map_map.
    apply map_ext. intros r. reflexivity.
  - intros r Hr1 Hr2. cbn [map Db.mem_string existsb].
    apply String.eqb_neq in Hr1, Hr2. rewrite Hr1, Hr2. cbn [orb].
    rewrite Hr1, Hr2. reflexivity.
  - intros r Hr. cbn zeta. cbn [map Db.mem_string existsb].
    rewrite Hr, String.eqb_refl. cbn [orb].
    change (Db.batch_id (Db.set_executing r)) with (Db.batch_id r).
    rewrite Hr, String.eqb_refl. rewrite HF1.
    change (Db.batch_id (Db.set_executing r)) with (Db.batch_id r).
    rewrite Hr.
    apply String.eqb_neq in Hdistinct. rewrite Hdistinct.
    unfold F1. destruct (failing (BatchingService.batchId first)) as [m|].
    + repeat split.
    + split; reflexivity.
  - intros r Hr. cbn zeta. cbn [map Db.mem_string existsb].
    rewrite Hr, String.eqb_refl, orb_true_r. cbn [orb].
    change (Db.batch_id (Db.set_executing r)) with (Db.batch_id r).
    rewrite Hr.
    assert (Hne : String.eqb (BatchingService.batchId second)
                    (BatchingService.batchId first) = false).
    { apply String.eqb_neq. intros Heq. apply Hdistinct. symmetry.
      exact Heq. }
    rewrite Hne.
    change (Db.batch_id (Db.set_executing r)) with (Db.batch_id r).
    rewrite Hr, String.eqb_refl.
    destruct (failing (BatchingService.batchId second)) as [m|].
    + repeat split.
    + split; [reflexivity|]. unfold h2.
      destruct (failing (BatchingService.batchId first)); reflexivity.
Qed.

Lemma executeBatch_one_failure_one_success_witness :
  exists w' f,
    BatchingService.executeBatch Samples.env_reject_p1
      [Samples.queued "p1" Samples.addrB "5" None;
       Samples.queued "p2" Samples.addrB "6" None]
      Samples.world_three_pending
    = (Returned
         (BatchingService.mkExecResult true (Some "0x3a8f05c7") (Some 42000)
            None), w') /\
    batched_transactions w'
    = map f (batched_transactions Samples.world_three_pending) /\
    (forall r,
        Db.batch_id r = "p1" ->
        Db.status (f r) = Db.failed /\
        Db.error_message (f r) = Some "deadlock detected" /\
        Db.tx_hash (f r) = Db.tx_hash r) /\
    (forall r,
        Db.batch_id r = "p2" ->
        Db.status (f r) = Db.completed /\
        Db.tx_hash (f r) = Some "0x3a8f05ca").
Proof.
  destruct (executeBatch_one_failure_one_success Samples.env_reject_p1
              (fun b => if String.eqb b "p1" then Some "deadlock detected"
                        else None)
              (Samples.queued "p1" Samples.addrB "5" None)
              (Samples.queued "p2" Samples.addrB "6" None)
              Samples.world_three_pending "deadlock detected")
    as (w' & f & Hrun & Hrows & _ & Hfirst & Hsecond).
  - discriminate.
  - intros n q Hq. destruct q; try reflexivity.
    exfalso. apply (Hq txHash batchId). reflexivity.
  - intros n h b. reflexivity.
  - left. split; reflexivity.
  - exists w', f. split; [exact Hrun|]. split; [exact Hrows|].
    split; [exact Hfirst|exact Hsecond].
Defined.

(** C2, as stated, fails when the failing transaction comes first: the
    call reports the hash generated for it, which no record carries, and
    not the hash of the succeeding transaction. *)
Lemma executeBatch_reports_hash_of_failed_transaction :
  exists w',
    BatchingService.executeBatch Samples.env_reject_p1
      [Samples.queued "p1" Samples.addrB "5" None;
       Samples.queued "p2" Samples.addrB "6" None]
      Samples.world_three_pending
    = (Returned
         (BatchingService.mkExecResult true (Some "0x3a8f05c7") (Some 42000)
            None), w') /\
    map (fun r => (Db.batch_id r, Db.status r, Db.tx_hash r,
                   Db.error_message r))
      (batched_transactions w')
    = [("p1", Db.failed, None, Some "deadlock detected");
       ("p2", Db.completed, Some "0x3a8f05ca", None);
       ("p3", Db.pending, None, None)] /\
    Some "0x3a8f05c7" <> Some "0x3a8f05ca".
Proof.
  eexists. split; [vm_compute; reflexivity|].
  split; [vm_compute; reflexivity|discriminate].
Qed.

(** An amount that is not an integer string never reaches the wallet: the
    conversion throws, and the record is marked [failed] when the last
    [UPDATE] is accepted. *)
Lemma executeImmediateTransaction_amount_not_integer (E : Env)
    (batchId : string) (w : World) (record : Db.TxRow)
    (others : list Db.TxRow) :
  (forall n, db_fault E n Db.Connect = None) ->
  (forall n, db_fault E n (Db.SelectTx batchId) = None) ->
  (forall n, db_fault E n (Db.SetExecuting batchId) = None) ->
  filter (fun r => String.eqb (Db.batch_id r) batchId)
    (batched_transactions w) = record :: others ->
  Js.BigInt (Db.amount record) = None ->
  signer_calls (snd (BatchingService.executeImmediateTransaction E batchId w))
  = signer_calls w.
Proof.
  intros Hconnect Hselect Hexecuting Hfound Hamount.
  unfold BatchingService.executeImmediateTransaction.
  unfold bind at 1. unfold connect.
  rewrite statement_accepted by apply Hconnect.
  rewrite try_catch_bind. unfold select_transaction.
  rewrite statement_accepted by apply Hselect.
  cbn [batched_transactions tick]. rewrite Hfound.
  rewrite try_catch_bind. unfold update_executing.
  rewrite statement_accepted by apply Hexecuting.
  rewrite try_catch_bind.
  unfold lift, BatchingService.amountInSHM, BatchingService.BigInt_or_throw.
  rewrite Hamount.
  match goal with
  | |- signer_calls (snd (?c ?w0)) = _ =>
      assert (Hkeep : Spec.keeps Spec.same_calls c)
  end.
  { repeat first [ keeps_step | apply calls_update_failed ]. }
  rewrite (Hkeep _). reflexivity.
Qed.
(* ================================================================== *)
(** * Invariants of the store under every operation *)
(* ================================================================== *)

(** From here on a relation among the hypotheses can be followed too. *)
Ltac rel_fact ::=
  first
    [ exact same_calls_refl | exact same_calls_trans | exact same_calls_tick
    | exact same_tables_refl | exact same_tables_trans
    | exact same_tables_tick
    | exact keeps_unique_ids_refl | exact keeps_unique_ids_trans
    | exact keeps_unique_ids_tick
    | exact (untouched_outside_refl _) | exact (untouched_outside_trans _)
    | exact (untouched_outside_tick _)
    | assumption ].

Section Postconditions.

Variable E : Env.

(** A computation followed along a relation, knowing a fact [Q] about the
    value its first part returns. *)
Lemma keeps_bind_post {A B} (P : World -> World -> Prop) (Q : A -> Prop)
    (c : Async A) (k : A -> Async B) :
  (forall w1 w2 w3, P w1 w2 -> P w2 w3 -> P w1 w3) ->
  (forall w a w', c w = (Returned a, w') -> Q a) ->
  Spec.keeps P c -> (forall a, Q a -> Spec.keeps P (k a)) ->
  Spec.keeps P (bind c k).
Proof.
  intros Htrans Hpost Hc Hk w. unfold bind.
  pose proof (Hc w) as Hw. pose proof (Hpost w) as Hq.
  destruct (c w) as [[a|e] w1]; simpl in *.
  - eapply Htrans; [exact Hw|]. apply Hk. eapply Hq. reflexivity.
  - exact Hw.
Qed.

(** The gas total of the loop of [executeBatch] grows by 21000 a turn. *)
Lemma executeBatch_loop_total :
  forall (txs : list BatchingService.BatchTransaction)
         (acc acc' : Z * list string) (w w' : World),
    BatchingService.executeBatch_loop E acc txs w = (Returned acc', w') ->
    fst acc' = fst acc + 21000 * Z.of_nat (List.length txs).
Proof.
  induction txs as [|tx rest IH]; intros acc acc' w w' H.
  - simpl in H. inversion H; subst. simpl. lia.
  - cbn [BatchingService.executeBatch_loop] in H. unfold bind at 1 in H.
    destruct (BatchingService.executeBatch_step E acc tx w)
      as [[acc1|e] w1] eqn:Hstep; [|discriminate].
    apply IH in H. rewrite H.
    assert (Hacc1 : fst acc1 = fst acc + 21000).
    { unfold BatchingService.executeBatch_step, bind, random_base16, ret
        in Hstep.
      match type of Hstep with
      | context [try_catch ?c ?h ?w0] => destruct (try_catch c h w0) as [[u|e] w2]
      end; inversion Hstep; subst; reflexivity. }
    rewrite Hacc1. cbn [List.length]. lia.
Qed.

End Postconditions.

(** ** A relation kept by the statements is kept by the operations *)

Section EveryOperation.

Import BatchingService.

Variable E : Env.
Variable P : World -> World -> Prop.
Hypothesis P_refl : forall w, P w w.
Hypothesis P_trans : forall w1 w2 w3, P w1 w2 -> P w2 w3 -> P w1 w3.
Hypothesis P_tick : forall w, P w (tick w).
Hypothesis P_executing : forall b, Spec.keeps P (update_executing E b).
Hypothesis P_completed : forall h b, Spec.keeps P (update_completed E h b).
Hypothesis P_failed : forall e b, Spec.keeps P (update_failed E e b).
Hypothesis P_executing_any :
  forall l, Spec.keeps P (update_executing_any E l).
Hypothesis P_failed_any : forall e l, Spec.keeps P (update_failed_any E e l).
Hypothesis P_insert :
  forall b u t a tok g s, Spec.keeps P (insert_transaction E b u t a tok g s).
Hypothesis P_send : forall t a, Spec.keeps P (sendTransaction E t a).
Hypothesis P_analytics :
  forall b t g, 0 <= b -> 0 <= t -> 0 <= g ->
    Spec.keeps P
      (updateAnalytics E "default"
         (mkAnalyticsUpdates (Some b) (Some t) (Some g))).

Lemma every_addToBatch (u t a : string) (tok : option string)
    (s : option Z) : Spec.keeps P (addToBatch E u t a tok s).
Proof.
  unfold addToBatch, generateBatchId, estimateTransactionGas.
  repeat first [ keeps_step | apply P_insert ].
Qed.

Lemma every_executeImmediateTransaction (b : string) :
  Spec.keeps P (executeImmediateTransaction E b).
Proof.
  unfold executeImmediateTransaction.
  repeat first
    [ keeps_step
    | apply P_executing | apply P_completed | apply P_failed | apply P_send
    | apply P_analytics; vm_compute; discriminate ].
Qed.

Lemma every_executeBatch_loop :
  forall (txs : list BatchTransaction) (acc : Z * list string),
    Spec.keeps P (executeBatch_loop E acc txs).
Proof.
  induction txs as [|tx rest IH]; intros acc; simpl.
  - keeps_step.
  - unfold executeBatch_step.
    repeat first [ keeps_step | apply P_completed | apply P_failed ].
    apply IH.
Qed.

Lemma every_executeBatch (txs : list BatchTransaction) :
  Spec.keeps P (executeBatch E txs).
Proof.
  unfold executeBatch. destruct txs as [|tx rest]; [keeps_step|].
  keeps_step; [keeps_step|].
  keeps_step; [|keeps_step; [apply P_failed_any|keeps_step]].
  keeps_step; [apply P_executing_any|].
  apply (keeps_bind_post P (fun acc => 0 <= fst acc));
    [exact P_trans| |apply every_executeBatch_loop|].
  - intros w1 acc w2 Hloop.
    rewrite (executeBatch_loop_total E _ _ _ _ _ Hloop). simpl fst. lia.
  - intros acc Hacc. keeps_step; [|keeps_step].
    apply P_analytics; [lia|lia|].
    apply Z.quot_pos; lia.
Qed.

Lemma every_execute_groups (minimum : Z) :
  forall groups : list (list BatchTransaction),
    Spec.keeps P (execute_groups E minimum groups).
Proof.
  induction groups as [|g rest IH]; simpl.
  - keeps_step.
  - keeps_step; [|apply IH].
    destruct (Z.of_nat (List.length g) >=? minimum).
    + keeps_step; [apply every_executeBatch|keeps_step].
    + keeps_step.
Qed.

Lemma every_processAutoBatching (config : BatchConfig) :
  Spec.keeps P (processAutoBatching E config).
Proof.
  unfold processAutoBatching, getPendingTransactions.
  repeat keeps_step. apply every_execute_groups.
Qed.

Lemma every_perform (op : Spec.Operation) (w : World) :
  P w (Spec.perform E op w).
Proof.
  destruct op; simpl.
  - apply every_addToBatch.
  - apply every_executeImmediateTransaction.
  - apply every_executeBatch.
  - apply every_processAutoBatching.
Qed.

Lemma every_perform_all (ops : list Spec.Operation) :
  forall w, P w (Spec.perform_all E ops w).
Proof.
  unfold Spec.perform_all.
  induction ops as [|op ops IH]; intros w; simpl.
  - apply P_refl.
  - eapply P_trans; [apply every_perform|apply IH].
Qed.

End EveryOperation.

(** ** Records are kept, in place, with their request *)

Section HistoryFacts.

Import Lifecycle.

Variable E : Env.

Lemma evolves_refl (r : Db.TxRow) : evolves r r.
Proof. split; [reflexivity|left; reflexivity]. Qed.

Lemma evolves_trans (r1 r2 r3 : Db.TxRow) :
  evolves r1 r2 -> evolves r2 r3 -> evolves r1 r3.
Proof.
  intros [Hq1 Hs1] [Hq2 Hs2]. split; [congruence|].
  destruct Hs2 as [Hs2|Hs2]; [rewrite Hs2; exact Hs1|right; exact Hs2].
Qed.

Lemma Forall2_evolves_refl (l : list Db.TxRow) : Forall2 evolves l l.
Proof. induction l; constructor; [apply evolves_refl|assumption]. Qed.

Lemma Forall2_evolves_trans (l1 l2 l3 : list Db.TxRow) :
  Forall2 evolves l1 l2 -> Forall2 evolves l2 l3 -> Forall2 evolves l1 l3.
Proof.
  intros H. revert l3. induction H as [|a b l1 l2 Hab H12 IH]; intros l3 H23.
  - inversion H23. constructor.
  - inversion H23 as [|? c ? l3' Hbc H23']; subst. constructor.
    + eapply evolves_trans; eassumption.
    + apply IH. exact H23'.
Qed.

Lemma Forall2_evolves_map (g : Db.TxRow -> Db.TxRow) (l : list Db.TxRow) :
  (forall r, evolves r (g r)) -> Forall2 evolves l (map g l).
Proof. intros Hg. induction l; simpl; constructor; auto. Qed.

Lemma history_refl (w : World) : history w w.
Proof.
  exists (batched_transactions w), []. split.
  - rewrite app_nil_r. reflexivity.
  - apply Forall2_evolves_refl.
Qed.

Lemma history_trans (w1 w2 w3 : World) :
  history w1 w2 -> history w2 w3 -> history w1 w3.
Proof.
  intros (k1 & a1 & H1 & F1) (k2 & a2 & H2 & F2).
  rewrite H1 in F2. apply Forall2_app_inv_l in F2.
  destruct F2 as (k2a & k2b & Fa & Fb & Hk2). subst k2.
  exists k2a, (k2b ++ a2). split.
  - rewrite H2, app_assoc. reflexivity.
  - eapply Forall2_evolves_trans; eassumption.
Qed.

Lemma history_same_rows (w w' : World) :
  batched_transactions w' = batched_transactions w -> history w w'.
Proof.
  intros H. exists (batched_transactions w), []. split.
  - rewrite app_nil_r. exact H.
  - apply Forall2_evolves_refl.
Qed.

Lemma history_tick (w : World) : history w (tick w).
Proof. apply history_same_rows. reflexivity. Qed.

Lemma history_update_where (b : string) (f : Db.TxRow -> Db.TxRow)
    (w w' : World) :
  (forall r, evolves r (f r)) ->
  batched_transactions w' = Db.update_where b f (batched_transactions w) ->
  history w w'.
Proof.
  intros Hf H. exists (batched_transactions w'), []. split.
  - rewrite app_nil_r. reflexivity.
  - rewrite H. apply Forall2_evolves_map. intros r.
    destruct (String.eqb (Db.batch_id r) b); [apply Hf|apply evolves_refl].
Qed.

Lemma history_update_where_any (l : list string) (f : Db.TxRow -> Db.TxRow)
    (w w' : World) :
  (forall r, evolves r (f r)) ->
  batched_transactions w' = Db.update_where_any l f (batched_transactions w) ->
  history w w'.
Proof.
  intros Hf H. exists (batched_transactions w'), []. split.
  - rewrite app_nil_r. reflexivity.
  - rewrite H. apply Forall2_evolves_map. intros r.
    destruct (Db.mem_string (Db.batch_id r) l); [apply Hf|apply evolves_refl].
Qed.

Lemma evolves_set_executing (r : Db.TxRow) : evolves r (Db.set_executing r).
Proof. split; [reflexivity|]. right. left. reflexivity. Qed.

Lemma evolves_set_completed (t : Z) (h : string) (r : Db.TxRow) :
  evolves r (Db.set_completed t h r).
Proof. split; [reflexivity|]. right. right. left. reflexivity. Qed.

Lemma evolves_set_failed (e : string) (r : Db.TxRow) :
  evolves r (Db.set_failed e r).
Proof. split; [reflexivity|]. right. right. right. reflexivity. Qed.

Lemma history_perform_all (ops : list Spec.Operation) (w : World) :
  history w (Spec.perform_all E ops w).
Proof.
  pose proof history_refl as Hrefl. pose proof history_trans as Htrans.
  pose proof history_tick as Htick.
  apply every_perform_all; try assumption.
  - intros b. unfold update_executing. keeps_step.
    eapply history_update_where; [apply evolves_set_executing|reflexivity].
  - intros h b. unfold update_completed. keeps_step.
    eapply history_update_where; [apply evolves_set_completed|reflexivity].
  - intros e b. unfold update_failed. keeps_step.
    eapply history_update_where; [apply evolves_set_failed|reflexivity].
  - intros l. unfold update_executing_any. keeps_step.
    eapply history_update_where_any;
      [apply evolves_set_executing|reflexivity].
  - intros e l. unfold update_failed_any. keeps_step.
    eapply history_update_where_any; [apply evolves_set_failed|reflexivity].
  - intros b u t a tok g s. unfold insert_transaction. keeps_step.
    match goal with |- context [if ?c then _ else _] => destruct c end.
    + apply history_same_rows. reflexivity.
    + simpl. eexists. eexists. split; [reflexivity|].
      apply Forall2_evolves_refl.
  - intros t a w0. apply history_same_rows. reflexivity.
  - intros b t g _ _ _.
    unfold BatchingService.updateAnalytics, insert_analytics, update_analytics.
    repeat keeps_step; apply history_same_rows; reflexivity.
Qed.

End HistoryFacts.

(** X1.  No operation of the service, and no sequence of them, deletes a
    record or moves it: the record at a position of the table is still at
    that position afterwards, with the same request columns ([id],
    [batch_id], the two addresses, [amount], [token_address],
    [gas_estimate], [scheduled_for], [created_at]); its status is as it
    was or one of [executing], [completed], [failed] (so a record never
    goes back to [pending], and none becomes [scheduled]). *)
Theorem records_are_kept_in_place (E : Env) (ops : list Spec.Operation)
    (w : World) (i : nat) (r : Db.TxRow) :
  nth_error (batched_transactions w) i = Some r ->
  exists r',
    nth_error (batched_transactions (Spec.perform_all E ops w)) i = Some r' /\
    Lifecycle.request r' = Lifecycle.request r /\
    (Db.status r' = Db.status r \/ Db.status r' = Db.executing \/
     Db.status r' = Db.completed \/ Db.status r' = Db.failed).
Proof.
  intros Hr.
  destruct (history_perform_all E ops w) as (kept & added & Hrows & Hkept).
  rewrite Hrows. clear Hrows.
  revert i Hr. induction Hkept as [|a b l l' Hab Hrest IH]; intros i Hr.
  - destruct i; discriminate.
  - destruct i as [|i]; simpl in *.
    + inversion Hr; subst. exists b. split; [reflexivity|exact Hab].
    + apply IH. exact Hr.
Qed.

Lemma records_are_kept_in_place_witness :
  exists r',
    nth_error
      (batched_transactions
         (Spec.perform_all Samples.env_ok Lifecycle.some_operations
            Lifecycle.world_mixed)) 2
    = Some r' /\
    Lifecycle.request r'
    = Lifecycle.request
        (Samples.row 3 "m3" Samples.addrC "7" Db.pending None None) /\
    (Db.status r' = Db.pending \/ Db.status r' = Db.executing \/
     Db.status r' = Db.completed \/ Db.status r' = Db.failed).
Proof.
  apply (records_are_kept_in_place Samples.env_ok Lifecycle.some_operations
           Lifecycle.world_mixed 2
           (Samples.row 3 "m3" Samples.addrC "7" Db.pending None None)).
  reflexivity.
Defined.

(** X2.  The identifiers of the records stay pairwise distinct through
    every sequence of operations: [addToBatch] adds a record only when the
    server accepts its identifier as new, and nothing else writes
    [batch_id]. *)
Theorem batch_ids_stay_distinct (E : Env) (ops : list Spec.Operation)
    (w : World) :
  Spec.unique_ids w -> Spec.unique_ids (Spec.perform_all E ops w).
Proof.
  unfold Spec.perform_all. revert w.
  induction ops as [|op ops IH]; intros w Hw; simpl.
  - exact Hw.
  - apply IH. apply unique_perform. exact Hw.
Qed.

Lemma batch_ids_stay_distinct_witness :
  Spec.unique_ids
    (Spec.perform_all Samples.env_ok Lifecycle.some_operations
       Lifecycle.world_mixed).
Proof.
  apply (batch_ids_stay_distinct Samples.env_ok Lifecycle.some_operations
           Lifecycle.world_mixed).
  unfold Spec.unique_ids. simpl.
  repeat constructor; simpl; intuition discriminate.
Defined.

(** ** The analytics *)

Section AnalyticsFacts.

Import Lifecycle.

Variable E : Env.

Lemma same_other_dapps_refl (w : World) : same_other_dapps w w.
Proof. reflexivity. Qed.

Lemma same_other_dapps_trans (w1 w2 w3 : World) :
  same_other_dapps w1 w2 -> same_other_dapps w2 w3 -> same_other_dapps w1 w3.
Proof. unfold same_other_dapps. congruence. Qed.

Lemma same_other_dapps_tick (w : World) : same_other_dapps w (tick w).
Proof. reflexivity. Qed.

Lemma same_other_dapps_rows (w w' : World) :
  gas_analytics w' = gas_analytics w -> same_other_dapps w w'.
Proof. unfold same_other_dapps. congruence. Qed.

Lemma other_dapps_update (f : Db.AnalyticsRow -> Db.AnalyticsRow)
    (rows : list Db.AnalyticsRow) :
  (forall r, Db.dapp_id (f r) = Db.dapp_id r) ->
  other_dapps
    (map (fun r => if String.eqb (Db.dapp_id r) "default" then f r else r)
       rows)
  = other_dapps rows.
Proof.
  intros Hf. unfold other_dapps.
  induction rows as [|r rows IH]; simpl; [reflexivity|].
  destruct (String.eqb (Db.dapp_id r) "default") eqn:Hd.
  - rewrite Hf, Hd. simpl. exact IH.
  - rewrite Hd. simpl. rewrite IH. reflexivity.
Qed.

Lemma same_other_dapps_updateAnalytics (u : BatchingService.AnalyticsUpdates) :
  Spec.keeps same_other_dapps (BatchingService.updateAnalytics E "default" u).
Proof.
  pose proof same_other_dapps_refl. pose proof same_other_dapps_trans.
  pose proof same_other_dapps_tick.
  unfold BatchingService.updateAnalytics, insert_analytics, update_analytics.
  repeat keeps_step.
  - unfold same_other_dapps, other_dapps. simpl.
    rewrite filter_app. simpl. rewrite app_nil_r. reflexivity.
  - unfold same_other_dapps. simpl. apply other_dapps_update.
    intros r. reflexivity.
Qed.

Lemma same_other_dapps_perform_all (ops : list Spec.Operation) (w : World) :
  same_other_dapps w (Spec.perform_all E ops w).
Proof.
  pose proof same_other_dapps_refl as Hrefl.
  pose proof same_other_dapps_trans as Htrans.
  pose proof same_other_dapps_tick as Htick.
  apply every_perform_all; try assumption.
  - intros b. unfold update_executing. keeps_step.
    apply same_other_dapps_rows. reflexivity.
  - intros h b. unfold update_completed. keeps_step.
    apply same_other_dapps_rows. reflexivity.
  - intros e b. unfold update_failed. keeps_step.
    apply same_other_dapps_rows. reflexivity.
  - intros l. unfold update_executing_any. keeps_step.
    apply same_other_dapps_rows. reflexivity.
  - intros e l. unfold update_failed_any. keeps_step.
    apply same_other_dapps_rows. reflexivity.
  - intros b u t a tok g s. unfold insert_transaction. keeps_step.
    match goal with |- context [if ?c then _ else _] => destruct c end;
      apply same_other_dapps_rows; reflexivity.
  - intros t a w0. apply same_other_dapps_rows. reflexivity.
  - intros b t g _ _ _. apply same_other_dapps_updateAnalytics.
Qed.

End AnalyticsFacts.

(** X3.  The analytics are kept under the dApp ['default'] only: through
    every sequence of operations the rows of [gas_analytics] of any other
    dApp are as they were, also after [processAutoBatching] with a
    configuration that names another dApp. *)
Theorem analytics_of_other_dapps_unchanged (E : Env)
    (ops : list Spec.Operation) (w : World) :
  filter (fun r => negb (String.eqb (Db.dapp_id r) "default"))
    (gas_analytics (Spec.perform_all E ops w))
  = filter (fun r => negb (String.eqb (Db.dapp_id r) "default"))
      (gas_analytics w).
Proof. apply (same_other_dapps_perform_all E ops w). Qed.

Section AnalyticsGrowth.

Import Lifecycle.

Variable E : Env.

Lemma grows_refl (r : Db.AnalyticsRow) : grows r r.
Proof. unfold grows. repeat split; lia. Qed.

Lemma grows_trans (r1 r2 r3 : Db.AnalyticsRow) :
  grows r1 r2 -> grows r2 r3 -> grows r1 r3.
Proof.
  unfold grows. intros (H1 & H2 & H3 & H4) (H5 & H6 & H7 & H8).
  repeat split; try lia. congruence.
Qed.

Lemma Forall2_grows_refl (l : list Db.AnalyticsRow) : Forall2 grows l l.
Proof. induction l; constructor; [apply grows_refl|assumption]. Qed.

Lemma Forall2_grows_trans (l1 l2 l3 : list Db.AnalyticsRow) :
  Forall2 grows l1 l2 -> Forall2 grows l2 l3 -> Forall2 grows l1 l3.
Proof.
  intros H. revert l3. induction H as [|a b l1 l2 Hab H12 IH]; intros l3 H23.
  - inversion H23. constructor.
  - inversion H23 as [|? c ? l3' Hbc H23']; subst. constructor.
    + eapply grows_trans; eassumption.
    + apply IH. exact H23'.
Qed.

Lemma Forall2_map_in {A} (R : A -> A -> Prop) (f : A -> A) (l : list A) :
  (forall r, In r l -> R r (f r)) -> Forall2 R l (map f l).
Proof.
  induction l as [|x l IH]; intros H; simpl; constructor.
  - apply H. left. reflexivity.
  - apply IH. intros r Hr. apply H. right. exact Hr.
Qed.

Lemma analytics_grow_same_rows (w w' : World) :
  gas_analytics w' = gas_analytics w -> analytics_grow w w'.
Proof.
  intros H Hnd. unfold one_row_per_dapp in *. rewrite H.
  split; [exact Hnd|]. exists (gas_analytics w), [].
  split; [rewrite app_nil_r; reflexivity|apply Forall2_grows_refl].
Qed.

Lemma analytics_grow_refl (w : World) : analytics_grow w w.
Proof. apply analytics_grow_same_rows. reflexivity. Qed.

Lemma analytics_grow_tick (w : World) : analytics_grow w (tick w).
Proof. apply analytics_grow_same_rows. reflexivity. Qed.

Lemma analytics_grow_trans (w1 w2 w3 : World) :
  analytics_grow w1 w2 -> analytics_grow w2 w3 -> analytics_grow w1 w3.
Proof.
  intros H12 H23 Hnd.
  destruct (H12 Hnd) as (Hnd2 & k1 & a1 & H1 & F1).
  destruct (H23 Hnd2) as (Hnd3 & k2 & a2 & H2 & F2).
  split; [exact Hnd3|].
  rewrite H1 in F2. apply Forall2_app_inv_l in F2.
  destruct F2 as (k2a & k2b & Fa & Fb & Hk2). subst k2.
  exists k2a, (k2b ++ a2). split.
  - rewrite H2, app_assoc. reflexivity.
  - eapply Forall2_grows_trans; eassumption.
Qed.

(** With one row a dApp, the row the [SELECT] gives first is the row of
    the dApp. *)
Lemma the_row_of_a_dapp (d : string) (rows : list Db.AnalyticsRow)
    (current : Db.AnalyticsRow) (rest : list Db.AnalyticsRow)
    (r : Db.AnalyticsRow) :
  NoDup (map Db.dapp_id rows) ->
  filter (fun r => String.eqb (Db.dapp_id r) d) rows = current :: rest ->
  In r rows -> Db.dapp_id r = d -> r = current.
Proof.
  intros Hnd Hfilter Hr Hd.
  assert (Hc : In current rows /\ Db.dapp_id current = d).
  { assert (Hin : In current (current :: rest)) by (left; reflexivity).
    rewrite <- Hfilter in Hin. apply filter_In in Hin.
    destruct Hin as [Hin Heq]. split; [exact Hin|].
    apply String.eqb_eq. exact Heq. }
  destruct Hc as [Hc Hcd].
  clear Hfilter. induction rows as [|x rows IH]; [contradiction|].
  simpl in Hnd. inversion Hnd as [|? ? Hnot Hnd']; subst.
  destruct Hr as [Hr|Hr], Hc as [Hc|Hc].
  - congruence.
  - subst x. exfalso. apply Hnot. rewrite <- Hcd. apply in_map. exact Hc.
  - subst x. exfalso. apply Hnot. rewrite Hcd. rewrite <- Hcd.
    replace (Db.dapp_id current) with (Db.dapp_id r) by congruence.
    apply in_map. exact Hr.
  - apply IH; assumption.
Qed.

Lemma analytics_grow_updateAnalytics (d : string) (b t g : Z) :
  0 <= b -> 0 <= t -> 0 <= g ->
  Spec.keeps analytics_grow
    (BatchingService.updateAnalytics E d
       (BatchingService.mkAnalyticsUpdates (Some b) (Some t) (Some g))).
Proof.
  intros Hb Ht Hg w.
  unfold BatchingService.updateAnalytics, bind, connect, select_analytics,
    statement.
  destruct (db_fault E (ticks w) Db.Connect);
    [apply analytics_grow_same_rows; reflexivity|].
  cbn [ticks tick].
  destruct (db_fault E (S (ticks w)) (Db.SelectAnalytics d));
    [apply analytics_grow_same_rows; reflexivity|].
  cbn [gas_analytics tick ticks BatchingService.or_zero
         BatchingService.gasSaved BatchingService.batchCount
         BatchingService.transactionCount].
  destruct (filter (fun r => String.eqb (Db.dapp_id r) d) (gas_analytics w))
    as [|current rest] eqn:Hfilter.
  - unfold insert_analytics, statement. cbn [ticks].
    match goal with
    | |- context [db_fault E ?n ?q] => destruct (db_fault E n q)
    end; [apply analytics_grow_same_rows; reflexivity|].
    intros Hnd. unfold one_row_per_dapp in *. simpl. split.
    + rewrite map_app. simpl.
      apply NoDup_app; [exact Hnd|repeat constructor; simpl; tauto|].
      intros x Hx [Hx'|[]]. subst x.
      apply in_map_iff in Hx. destruct Hx as (r & Hrd & Hr).
      assert (Hin : In r (filter (fun r => String.eqb (Db.dapp_id r) d)
                            (gas_analytics w))).
      { apply filter_In. split; [exact Hr|].
        apply String.eqb_eq. exact Hrd. }
      rewrite Hfilter in Hin. contradiction.
    + eexists. eexists. split; [reflexivity|apply Forall2_grows_refl].
  - unfold update_analytics, statement. cbn [ticks].
    match goal with
    | |- context [db_fault E ?n ?q] => destruct (db_fault E n q)
    end; [apply analytics_grow_same_rows; reflexivity|].
    intros Hnd. unfold one_row_per_dapp in *. simpl. split.
    + rewrite map_map.
      erewrite map_ext; [exact Hnd|].
      intros r. simpl.
      destruct (String.eqb (Db.dapp_id r) d); reflexivity.
    + eexists. exists []. split; [rewrite app_nil_r; reflexivity|].
      apply Forall2_map_in. intros r Hr.
      destruct (String.eqb_spec (Db.dapp_id r) d) as [Hd|Hd];
        [|apply grows_refl].
      rewrite (the_row_of_a_dapp d _ current rest r Hnd Hfilter Hr Hd).
      unfold grows. simpl. repeat split; lia.
Qed.

Lemma analytics_grow_perform_all (ops : list Spec.Operation) (w : World) :
  analytics_grow w (Spec.perform_all E ops w).
Proof.
  pose proof analytics_grow_refl as Hrefl.
  pose proof analytics_grow_trans as Htrans.
  pose proof analytics_grow_tick as Htick.
  apply every_perform_all; try assumption.
  - intros b. unfold update_executing. keeps_step.
    apply analytics_grow_same_rows. reflexivity.
  - intros h b. unfold update_completed. keeps_step.
    apply analytics_grow_same_rows. reflexivity.
  - intros e b. unfold update_failed. keeps_step.
    apply analytics_grow_same_rows. reflexivity.
  - intros l. unfold update_executing_any. keeps_step.
    apply analytics_grow_same_rows. reflexivity.
  - intros e l. unfold update_failed_any. keeps_step.
    apply analytics_grow_same_rows. reflexivity.
  - intros b u t a tok g s. unfold insert_transaction. keeps_step.
    match goal with |- context [if ?c then _ else _] => destruct c end;
      apply analytics_grow_same_rows; reflexivity.
  - intros t a w0. apply analytics_grow_same_rows. reflexivity.
  - intros b t g Hb Ht Hg. apply analytics_grow_updateAnalytics; assumption.
Qed.

End AnalyticsGrowth.

(** X4.  When no two analytics rows are of the same dApp, this stays so
    through every sequence of operations (the service inserts a row only
    for a dApp that has none), and no counter of a row ever decreases:
    each row is still there, for the same dApp, with [total_gas_saved],
    [total_batches] and [total_transactions] at least what they were. *)
Theorem analytics_counters_never_decrease (E : Env)
    (ops : list Spec.Operation) (w : World) :
  Lifecycle.one_row_per_dapp w ->
  Lifecycle.one_row_per_dapp (Spec.perform_all E ops w) /\
  forall r,
    In r (gas_analytics w) ->
    exists r',
      In r' (gas_analytics (Spec.perform_all E ops w)) /\
      Db.dapp_id r' = Db.dapp_id r /\
      Db.total_gas_saved r <= Db.total_gas_saved r' /\
      Db.total_batches r <= Db.total_batches r' /\
      Db.total_transactions r <= Db.total_transactions r'.
Proof.
  intros Hnd.
  destruct (analytics_grow_perform_all E ops w Hnd)
    as (Hnd' & kept & added & Hrows & Hkept).
  split; [exact Hnd'|].
  rewrite Hrows. clear Hrows Hnd Hnd'.
  induction Hkept as [|a b l l' Hab Hrest IH]; intros r Hr.
  - contradiction.
  - destruct Hr as [Hr|Hr].
    + subst a. exists b. split; [left; reflexivity|exact Hab].
    + destruct (IH r Hr) as (r' & Hin & Hg).
      exists r'. split; [right; exact Hin|exact Hg].
Qed.

Lemma analytics_counters_never_decrease_witness :
  Lifecycle.one_row_per_dapp
    (Spec.perform_all Samples.env_ok Lifecycle.some_operations
       Lifecycle.world_mixed) /\
  forall r,
    In r (gas_analytics Lifecycle.world_mixed) ->
    exists r',
      In r' (gas_analytics
               (Spec.perform_all Samples.env_ok Lifecycle.some_operations
                  Lifecycle.world_mixed)) /\
      Db.dapp_id r' = Db.dapp_id r /\
      Db.total_gas_saved r <= Db.total_gas_saved r' /\
      Db.total_batches r <= Db.total_batches r' /\
      Db.total_transactions r <= Db.total_transactions r'.
Proof.
  apply (analytics_counters_never_decrease Samples.env_ok
           Lifecycle.some_operations Lifecycle.world_mixed).
  unfold Lifecycle.one_row_per_dapp. simpl.
  repeat constructor; simpl; intuition discriminate.
Defined.

(** ** The wallet *)

Section WalletFacts.

Import BatchingService Lifecycle.

Variable E : Env.

(** A computation followed along two relations, one after the other. *)
Lemma keeps_bind_mixed {A B} (P Q R : World -> World -> Prop)
    (c : Async A) (k : A -> Async B) :
  (forall w1 w2, P w1 w2 -> R w1 w2) ->
  (forall w1 w2 w3, P w1 w2 -> Q w2 w3 -> R w1 w3) ->
  Spec.keeps P c -> (forall a, Spec.keeps Q (k a)) ->
  Spec.keeps R (bind c k).
Proof.
  intros Hsub Hseq Hc Hk w. unfold bind. specialize (Hc w).
  destruct (c w) as [[a|e] w1]; simpl in *.
  - eapply Hseq; [exact Hc|apply Hk].
  - apply Hsub. exact Hc.
Qed.

Lemma keeps_try_catch_mixed {A} (P Q R : World -> World -> Prop)
    (c : Async A) (h : string -> Async A) :
  (forall w1 w2, P w1 w2 -> R w1 w2) ->
  (forall w1 w2 w3, P w1 w2 -> Q w2 w3 -> R w1 w3) ->
  Spec.keeps P c -> (forall e, Spec.keeps Q (h e)) ->
  Spec.keeps R (try_catch c h).
Proof.
  intros Hsub Hseq Hc Hh w. unfold try_catch. specialize (Hc w).
  destruct (c w) as [[a|e] w1]; simpl in *.
  - apply Hsub. exact Hc.
  - eapply Hseq; [exact Hc|apply Hh].
Qed.

Lemma calls_same_rows_statement {A} (q : Db.Query)
    (effect : nat -> World -> Outcome A * World) :
  (forall n w, signer_calls (snd (effect n w)) = signer_calls w) ->
  Spec.keeps Spec.same_calls (statement E q effect).
Proof. intros H. keeps_step. apply H. Qed.

Lemma calls_addToBatch (u t a : string) (tok : option string)
    (s : option Z) : Spec.keeps Spec.same_calls (addToBatch E u t a tok s).
Proof.
  apply every_addToBatch; try rel_fact.
  intros. unfold insert_transaction. keeps_step.
  match goal with |- context [if ?c then _ else _] => destruct c end;
    reflexivity.
Qed.

Lemma calls_executeBatch (txs : list BatchTransaction) :
  Spec.keeps Spec.same_calls (executeBatch E txs).
Proof.
  apply every_executeBatch; try rel_fact.
  - apply calls_update_completed.
  - apply calls_update_failed.
  - intros l. unfold update_executing_any. keeps_step. reflexivity.
  - intros e l. unfold update_failed_any. keeps_step. reflexivity.
  - intros. apply calls_updateAnalytics.
Qed.

Lemma calls_processAutoBatching (config : BatchConfig) :
  Spec.keeps Spec.same_calls (processAutoBatching E config).
Proof.
  apply every_processAutoBatching; try rel_fact.
  - apply calls_update_completed.
  - apply calls_update_failed.
  - intros l. unfold update_executing_any. keeps_step. reflexivity.
  - intros e l. unfold update_failed_any. keeps_step. reflexivity.
  - intros. apply calls_updateAnalytics.
Qed.

Lemma one_more_call_same (w1 w2 : World) :
  Spec.same_calls w1 w2 -> one_more_call w1 w2.
Proof.
  intros H. exists []. rewrite app_nil_r. split; [exact H|simpl; lia].
Qed.

Lemma one_more_call_then_same (w1 w2 w3 : World) :
  one_more_call w1 w2 -> Spec.same_calls w2 w3 -> one_more_call w1 w3.
Proof.
  intros (more & H & Hlen) H23. exists more. split; [|exact Hlen].
  unfold Spec.same_calls in H23. congruence.
Qed.

Lemma same_then_one_more_call (w1 w2 w3 : World) :
  Spec.same_calls w1 w2 -> one_more_call w2 w3 -> one_more_call w1 w3.
Proof.
  intros H12 (more & H & Hlen). exists more. split; [|exact Hlen].
  unfold Spec.same_calls in H12. congruence.
Qed.

Lemma one_more_call_executeImmediateTransaction (b : string) :
  Spec.keeps one_more_call (executeImmediateTransaction E b).
Proof.
  unfold executeImmediateTransaction.
  apply (keeps_bind_mixed Spec.same_calls one_more_call);
    [exact one_more_call_same|exact same_then_one_more_call
    |keeps_step|intros _].
  apply (keeps_try_catch_mixed one_more_call Spec.same_calls);
    [auto|exact one_more_call_then_same| |].
  - apply (keeps_bind_mixed Spec.same_calls one_more_call);
      [exact one_more_call_same|exact same_then_one_more_call
      |keeps_step|intros rows].
    destruct rows as [|transaction rest].
    + intros w. apply one_more_call_same. reflexivity.
    + apply (keeps_bind_mixed Spec.same_calls one_more_call);
        [exact one_more_call_same|exact same_then_one_more_call
        |unfold update_executing; keeps_step; reflexivity|intros _].
      apply (keeps_bind_mixed Spec.same_calls one_more_call);
        [exact one_more_call_same|exact same_then_one_more_call
        |keeps_step|intros amount].
      apply (keeps_bind_mixed one_more_call Spec.same_calls);
        [auto|exact one_more_call_then_same| |].
      * intros w. exists [(Db.to_address transaction, amount)].
        split; [reflexivity|simpl; lia].
      * intros txHash.
        repeat first
          [ keeps_step
          | apply calls_update_completed
          | apply calls_updateAnalytics ].
  - intros e. repeat first [ keeps_step | apply calls_update_failed ].
Qed.

Lemma wallet_calls_of_an_operation (op : Spec.Operation) (w : World) :
  match op with
  | Spec.ExecuteOne _ =>
      exists more,
        signer_calls (Spec.perform E op w) = signer_calls w ++ more /\
        (List.length more <= 1)%nat
  | _ => signer_calls (Spec.perform E op w) = signer_calls w
  end.
Proof.
  destruct op; simpl.
  - apply calls_addToBatch.
  - apply one_more_call_executeImmediateTransaction.
  - apply calls_executeBatch.
  - apply calls_processAutoBatching.
Qed.

End WalletFacts.

(** X5.  Only [executeImmediateTransaction] reaches the wallet, and at
    most once a call: enqueueing, [executeBatch] and [processAutoBatching]
    leave the list of calls received by the wallet as it was, whatever the
    server, the node and the wallet answer. *)
Theorem wallet_reached_by_executeImmediateTransaction_only (E : Env)
    (op : Spec.Operation) (w : World) :
  match op with
  | Spec.ExecuteOne _ =>
      exists more,
        signer_calls (Spec.perform E op w) = signer_calls w ++ more /\
        (List.length more <= 1)%nat
  | _ => signer_calls (Spec.perform E op w) = signer_calls w
  end.
Proof. apply wallet_calls_of_an_operation. Qed.

(* ================================================================== *)
(** * What the result of [executeImmediateTransaction] says of the record *)
(* ================================================================== *)

Section ImmediateFacts.

Import BatchingService.

Variable E : Env.

Lemma rows_updateAnalytics (d : string) (u : AnalyticsUpdates) (w : World) :
  batched_transactions (snd (updateAnalytics E d u w))
  = batched_transactions w.
Proof.
  unfold updateAnalytics, bind, connect, select_analytics, insert_analytics,
    update_analytics, statement.
  repeat match goal with
         | |- context [db_fault E ?n ?q] => destruct (db_fault E n q)
         | |- context [match ?l with [] => _ | _ :: _ => _ end] => destruct l
         end; reflexivity.
Qed.

(** The [catch] block of [executeImmediateTransaction], when it returns. *)
Lemma catch_block_returns (b e : string) (w0 w' : World) (r : ExecResult) :
  (update_failed E e b ;;
   ret (mkExecResult false None None (Some e))) w0 = (Returned r, w') ->
  r = mkExecResult false None None (Some e) /\
  batched_transactions w'
  = Db.update_where b (Db.set_failed e) (batched_transactions w0) /\
  signer_calls w' = signer_calls w0.
Proof.
  unfold bind, update_failed, statement, ret.
  destruct (db_fault E (ticks w0) (Db.SetFailed e b)); [discriminate|].
  intros H. inversion H; subst. repeat split.
Qed.

(** The three ways [executeImmediateTransaction] returns: the record was
    not found; the transfer was sent and the record completed; an error
    was caught and recorded. *)
Lemma executeImmediateTransaction_returns (b : string) (w w' : World)
    (r : ExecResult) :
  executeImmediateTransaction E b w = (Returned r, w') ->
  (filter (fun x => String.eqb (Db.batch_id x) b) (batched_transactions w)
   = [] /\
   r = mkExecResult false None None (Some "Transaction not found") /\
   batched_transactions w' = batched_transactions w /\
   signer_calls w' = signer_calls w) \/
  (exists transaction rest a h t,
      filter (fun x => String.eqb (Db.batch_id x) b) (batched_transactions w)
      = transaction :: rest /\
      Js.BigInt (Db.amount transaction) = Some a /\
      r = mkExecResult true (Some h) (Some 21000) None /\
      batched_transactions w'
      = Db.update_where b (Db.set_completed t h)
          (Db.update_where b Db.set_executing (batched_transactions w)) /\
      signer_calls w'
      = signer_calls w
        ++ [(Db.to_address transaction,
             Js.BigInt_toString (Z.quot a 1000000000000000000))]) \/
  (exists e rows,
      r = mkExecResult false None None (Some e) /\
      batched_transactions w' = Db.update_where b (Db.set_failed e) rows /\
      map Db.batch_id rows = map Db.batch_id (batched_transactions w)).
Proof.
  intros H. unfold executeImmediateTransaction in H.
  unfold bind at 1 in H. unfold connect, statement at 1 in H.
  destruct (db_fault E (ticks w) Db.Connect); [discriminate|].
  rewrite try_catch_bind in H. unfold select_transaction, statement at 1 in H.
  cbn [ticks tick batched_transactions] in H.
  destruct (db_fault E (S (ticks w)) (Db.SelectTx b)).
  { right. right. apply catch_block_returns in H.
    destruct H as (Hr & Hrows & _). eexists. eexists.
    split; [exact Hr|]. split; [exact Hrows|]. reflexivity. }
  destruct (filter (fun x => String.eqb (Db.batch_id x) b)
              (batched_transactions w)) as [|transaction rest] eqn:Hfilter.
  { left. unfold try_catch, ret in H. inversion H; subst.
    repeat split. }
  rewrite try_catch_bind in H. unfold update_executing, statement at 1 in H.
  cbn [ticks tick batched_transactions set_transactions] in H.
  destruct (db_fault E (S (S (ticks w))) (Db.SetExecuting b)).
  { right. right. apply catch_block_returns in H.
    destruct H as (Hr & Hrows & _). eexists. eexists.
    split; [exact Hr|]. split; [exact Hrows|]. reflexivity. }
  rewrite try_catch_bind in H.
  unfold lift, amountInSHM, BigInt_or_throw in H.
  destruct (Js.BigInt (Db.amount transaction)) as [a|] eqn:Hamount.
  2:{ right. right. apply catch_block_returns in H.
      destruct H as (Hr & Hrows & _). eexists. eexists.
      split; [exact Hr|]. split; [exact Hrows|].
      cbn [batched_transactions set_transactions tick].
      apply update_where_ids. reflexivity. }
  rewrite try_catch_bind in H. unfold sendTransaction at 1 in H.
  cbn [ticks tick batched_transactions set_transactions gas_analytics
         next_id signer_calls] in H.
  match type of H with
  | context [wallet_sendTransaction E ?n ?t ?m] =>
      destruct (wallet_sendTransaction E n t m) as [h|e]
  end.
  2:{ right. right. apply catch_block_returns in H.
      destruct H as (Hr & Hrows & _). eexists. eexists.
      split; [exact Hr|]. split; [exact Hrows|].
      cbn [batched_transactions].
      apply update_where_ids. reflexivity. }
  rewrite try_catch_bind in H. unfold update_completed, statement at 1 in H.
  cbn [ticks tick batched_transactions set_transactions gas_analytics
         next_id signer_calls] in H.
  match type of H with
  | context [db_fault E ?n (Db.SetCompleted ?x ?y)] =>
      destruct (db_fault E n (Db.SetCompleted x y))
  end.
  { right. right. apply catch_block_returns in H.
    destruct H as (Hr & Hrows & _). eexists. eexists.
    split; [exact Hr|]. split; [exact Hrows|].
    cbn [batched_transactions].
    apply update_where_ids. reflexivity. }
  rewrite try_catch_bind in H.
  match type of H with
  | context [updateAnalytics E ?d ?u ?w0] =>
      pose proof (rows_updateAnalytics d u w0) as Hrows;
      pose proof (calls_updateAnalytics E d u w0) as Hcalls;
      destruct (updateAnalytics E d u w0) as [[u0|e] w1]
  end.
  - right. left. unfold try_catch, ret in H. inversion H; subst.
    exists transaction, rest, a, h. eexists.
    split; [reflexivity|]. split; [exact Hamount|]. split; [reflexivity|].
    cbn [snd] in Hrows, Hcalls. unfold Spec.same_calls in Hcalls.
    rewrite Hrows, Hcalls.
    cbn [batched_transactions signer_calls set_transactions tick].
    split; reflexivity.
  - right. right. apply catch_block_returns in H.
    destruct H as (Hr & Hrows' & _). eexists. eexists.
    split; [exact Hr|]. split; [exact Hrows'|].
    cbn [snd] in Hrows. rewrite Hrows.
    cbn [batched_transactions set_transactions tick].
    rewrite !update_where_ids by reflexivity. reflexivity.
Qed.

Lemma update_where_row (b : string) (f : Db.TxRow -> Db.TxRow)
    (rows : list Db.TxRow) (x : Db.TxRow) :
  (forall r, Db.batch_id (f r) = Db.batch_id r) ->
  In x (Db.update_where b f rows) -> Db.batch_id x = b ->
  exists r, In r rows /\ Db.batch_id r = b /\ x = f r.
Proof.
  intros Hf Hin Hb. unfold Db.update_where in Hin. apply in_map_iff in Hin.
  destruct Hin as (r & Hx & Hr).
  destruct (String.eqb_spec (Db.batch_id r) b) as [Heq|Hne].
  - exists r. repeat split; auto.
  - subst x. contradiction.
Qed.

Lemma filter_by_id_nonempty (b : string) (rows : list Db.TxRow) :
  In b (map Db.batch_id rows) ->
  filter (fun x => String.eqb (Db.batch_id x) b) rows <> [].
Proof.
  intros Hin Hnil. apply in_map_iff in Hin. destruct Hin as (r & Hb & Hr).
  assert (H : In r (filter (fun x => String.eqb (Db.batch_id x) b) rows)).
  { apply filter_In. split; [exact Hr|]. apply String.eqb_eq. exact Hb. }
  rewrite Hnil in H. contradiction.
Qed.

End ImmediateFacts.

(** X6.  When [executeImmediateTransaction] returns a result with
    [success: true], the store agrees with it: the record of the
    identifier exists, every record of that identifier is [completed]
    with the returned hash and an execution time, every other record is
    as it was, the result carries 21000 as gas and no error, and the
    wallet has received exactly one call. *)
Theorem executeImmediateTransaction_success_is_recorded (E : Env)
    (batchId : string) (w w' : World) (r : BatchingService.ExecResult) :
  BatchingService.executeImmediateTransaction E batchId w
    = (Returned r, w') ->
  BatchingService.success r = true ->
  exists h,
    r = BatchingService.mkExecResult true (Some h) (Some 21000) None /\
    In batchId (map Db.batch_id (batched_transactions w')) /\
    (forall x,
        In x (batched_transactions w') -> Db.batch_id x = batchId ->
        Db.status x = Db.completed /\ Db.tx_hash x = Some h /\
        Db.executed_at x <> None) /\
    (forall x,
        Db.batch_id x <> batchId ->
        (In x (batched_transactions w') <-> In x (batched_transactions w))) /\
    exists call, signer_calls w' = signer_calls w ++ [call].
Proof.
  intros Hrun Hsuccess.
  destruct (executeImmediateTransaction_returns E batchId w w' r Hrun)
    as [(_ & Hr & _)|[Hok|(e & rows & Hr & _)]];
    [subst r; discriminate| |subst r; discriminate].
  destruct Hok as (transaction & rest & a & h & t & Hfilter & Hamount & Hr
                   & Hrows & Hcalls).
  exists h. split; [exact Hr|].
  assert (Hfound : In transaction (batched_transactions w) /\
                   Db.batch_id transaction = batchId).
  { assert (Hin : In transaction (transaction :: rest)) by (left; reflexivity).
    rewrite <- Hfilter in Hin. apply filter_In in Hin.
    destruct Hin as [Hin Heq]. split; [exact Hin|].
    apply String.eqb_eq. exact Heq. }
  destruct Hfound as [Hin Hid].
  split; [|split; [|split]].
  - rewrite Hrows, !update_where_ids by reflexivity.
    rewrite <- Hid. apply in_map. exact Hin.
  - intros x Hx Hxid. rewrite Hrows in Hx.
    apply update_where_row in Hx; [|reflexivity|exact Hxid].
    destruct Hx as (y & _ & _ & Hxy). subst x.
    repeat split. discriminate.
  - intros x Hxid. rewrite Hrows. unfold Db.update_where.
    rewrite map_map. split.
    + intros Hx. apply in_map_iff in Hx. destruct Hx as (y & Hy & Hyin).
      destruct (String.eqb_spec (Db.batch_id y) batchId) as [Heq|Hne].
      * simpl in Hy. rewrite Heq, String.eqb_refl in Hy. subst x.
        simpl in Hxid. contradiction.
      * apply String.eqb_neq in Hne. rewrite Hne in Hy. subst y. exact Hyin.
    + intros Hx. apply in_map_iff. exists x. split; [|exact Hx].
      apply String.eqb_neq in Hxid. rewrite Hxid. simpl. rewrite Hxid.
      reflexivity.
  - eexists. exact Hcalls.
Qed.

Lemma executeImmediateTransaction_success_is_recorded_witness :
  exists h,
    BatchingService.mkExecResult true (Some "0xfeed") (Some 21000) None
    = BatchingService.mkExecResult true (Some h) (Some 21000) None /\
    In "m3"
      (map Db.batch_id
         (batched_transactions
            (snd (BatchingService.executeImmediateTransaction Samples.env_ok
                    "m3" Lifecycle.world_mixed)))) /\
    (forall x,
        In x (batched_transactions
                (snd (BatchingService.executeImmediateTransaction
                        Samples.env_ok "m3" Lifecycle.world_mixed))) ->
        Db.batch_id x = "m3" ->
        Db.status x = Db.completed /\ Db.tx_hash x = Some h /\
        Db.executed_at x <> None) /\
    (forall x,
        Db.batch_id x <> "m3" ->
        (In x (batched_transactions
                 (snd (BatchingService.executeImmediateTransaction
                         Samples.env_ok "m3" Lifecycle.world_mixed))) <->
         In x (batched_transactions Lifecycle.world_mixed))) /\
    exists call,
      signer_calls
        (snd (BatchingService.executeImmediateTransaction Samples.env_ok "m3"
                Lifecycle.world_mixed))
      = signer_calls Lifecycle.world_mixed ++ [call].
Proof.
  apply (executeImmediateTransaction_success_is_recorded Samples.env_ok "m3"
           Lifecycle.world_mixed).
  - vm_compute. reflexivity.
  - reflexivity.
Defined.

(** X7.  When [executeImmediateTransaction] returns a result with
    [success: false] for an identifier that is in the store, the error of
    the result is recorded: every record of that identifier is [failed]
    and carries the returned error message. *)
Theorem executeImmediateTransaction_failure_is_recorded (E : Env)
    (batchId : string) (w w' : World) (r : BatchingService.ExecResult) :
  BatchingService.executeImmediateTransaction E batchId w
    = (Returned r, w') ->
  BatchingService.success r = false ->
  In batchId (map Db.batch_id (batched_transactions w)) ->
  exists e,
    r = BatchingService.mkExecResult false None None (Some e) /\
    In batchId (map Db.batch_id (batched_transactions w')) /\
    forall x,
      In x (batched_transactions w') -> Db.batch_id x = batchId ->
      Db.status x = Db.failed /\ Db.error_message x = Some e.
Proof.
  intros Hrun Hfailure Hknown.
  destruct (executeImmediateTransaction_returns E batchId w w' r Hrun)
    as [(Hnone & _)|[Hok|(e & rows & Hr & Hrows & Hids)]].
  - exfalso. apply (filter_by_id_nonempty batchId _ Hknown). exact Hnone.
  - destruct Hok as (? & ? & ? & ? & ? & _ & _ & Hr & _).
    subst r. discriminate.
  - exists e. split; [exact Hr|]. split.
    + rewrite Hrows, update_where_ids by reflexivity.
      rewrite Hids. exact Hknown.
    + intros x Hx Hxid. rewrite Hrows in Hx.
      apply update_where_row in Hx; [|reflexivity|exact Hxid].
      destruct Hx as (y & _ & _ & Hxy). subst x. split; reflexivity.
Qed.

Lemma executeImmediateTransaction_failure_is_recorded_witness :
  exists e,
    BatchingService.mkExecResult false None None
      (Some "Transaction failed: insufficient funds")
    = BatchingService.mkExecResult false None None (Some e) /\
    In "m3"
      (map Db.batch_id
         (batched_transactions
            (snd (BatchingService.executeImmediateTransaction
                    Samples.env_wallet_down "m3" Lifecycle.world_mixed)))) /\
    forall x,
      In x (batched_transactions
              (snd (BatchingService.executeImmediateTransaction
                      Samples.env_wallet_down "m3" Lifecycle.world_mixed))) ->
      Db.batch_id x = "m3" ->
      Db.status x = Db.failed /\ Db.error_message x = Some e.
Proof.
  apply (executeImmediateTransaction_failure_is_recorded
           Samples.env_wallet_down "m3" Lifecycle.world_mixed).
  - vm_compute. reflexivity.
  - reflexivity.
  - simpl. right. right. left. reflexivity.
Defined.

Section ImmediateEdges.

Import BatchingService.

Variable E : Env.

Lemma update_where_absent (b : string) (f : Db.TxRow -> Db.TxRow)
    (rows : list Db.TxRow) :
  ~ In b (map Db.batch_id rows) -> Db.update_where b f rows = rows.
Proof.
  intros Hout. unfold Db.update_where.
  rewrite <- (map_id rows) at 2. apply map_ext_in. intros r Hr.
  destruct (String.eqb_spec (Db.batch_id r) b) as [Heq|Hne]; [|reflexivity].
  exfalso. apply Hout. rewrite <- Heq. apply in_map. exact Hr.
Qed.

Lemma filter_by_id_absent (b : string) (rows : list Db.TxRow) :
  ~ In b (map Db.batch_id rows) ->
  filter (fun x => String.eqb (Db.batch_id x) b) rows = [].
Proof.
  intros Hout.
  destruct (filter (fun x => String.eqb (Db.batch_id x) b) rows)
    as [|r rest] eqn:Hfilter; [reflexivity|].
  exfalso. apply Hout.
  assert (Hin : In r (r :: rest)) by (left; reflexivity).
  rewrite <- Hfilter in Hin. apply filter_In in Hin.
  destruct Hin as [Hin Heq]. apply String.eqb_eq in Heq.
  rewrite <- Heq. apply in_map. exact Hin.
Qed.

Lemma executeImmediateTransaction_absent (b : string) (w : World) :
  ~ In b (map Db.batch_id (batched_transactions w)) ->
  batched_transactions (snd (executeImmediateTransaction E b w))
  = batched_transactions w /\
  gas_analytics (snd (executeImmediateTransaction E b w)) = gas_analytics w /\
  signer_calls (snd (executeImmediateTransaction E b w)) = signer_calls w /\
  (forall r,
      fst (executeImmediateTransaction E b w) = Returned r ->
      success r = false /\ res_txHash r = None) /\
  (db_fault E (ticks w) Db.Connect = None ->
   db_fault E (S (ticks w)) (Db.SelectTx b) = None ->
   fst (executeImmediateTransaction E b w)
   = Returned (mkExecResult false None None (Some "Transaction not found"))).
Proof.
  intros Hout.
  remember (executeImmediateTransaction E b w) as result eqn:Hresult.
  unfold executeImmediateTransaction in Hresult.
  unfold bind at 1 in Hresult. unfold connect, statement at 1 in Hresult.
  destruct (db_fault E (ticks w) Db.Connect).
  { subst result. cbn [fst snd].
    repeat split; try reflexivity; intros; congruence. }
  rewrite try_catch_bind in Hresult.
  unfold select_transaction, statement at 1 in Hresult.
  cbn [ticks tick batched_transactions] in Hresult.
  destruct (db_fault E (S (ticks w)) (Db.SelectTx b)) as [e|].
  - unfold bind, update_failed, statement, ret in Hresult.
    cbn [ticks] in Hresult.
    match type of Hresult with
    | context [db_fault E ?n (Db.SetFailed e b)] =>
        destruct (db_fault E n (Db.SetFailed e b))
    end;
      subst result;
      cbn [fst snd batched_transactions set_transactions tick gas_analytics
             signer_calls].
    + repeat split; try reflexivity; intros; congruence.
    + rewrite (update_where_absent b _ _ Hout).
      repeat split; try reflexivity; try (intros; congruence);
        match goal with H : Returned _ = Returned _ |- _ =>
          inversion H; reflexivity end.
  - rewrite (filter_by_id_absent b _ Hout) in Hresult.
    unfold try_catch, ret in Hresult. subst result.
    cbn [fst snd batched_transactions tick gas_analytics signer_calls].
    repeat split; try reflexivity;
      match goal with H : Returned _ = Returned _ |- _ =>
        inversion H; reflexivity end.
Qed.

End ImmediateEdges.

(** X8.  For an identifier that no record of the store has,
    [executeImmediateTransaction] changes neither table and does not call
    the wallet, whatever the server answers; it never reports success,
    and when the connection and the [SELECT] are accepted it returns the
    error ['Transaction not found']. *)
Theorem executeImmediateTransaction_unknown_identifier (E : Env)
    (batchId : string) (w : World) :
  ~ In batchId (map Db.batch_id (batched_transactions w)) ->
  batched_transactions
    (snd (BatchingService.executeImmediateTransaction E batchId w))
  = batched_transactions w /\
  gas_analytics (snd (BatchingService.executeImmediateTransaction E batchId w))
  = gas_analytics w /\
  signer_calls (snd (BatchingService.executeImmediateTransaction E batchId w))
  = signer_calls w /\
  (forall r,
      fst (BatchingService.executeImmediateTransaction E batchId w)
      = Returned r ->
      BatchingService.success r = false /\
      BatchingService.res_txHash r = None) /\
  (db_fault E (ticks w) Db.Connect = None ->
   db_fault E (S (ticks w)) (Db.SelectTx batchId) = None ->
   fst (BatchingService.executeImmediateTransaction E batchId w)
   = Returned
       (BatchingService.mkExecResult false None None
          (Some "Transaction not found"))).
Proof. apply executeImmediateTransaction_absent. Qed.

Lemma executeImmediateTransaction_unknown_identifier_witness :
  batched_transactions
    (snd (BatchingService.executeImmediateTransaction Samples.env_ok "nope"
            Lifecycle.world_mixed))
  = batched_transactions Lifecycle.world_mixed /\
  fst (BatchingService.executeImmediateTransaction Samples.env_ok "nope"
         Lifecycle.world_mixed)
  = Returned
      (BatchingService.mkExecResult false None None
         (Some "Transaction not found")).
Proof.
  destruct (executeImmediateTransaction_unknown_identifier Samples.env_ok
              "nope" Lifecycle.world_mixed) as (Hrows & _ & _ & _ & Hfound).
  - simpl. intuition discriminate.
  - split; [exact Hrows|]. apply Hfound; reflexivity.
Defined.

(** X9.  A transfer that was sent can be recorded as failed.  When the
    record is found, its amount is an integer string, the wallet sends the
    transfer and answers a hash, and the server accepts every statement
    but rejects the [SELECT] on [gas_analytics] of [updateAnalytics], then
    [executeImmediateTransaction] returns [success: false] with the
    message of the rejection; the wallet has been called, and every
    record of the identifier ends [failed] with that message while
    carrying the hash and the execution time of the transfer. *)
Theorem executeImmediateTransaction_sent_but_recorded_failed (E : Env)
    (batchId : string) (w : World) (record : Db.TxRow)
    (others : list Db.TxRow) (a : Z) (h message : string) :
  Faults.accepts_all_but_analytics E ->
  Faults.analytics_unavailable E message ->
  Faults.wallet_answers E h ->
  filter (fun r => String.eqb (Db.batch_id r) batchId)
    (batched_transactions w) = record :: others ->
  Js.BigInt (Db.amount record) = Some a ->
  exists w',
    BatchingService.executeImmediateTransaction E batchId w
    = (Returned (BatchingService.mkExecResult false None None (Some message)),
       w') /\
    signer_calls w'
    = signer_calls w
      ++ [(Db.to_address record,
           Js.BigInt_toString (Z.quot a 1000000000000000000))] /\
    gas_analytics w' = gas_analytics w /\
    forall x,
      In x (batched_transactions w') -> Db.batch_id x = batchId ->
      Db.status x = Db.failed /\ Db.error_message x = Some message /\
      Db.tx_hash x = Some h /\ Db.executed_at x <> None.
Proof.
  intros Haccepts Hdown Hwallet Hfound Hamount.
  assert (Hacc : forall A q (effect : nat -> World -> Outcome A * World) w0,
             (forall d, q <> Db.SelectAnalytics d) ->
             statement E q effect w0 = effect (ticks w0) (tick w0)).
  { intros A q effect w0 Hq. apply statement_accepted.
    apply Haccepts. exact Hq. }
  unfold BatchingService.executeImmediateTransaction.
  unfold bind at 1. unfold connect. rewrite Hacc by discriminate.
  rewrite try_catch_bind. unfold select_transaction.
  rewrite Hacc by discriminate.
  cbn [batched_transactions tick]. rewrite Hfound.
  rewrite try_catch_bind. unfold update_executing.
  rewrite Hacc by discriminate.
  rewrite try_catch_bind.
  unfold lift, BatchingService.amountInSHM, BatchingService.BigInt_or_throw.
  rewrite Hamount.
  rewrite try_catch_bind. unfold sendTransaction at 1. rewrite Hwallet.
  rewrite try_catch_bind. unfold update_completed.
  rewrite Hacc by discriminate.
  rewrite try_catch_bind.
  unfold BatchingService.updateAnalytics at 1. unfold bind at 1.
  unfold connect. rewrite Hacc by discriminate.
  unfold bind at 1. unfold select_analytics.
  rewrite statement_rejected with (e := message) by apply Hdown.
  unfold bind, update_failed. rewrite Hacc by discriminate.
  unfold ret. eexists. split; [reflexivity|].
  cbn [signer_calls gas_analytics batched_transactions set_transactions tick].
  split; [reflexivity|]. split; [reflexivity|].
  intros x Hx Hxid.
  apply update_where_row in Hx; [|reflexivity|exact Hxid].
  destruct Hx as (y & Hy & Hyid & Hxy).
  apply update_where_row in Hy; [|reflexivity|exact Hyid].
  destruct Hy as (z & Hz & Hzid & Hyz). subst x y.
  repeat split. discriminate.
Qed.

Lemma executeImmediateTransaction_sent_but_recorded_failed_witness :
  exists w',
    BatchingService.executeImmediateTransaction Faults.env_analytics_down
      "m3" Lifecycle.world_mixed
    = (Returned
         (BatchingService.mkExecResult false None None
            (Some "relation gas_analytics does not exist")), w') /\
    signer_calls w'
    = signer_calls Lifecycle.world_mixed
      ++ [(Samples.addrC, Js.BigInt_toString (Z.quot 7 1000000000000000000))] /\
    gas_analytics w' = gas_analytics Lifecycle.world_mixed /\
    forall x,
      In x (batched_transactions w') -> Db.batch_id x = "m3" ->
      Db.status x = Db.failed /\
      Db.error_message x = Some "relation gas_analytics does not exist" /\
      Db.tx_hash x = Some "0xfeed" /\ Db.executed_at x <> None.
Proof.
  apply (executeImmediateTransaction_sent_but_recorded_failed
           Faults.env_analytics_down "m3" Lifecycle.world_mixed
           (Samples.row 3 "m3" Samples.addrC "7" Db.pending None None) []
           7 "0xfeed" "relation gas_analytics does not exist").
  - intros n q Hq. destruct q; try reflexivity.
    exfalso. apply (Hq dappId). reflexivity.
  - intros n d. reflexivity.
  - intros n t a. reflexivity.
  - reflexivity.
  - reflexivity.
Defined.

(* ================================================================== *)
(** * The route [POST /api/batch/execute] *)
(* ================================================================== *)

(** X10.  [POST /api/batch/execute] always answers.  It answers 200 only
    for a request that names an identifier, with a connected wallet, after
    [executeImmediateTransaction] has completed the record: every record
    of the identifier is then [completed] with the hash of the response,
    and the response gives the gas as ["21000"].  When the wallet is not
    connected, the route answers an error and the world is as it was: no
    statement is sent and the wallet receives no call. *)
Theorem POST_batch_execute_answers (E : Env) (ws : WalletService.State)
    (body : option (option string)) (w : World) :
  exists r w',
    BatchRoutes.POST_batch_execute E ws body w = (Returned r, w') /\
    (BatchRoutes.http_status r = 200 ->
     exists batchId h message,
       body = Some (Some batchId) /\
       WalletService.isConnected ws = true /\
       r = BatchRoutes.Executed (Some h) (Some "21000") message /\
       In batchId (map Db.batch_id (batched_transactions w')) /\
       forall x,
         In x (batched_transactions w') -> Db.batch_id x = batchId ->
         Db.status x = Db.completed /\ Db.tx_hash x = Some h) /\
    (WalletService.isConnected ws = false ->
     w' = w /\ BatchRoutes.http_status r <> 200).
Proof.
  unfold BatchRoutes.POST_batch_execute, try_catch.
  destruct body as [batchId|].
  2:{ unfold throw, ret. eexists. eexists. split; [reflexivity|].
      split; [discriminate|]. intros _. split; [reflexivity|discriminate]. }
  destruct (Routes.falsy batchId) eqn:Hfalsy.
  { unfold ret. eexists. eexists. split; [reflexivity|].
    split; [discriminate|]. intros _. split; [reflexivity|discriminate]. }
  destruct (WalletService.isConnected ws) eqn:Hconnected; cbn [negb].
  2:{ unfold ret. eexists. eexists. split; [reflexivity|].
      split; [discriminate|]. intros _. split; [reflexivity|discriminate]. }
  unfold bind.
  destruct (BatchingService.executeImmediateTransaction E
              (Routes.text batchId) w) as [[result|e] w1] eqn:Hrun.
  2:{ unfold ret. eexists. eexists. split; [reflexivity|].
      split; [discriminate|]. discriminate. }
  destruct (executeImmediateTransaction_returns E _ w w1 result Hrun)
    as [(_ & Hr & _)|[Hok|(e & rows & Hr & _)]].
  - subst result. unfold ret. eexists. eexists. split; [reflexivity|].
    split; [discriminate|]. discriminate.
  - destruct Hok as (transaction & rest & a & h & t & Hfilter & _ & Hr
                     & Hrows & _).
    subst result. cbn [BatchingService.success]. unfold ret.
    eexists. eexists. split; [reflexivity|]. split; [|discriminate].
    intros _. destruct batchId as [batchId|]; [|discriminate].
    exists batchId, h. eexists.
    split; [reflexivity|]. split; [reflexivity|]. split; [reflexivity|].
    cbn [Routes.text] in *.
    assert (Hfound : In transaction (batched_transactions w) /\
                     Db.batch_id transaction = batchId).
    { assert (Hin : In transaction (transaction :: rest))
        by (left; reflexivity).
      rewrite <- Hfilter in Hin. apply filter_In in Hin.
      destruct Hin as [Hin Heq]. split; [exact Hin|].
      apply String.eqb_eq. exact Heq. }
    destruct Hfound as [Hin Hid]. split.
    + rewrite Hrows, !update_where_ids by reflexivity.
      rewrite <- Hid. apply in_map. exact Hin.
    + intros x Hx Hxid. rewrite Hrows in Hx.
      apply update_where_row in Hx; [|reflexivity|exact Hxid].
      destruct Hx as (y & _ & _ & Hxy). subst x. split; reflexivity.
  - subst result. unfold ret. eexists. eexists. split; [reflexivity|].
    split; [discriminate|]. discriminate.
Qed.

(* ================================================================== *)
(** * The queries of the service *)
(* ================================================================== *)

Section QueryFacts.

Import BatchingService Queries.

Variable E : Env.

(** ** [ORDER BY created_at] *)

Lemma insert_by_created_at_perm (r : Db.TxRow) (l : list Db.TxRow) :
  Permutation (Db.insert_by_created_at r l) (r :: l).
Proof.
  induction l as [|x l IH]; simpl; [reflexivity|].
  destruct (Db.created_at r <? Db.created_at x); [reflexivity|].
  rewrite IH. apply perm_swap.
Qed.

Lemma order_by_created_at_perm (l : list Db.TxRow) :
  Permutation (Db.order_by_created_at l) l.
Proof.
  unfold Db.order_by_created_at.
  assert (H : forall l acc,
             Permutation
               (fold_left (fun acc r => Db.insert_by_created_at r acc) l acc)
               (acc ++ l)).
  { clear l. induction l as [|r l IH]; intros acc; simpl.
    - rewrite app_nil_r. reflexivity.
    - rewrite IH, insert_by_created_at_perm.
      change (r :: acc) with ([r] ++ acc).
      rewrite (Permutation_app_comm [r] acc), <- app_assoc. reflexivity. }
  apply (H l []).
Qed.

Lemma insert_by_created_at_sorted (r : Db.TxRow) (l : list Db.TxRow) :
  oldest_first l -> oldest_first (Db.insert_by_created_at r l).
Proof.
  unfold oldest_first.
  induction l as [|x l IH]; simpl; intros Hs.
  - constructor; constructor.
  - destruct (Z.ltb_spec (Db.created_at r) (Db.created_at x)) as [Hlt|Hge].
    + constructor; [exact Hs|].
      inversion Hs as [|? ? Hs' Hall]; subst. constructor; [lia|].
      eapply Forall_impl; [|exact Hall]. simpl. intros a Ha. lia.
    + inversion Hs as [|? ? Hs' Hall]; subst. constructor; [apply IH; exact Hs'|].
      eapply Permutation_Forall;
        [symmetry; apply insert_by_created_at_perm|].
      constructor; [lia|exact Hall].
Qed.

Lemma order_by_created_at_sorted (l : list Db.TxRow) :
  oldest_first (Db.order_by_created_at l).
Proof.
  unfold Db.order_by_created_at.
  assert (H : forall l acc,
             oldest_first acc ->
             oldest_first
               (fold_left (fun acc r => Db.insert_by_created_at r acc) l acc)).
  { clear l. induction l as [|r l IH]; intros acc Hacc; simpl.
    - exact Hacc.
    - apply IH. apply insert_by_created_at_sorted. exact Hacc. }
  apply H. constructor.
Qed.

Lemma insert_by_created_at_desc_perm (r : Db.TxRow) (l : list Db.TxRow) :
  Permutation (Db.insert_by_created_at_desc r l) (r :: l).
Proof.
  induction l as [|x l IH]; simpl; [reflexivity|].
  destruct (Db.created_at x <? Db.created_at r); [reflexivity|].
  rewrite IH. apply perm_swap.
Qed.

Lemma order_by_created_at_desc_perm (l : list Db.TxRow) :
  Permutation (Db.order_by_created_at_desc l) l.
Proof.
  unfold Db.order_by_created_at_desc.
  assert (H : forall l acc,
             Permutation
               (fold_left (fun acc r => Db.insert_by_created_at_desc r acc)
                  l acc)
               (acc ++ l)).
  { clear l. induction l as [|r l IH]; intros acc; simpl.
    - rewrite app_nil_r. reflexivity.
    - rewrite IH, insert_by_created_at_desc_perm.
      change (r :: acc) with ([r] ++ acc).
      rewrite (Permutation_app_comm [r] acc), <- app_assoc. reflexivity. }
  apply (H l []).
Qed.

Lemma insert_by_created_at_desc_sorted (r : Db.TxRow) (l : list Db.TxRow) :
  newest_first l -> newest_first (Db.insert_by_created_at_desc r l).
Proof.
  unfold newest_first.
  induction l as [|x l IH]; simpl; intros Hs.
  - constructor; constructor.
  - destruct (Z.ltb_spec (Db.created_at x) (Db.created_at r)) as [Hlt|Hge].
    + constructor; [exact Hs|].
      inversion Hs as [|? ? Hs' Hall]; subst. constructor; [lia|].
      eapply Forall_impl; [|exact Hall]. simpl. intros a Ha. lia.
    + inversion Hs as [|? ? Hs' Hall]; subst. constructor; [apply IH; exact Hs'|].
      eapply Permutation_Forall;
        [symmetry; apply insert_by_created_at_desc_perm|].
      constructor; [lia|exact Hall].
Qed.

Lemma order_by_created_at_desc_sorted (l : list Db.TxRow) :
  newest_first (Db.order_by_created_at_desc l).
Proof.
  unfold Db.order_by_created_at_desc.
  assert (H : forall l acc,
             newest_first acc ->
             newest_first
               (fold_left (fun acc r => Db.insert_by_created_at_desc r acc)
                  l acc)).
  { clear l. induction l as [|r l IH]; intros acc Hacc; simpl.
    - exact Hacc.
    - apply IH. apply insert_by_created_at_desc_sorted. exact Hacc. }
  apply H. constructor.
Qed.

Lemma firstn_sorted {A} (R : A -> A -> Prop) (n : nat) (l : list A) :
  StronglySorted R l -> StronglySorted R (firstn n l).
Proof.
  intros Hs. revert n. induction Hs as [|a l Hs IH Hall]; intros n.
  - rewrite firstn_nil. constructor.
  - destruct n as [|n]; simpl; constructor; [apply IH|].
    rewrite Forall_forall in *. intros x Hx. apply Hall.
    apply firstn_subset in Hx. exact Hx.
Qed.

Lemma firstn_length_bound {A} (limit : Z) (l : list A) :
  0 <= limit -> Z.of_nat (List.length (firstn (Z.to_nat limit) l)) <= limit.
Proof.
  intros H. rewrite length_firstn. lia.
Qed.

(** ** What the three readers return *)

Lemma getPendingTransactions_rows (limit : Z) (w w' : World)
    (txs : list BatchTransaction) :
  getPendingTransactions E limit w = (Returned txs, w') ->
  0 <= limit /\
  txs = map of_row
          (firstn (Z.to_nat limit)
             (Db.order_by_created_at (pending_records w))) /\
  w' = tick (tick w).
Proof.
  unfold getPendingTransactions, bind, connect, select_pending, statement, ret.
  destruct (db_fault E (ticks w) Db.Connect); [discriminate|].
  cbn [ticks tick].
  destruct (db_fault E (S (ticks w)) (Db.SelectPending limit));
    [discriminate|].
  destruct (Z.ltb_spec limit 0) as [Hneg|Hpos]; [discriminate|].
  intros Hrun. inversion Hrun; subst. repeat split. exact Hpos.
Qed.

Lemma getUserBatches_rows
    (report_fault : nat -> Db.ReportQuery -> option string)
    (userAddress : string) (limit : Z) (w w' : World)
    (txs : list BatchTransaction) :
  getUserBatches E report_fault userAddress limit w = (Returned txs, w') ->
  0 <= limit /\
  txs = map of_row
          (firstn (Z.to_nat limit)
             (Db.order_by_created_at_desc (records_of userAddress w))) /\
  w' = tick (tick w).
Proof.
  unfold getUserBatches, bind, connect, select_by_user, statement, ret.
  destruct (db_fault E (ticks w) Db.Connect); [discriminate|].
  cbn [ticks tick].
  destruct (report_fault (S (ticks w)) (Db.SelectByUser userAddress limit));
    [discriminate|].
  destruct (Z.ltb_spec limit 0) as [Hneg|Hpos]; [discriminate|].
  intros Hrun. inversion Hrun; subst. repeat split. exact Hpos.
Qed.

End QueryFacts.

(** X11.  What [getPendingTransactions] returns, when it returns: the
    records it maps are pending records of the store, oldest first, at
    most [limit] of them, and all the pending records when there are no
    more than [limit]; the call writes nothing (the world it ends in
    differs by the two interactions only). *)
Theorem getPendingTransactions_returns_pending_oldest_first (E : Env)
    (limit : Z) (w w' : World)
    (txs : list BatchingService.BatchTransaction) :
  BatchingService.getPendingTransactions E limit w = (Returned txs, w') ->
  exists rows,
    txs = map BatchingService.of_row rows /\
    Z.of_nat (List.length rows) <= limit /\
    (forall r, In r rows ->
               In r (batched_transactions w) /\ Db.status r = Db.pending) /\
    Queries.oldest_first rows /\
    (Z.of_nat (List.length (Queries.pending_records w)) <= limit ->
     Permutation rows (Queries.pending_records w)) /\
    w' = tick (tick w).
Proof.
  intros Hrun.
  destruct (getPendingTransactions_rows E limit w w' txs Hrun)
    as (Hlimit & Htxs & Hw).
  exists (firstn (Z.to_nat limit)
            (Db.order_by_created_at (Queries.pending_records w))).
  split; [exact Htxs|]. split; [apply firstn_length_bound; exact Hlimit|].
  split; [|split; [|split; [|exact Hw]]].
  - intros r Hr. apply firstn_subset in Hr.
    apply (Permutation_in _ (order_by_created_at_perm _)) in Hr.
    unfold Queries.pending_records in Hr. apply filter_In in Hr.
    destruct Hr as [Hin Hst]. split; [exact Hin|].
    unfold Queries.is_pending in Hst.
    destruct (Db.status r); try discriminate. reflexivity.
  - apply firstn_sorted. apply order_by_created_at_sorted.
  - intros Hall. rewrite firstn_all2.
    + apply order_by_created_at_perm.
    + rewrite (Permutation_length (order_by_created_at_perm _)). lia.
Qed.

Lemma getPendingTransactions_returns_pending_oldest_first_witness :
  exists rows,
    map BatchingService.of_row
      [Db.mkTxRow 2 "u2" Samples.addrC Samples.addrB "6" None (Some 21000)
         Db.pending None 1690000000100 None None None;
       Db.mkTxRow 1 "u1" Samples.addrA Samples.addrB "5" None (Some 21000)
         Db.pending None 1690000000300 None None None]
    = map BatchingService.of_row rows /\
    Z.of_nat (List.length rows) <= 2 /\
    (forall r, In r rows ->
               In r (batched_transactions Queries.world_two_users) /\
               Db.status r = Db.pending) /\
    Queries.oldest_first rows /\
    (Z.of_nat (List.length (Queries.pending_records Queries.world_two_users))
     <= 2 ->
     Permutation rows (Queries.pending_records Queries.world_two_users)) /\
    tick (tick Queries.world_two_users) = tick (tick Queries.world_two_users).
Proof.
  apply (getPendingTransactions_returns_pending_oldest_first Samples.env_ok 2
           Queries.world_two_users).
  vm_compute. reflexivity.
Defined.

(** X12.  What [getUserBatches] returns, when it returns: the records it
    maps are records of the store whose [user_address] is the address
    asked for (compared as strings, so with the same letter case), newest
    first, at most [limit] of them, and all of the user's records when
    there are no more than [limit]; the call writes nothing. *)
Theorem getUserBatches_returns_the_users_newest_first (E : Env)
    (report_fault : nat -> Db.ReportQuery -> option string)
    (userAddress : string) (limit : Z) (w w' : World)
    (txs : list BatchingService.BatchTransaction) :
  BatchingService.getUserBatches E report_fault userAddress limit w
    = (Returned txs, w') ->
  exists rows,
    txs = map BatchingService.of_row rows /\
    Z.of_nat (List.length rows) <= limit /\
    (forall r, In r rows ->
               In r (batched_transactions w) /\
               Db.user_address r = userAddress) /\
    Queries.newest_first rows /\
    (Z.of_nat (List.length (Queries.records_of userAddress w)) <= limit ->
     Permutation rows (Queries.records_of userAddress w)) /\
    w' = tick (tick w).
Proof.
  intros Hrun.
  destruct (getUserBatches_rows E report_fault userAddress limit w w' txs Hrun)
    as (Hlimit & Htxs & Hw).
  exists (firstn (Z.to_nat limit)
            (Db.order_by_created_at_desc (Queries.records_of userAddress w))).
  split; [exact Htxs|]. split; [apply firstn_length_bound; exact Hlimit|].
  split; [|split; [|split; [|exact Hw]]].
  - intros r Hr. apply firstn_subset in Hr.
    apply (Permutation_in _ (order_by_created_at_desc_perm _)) in Hr.
    unfold Queries.records_of in Hr. apply filter_In in Hr.
    destruct Hr as [Hin Hu]. split; [exact Hin|].
    apply String.eqb_eq. exact Hu.
  - apply firstn_sorted. apply order_by_created_at_desc_sorted.
  - intros Hall. rewrite firstn_all2.
    + apply order_by_created_at_desc_perm.
    + rewrite (Permutation_length (order_by_created_at_desc_perm _)). lia.
Qed.

Lemma getUserBatches_returns_the_users_newest_first_witness :
  exists rows,
    map BatchingService.of_row
      [Db.mkTxRow 4 "u4" Samples.addrA Samples.addrC "8" None (Some 21000)
         Db.pending (Some 1999999999999) 1690000000400 None None None;
       Db.mkTxRow 1 "u1" Samples.addrA Samples.addrB "5" None (Some 21000)
         Db.pending None 1690000000300 None None None]
    = map BatchingService.of_row rows /\
    Z.of_nat (List.length rows) <= 2 /\
    (forall r, In r rows ->
               In r (batched_transactions Queries.world_two_users) /\
               Db.user_address r = Samples.addrA) /\
    Queries.newest_first rows /\
    (Z.of_nat
       (List.length (Queries.records_of Samples.addrA Queries.world_two_users))
     <= 2 ->
     Permutation rows (Queries.records_of Samples.addrA Queries.world_two_users))
    /\
    tick (tick Queries.world_two_users) = tick (tick Queries.world_two_users).
Proof.
  apply (getUserBatches_returns_the_users_newest_first Samples.env_ok
           Queries.no_report_fault Samples.addrA 2 Queries.world_two_users).
  vm_compute. reflexivity.
Defined.

Section EnqueueThenRead.

Import BatchingService Queries.

Variable E : Env.

Lemma same_tables_estimateTransactionGas (t : TransactionObject) :
  Spec.keeps Spec.same_tables (estimateTransactionGas E t).
Proof. unfold estimateTransactionGas. repeat keeps_step. Qed.

Lemma same_calls_estimateTransactionGas (t : TransactionObject) :
  Spec.keeps Spec.same_calls (estimateTransactionGas E t).
Proof. unfold estimateTransactionGas. repeat keeps_step. Qed.

(** What [addToBatch] has done when it returns an identifier. *)
Lemma addToBatch_returns (u t a : string) (tok : option string)
    (s : option Z) (w w1 : World) (b : string) :
  addToBatch E u t a tok s w = (Returned b, w1) ->
  exists i g c,
    b = ("batch_" ++ Js.BigInt_toString (now E (S (ticks w))) ++ "_"
         ++ random36 E (S (S (ticks w))))%string /\
    ~ In b (map Db.batch_id (batched_transactions w)) /\
    batched_transactions w1
    = batched_transactions w
      ++ [Db.mkTxRow i b u t a tok (Some g) Db.pending s c None None None] /\
    gas_analytics w1 = gas_analytics w /\
    signer_calls w1 = signer_calls w.
Proof.
  intros Hrun. unfold addToBatch in Hrun.
  unfold bind at 1 in Hrun. unfold connect, statement at 1 in Hrun.
  destruct (db_fault E (ticks w) Db.Connect); [discriminate|].
  unfold bind at 1 in Hrun.
  unfold generateBatchId, bind, Date_now, random_base36, ret in Hrun.
  cbn [ticks tick] in Hrun.
  set (b0 := ("batch_" ++ Js.BigInt_toString (now E (S (ticks w))) ++ "_"
              ++ random36 E (S (S (ticks w))))%string) in *.
  unfold try_catch in Hrun.
  match type of Hrun with
  | context [estimateTransactionGas E ?tx ?w0] =>
      pose proof (same_tables_estimateTransactionGas tx w0) as Htables;
      pose proof (same_calls_estimateTransactionGas tx w0) as Hcalls;
      destruct (estimateTransactionGas E tx w0) as [[g|e] w2]
  end; [|discriminate].
  cbn [snd] in Htables, Hcalls.
  unfold Spec.same_tables, Spec.tables in Htables.
  unfold Spec.same_calls in Hcalls.
  cbn [batched_transactions gas_analytics signer_calls tick] in Htables, Hcalls.
  inversion Htables as [[Hrows Hanalytics]].
  unfold insert_transaction, statement in Hrun.
  match type of Hrun with
  | context [db_fault E ?n ?q] => destruct (db_fault E n q)
  end; [discriminate|].
  cbn [batched_transactions tick] in Hrun.
  destruct (Db.mem_string b0 (map Db.batch_id (batched_transactions w2)))
    eqn:Hmem; [discriminate|].
  inversion Hrun; subst b w1. clear Hrun.
  eexists. exists g. eexists. split; [reflexivity|].
  cbn [batched_transactions gas_analytics signer_calls tick].
  rewrite Hrows in *. split; [|split; [reflexivity|split; congruence]].
  intros Hin. apply mem_string_In in Hin. congruence.
Qed.

(** The record of a transaction that was just enqueued is the one
    [getTransactionStatus] finds. *)
Lemma getTransactionStatus_after_addToBatch (u t a : string)
    (tok : option string) (s : option Z) (w w1 : World) (b : string) :
  addToBatch E u t a tok s w = (Returned b, w1) ->
  db_fault E (ticks w1) Db.Connect = None ->
  db_fault E (S (ticks w1)) (Db.SelectTx b) = None ->
  exists i g c,
    getTransactionStatus E b w1
    = (Returned
         (Some (mkBatchTransaction (Some i) b u t a tok (Some g) Db.pending s
                  (Some c) None None None)), tick (tick w1)).
Proof.
  intros Hrun Hconnect Hselect.
  destruct (addToBatch_returns u t a tok s w w1 b Hrun)
    as (i & g & c & _ & Hfresh & Hrows & _).
  exists i, g, c.
  unfold getTransactionStatus, bind, connect, select_transaction.
  rewrite statement_accepted by exact Hconnect.
  rewrite statement_accepted by exact Hselect.
  cbn [batched_transactions tick]. rewrite Hrows, filter_app.
  rewrite (filter_by_id_absent b _ Hfresh). simpl.
  rewrite String.eqb_refl. reflexivity.
Qed.

Lemma batch_id_not_empty (c r : string) :
  Routes.falsy (Some ("batch_" ++ c ++ "_" ++ r)%string) = false.
Proof. reflexivity. Qed.

End EnqueueThenRead.

(** X13.  A transaction accepted by [POST /api/batch] is found by
    [GET /api/batch?batchId=...] under the identifier the first response
    gave.  For an amount of at most 255 characters and a token address of
    at most 42, the widths of their columns (the two addresses have 42
    characters by the validation of the route), and when the server
    accepts the connection and the [SELECT], the route answers 200 with a
    transaction that has this identifier, the addresses, the amount
    string and the token of the request unchanged, the status [pending],
    no hash and no error, and a gas estimate given in decimal.  (A value
    wider than its column is not stored as given: the server rejects it
    or, when only spaces exceed the width, cuts it.) *)
Theorem POST_batch_then_GET_batch (E : Env)
    (report_fault : nat -> Db.ReportQuery -> option string)
    (body : Routes.BatchBody) (w w1 : World) (batchId message : string)
    (userAddress : option string) :
  (forall a, Routes.amount body = Some a -> (String.length a <= 255)%nat) ->
  (forall t,
      Routes.tokenAddress body = Some t -> (String.length t <= 42)%nat) ->
  Routes.POST_batch E (Some body) w
    = (Returned (Routes.BatchAdded batchId message), w1) ->
  db_fault E (ticks w1) Db.Connect = None ->
  db_fault E (S (ticks w1)) (Db.SelectTx batchId) = None ->
  exists tx g,
    BatchRoutes.GET_batch E report_fault (Some batchId) userAddress w1
    = (Returned
         (BatchRoutes.TransactionFound
            (BatchRoutes.mkResponseTransaction tx
               (Some (Js.BigInt_toString g)))), tick (tick w1)) /\
    BatchingService.batchId tx = batchId /\
    Some (BatchingService.userAddress tx) = Routes.userAddress body /\
    Some (BatchingService.toAddress tx) = Routes.toAddress body /\
    Some (BatchingService.amount tx) = Routes.amount body /\
    BatchingService.tokenAddress tx = Routes.tokenAddress body /\
    BatchingService.gasEstimate tx = Some g /\
    BatchingService.status tx = Db.pending /\
    BatchingService.txHash tx = None /\
    BatchingService.errorMessage tx = None.
Proof.
  intros _ _ Hpost Hconnect Hselect.
  unfold Routes.POST_batch, try_catch in Hpost.
  destruct (Routes.falsy (Routes.userAddress body)
            || Routes.falsy (Routes.toAddress body)
            || Routes.falsy (Routes.amount body)) eqn:Hmissing;
    [discriminate|].
  destruct (negb (Js.addressRegex_test (Routes.text (Routes.userAddress body)))
            || negb (Js.addressRegex_test
                       (Routes.text (Routes.toAddress body))));
    [discriminate|].
  destruct (Js.Number_isNaN (Routes.text (Routes.amount body))
            || Js.Number_le_zero (Routes.text (Routes.amount body)));
    [discriminate|].
  unfold bind in Hpost.
  match type of Hpost with
  | context [BatchingService.addToBatch E ?u ?t ?a ?tok ?s w] =>
      destruct (BatchingService.addToBatch E u t a tok s w)
        as [[b|e] w2] eqn:Hadd
  end; [|discriminate].
  unfold ret in Hpost. inversion Hpost; subst b w2 message. clear Hpost.
  destruct (getTransactionStatus_after_addToBatch E _ _ _ _ _ w w1 batchId
              Hadd Hconnect Hselect) as (i & g & c & Hget).
  destruct (addToBatch_returns E _ _ _ _ _ w w1 batchId Hadd)
    as (_ & _ & _ & Hid & _).
  eexists. exists g. split.
  - assert (Hfalsy : Routes.falsy (Some batchId) = false)
      by (rewrite Hid; apply batch_id_not_empty).
    unfold BatchRoutes.GET_batch, try_catch.
    rewrite Hfalsy. cbn [negb].
    unfold bind. cbn [Routes.text]. rewrite Hget. reflexivity.
  - cbn [BatchingService.batchId BatchingService.userAddress
           BatchingService.toAddress BatchingService.amount
           BatchingService.tokenAddress BatchingService.gasEstimate
           BatchingService.status BatchingService.txHash
           BatchingService.errorMessage].
    apply orb_false_elim in Hmissing. destruct Hmissing as [Hmissing Ha].
    apply orb_false_elim in Hmissing. destruct Hmissing as [Hu Ht].
    destruct (Routes.userAddress body); [|discriminate].
    destruct (Routes.toAddress body); [|discriminate].
    destruct (Routes.amount body); [|discriminate].
    repeat split.
Qed.

Lemma POST_batch_then_GET_batch_witness :
  exists tx g,
    BatchRoutes.GET_batch Samples.env_ok Queries.no_report_fault
      (Some "batch_1700000000001_k3j9x0q1z") None
      (snd (Routes.POST_batch Samples.env_ok
              (Some (Routes.mkBatchBody (Some Samples.addrA)
                       (Some Samples.addrB) (Some "1.5e18") None None))
              Samples.world0))
    = (Returned
         (BatchRoutes.TransactionFound
            (BatchRoutes.mkResponseTransaction tx
               (Some (Js.BigInt_toString g)))),
       tick (tick
               (snd (Routes.POST_batch Samples.env_ok
                       (Some (Routes.mkBatchBody (Some Samples.addrA)
                                (Some Samples.addrB) (Some "1.5e18") None
                                None))
                       Samples.world0)))) /\
    BatchingService.amount tx = "1.5e18" /\
    BatchingService.status tx = Db.pending.
Proof.
  destruct (POST_batch_then_GET_batch Samples.env_ok Queries.no_report_fault
              (Routes.mkBatchBody (Some Samples.addrA) (Some Samples.addrB)
                 (Some "1.5e18") None None)
              Samples.world0
              (snd (Routes.POST_batch Samples.env_ok
                      (Some (Routes.mkBatchBody (Some Samples.addrA)
                               (Some Samples.addrB) (Some "1.5e18") None None))
                      Samples.world0))
              "batch_1700000000001_k3j9x0q1z"
              "Transaction added to batch successfully" None)
    as (tx & g & Hget & _ & _ & _ & Hamount & _ & _ & Hstatus & _).
  - intros a Ha. injection Ha as <-. vm_compute. repeat constructor.
  - intros t Ht. discriminate Ht.
  - vm_compute. reflexivity.
  - reflexivity.
  - reflexivity.
  - exists tx, g. split; [exact Hget|]. split; [|exact Hstatus].
    simpl in Hamount. congruence.
Defined.

(** X14.  A time given as [scheduledFor] does not defer a transaction:
    the record [addToBatch] writes is [pending] whatever that time and
    the clock are, so [getPendingTransactions], which
    [processAutoBatching] reads, returns it at once (when its limit
    covers the pending records). *)
Theorem scheduled_transaction_is_pending_at_once (E : Env)
    (userAddress toAddress amount : string) (tokenAddress : option string)
    (time limit : Z) (w w1 w2 : World) (batchId : string)
    (txs : list BatchingService.BatchTransaction) :
  BatchingService.addToBatch E userAddress toAddress amount tokenAddress
    (Some time) w = (Returned batchId, w1) ->
  BatchingService.getPendingTransactions E limit w1 = (Returned txs, w2) ->
  Z.of_nat (List.length (Queries.pending_records w1)) <= limit ->
  exists tx,
    In tx txs /\
    BatchingService.batchId tx = batchId /\
    BatchingService.scheduledFor tx = Some time /\
    BatchingService.status tx = Db.pending.
Proof.
  intros Hadd Hget Hlimit.
  destruct (addToBatch_returns E _ _ _ _ _ w w1 batchId Hadd)
    as (i & g & c & _ & _ & Hrows & _).
  destruct (getPendingTransactions_rows E limit w1 w2 txs Hget)
    as (_ & Htxs & _).
  rewrite firstn_all2 in Htxs
    by (rewrite (Permutation_length (order_by_created_at_perm _)); lia).
  eexists. split.
  - rewrite Htxs. apply in_map.
    apply (Permutation_in _ (Permutation_sym (order_by_created_at_perm _))).
    unfold Queries.pending_records. apply filter_In. split.
    + rewrite Hrows. apply in_or_app. right. left. reflexivity.
    + reflexivity.
  - repeat split.
Qed.

Lemma scheduled_transaction_is_pending_at_once_witness :
  exists tx,
    In tx
      (map BatchingService.of_row
         [Db.mkTxRow 1 "batch_1700000000001_k3j9x0q1z" Samples.addrA
            Samples.addrB "5" None (Some 21000) Db.pending
            (Some 1999999999999) 1700000000004 None None None]) /\
    BatchingService.batchId tx = "batch_1700000000001_k3j9x0q1z" /\
    BatchingService.scheduledFor tx = Some 1999999999999 /\
    BatchingService.status tx = Db.pending.
Proof.
  apply (scheduled_transaction_is_pending_at_once Samples.env_ok Samples.addrA
           Samples.addrB "5" None 1999999999999 50 Samples.world0
           (snd (BatchingService.addToBatch Samples.env_ok Samples.addrA
                   Samples.addrB "5" None (Some 1999999999999)
                   Samples.world0))
           (snd (BatchingService.getPendingTransactions Samples.env_ok 50
                   (snd (BatchingService.addToBatch Samples.env_ok
                           Samples.addrA Samples.addrB "5" None
                           (Some 1999999999999) Samples.world0))))).
  - vm_compute. reflexivity.
  - vm_compute. reflexivity.
  - vm_compute. discriminate.
Defined.

Section LookupRoute.

Import BatchingService.

Variable E : Env.
Variable report_fault : nat -> Db.ReportQuery -> option string.

Lemma keeps_select_by_user (P : World -> World -> Prop) (u : string)
    (limit : Z) :
  (forall w, P w (tick w)) -> Spec.keeps P (select_by_user report_fault u limit).
Proof.
  intros Htick w. unfold select_by_user.
  destruct (report_fault (ticks w) (Db.SelectByUser u limit));
    [apply Htick|].
  destruct (limit <? 0); apply Htick.
Qed.

Lemma same_tables_GET_batch (batchId userAddress : option string) :
  Spec.keeps Spec.same_tables
    (BatchRoutes.GET_batch E report_fault batchId userAddress).
Proof.
  unfold BatchRoutes.GET_batch, getTransactionStatus, getUserBatches.
  repeat first
    [ keeps_step
    | apply keeps_select_by_user; exact same_tables_tick ].
Qed.

Lemma same_calls_GET_batch (batchId userAddress : option string) :
  Spec.keeps Spec.same_calls
    (BatchRoutes.GET_batch E report_fault batchId userAddress).
Proof.
  unfold BatchRoutes.GET_batch, getTransactionStatus, getUserBatches.
  repeat first
    [ keeps_step
    | apply keeps_select_by_user; exact same_calls_tick ].
Qed.

Lemma getTransactionStatus_returns (b : string) (w w' : World)
    (found : option BatchTransaction) :
  getTransactionStatus E b w = (Returned found, w') ->
  match found with
  | None => ~ In b (map Db.batch_id (batched_transactions w))
  | Some tx =>
      exists row,
        tx = of_row row /\ In row (batched_transactions w) /\
        Db.batch_id row = b
  end.
Proof.
  unfold getTransactionStatus, bind, connect, select_transaction, statement,
    ret.
  destruct (db_fault E (ticks w) Db.Connect); [discriminate|].
  cbn [ticks tick batched_transactions].
  destruct (db_fault E (S (ticks w)) (Db.SelectTx b)); [discriminate|].
  destruct (filter (fun r => String.eqb (Db.batch_id r) b)
              (batched_transactions w)) as [|row rest] eqn:Hfilter;
    intros H; inversion H; subst.
  - intros Hin. apply (filter_by_id_nonempty b _ Hin). exact Hfilter.
  - exists row. split; [reflexivity|].
    assert (Hin : In row (row :: rest)) by (left; reflexivity).
    rewrite <- Hfilter in Hin. apply filter_In in Hin.
    destruct Hin as [Hin Heq]. split; [exact Hin|].
    apply String.eqb_eq. exact Heq.
Qed.

End LookupRoute.

(** X15.  [GET /api/batch] always answers and writes nothing: both
    tables and the calls of the wallet are as before.  When [batchId] is
    given, [userAddress] plays no role, and the answer is decided by the
    connection and the [SELECT]: 500 exactly when one of them is
    rejected; otherwise 404 when no record has the identifier, and else
    200 with the transaction of the first record that has it.  Without
    [batchId], a request without [userAddress] is answered 400, and so is
    one whose [userAddress] does not match the address pattern, in both
    cases without the service being called; for an address that matches,
    the answer is 500 exactly when the connection or the [SELECT] is
    rejected, and else 200 with the user's records, newest first, at
    most 50. *)
Theorem GET_batch_answers (E : Env)
    (report_fault : nat -> Db.ReportQuery -> option string)
    (batchId userAddress : option string) (w : World) :
  exists r w',
    BatchRoutes.GET_batch E report_fault batchId userAddress w
    = (Returned r, w') /\
    batched_transactions w' = batched_transactions w /\
    gas_analytics w' = gas_analytics w /\
    signer_calls w' = signer_calls w /\
    (Routes.falsy batchId = false ->
     let accepted :=
       db_fault E (ticks w) Db.Connect = None /\
       db_fault E (S (ticks w)) (Db.SelectTx (Routes.text batchId)) = None in
     (r = BatchRoutes.ErrorResponse 500 "Failed to fetch batch data"
      <-> ~ accepted) /\
     (accepted ->
      r = match
            filter
              (fun row => String.eqb (Db.batch_id row) (Routes.text batchId))
              (batched_transactions w)
          with
          | [] => BatchRoutes.ErrorResponse 404 "Transaction not found"
          | row :: _ =>
              BatchRoutes.TransactionFound
                (BatchRoutes.responseTransaction
                   (BatchingService.of_row row))
          end) /\
     (r = BatchRoutes.ErrorResponse 404 "Transaction not found"
      <-> accepted /\
          ~ In (Routes.text batchId)
              (map Db.batch_id (batched_transactions w))) /\
     (BatchRoutes.http_status r = 200
      <-> accepted /\
          In (Routes.text batchId)
            (map Db.batch_id (batched_transactions w)))) /\
    (Routes.falsy batchId = true ->
     (Routes.falsy userAddress = true ->
      r = BatchRoutes.ErrorResponse 400
            "Missing batchId or userAddress parameter" /\ w' = w) /\
     (Routes.falsy userAddress = false ->
      Js.addressRegex_test (Routes.text userAddress) = false ->
      r = BatchRoutes.ErrorResponse 400 "Invalid user address format" /\
      w' = w) /\
     (Routes.falsy userAddress = false ->
      Js.addressRegex_test (Routes.text userAddress) = true ->
      let accepted :=
        db_fault E (ticks w) Db.Connect = None /\
        report_fault (S (ticks w))
          (Db.SelectByUser (Routes.text userAddress) 50) = None in
      (r = BatchRoutes.ErrorResponse 500 "Failed to fetch batch data"
       <-> ~ accepted) /\
      (accepted ->
       r = BatchRoutes.UserBatches
             (map BatchRoutes.responseTransaction
                (map BatchingService.of_row
                   (firstn 50
                      (Db.order_by_created_at_desc
                         (Queries.records_of (Routes.text userAddress)
                            w)))))))).
Proof.
  pose proof (same_tables_GET_batch E report_fault batchId userAddress w)
    as Htables.
  pose proof (same_calls_GET_batch E report_fault batchId userAddress w)
    as Hcalls.
  unfold Spec.same_tables, Spec.tables in Htables.
  unfold Spec.same_calls in Hcalls.
  destruct (BatchRoutes.GET_batch E report_fault batchId userAddress w)
    as [o w'] eqn:Hrun.
  cbn [snd] in Htables, Hcalls. injection Htables as Hrows Hanalytics.
  unfold BatchRoutes.GET_batch, try_catch in Hrun.
  destruct (Routes.falsy batchId) eqn:Hb; cbn [negb] in Hrun.
  - destruct (Routes.falsy userAddress) eqn:Hu; cbn [negb] in Hrun.
    + unfold ret in Hrun. injection Hrun as <- <-.
      eexists. eexists. split; [reflexivity|].
      repeat split; try reflexivity; try discriminate.
    + destruct (Js.addressRegex_test (Routes.text userAddress)) eqn:Hre;
        cbn [negb] in Hrun.
      * unfold BatchingService.getUserBatches, connect, statement,
          BatchingService.select_by_user in Hrun.
        unfold bind, ret in Hrun.
        cbn [ticks tick batched_transactions] in Hrun.
        change (50 <? 0) with false in Hrun. cbv iota in Hrun.
        destruct (db_fault E (ticks w) Db.Connect) as [e|] eqn:Hconnect;
          cbn [ticks tick batched_transactions] in Hrun.
        -- injection Hrun as <- <-.
           eexists. eexists. split; [reflexivity|].
           split; [exact Hrows|]. split; [exact Hanalytics|].
           split; [exact Hcalls|]. split; [discriminate|]. intros _.
           split; [discriminate|]. split; [discriminate|].
           intros _ _ accepted. subst accepted. split.
           ++ split; [intros _ [Hc _]; discriminate Hc|reflexivity].
           ++ intros [Hc _]. discriminate Hc.
        -- destruct (report_fault (S (ticks w))
                       (Db.SelectByUser (Routes.text userAddress) 50))
             as [e|] eqn:Hselect.
           ++ injection Hrun as <- <-.
              eexists. eexists. split; [reflexivity|].
              split; [exact Hrows|]. split; [exact Hanalytics|].
              split; [exact Hcalls|]. split; [discriminate|]. intros _.
              split; [discriminate|]. split; [discriminate|].
              intros _ _ accepted. subst accepted. split.
              ** split; [intros _ [_ Hs]; discriminate Hs|reflexivity].
              ** intros [_ Hs]. discriminate Hs.
           ++ injection Hrun as <- <-.
              eexists. eexists. split; [reflexivity|].
              split; [exact Hrows|]. split; [exact Hanalytics|].
              split; [exact Hcalls|]. split; [discriminate|]. intros _.
              split; [discriminate|]. split; [discriminate|].
              intros _ _ accepted. subst accepted. split.
              ** split; [discriminate|].
                 intros Hnot. exfalso. apply Hnot. split; reflexivity.
              ** intros _. reflexivity.
      * unfold ret in Hrun. injection Hrun as <- <-.
        eexists. eexists. split; [reflexivity|].
        repeat split; try reflexivity; try discriminate.
  - unfold BatchingService.getTransactionStatus, connect,
      select_transaction, statement in Hrun.
    unfold bind, ret in Hrun.
    cbn [ticks tick batched_transactions] in Hrun.
    destruct (db_fault E (ticks w) Db.Connect) as [e|] eqn:Hconnect;
      cbn [ticks tick batched_transactions] in Hrun.
    + injection Hrun as <- <-.
      eexists. eexists. split; [reflexivity|].
      split; [exact Hrows|]. split; [exact Hanalytics|].
      split; [exact Hcalls|]. split; [|discriminate].
      intros _ accepted. subst accepted.
      split; [|split; [|split]].
      * split; [intros _ [Hc _]; discriminate Hc|reflexivity].
      * intros [Hc _]. discriminate Hc.
      * split; [discriminate|]. intros [[Hc _] _]. discriminate Hc.
      * split; [discriminate|]. intros [[Hc _] _]. discriminate Hc.
    + destruct (db_fault E (S (ticks w))
                  (Db.SelectTx (Routes.text batchId))) as [e|] eqn:Hselect;
        cbn [ticks tick batched_transactions] in Hrun.
      * injection Hrun as <- <-.
        eexists. eexists. split; [reflexivity|].
        split; [exact Hrows|]. split; [exact Hanalytics|].
        split; [exact Hcalls|]. split; [|discriminate].
        intros _ accepted. subst accepted.
        split; [|split; [|split]].
        -- split; [intros _ [_ Hs]; discriminate Hs|reflexivity].
        -- intros [_ Hs]. discriminate Hs.
        -- split; [discriminate|]. intros [[_ Hs] _]. discriminate Hs.
        -- split; [discriminate|]. intros [[_ Hs] _]. discriminate Hs.
      * destruct (filter
                    (fun row =>
                       String.eqb (Db.batch_id row) (Routes.text batchId))
                    (batched_transactions w)) as [|row rest] eqn:Hfilter;
          cbn [ticks tick batched_transactions] in Hrun;
          injection Hrun as <- <-;
          (eexists; eexists; split; [reflexivity|]);
          (split; [exact Hrows|]); (split; [exact Hanalytics|]);
          (split; [exact Hcalls|]); (split; [|discriminate]);
          intros _ accepted; subst accepted;
          (split; [|split; [|split]]).
        -- split; [discriminate|].
           intros Hnot. exfalso. apply Hnot. split; reflexivity.
        -- intros _. reflexivity.
        -- split; [|reflexivity]. intros _. split; [split; reflexivity|].
           intros Hin. apply (filter_by_id_nonempty _ _ Hin). exact Hfilter.
        -- split; [discriminate|]. intros [_ Hin]. exfalso.
           apply (filter_by_id_nonempty _ _ Hin). exact Hfilter.
        -- split; [discriminate|].
           intros Hnot. exfalso. apply Hnot. split; reflexivity.
        -- intros _. reflexivity.
        -- split; [discriminate|]. intros [_ Hnot]. exfalso. apply Hnot.
           assert (Hin : In row (row :: rest)) by (left; reflexivity).
           rewrite <- Hfilter in Hin. apply filter_In in Hin.
           destruct Hin as [Hin Heq]. apply String.eqb_eq in Heq.
           rewrite <- Heq. apply in_map. exact Hin.
        -- split; [|reflexivity]. intros _. split; [split; reflexivity|].
           assert (Hin : In row (row :: rest)) by (left; reflexivity).
           rewrite <- Hfilter in Hin. apply filter_In in Hin.
           destruct Hin as [Hin Heq]. apply String.eqb_eq in Heq.
           rewrite <- Heq. apply in_map. exact Hin.
Qed.

(* ================================================================== *)
(** * What [executeBatch] reports and credits *)
(* ================================================================== *)

Section BatchCredit.

Import BatchingService.

Variable E : Env.
Hypothesis Haccepts : Spec.accepts_all_but_completions E.

Lemma statement_but_completion {A} (q : Db.Query)
    (effect : nat -> World -> Outcome A * World) (w : World) :
  (forall h b, q <> Db.SetCompleted h b) ->
  statement E q effect w = effect (ticks w) (tick w).
Proof. intros Hq. apply statement_accepted. apply Haccepts. exact Hq. Qed.

(** The loop returns whichever completions are rejected; it writes the
    records of the listed identifiers only, and no analytics. *)
Lemma executeBatch_loop_returns :
  forall (txs : list BatchTransaction) (acc : Z * list string) (w : World),
    exists w' hs f,
      executeBatch_loop E acc txs w
      = (Returned (fst acc + 21000 * Z.of_nat (List.length txs),
                   snd acc ++ hs), w') /\
      List.length hs = List.length txs /\
      batched_transactions w' = map f (batched_transactions w) /\
      (forall r, Db.mem_string (Db.batch_id r) (map batchId txs) = false ->
                 f r = r) /\
      gas_analytics w' = gas_analytics w.
Proof.
  induction txs as [|tx rest IH]; intros acc w.
  - exists w, [], (fun r => r). destruct acc as [total hashes]. simpl.
    rewrite app_nil_r, map_id, Z.add_0_r. unfold ret. repeat split.
  - assert (Hstep : exists w1 h f1,
               executeBatch_step E acc tx w
               = (Returned (fst acc + 21000, snd acc ++ [h]), w1) /\
               batched_transactions w1 = map f1 (batched_transactions w) /\
               (forall r, Db.batch_id r <> batchId tx -> f1 r = r) /\
               (forall r, Db.batch_id (f1 r) = Db.batch_id r) /\
               gas_analytics w1 = gas_analytics w).
    { unfold executeBatch_step, bind, random_base16, try_catch,
        update_completed, statement.
      cbn [fst snd ticks tick].
      destruct (db_fault E (S (ticks w))
                  (Db.SetCompleted ("0x" ++ random16 E (ticks w))
                     (batchId tx))) as [message|].
      - unfold update_failed. rewrite statement_but_completion by discriminate.
        cbn [fst snd]. eexists. eexists.
        exists (fun r => if String.eqb (Db.batch_id r) (batchId tx)
                         then Db.set_failed message r else r).
        split; [reflexivity|]. split; [reflexivity|]. split; [|split].
        + intros r Hne. apply String.eqb_neq in Hne. rewrite Hne. reflexivity.
        + intros r. destruct (String.eqb (Db.batch_id r) (batchId tx));
            reflexivity.
        + reflexivity.
      - cbn [fst snd]. eexists. eexists.
        exists (fun r => if String.eqb (Db.batch_id r) (batchId tx)
                         then Db.set_completed (now E (S (ticks w)))
                                ("0x" ++ random16 E (ticks w))%string r
                         else r).
        split; [reflexivity|]. split; [reflexivity|]. split; [|split].
        + intros r Hne. apply String.eqb_neq in Hne. rewrite Hne. reflexivity.
        + intros r. destruct (String.eqb (Db.batch_id r) (batchId tx));
            reflexivity.
        + reflexivity. }
    destruct Hstep as (w1 & h & f1 & Hstep & Ht1 & Hout1 & Hid1 & Ha1).
    destruct (IH (fst acc + 21000, snd acc ++ [h]) w1)
      as (w2 & hs & f2 & Hloop & Hlen & Ht2 & Hout2 & Ha2).
    exists w2, (h :: hs), (fun r => f2 (f1 r)).
    cbn [executeBatch_loop]. unfold bind. rewrite Hstep, Hloop.
    cbn [fst snd]. split; [|split; [|split; [|split]]].
    + f_equal. f_equal. f_equal.
      * cbn [List.length]. lia.
      * rewrite <- app_assoc. reflexivity.
    + simpl. rewrite Hlen. reflexivity.
    + rewrite Ht2, Ht1, map_map. reflexivity.
    + intros r Hmem. simpl in Hmem. apply orb_false_elim in Hmem.
      destruct Hmem as [Hne Hmem].
      rewrite Hout1.
      * apply Hout2. exact Hmem.
      * intros Heq. rewrite Heq, String.eqb_refl in Hne. discriminate.
    + congruence.
Qed.

Lemma quot_30_percent (n : Z) : Z.quot (21000 * n * 30) 100 = 6300 * n.
Proof.
  replace (21000 * n * 30) with (6300 * n * 100) by lia.
  apply Z.quot_mul. discriminate.
Qed.

(** [updateAnalytics] for one batch of [n] transactions, when accepted. *)
Lemma updateAnalytics_credits (n : Z) (w : World) :
  exists w',
    updateAnalytics E "default"
      (mkAnalyticsUpdates (Some 1) (Some n) (Some (6300 * n))) w
    = (Returned tt, w') /\
    batched_transactions w' = batched_transactions w /\
    Batches.credited n w w'.
Proof.
  unfold updateAnalytics, bind, connect, select_analytics.
  rewrite statement_but_completion by discriminate.
  rewrite statement_but_completion by discriminate.
  cbn [fst snd gas_analytics tick or_zero gasSaved batchCount
         transactionCount].
  unfold Batches.credited, Batches.default_rows.
  destruct (filter (fun r => String.eqb (Db.dapp_id r) "default")
              (gas_analytics w)) as [|current rest].
  - unfold insert_analytics. rewrite statement_but_completion by discriminate.
    eexists. split; [reflexivity|]. split; [reflexivity|].
    eexists. eexists. reflexivity.
  - unfold update_analytics. rewrite statement_but_completion by discriminate.
    eexists. split; [reflexivity|]. split; [reflexivity|].
    cbn [gas_analytics set_analytics_rows tick]. split.
    + apply length_map.
    + intros r Hr Hd. apply in_map_iff in Hr. destruct Hr as (x & Hx & _).
      destruct (String.eqb_spec (Db.dapp_id x) "default") as [Heq|Hne].
      * subst r. cbn. repeat split; lia.
      * subst r. contradiction.
Qed.

Lemma executeBatch_accepted (txs : list BatchTransaction) (w : World) :
  txs <> [] ->
  exists w' hs f,
    executeBatch E txs w
    = (Returned
         (mkExecResult true (nth_error hs 0)
            (Some (21000 * Z.of_nat (List.length txs))) None), w') /\
    List.length hs = List.length txs /\
    batched_transactions w' = map f (batched_transactions w) /\
    (forall r, Db.mem_string (Db.batch_id r) (map batchId txs) = false ->
               f r = r) /\
    Batches.credited (Z.of_nat (List.length txs)) w w'.
Proof.
  intros Hne. unfold executeBatch.
  destruct txs as [|tx0 rest0] eqn:Htxs; [congruence|]. rewrite <- Htxs in *.
  unfold bind at 1. unfold connect.
  rewrite statement_but_completion by discriminate.
  rewrite try_catch_bind. unfold update_executing_any.
  rewrite statement_but_completion by discriminate.
  rewrite try_catch_bind.
  match goal with
  | |- context [executeBatch_loop E ?acc txs ?w0] =>
      destruct (executeBatch_loop_returns txs acc w0)
        as (w1 & hs & f & Hloop & Hlen & Ht & Hout & Ha)
  end.
  rewrite Hloop. cbn [fst snd app].
  rewrite try_catch_bind. rewrite Z.add_0_l, quot_30_percent.
  destruct (updateAnalytics_credits (Z.of_nat (List.length txs)) w1)
    as (w2 & Hua & Ht2 & Hcredit).
  rewrite Hua. unfold try_catch, ret.
  exists w2, hs.
  exists (fun r =>
            f (if Db.mem_string (Db.batch_id r) (map batchId txs)
               then Db.set_executing r else r)).
  split; [reflexivity|]. split; [exact Hlen|]. split; [|split].
  - rewrite Ht2, Ht. cbn [batched_transactions set_transactions tick].
    unfold Db.update_where_any. rewrite map_map. reflexivity.
  - intros r Hmem. rewrite Hmem. apply Hout. exact Hmem.
  - unfold Batches.credited, Batches.default_rows in *.
    cbn [gas_analytics set_transactions tick] in Ha. rewrite Ha in Hcredit.
    exact Hcredit.
Qed.

End BatchCredit.

(** X16.  [executeBatch] on a non-empty list, when the server accepts
    every statement other than the completions, reports success with
    21000 of gas a listed transaction and credits the analytics of
    ['default'] with one batch, as many transactions as the list has and
    6300 of gas saved for each of them; this does not depend on the
    completions being accepted: the transactions whose step failed are
    counted and credited as the others. *)
Theorem executeBatch_credits_every_listed_transaction (E : Env)
    (txs : list BatchingService.BatchTransaction) (w : World) :
  txs <> [] ->
  Spec.accepts_all_but_completions E ->
  exists w' h,
    BatchingService.executeBatch E txs w
    = (Returned
         (BatchingService.mkExecResult true h
            (Some (21000 * Z.of_nat (List.length txs))) None), w') /\
    Batches.credited (Z.of_nat (List.length txs)) w w'.
Proof.
  intros Hne Haccepts.
  destruct (executeBatch_accepted E Haccepts txs w Hne)
    as (w' & hs & f & Hrun & _ & _ & _ & Hcredit).
  exists w', (nth_error hs 0). split; assumption.
Qed.

Lemma executeBatch_credits_every_listed_transaction_witness :
  exists w' h,
    BatchingService.executeBatch Batches.env_no_completion
      [Samples.queued "m1" Samples.addrB "5" None;
       Samples.queued "m3" Samples.addrC "7" None]
      Lifecycle.world_mixed
    = (Returned (BatchingService.mkExecResult true h (Some 42000) None), w') /\
    List.length (gas_analytics w') = 2%nat /\
    forall r,
      In r (gas_analytics w') -> Db.dapp_id r = "default" ->
      Db.total_gas_saved r = 6300 + 12600 /\
      Db.total_batches r = 1 + 1 /\
      Db.total_transactions r = 1 + 2.
Proof.
  destruct (executeBatch_credits_every_listed_transaction
              Batches.env_no_completion
              [Samples.queued "m1" Samples.addrB "5" None;
               Samples.queued "m3" Samples.addrC "7" None]
              Lifecycle.world_mixed) as (w' & h & Hrun & Hcredit).
  - discriminate.
  - intros n q Hq. destruct q; try reflexivity.
    exfalso. apply (Hq txHash batchId). reflexivity.
  - exists w', h. split; [exact Hrun|exact Hcredit].
Defined.

(** X17.  [executeBatch] does not look the listed transactions up: on a
    non-empty list none of whose identifiers is in the store, with the
    server accepting every statement, it reports success with a hash and
    21000 of gas a listed transaction, and no record of the store has
    changed. *)
Theorem executeBatch_succeeds_on_unknown_identifiers (E : Env)
    (txs : list BatchingService.BatchTransaction) (w : World) :
  txs <> [] ->
  Spec.store_healthy E ->
  (forall tx, In tx txs ->
              ~ In (BatchingService.batchId tx)
                  (map Db.batch_id (batched_transactions w))) ->
  exists w' h,
    BatchingService.executeBatch E txs w
    = (Returned
         (BatchingService.mkExecResult true (Some h)
            (Some (21000 * Z.of_nat (List.length txs))) None), w') /\
    batched_transactions w' = batched_transactions w.
Proof.
  intros Hne Hhealthy Hunknown.
  assert (Haccepts : Spec.accepts_all_but_completions E).
  { intros n q _. apply Hhealthy. }
  destruct (executeBatch_accepted E Haccepts txs w Hne)
    as (w' & hs & f & Hrun & Hlen & Hrows & Hout & _).
  destruct hs as [|h hs].
  { destruct txs; [congruence|discriminate]. }
  exists w', h. split; [exact Hrun|].
  rewrite Hrows. rewrite <- (map_id (batched_transactions w)) at 2.
  apply map_ext_in. intros r Hr. apply Hout.
  apply mem_string_not_In. intros Hin. apply in_map_iff in Hin.
  destruct Hin as (tx & Hid & Htx).
  apply (Hunknown tx Htx). rewrite Hid. apply in_map. exact Hr.
Qed.

Lemma executeBatch_succeeds_on_unknown_identifiers_witness :
  exists w' h,
    BatchingService.executeBatch Samples.env_ok
      [Samples.queued "ghost" Samples.addrB "5" None]
      Lifecycle.world_mixed
    = (Returned
         (BatchingService.mkExecResult true (Some h)
            (Some (21000 * Z.of_nat 1)) None), w') /\
    batched_transactions w' = batched_transactions Lifecycle.world_mixed.
Proof.
  apply (executeBatch_succeeds_on_unknown_identifiers Samples.env_ok
           [Samples.queued "ghost" Samples.addrB "5" None]
           Lifecycle.world_mixed).
  - discriminate.
  - intros n q. reflexivity.
  - intros tx [Htx|[]]. subst tx. simpl. intuition discriminate.
Defined.

(* ================================================================== *)
(** * Automatic processing of small groups *)
(* ================================================================== *)

Section SmallGroups.

Import BatchingService.

Variable E : Env.

Lemma execute_groups_all_small (minimum : Z) :
  forall (groups : list (list BatchTransaction)) (w : World),
    Forall (fun g => Z.of_nat (List.length g) < minimum) groups ->
    execute_groups E minimum groups w = (Returned tt, w).
Proof.
  induction groups as [|g rest IH]; intros w Hall.
  - reflexivity.
  - inversion Hall as [|? ? Hg Hrest]; subst.
    cbn [execute_groups]. unfold bind.
    destruct (Z.geb_spec (Z.of_nat (List.length g)) minimum) as [Hge|Hlt];
      [lia|].
    unfold ret. apply IH. exact Hrest.
Qed.

Lemma groups_of_optimizeBatch (txs : list BatchTransaction)
    (groups : list (list BatchTransaction)) (g : list BatchTransaction) :
  optimizeBatch txs = Returned groups -> In g groups ->
  exists k, g = Spec.with_key k txs.
Proof.
  intros Hopt Hg.
  destruct (optimizeBatch_permutation txs groups Hopt) as [Hperm _].
  apply (Permutation_in _ Hperm) in Hg.
  rewrite group_by_key_classes, map_map in Hg. simpl in Hg.
  apply in_map_iff in Hg. destruct Hg as (k & Hk & _).
  exists k. symmetry. exact Hk.
Qed.

Lemma with_key_at_most_one (k : string) (txs : list BatchTransaction) :
  NoDup (map group_key txs) ->
  (List.length (Spec.with_key k txs) <= 1)%nat.
Proof.
  unfold Spec.with_key.
  induction txs as [|tx txs IH]; simpl; intros Hnd; [lia|].
  inversion Hnd as [|? ? Hnot Hnd']; subst.
  destruct (String.eqb_spec (group_key tx) k) as [Heq|Hne].
  - assert (Hnone : filter (fun tx => String.eqb (group_key tx) k) txs = []).
    { destruct (filter (fun tx => String.eqb (group_key tx) k) txs)
        as [|x l] eqn:Hf; [reflexivity|].
      exfalso. apply Hnot.
      assert (Hin : In x (filter (fun tx => String.eqb (group_key tx) k) txs))
        by (rewrite Hf; left; reflexivity).
      apply filter_In in Hin. destruct Hin as [Hin Hx].
      apply String.eqb_eq in Hx. rewrite Heq, <- Hx. apply in_map. exact Hin. }
    rewrite Hnone. simpl. lia.
  - apply IH. exact Hnd'.
Qed.

End SmallGroups.

(** X18.  [processAutoBatching] executes a group of transactions to one
    recipient and token only when the group alone reaches
    [minTransactionCount]: when every such group among the pending
    transactions it fetched is smaller, it writes nothing and the wallet
    is not called, however many transactions are pending in total. *)
Theorem processAutoBatching_skips_small_groups (E : Env)
    (config : BatchingService.BatchConfig) (w w1 : World)
    (pendingTransactions : list BatchingService.BatchTransaction) :
  BatchingService.getPendingTransactions E
    (BatchingService.maxBatchSize config) w
    = (Returned pendingTransactions, w1) ->
  (forall key,
      Z.of_nat (List.length (Spec.with_key key pendingTransactions))
      < BatchingService.minTransactionCount config) ->
  batched_transactions (snd (BatchingService.processAutoBatching E config w))
  = batched_transactions w /\
  gas_analytics (snd (BatchingService.processAutoBatching E config w))
  = gas_analytics w /\
  signer_calls (snd (BatchingService.processAutoBatching E config w))
  = signer_calls w.
Proof.
  intros Hget Hsmall.
  pose proof (same_tables_getPendingTransactions E
                (BatchingService.maxBatchSize config) w) as Htables.
  pose proof (same_calls_getPendingTransactions E
                (BatchingService.maxBatchSize config) w) as Hcalls.
  rewrite Hget in Htables, Hcalls.
  unfold Spec.same_tables, Spec.tables in Htables.
  unfold Spec.same_calls in Hcalls. cbn [snd] in Htables, Hcalls.
  injection Htables as Hrows Hanalytics.
  assert (Hend : snd (BatchingService.processAutoBatching E config w) = w1).
  { unfold BatchingService.processAutoBatching, bind. rewrite Hget.
    destruct (Z.of_nat (List.length pendingTransactions)
              <? BatchingService.minTransactionCount config); [reflexivity|].
    unfold lift.
    destruct (BatchingService.optimizeBatch pendingTransactions)
      as [groups|e] eqn:Hopt; [|reflexivity].
    rewrite execute_groups_all_small; [reflexivity|].
    apply Forall_forall. intros g Hg.
    destruct (groups_of_optimizeBatch _ _ g Hopt Hg) as (k & Hk).
    subst g. apply Hsmall. }
  rewrite Hend. repeat split; assumption.
Qed.

Lemma processAutoBatching_skips_small_groups_witness :
  batched_transactions
    (snd (BatchingService.processAutoBatching Samples.env_ok
            Lifecycle.config_two Batches.world_three_recipients))
  = batched_transactions Batches.world_three_recipients /\
  gas_analytics
    (snd (BatchingService.processAutoBatching Samples.env_ok
            Lifecycle.config_two Batches.world_three_recipients))
  = gas_analytics Batches.world_three_recipients /\
  signer_calls
    (snd (BatchingService.processAutoBatching Samples.env_ok
            Lifecycle.config_two Batches.world_three_recipients))
  = signer_calls Batches.world_three_recipients.
Proof.
  apply (processAutoBatching_skips_small_groups Samples.env_ok
           Lifecycle.config_two Batches.world_three_recipients
           (snd (BatchingService.getPendingTransactions Samples.env_ok 50
                   Batches.world_three_recipients))
           (map BatchingService.of_row
              (batched_transactions Batches.world_three_recipients))).
  - vm_compute. reflexivity.
  - intros key.
    pose proof (with_key_at_most_one key
                  (map BatchingService.of_row
                     (batched_transactions Batches.world_three_recipients)))
      as Hone.
    change (BatchingService.minTransactionCount Lifecycle.config_two) with 2.
    assert (Hnd : NoDup
                    (map BatchingService.group_key
                       (map BatchingService.of_row
                          (batched_transactions
                             Batches.world_three_recipients)))).
    { vm_compute. repeat constructor; simpl; intuition discriminate. }
    specialize (Hone Hnd). lia.
Defined.

(* ================================================================== *)
(** * When [optimizeBatch] rejects *)
(* ================================================================== *)

Section OptimizeRejects.

Import BatchingService Grouping.

Lemma total_from_throws (g : list BatchTransaction) (tx : BatchTransaction) :
  In tx g -> Js.BigInt (amount tx) = None ->
  forall sum, exists e, total_from sum g = Thrown e.
Proof.
  intros Hin Hbad. induction g as [|x g IH]; [contradiction|].
  intros sum. simpl. unfold BigInt_or_throw.
  destruct Hin as [Hx|Hin].
  - subst x. rewrite Hbad. eexists. reflexivity.
  - destruct (Js.BigInt (amount x)); [apply IH; exact Hin|].
    eexists. reflexivity.
Qed.

Lemma good_or_bad (g : list BatchTransaction) : good g \/ bad g.
Proof.
  unfold good, bad. destruct (group_total g) as [v|e]; eauto.
Qed.

Lemma good_integer (g : list BatchTransaction) :
  Forall Spec.integer_amount g -> good g.
Proof.
  intros H. exists (0 + Spec.summed_amount g).
  apply total_from_integer. exact H.
Qed.

Lemma compare_groups_bad_left (x y : list BatchTransaction) :
  bad x -> exists e, compare_groups x y = Thrown e.
Proof.
  intros [e He]. unfold compare_groups. rewrite He. eauto.
Qed.

Lemma compare_groups_bad_right (x y : list BatchTransaction) :
  bad y -> exists e, compare_groups x y = Thrown e.
Proof.
  intros [e He]. unfold compare_groups. rewrite He.
  destruct (group_total x); eauto.
Qed.

Lemma compare_groups_good (x y : list BatchTransaction) :
  good x -> good y -> exists c, compare_groups x y = Returned c.
Proof.
  intros [a Ha] [b Hb]. unfold compare_groups. rewrite Ha, Hb. eauto.
Qed.

Lemma sort_insert_good (x : list BatchTransaction) :
  good x ->
  forall sorted,
    Forall good sorted ->
    exists l,
      sort_insert compare_groups x sorted = Returned l /\
      Forall good l /\ l <> [].
Proof.
  intros Hx. induction sorted as [|y rest IH]; intros Hs; simpl.
  - eexists. split; [reflexivity|]. split; [|discriminate].
    constructor; [exact Hx|constructor].
  - inversion Hs as [|? ? Hy Hrest]; subst.
    destruct (compare_groups_good x y Hx Hy) as [c Hc]. rewrite Hc.
    destruct (c <? 0).
    + eexists. split; [reflexivity|]. split; [|discriminate].
      constructor; assumption.
    + destruct (IH Hrest) as (l & Hl & Hgood & _). rewrite Hl.
      eexists. split; [reflexivity|]. split; [|discriminate].
      constructor; assumption.
Qed.

Lemma sort_from_good :
  forall l sorted,
    Forall good l -> Forall good sorted ->
    exists l', sort_from compare_groups sorted l = Returned l'.
Proof.
  induction l as [|x rest IH]; intros sorted Hl Hs; simpl.
  - eauto.
  - inversion Hl as [|? ? Hx Hrest]; subst.
    destruct (sort_insert_good x Hx sorted Hs) as (s' & Hins & Hs' & _).
    rewrite Hins. apply IH; assumption.
Qed.

Lemma sort_from_bad :
  forall l sorted,
    sorted <> [] -> Forall good sorted -> Exists bad l ->
    exists e, sort_from compare_groups sorted l = Thrown e.
Proof.
  induction l as [|x rest IH]; intros sorted Hne Hs Hbad; simpl.
  - inversion Hbad.
  - destruct (good_or_bad x) as [Hx|Hx].
    + destruct (sort_insert_good x Hx sorted Hs) as (s' & Hins & Hs' & Hne').
      rewrite Hins. apply IH; try assumption.
      inversion Hbad as [? ? Hbx|? ? Hrest]; subst; [|exact Hrest].
      destruct Hx as [v Hv], Hbx as [e He]. congruence.
    + destruct sorted as [|y s]; [congruence|]. simpl.
      destruct (compare_groups_bad_left x y Hx) as [e He]. rewrite He.
      eauto.
Qed.

Lemma Array_sort_bad (groups : list (list BatchTransaction)) :
  (2 <= List.length groups)%nat -> Exists bad groups ->
  exists e, Array_sort compare_groups groups = Thrown e.
Proof.
  intros Hlen Hbad. unfold Array_sort.
  destruct groups as [|g1 [|g2 rest]]; simpl in Hlen; try lia.
  cbn [sort_from sort_insert].
  destruct (good_or_bad g1) as [H1|H1].
  - change (exists e, sort_from compare_groups [g1] (g2 :: rest) = Thrown e).
    apply sort_from_bad; [discriminate|repeat constructor; exact H1|].
    inversion Hbad as [? ? Hb|? ? Hb]; subst; [|exact Hb].
    destruct H1 as [v Hv], Hb as [e He]. congruence.
  - destruct (compare_groups_bad_right g2 g1 H1) as [e He]. rewrite He.
    eauto.
Qed.

Lemma all_integer_or_not (txs : list BatchTransaction) :
  Forall Spec.integer_amount txs \/
  exists tx, In tx txs /\ Js.BigInt (amount tx) = None.
Proof.
  induction txs as [|tx txs [IH|(x & Hx & Hb)]].
  - left. constructor.
  - destruct (Js.BigInt (amount tx)) eqn:Hb.
    + left. constructor; [|exact IH]. unfold Spec.integer_amount. congruence.
    + right. exists tx. split; [left; reflexivity|exact Hb].
  - right. exists x. split; [right; exact Hx|exact Hb].
Qed.

Lemma two_keys (txs : list BatchTransaction) :
  (2 <= List.length (Spec.distinct_keys txs))%nat <->
  exists tx1 tx2,
    In tx1 txs /\ In tx2 txs /\ group_key tx1 <> group_key tx2.
Proof.
  pose proof (distinct_keys_NoDup txs) as Hnd.
  pose proof (distinct_keys_In txs) as Hin.
  split.
  - intros Hlen.
    destruct (Spec.distinct_keys txs) as [|k1 [|k2 rest]]; simpl in Hlen;
      try lia.
    destruct (proj1 (Hin k1) (or_introl eq_refl)) as (tx1 & H1 & Hk1).
    destruct (proj1 (Hin k2) (or_intror (or_introl eq_refl)))
      as (tx2 & H2 & Hk2).
    exists tx1, tx2. split; [exact H1|]. split; [exact H2|].
    rewrite Hk1, Hk2. intros Heq.
    inversion Hnd as [|? ? Hnot _]; subst. apply Hnot. left. symmetry.
    exact Heq.
  - intros (tx1 & tx2 & H1 & H2 & Hne).
    assert (Hk1 : In (group_key tx1) (Spec.distinct_keys txs))
      by (apply Hin; eauto).
    assert (Hk2 : In (group_key tx2) (Spec.distinct_keys txs))
      by (apply Hin; eauto).
    destruct (Spec.distinct_keys txs) as [|k1 [|k2 rest]]; simpl;
      [contradiction| |lia].
    destruct Hk1 as [Hk1|[]], Hk2 as [Hk2|[]]. congruence.
Qed.

Lemma optimizeBatch_rejects (txs : list BatchTransaction) :
  (exists e, optimizeBatch txs = Thrown e) <->
  (exists tx1 tx2,
      In tx1 txs /\ In tx2 txs /\ group_key tx1 <> group_key tx2) /\
  (exists tx, In tx txs /\ Js.BigInt (amount tx) = None).
Proof.
  rewrite <- two_keys. unfold optimizeBatch. split.
  - intros [e He]. split.
    + destruct (le_lt_dec 2 (List.length (Spec.distinct_keys txs)))
        as [Hle|Hlt]; [exact Hle|].
      exfalso. rewrite group_by_key_classes, map_map in He.
      unfold Array_sort in He.
      destruct (Spec.distinct_keys txs) as [|k1 [|k2 rest]]; simpl in *;
        try discriminate; lia.
    + destruct (all_integer_or_not txs) as [Hall|Hbad]; [|exact Hbad].
      exfalso.
      assert (Hgood : Forall good (map snd (group_by_key txs))).
      { rewrite group_by_key_classes, map_map. simpl.
        apply Forall_forall. intros g Hg. apply in_map_iff in Hg.
        destruct Hg as (k & <- & _). apply good_integer.
        unfold Spec.with_key. apply Forall_forall. intros tx Htx.
        apply filter_In in Htx. rewrite Forall_forall in Hall.
        apply Hall. tauto. }
      destruct (sort_from_good _ [] Hgood (Forall_nil _)) as [l Hl].
      unfold Array_sort in He. congruence.
  - intros [Hlen (tx & Htx & Hbad)].
    apply Array_sort_bad.
    + rewrite group_by_key_classes, !length_map. exact Hlen.
    + apply Exists_exists.
      assert (Hin : In tx (List.concat (map snd (group_by_key txs)))).
      { apply (Permutation_in _ (Permutation_sym (group_by_key_concat txs))).
        exact Htx. }
      apply in_concat in Hin. destruct Hin as (g & Hg & Htxg).
      exists g. split; [exact Hg|].
      apply (total_from_throws g tx Htxg Hbad).
Qed.

End OptimizeRejects.

(** X19.  [optimizeBatch] rejects exactly when the list has transactions
    to two different (recipient, token) keys and has an amount that
    [BigInt] does not accept (a decimal or exponent notation, which
    [POST /api/batch] lets through): the comparator of the sort is then
    called and throws.  A list with one key, or with integer amounts
    only, is always grouped. *)
Theorem optimizeBatch_rejects_exactly_when (txs : list BatchingService.BatchTransaction) :
  (exists e, BatchingService.optimizeBatch txs = Thrown e) <->
  (exists tx1 tx2,
      In tx1 txs /\ In tx2 txs /\
      BatchingService.group_key tx1 <> BatchingService.group_key tx2) /\
  (exists tx, In tx txs /\ Js.BigInt (BatchingService.amount tx) = None).
Proof. apply optimizeBatch_rejects. Qed.

(* ================================================================== *)
(** * The identifiers [generateBatchId] makes *)
(* ================================================================== *)

Section Identifiers.

Lemma decimal_digits_no_underscore (d : Decimal.uint) :
  Spec.no_underscore (DecimalString.NilEmpty.string_of_uint d) = true.
Proof.
  unfold Spec.no_underscore.
  induction d; simpl; try reflexivity; exact IHd.
Qed.

Lemma BigInt_toString_no_underscore (z : Z) :
  Spec.no_underscore (Js.BigInt_toString z) = true.
Proof.
  unfold Js.BigInt_toString, DecimalString.NilZero.string_of_int,
    DecimalString.NilZero.string_of_uint.
  destruct (Z.to_int z) as [d|d]; destruct d;
    try reflexivity;
    first [ apply (decimal_digits_no_underscore (Decimal.D0 d))
          | apply (decimal_digits_no_underscore (Decimal.D1 d))
          | apply (decimal_digits_no_underscore (Decimal.D2 d))
          | apply (decimal_digits_no_underscore (Decimal.D3 d))
          | apply (decimal_digits_no_underscore (Decimal.D4 d))
          | apply (decimal_digits_no_underscore (Decimal.D5 d))
          | apply (decimal_digits_no_underscore (Decimal.D6 d))
          | apply (decimal_digits_no_underscore (Decimal.D7 d))
          | apply (decimal_digits_no_underscore (Decimal.D8 d))
          | apply (decimal_digits_no_underscore (Decimal.D9 d)) ].
Qed.

Lemma to_int_not_nil (z : Z) :
  Z.to_int z <> Decimal.Pos Decimal.Nil /\
  Z.to_int z <> Decimal.Neg Decimal.Nil.
Proof.
  destruct z as [|p|p]; simpl; split; try discriminate;
    intros H; injection H as H;
    exact (DecimalPos.Unsigned.to_uint_nonnil p H).
Qed.

Lemma BigInt_toString_inj (a b : Z) :
  Js.BigInt_toString a = Js.BigInt_toString b -> a = b.
Proof.
  unfold Js.BigInt_toString. intros H.
  apply DecimalZ.to_int_inj.
  destruct (to_int_not_nil a) as [Ha1 Ha2].
  destruct (to_int_not_nil b) as [Hb1 Hb2].
  pose proof (DecimalString.NilZero.isi (Z.to_int a) Ha1 Ha2) as Hia.
  pose proof (DecimalString.NilZero.isi (Z.to_int b) Hb1 Hb2) as Hib.
  rewrite H in Hia. congruence.
Qed.

End Identifiers.

(** X20.  Two identifiers made by [generateBatchId] are equal exactly
    when the clock gave the same reading and [Math.random] the same
    suffix to both: the decimal reading and the suffix can be read back
    from the identifier. *)
Theorem generateBatchId_collides_only_on_equal_readings (E E' : Env)
    (w w' : World) :
  fst (BatchingService.generateBatchId E w)
  = fst (BatchingService.generateBatchId E' w') <->
  now E (ticks w) = now E' (ticks w') /\
  random36 E (S (ticks w)) = random36 E' (S (ticks w')).
Proof.
  unfold BatchingService.generateBatchId, bind, Date_now, random_base36, ret.
  cbn [fst ticks tick]. split.
  - intros H. injection H as H.
    apply append_separator_inj in H;
      try apply BigInt_toString_no_underscore.
    destruct H as [Hnow Hrandom]. split; [|exact Hrandom].
    apply BigInt_toString_inj. exact Hnow.
  - intros [Hnow Hrandom]. rewrite Hnow, Hrandom. reflexivity.
Qed.

(* ================================================================== *)
(** * Hexadecimal quantities read back by [BigInt] *)
(* ================================================================== *)

Section HexadecimalQuantities.

Lemma hex_digits_value_acc (d : Hexadecimal.uint) :
  forall acc : positive,
    Js.digits_value 16
      (list_ascii_of_string (HexadecimalString.NilEmpty.string_of_uint d))
      (Z.pos acc)
    = Some (Z.pos (Pos.of_hex_uint_acc d acc)).
Proof.
  induction d; intros acc;
    cbn [HexadecimalString.NilEmpty.string_of_uint list_ascii_of_string
           Js.digits_value Pos.of_hex_uint_acc];
    try reflexivity;
    match goal with
    | |- context [Js.digit_in 16 ?c] =>
        let v := eval vm_compute in (Js.digit_in 16 c) in
        change (Js.digit_in 16 c) with v
    end;
    cbv iota beta;
    match goal with
    | |- Js.digits_value 16 _ ?a = Some (Z.pos (Pos.of_hex_uint_acc _ ?b)) =>
        replace a with (Z.pos b) by lia
    end;
    apply IHd.
Qed.

Lemma hex_digits_value (d : Hexadecimal.uint) :
  Js.digits_value 16
    (list_ascii_of_string (HexadecimalString.NilEmpty.string_of_uint d)) 0
  = Some (Z.of_N (Pos.of_hex_uint d)).
Proof.
  induction d;
    cbn [HexadecimalString.NilEmpty.string_of_uint list_ascii_of_string
           Js.digits_value Pos.of_hex_uint];
    try reflexivity;
    match goal with
    | |- context [Js.digit_in 16 ?c] =>
        let v := eval vm_compute in (Js.digit_in 16 c) in
        change (Js.digit_in 16 c) with v
    end;
    cbv iota beta;
    first [ exact IHd | apply hex_digits_value_acc ].
Qed.

Lemma hex_digits_no_white_space (d : Hexadecimal.uint) :
  Forall (fun c => Js.is_ws c = false)
    (list_ascii_of_string (HexadecimalString.NilEmpty.string_of_uint d)).
Proof.
  induction d; simpl; constructor; try reflexivity; exact IHd.
Qed.

Lemma drop_ws_none (l : list ascii) :
  Forall (fun c => Js.is_ws c = false) l -> Js.drop_ws l = l.
Proof.
  intros H. destruct H as [|c l Hc _]; [reflexivity|].
  simpl. rewrite Hc. reflexivity.
Qed.

Lemma trim_none (l : list ascii) :
  Forall (fun c => Js.is_ws c = false) l -> Js.trim l = l.
Proof.
  intros H. unfold Js.trim. rewrite (drop_ws_none l H).
  rewrite drop_ws_none by (apply Forall_rev; exact H).
  apply rev_involutive.
Qed.

Lemma hex_digits_of_positive (p : positive) :
  exists c l,
    list_ascii_of_string
      (HexadecimalString.NilZero.string_of_uint (Pos.to_hex_uint p))
    = c :: l /\
    Forall (fun c => Js.is_ws c = false) (c :: l) /\
    Js.digits_value 16 (c :: l) 0 = Some (Z.pos p).
Proof.
  pose proof (HexadecimalPos.Unsigned.to_uint_nonnil p) as Hnonnil.
  pose proof (HexadecimalPos.Unsigned.of_to p) as Hvalue.
  pose proof (hex_digits_value (Pos.to_hex_uint p)) as Hdigits.
  pose proof (hex_digits_no_white_space (Pos.to_hex_uint p)) as Hws.
  rewrite Hvalue in Hdigits.
  assert (Hsame : HexadecimalString.NilZero.string_of_uint (Pos.to_hex_uint p)
                  = HexadecimalString.NilEmpty.string_of_uint
                      (Pos.to_hex_uint p)).
  { destruct (Pos.to_hex_uint p); try reflexivity. congruence. }
  rewrite Hsame.
  destruct (list_ascii_of_string
              (HexadecimalString.NilEmpty.string_of_uint (Pos.to_hex_uint p)))
    as [|c l] eqn:Hl.
  - simpl in Hdigits. discriminate.
  - exists c, l. repeat split; assumption.
Qed.

(** [BigInt('0x' + n.toString(16))] is [n] for a natural number [n]. *)
Lemma BigInt_of_hex (z : Z) :
  0 <= z -> Js.BigInt ("0x" ++ Js.BigInt_toString16 z) = Some z.
Proof.
  intros Hz. destruct z as [|p|p]; [reflexivity| |lia].
  destruct (hex_digits_of_positive p) as (c & l & Hl & Hws & Hvalue).
  unfold Js.BigInt, Js.BigInt_toString16.
  cbn [Z.to_hex_int HexadecimalString.NilZero.string_of_int append
         list_ascii_of_string]. rewrite Hl.
  rewrite trim_none
    by (constructor; [reflexivity|constructor; [reflexivity|exact Hws]]).
  cbn [Js.non_decimal_prefix]. unfold Js.parse_digits. exact Hvalue.
Qed.

(** [BigInt('0x' + n.toString(16))] throws for a negative [n]: the sign
    follows the prefix. *)
Lemma BigInt_of_hex_negative (z : Z) :
  z < 0 -> Js.BigInt ("0x" ++ Js.BigInt_toString16 z) = None.
Proof.
  intros Hz. destruct z as [|p|p]; try lia.
  destruct (hex_digits_of_positive p) as (c & l & Hl & Hws & _).
  unfold Js.BigInt, Js.BigInt_toString16.
  cbn [Z.to_hex_int HexadecimalString.NilZero.string_of_int append
         list_ascii_of_string]. rewrite Hl.
  rewrite trim_none
    by (constructor; [reflexivity|constructor; [reflexivity|
        constructor; [reflexivity|exact Hws]]]).
  reflexivity.
Qed.

(** [BigInt(x)] of a safe integer. *)
Lemma NumberToBigInt_of_Z (z : Z) :
  Z.abs z < 2 ^ 53 -> Js.NumberToBigInt (Js.of_Z z) = Some z.
Proof.
  intros Hz.
  destruct (of_Z_cases z Hz) as [[Hz0 Hzero]|(sg & w & Hw & Hsg & Hn)].
  - subst z. reflexivity.
  - rewrite Hn, Hsg. unfold Binary64.normal, Js.NumberToBigInt.
    destruct (normal_mantissa w Hw) as [Hm Hb]. rewrite Hm.
    destruct (Z.leb_spec 0 (Binary64.bits w - 53)) as [Hfull|Hpart].
    + replace (53 - Binary64.bits w) with 0 by lia.
      replace (Binary64.bits w - 53) with 0 by lia.
      change (2 ^ 0) with 1. rewrite !Z.mul_1_r.
      destruct sg; reflexivity.
    + replace (- (Binary64.bits w - 53)) with (53 - Binary64.bits w) by lia.
      assert (Hp : 0 < 2 ^ (53 - Binary64.bits w))
        by (apply Z.pow_pos_nonneg; lia).
      rewrite Z.mod_mul, Z.div_mul by lia. simpl.
      destruct sg; reflexivity.
Qed.

End HexadecimalQuantities.

(* ================================================================== *)
(** * [calculateBatchSavings] *)
(* ================================================================== *)

Section BatchSavingsFacts.

Import ShardeumAPI.

Variable E : Env.

(** The estimator on estimates that are safe integers of sum [S]. *)
Lemma estimateBatchGasSavings_on_safe_sum
    (transactions : list TransactionObject) (w w' : World)
    (answers : list string) (values : list Z) :
  estimate_all E transactions w = (Returned answers, w') ->
  Forall2 (fun a v => Js.parseInt16 a = Js.of_Z v /\ 0 <= v) answers values ->
  0 <= fold_right Z.add 0 values < 2 ^ 50 ->
  exists batch,
    7 * fold_right Z.add 0 values / 10 + 20999 <= batch
    <= 7 * fold_right Z.add 0 values / 10 + 21000 /\
    totalIndividualGas answers = Js.of_Z (fold_right Z.add 0 values) /\
    estimateBatchGasSavings E transactions w
    = (Returned
         (mkBatchGasSavings answers
            ("0x" ++ Js.BigInt_toString16 batch)%string
            ("0x" ++ Js.BigInt_toString16 (fold_right Z.add 0 values - batch))%string
            (Js.mul
               (Js.div (Js.of_Z (fold_right Z.add 0 values - batch))
                  (Js.of_Z (fold_right Z.add 0 values)))
               (Js.of_Z 100))), w').
Proof.
  intros Hall Hvalues HS. set (S := fold_right Z.add 0 values) in *.
  assert (Htotal : totalIndividualGas answers = Js.of_Z S).
  { unfold totalIndividualGas.
    rewrite (totalIndividualGas_exact answers values Hvalues 0) by (fold S; lia).
    reflexivity. }
  assert (Hfloor : exists k,
             Js.Math_floor (Js.mul (Js.of_Z S) Js.lit_0_7) = Js.of_Z k /\
             7 * S / 10 - 1 <= k <= 7 * S / 10).
  { destruct (Z.eq_dec S 0) as [Hzero|Hpos].
    - rewrite Hzero. exists 0. split; [reflexivity|].
      change (7 * 0 / 10) with 0. lia.
    - apply floor_mul_0_7. lia. }
  destruct Hfloor as (k & Hfloor & Hk).
  assert (HK : 0 <= 7 * S / 10 < 2 ^ 50).
  { split; [apply Z.div_pos; lia|].
    apply Z.div_lt_upper_bound; lia. }
  assert (Hbatch : estimatedBatchGas (Js.of_Z S) = Js.of_Z (k + 21000)).
  { unfold estimatedBatchGas, batchOverhead. rewrite Hfloor.
    unfold Js.add, Js.prec, Js.emax. apply add_of_Z; lia. }
  assert (Hsavings : Js.sub (Js.of_Z S) (Js.of_Z (k + 21000))
                     = Js.of_Z (S - (k + 21000))).
  { unfold Js.sub, Js.prec, Js.emax. apply sub_of_Z; lia. }
  exists (k + 21000). split; [lia|]. split; [exact Htotal|].
  unfold estimateBatchGasSavings, bind. rewrite Hall. unfold ret.
  rewrite Htotal, Hbatch, Hsavings.
  rewrite !Number_toString16_of_Z by lia. reflexivity.
Qed.

Lemma calculateBatchSavings_on_safe_sum
    (txs : list BatchingService.BatchTransaction) (w w' : World)
    (answers : list string) (values : list Z) :
  estimate_all E
    (map (fun tx =>
            mkTransactionObject (BatchingService.userAddress tx)
              (Some (BatchingService.toAddress tx)) None None
              (Some (BatchingService.amount tx)) None None) txs) w
  = (Returned answers, w') ->
  Forall2 (fun a v => Js.parseInt16 a = Js.of_Z v /\ 0 <= v) answers values ->
  0 <= fold_right Z.add 0 values < 2 ^ 50 ->
  exists batch,
    7 * fold_right Z.add 0 values / 10 + 20999 <= batch
    <= 7 * fold_right Z.add 0 values / 10 + 21000 /\
    Savings.calculateBatchSavings E txs w
    = (match
         BatchingService.BigInt_or_throw
           ("0x" ++ Js.BigInt_toString16 (fold_right Z.add 0 values - batch))
       with
       | Returned s =>
           Returned
             (Savings.mkBatchSavings (fold_right Z.add 0 values) batch s
                (Js.mul
                   (Js.div (Js.of_Z (fold_right Z.add 0 values - batch))
                      (Js.of_Z (fold_right Z.add 0 values)))
                   (Js.of_Z 100)))
       | Thrown e => Thrown e
       end, w').
Proof.
  intros Hall Hvalues HS.
  destruct (estimateBatchGasSavings_on_safe_sum _ w w' answers values
              Hall Hvalues HS) as (batch & Hbatch & Htotal & Hrun).
  exists batch. split; [exact Hbatch|].
  unfold Savings.calculateBatchSavings, bind. rewrite Hrun.
  cbn [individualGas batchGas totalSavings savingsPercentage].
  unfold lift, Savings.NumberToBigInt_or_throw. rewrite Htotal.
  rewrite NumberToBigInt_of_Z by lia.
  assert (Hq : 0 <= 7 * fold_right Z.add 0 values / 10)
    by (apply Z.div_pos; lia).
  unfold BatchingService.BigInt_or_throw at 1.
  rewrite BigInt_of_hex by lia.
  destruct (BatchingService.BigInt_or_throw
              ("0x" ++ Js.BigInt_toString16 (fold_right Z.add 0 values - batch)));
    reflexivity.
Qed.

End BatchSavingsFacts.

(** X21.  [calculateBatchSavings] rejects on small batches.  When the
    node answers every estimate with a hexadecimal numeral and the sum [S]
    of the estimates is at most 69993 (so for no transaction at all, and
    for one, two or three plain transfers of 21000), the saving
    [S - (floor(S * 0.7) + 21000)] is negative, the estimator prints it as
    [0x-...], and [BigInt] of that string throws: the method rejects. *)
Theorem calculateBatchSavings_rejects_small_batches (E : Env)
    (txs : list BatchingService.BatchTransaction) (w w' : World)
    (answers : list string) (values : list Z) :
  ShardeumAPI.estimate_all E
    (map (fun tx =>
            mkTransactionObject (BatchingService.userAddress tx)
              (Some (BatchingService.toAddress tx)) None None
              (Some (BatchingService.amount tx)) None None) txs) w
  = (Returned answers, w') ->
  Forall2 (fun a v => Js.parseInt16 a = Js.of_Z v /\ 0 <= v) answers values ->
  fold_right Z.add 0 values <= 69993 ->
  exists e, Savings.calculateBatchSavings E txs w = (Thrown e, w').
Proof.
  intros Hall Hvalues HS.
  assert (Hnonneg : 0 <= fold_right Z.add 0 values).
  { clear - Hvalues. induction Hvalues as [|? ? ? ? [_ ?] _ IH]; simpl; lia. }
  destruct (calculateBatchSavings_on_safe_sum E txs w w' answers values
              Hall Hvalues) as (batch & Hbatch & Hrun); [lia|].
  rewrite Hrun. unfold BatchingService.BigInt_or_throw.
  rewrite BigInt_of_hex_negative; [eexists; reflexivity|].
  pose proof (Z.mul_succ_div_gt (7 * fold_right Z.add 0 values) 10
                ltac:(lia)).
  lia.
Qed.

Lemma calculateBatchSavings_rejects_small_batches_witness :
  exists e,
    Savings.calculateBatchSavings Samples.env_ok Samples.three_transfers
      Samples.world0
    = (Thrown e, mkWorld [] [] 1 3 []).
Proof.
  apply (calculateBatchSavings_rejects_small_batches Samples.env_ok
           Samples.three_transfers Samples.world0 (mkWorld [] [] 1 3 [])
           ["0x5208"; "0x5208"; "0x5208"] [21000; 21000; 21000]).
  - reflexivity.
  - repeat constructor; try (vm_compute; reflexivity); lia.
  - vm_compute. discriminate.
Defined.

(** X22.  From a sum [S] of estimates of 69997 on (below 2^50),
    [calculateBatchSavings] returns: the individual cost is [S], the batch
    cost is [floor(7 S / 10) + 21000] or one less, the saving is their
    difference and is not negative, and the percentage is the estimator's
    (saving / S * 100 on binary64 numbers). *)
Theorem calculateBatchSavings_returns_on_large_batches (E : Env)
    (txs : list BatchingService.BatchTransaction) (w w' : World)
    (answers : list string) (values : list Z) :
  ShardeumAPI.estimate_all E
    (map (fun tx =>
            mkTransactionObject (BatchingService.userAddress tx)
              (Some (BatchingService.toAddress tx)) None None
              (Some (BatchingService.amount tx)) None None) txs) w
  = (Returned answers, w') ->
  Forall2 (fun a v => Js.parseInt16 a = Js.of_Z v /\ 0 <= v) answers values ->
  69997 <= fold_right Z.add 0 values < 2 ^ 50 ->
  exists batch,
    7 * fold_right Z.add 0 values / 10 + 20999 <= batch
    <= 7 * fold_right Z.add 0 values / 10 + 21000 /\
    0 <= fold_right Z.add 0 values - batch /\
    Savings.calculateBatchSavings E txs w
    = (Returned
         (Savings.mkBatchSavings (fold_right Z.add 0 values) batch
            (fold_right Z.add 0 values - batch)
            (Js.mul
               (Js.div (Js.of_Z (fold_right Z.add 0 values - batch))
                  (Js.of_Z (fold_right Z.add 0 values)))
               (Js.of_Z 100))), w').
Proof.
  intros Hall Hvalues HS.
  destruct (calculateBatchSavings_on_safe_sum E txs w w' answers values
              Hall Hvalues) as (batch & Hbatch & Hrun); [lia|].
  assert (Hsaving : 0 <= fold_right Z.add 0 values - batch).
  { pose proof (Z.mul_div_le (7 * fold_right Z.add 0 values) 10 ltac:(lia)).
    lia. }
  exists batch. split; [exact Hbatch|]. split; [exact Hsaving|].
  rewrite Hrun. unfold BatchingService.BigInt_or_throw.
  rewrite BigInt_of_hex by exact Hsaving. reflexivity.
Qed.

Lemma calculateBatchSavings_returns_on_large_batches_witness :
  exists batch,
    7 * 84000 / 10 + 20999 <= batch <= 7 * 84000 / 10 + 21000 /\
    0 <= 84000 - batch /\
    Savings.calculateBatchSavings Samples.env_ok
      (Samples.queued "b4" Samples.addrC "3" None :: Samples.three_transfers)
      Samples.world0
    = (Returned
         (Savings.mkBatchSavings 84000 batch (84000 - batch)
            (Js.mul (Js.div (Js.of_Z (84000 - batch)) (Js.of_Z 84000))
               (Js.of_Z 100))), mkWorld [] [] 1 4 []).
Proof.
  apply (calculateBatchSavings_returns_on_large_batches Samples.env_ok
           (Samples.queued "b4" Samples.addrC "3" None
            :: Samples.three_transfers)
           Samples.world0 (mkWorld [] [] 1 4 [])
           ["0x5208"; "0x5208"; "0x5208"; "0x5208"]
           [21000; 21000; 21000; 21000]).
  - reflexivity.
  - repeat constructor; try (vm_compute; reflexivity); lia.
  - vm_compute. split; [discriminate|reflexivity].
Defined.

(* ================================================================== *)
(** * [estimateTransactionGas] *)
(* ================================================================== *)

(** X23.  [estimateTransactionGas] never rejects and writes nothing.
    For an amount that [BigInt] reads as the integer [a], the node is
    asked once, about the transaction whose [value] is the string [0x]
    followed by the hexadecimal digits of [a] (for a natural number this
    string reads back as [a]), and the estimate is the node's answer, or
    21000 when the node rejects or its answer is not an integer string.
    Without an amount, or with an empty one, the node is asked once about
    the transaction without [value].  For an amount that [BigInt] does
    not accept, the node is not asked at all and the estimate is 21000. *)
Theorem estimateTransactionGas_asks_in_hexadecimal (E : Env)
    (t : TransactionObject) (w : World) :
  let answered (formatted_value : option string) : Z :=
    match
      rpc_estimateGas E (ticks w)
        (mkTransactionObject (from t) (to t) (gas t) (gasPrice t)
           formatted_value (data t) (nonce t))
    with
    | Returned answer =>
        match Js.BigInt answer with
        | Some estimate => estimate
        | None => 21000
        end
    | Thrown _ => 21000
    end in
  exists g w',
    BatchingService.estimateTransactionGas E t w = (Returned g, w') /\
    batched_transactions w' = batched_transactions w /\
    gas_analytics w' = gas_analytics w /\
    signer_calls w' = signer_calls w /\
    (forall v a,
        value t = Some v -> v <> "" -> Js.BigInt v = Some a ->
        w' = tick w /\
        g = answered (Some ("0x" ++ Js.BigInt_toString16 a)%string) /\
        (0 <= a ->
         Js.BigInt ("0x" ++ Js.BigInt_toString16 a)%string = Some a)) /\
    (value t = None \/ value t = Some "" ->
     w' = tick w /\ g = answered None) /\
    (forall v,
        value t = Some v -> v <> "" -> Js.BigInt v = None ->
        g = 21000 /\ w' = w).
Proof.
  intros answered. subst answered.
  unfold BatchingService.estimateTransactionGas, try_catch, bind, lift, ret,
    estimateGas, BatchingService.BigInt_or_throw.
  destruct (value t) as [v|].
  - destruct (String.eqb_spec v "") as [Hempty|Hvalue].
    + subst v.
      destruct (rpc_estimateGas E (ticks w) _) as [answer|e].
      * destruct (Js.BigInt answer); eexists; eexists;
          (split; [reflexivity|]); repeat split;
          intros; congruence.
      * eexists; eexists; (split; [reflexivity|]); repeat split;
          intros; congruence.
    + destruct (Js.BigInt v) as [a|] eqn:Ha.
      * destruct (rpc_estimateGas E (ticks w)
                    (mkTransactionObject (from t) (to t) (gas t) (gasPrice t)
                       (Some ("0x" ++ Js.BigInt_toString16 a)%string)
                       (data t) (nonce t))) as [answer|e] eqn:Hanswer.
        -- destruct (Js.BigInt answer) eqn:Hestimate; eexists; eexists;
             (split; [reflexivity|]);
             (split; [reflexivity|]); (split; [reflexivity|]);
             (split; [reflexivity|]);
             (split; [|split; [intros [H|H]; congruence
                              |intros; congruence]]);
             intros v' a' Hv' _ Ha'; injection Hv' as <-;
             assert (a' = a) by congruence; subst a';
             (split; [reflexivity|]);
             (split; [rewrite Hanswer, ?Hestimate; reflexivity|]);
             apply BigInt_of_hex.
        -- eexists; eexists; (split; [reflexivity|]);
             (split; [reflexivity|]); (split; [reflexivity|]);
             (split; [reflexivity|]);
             (split; [|split; [intros [H|H]; congruence
                              |intros; congruence]]).
           intros v' a' Hv' _ Ha'. injection Hv' as <-.
           assert (a' = a) by congruence. subst a'.
           split; [reflexivity|].
           split; [rewrite Hanswer; reflexivity|]. apply BigInt_of_hex.
      * eexists; eexists; (split; [reflexivity|]);
          (split; [reflexivity|]); (split; [reflexivity|]);
          (split; [reflexivity|]);
          (split; [intros; congruence|]).
        split; [intros [H|H]; congruence|]. intros. split; reflexivity.
  - destruct (rpc_estimateGas E (ticks w) _) as [answer|e].
    + destruct (Js.BigInt answer); eexists; eexists;
        (split; [reflexivity|]); repeat split; intros; congruence.
    + eexists; eexists; (split; [reflexivity|]); repeat split;
        intros; congruence.
Qed.

(* ================================================================== *)
(** * The route [POST /api/shardeum] *)
(* ================================================================== *)

Section SavingsRoute.

Variable E : Env.

Lemma keeps_estimate_all (P : World -> World -> Prop)
    (transactions : list TransactionObject) :
  (forall w, P w w) -> (forall w1 w2 w3, P w1 w2 -> P w2 w3 -> P w1 w3) ->
  (forall w, P w (tick w)) ->
  Spec.keeps P (ShardeumAPI.estimate_all E transactions).
Proof.
  intros Hrefl Htrans Htick.
  induction transactions as [|tx rest IH]; intros w; simpl.
  - apply Hrefl.
  - unfold estimateGas.
    specialize (IH (tick w)).
    destruct (ShardeumAPI.estimate_all E rest (tick w)) as [os w2].
    simpl in *. eapply Htrans; [apply Htick|exact IH].
Qed.

Lemma POST_shardeum_cases (body : option Routes.TransactionsField)
    (w : World) :
  exists r w',
    Routes.POST_shardeum E body w = (Returned r, w') /\
    batched_transactions w' = batched_transactions w /\
    gas_analytics w' = gas_analytics w /\
    signer_calls w' = signer_calls w /\
    (Routes.http_status r = 400 <->
     body = Some Routes.Missing \/ body = Some Routes.NotAnArray) /\
    (Routes.http_status r = 200 <->
     exists transactions answers,
       body = Some (Routes.ArrayOf transactions) /\
       ShardeumAPI.estimate_all E transactions w = (Returned answers, w')) /\
    (Routes.http_status r = 500 <->
     body = None \/
     exists transactions e,
       body = Some (Routes.ArrayOf transactions) /\
       ShardeumAPI.estimate_all E transactions w = (Thrown e, w')).
Proof.
  unfold Routes.POST_shardeum, try_catch.
  destruct body as [[| |transactions]|].
  - unfold ret. eexists. eexists. split; [reflexivity|].
    repeat split; try reflexivity; try discriminate;
      try (intros; auto; fail);
      try (intros [H|H]; discriminate);
      try (intros (? & ? & H & _); discriminate);
      try (intros [H|(? & ? & H & _)]; discriminate).
  - unfold ret. eexists. eexists. split; [reflexivity|].
    repeat split; try reflexivity; try discriminate;
      try (intros; auto; fail);
      try (intros [H|H]; discriminate);
      try (intros (? & ? & H & _); discriminate);
      try (intros [H|(? & ? & H & _)]; discriminate).
  - unfold bind, ShardeumAPI.estimateBatchGasSavings, bind.
    pose proof (keeps_estimate_all Spec.same_tables transactions
                  same_tables_refl same_tables_trans same_tables_tick w)
      as Htables.
    pose proof (keeps_estimate_all Spec.same_calls transactions
                  same_calls_refl same_calls_trans same_calls_tick w)
      as Hcalls.
    unfold Spec.same_tables, Spec.tables in Htables.
    unfold Spec.same_calls in Hcalls.
    destruct (ShardeumAPI.estimate_all E transactions w) as [[answers|e] w1]
      eqn:Hest;
      cbn [snd] in Htables, Hcalls; injection Htables as Hrows Hanalytics;
      unfold ret; eexists; eexists; (split; [reflexivity|]);
      (split; [exact Hrows|]); (split; [exact Hanalytics|]);
      (split; [exact Hcalls|]); cbn [Routes.http_status].
    + split; [split; [discriminate|intros [H|H]; discriminate]|].
      split; [split; [intros _; exists transactions, answers; split;
                      [reflexivity|exact Hest]|intros _; reflexivity]|].
      split; [discriminate|].
      intros [H|(? & ? & H1 & H2)]; [discriminate|].
      injection H1 as <-. congruence.
    + split; [split; [discriminate|intros [H|H]; discriminate]|].
      split; [split; [discriminate|]|].
      { intros (? & ? & H1 & H2). injection H1 as <-. congruence. }
      split; [intros _; right; exists transactions, e; split;
                [reflexivity|exact Hest]|intros _; reflexivity].
  - unfold throw, ret. eexists. eexists. split; [reflexivity|].
    repeat split; try reflexivity; try discriminate;
      try (intros; auto; fail);
      try (intros [H|H]; discriminate);
      try (intros (? & ? & H & _); discriminate).
Qed.

End SavingsRoute.

(** X24.  [POST /api/shardeum] always answers and writes nothing.  It
    answers 400 exactly when the field [transactions] is missing or not an
    array, 200 exactly when it is an array and the node answers every
    estimate (whatever the answers are: they are not checked to be
    numerals), and 500 exactly when the body cannot be read or the node
    rejects an estimate. *)
Theorem POST_shardeum_answers (E : Env)
    (body : option Routes.TransactionsField) (w : World) :
  exists r w',
    Routes.POST_shardeum E body w = (Returned r, w') /\
    batched_transactions w' = batched_transactions w /\
    gas_analytics w' = gas_analytics w /\
    signer_calls w' = signer_calls w /\
    (Routes.http_status r = 400 <->
     body = Some Routes.Missing \/ body = Some Routes.NotAnArray) /\
    (Routes.http_status r = 200 <->
     exists transactions answers,
       body = Some (Routes.ArrayOf transactions) /\
       ShardeumAPI.estimate_all E transactions w = (Returned answers, w')) /\
    (Routes.http_status r = 500 <->
     body = None \/
     exists transactions e,
       body = Some (Routes.ArrayOf transactions) /\
       ShardeumAPI.estimate_all E transactions w = (Thrown e, w')).
Proof. apply POST_shardeum_cases. Qed.

(* ================================================================== *)
(** * Automatic processing of a group that reaches the minimum *)
(* ================================================================== *)

Section LargeGroups.

Import BatchingService.

Variable E : Env.
Hypothesis Hhealthy : Spec.store_healthy E.

Lemma healthy_accepts : Spec.accepts_all_but_completions E.
Proof. intros n q _. apply Hhealthy. Qed.

Lemma healthy_completions : Spec.completions_fail_as E (fun _ => None).
Proof. intros n h b. apply Hhealthy. Qed.

(** On a healthy store [executeBatch] completes the records it lists and
    leaves the others. *)
Lemma executeBatch_healthy (txs : list BatchTransaction) (w : World) :
  txs <> [] -> NoDup (map batchId txs) ->
  exists f,
    batched_transactions (snd (executeBatch E txs w))
    = map f (batched_transactions w) /\
    (forall r, Db.batch_id (f r) = Db.batch_id r) /\
    (forall r, ~ In (Db.batch_id r) (map batchId txs) -> f r = r) /\
    (forall r, In (Db.batch_id r) (map batchId txs) ->
               Db.status (f r) = Db.completed).
Proof.
  intros Hne Hnd.
  destruct (executeBatch_spec E (fun _ => None) healthy_accepts
              healthy_completions txs w Hne Hnd)
    as (w' & hs & f & Hrun & Hrows & Hlen & Hout & Hin).
  exists f. rewrite Hrun. cbn [snd]. split; [exact Hrows|].
  assert (Hcases : forall r,
             (~ In (Db.batch_id r) (map batchId txs) /\ f r = r) \/
             (In (Db.batch_id r) (map batchId txs) /\
              exists t h, f r = Db.set_completed t h (Db.set_executing r))).
  { intros r.
    destruct (Db.mem_string (Db.batch_id r) (map batchId txs)) eqn:Hmem.
    - right. apply mem_string_In in Hmem. split; [exact Hmem|].
      apply in_map_iff in Hmem. destruct Hmem as (tx & Hid & Htx).
      destruct (In_nth_error _ _ Htx) as [i Hi].
      assert (Hh : exists h, nth_error hs i = Some h).
      { destruct (nth_error hs i) as [h|] eqn:Hnth; [eauto|].
        apply nth_error_None in Hnth.
        assert (i < List.length txs)%nat
          by (apply nth_error_Some; congruence).
        lia. }
      destruct Hh as [h Hh].
      pose proof (Hin i tx h Hi Hh r (eq_sym Hid)) as Hres.
      unfold Spec.step_result in Hres. destruct Hres as [t Ht].
      exists t, h. exact Ht.
    - left. split; [|apply Hout; exact Hmem].
      intros Hin'. apply mem_string_In in Hin'. congruence. }
  split; [|split].
  - intros r. destruct (Hcases r) as [[_ Hr]|[_ (t & h & Hr)]];
      rewrite Hr; reflexivity.
  - intros r Hr. destruct (Hcases r) as [[_ Heq]|[Hin' _]];
      [exact Heq|contradiction].
  - intros r Hr. destruct (Hcases r) as [[Hout' _]|[_ (t & h & Heq)]];
      [contradiction|rewrite Heq; reflexivity].
Qed.

Lemma NoDup_map_app_l {A B} (f : A -> B) (l l' : list A) :
  NoDup (map f (l ++ l')) -> NoDup (map f l).
Proof.
  rewrite map_app. apply NoDup_app_remove_r.
Qed.

Lemma NoDup_map_app_r {A B} (f : A -> B) (l l' : list A) :
  NoDup (map f (l ++ l')) -> NoDup (map f l').
Proof.
  rewrite map_app. apply NoDup_app_remove_l.
Qed.

Lemma NoDup_map_app_disjoint {A B} (f : A -> B) (l l' : list A) (x : B) :
  NoDup (map f (l ++ l')) -> In x (map f l) -> In x (map f l') -> False.
Proof.
  rewrite map_app. induction (map f l) as [|y m IH]; simpl; intros Hnd Hl Hl'.
  - contradiction.
  - inversion Hnd as [|? ? Hnot Hnd']; subst. destruct Hl as [Hy|Hl].
    + subst y. apply Hnot. apply in_or_app. right. exact Hl'.
    + apply IH; assumption.
Qed.

(** The loop over the groups: a record listed in a group that reaches the
    minimum ends completed. *)
Lemma execute_groups_completes (minimum : Z) :
  forall (groups : list (list BatchTransaction)) (w : World),
    NoDup (map batchId (List.concat groups)) ->
    Forall (fun g => g <> []) groups ->
    forall g tx r,
      In g groups -> In tx g -> minimum <= Z.of_nat (List.length g) ->
      In r (batched_transactions w) -> Db.batch_id r = batchId tx ->
      exists r',
        In r' (batched_transactions (snd (execute_groups E minimum groups w)))
        /\ Db.batch_id r' = batchId tx /\ Db.status r' = Db.completed.
Proof.
  induction groups as [|g0 rest IH];
    intros w Hnd Hne g tx r Hg Htx Hlarge Hr Hid; [contradiction|].
  simpl in Hnd. inversion Hne as [|? ? Hne0 Hne']; subst.
  cbn [execute_groups]. unfold bind at 1.
  set (step := (if Z.of_nat (List.length g0) >=? minimum
                then executeBatch E g0;; ret tt else ret tt)).
  assert (Hstep : exists w1,
             step w = (Returned tt, w1) /\
             ((Z.of_nat (List.length g0) >=? minimum) = true ->
              w1 = snd (executeBatch E g0 w)) /\
             ((Z.of_nat (List.length g0) >=? minimum) = false -> w1 = w)).
  { unfold step. destruct (Z.of_nat (List.length g0) >=? minimum).
    - destruct (executeBatch_spec E (fun _ => None) healthy_accepts
                  healthy_completions g0 w Hne0
                  (NoDup_map_app_l _ _ _ Hnd))
        as (w' & hs & f & Hrun & _).
      unfold bind, ret. rewrite Hrun. eexists. split; [reflexivity|].
      split; [intros _; reflexivity|discriminate].
    - unfold ret. eexists. split; [reflexivity|].
      split; [discriminate|intros _; reflexivity]. }
  destruct Hstep as (w1 & Hrun & Hexecuted & Hskipped).
  rewrite Hrun.
  destruct Hg as [Hg|Hg].
  - (* the group is this one: it is executed, and the others keep it *)
    subst g0.
    assert (Hge : (Z.of_nat (List.length g) >=? minimum) = true).
    { apply Z.geb_le. exact Hlarge. }
    specialize (Hexecuted Hge).
    destruct (executeBatch_healthy g w Hne0 (NoDup_map_app_l _ _ _ Hnd))
      as (f & Hrows & Hfid & Hout & Hin).
    exists (f r).
    assert (Hin1 : In (f r) (batched_transactions w1)).
    { rewrite Hexecuted, Hrows. apply in_map. exact Hr. }
    split; [|split].
    + apply (untouched_execute_groups E
               (map batchId (List.concat rest)) minimum rest).
      * intros g' tx' Hg' Htx'. apply mem_string_In. apply in_map.
        apply in_concat. exists g'. split; assumption.
      * exact Hin1.
      * apply mem_string_not_In. intros Hin'.
        apply (NoDup_map_app_disjoint batchId g (List.concat rest)
                 (batchId tx) Hnd).
        -- apply in_map. exact Htx.
        -- rewrite Hfid, Hid in Hin'. exact Hin'.
    + rewrite Hfid. exact Hid.
    + apply Hin. rewrite Hid. apply in_map. exact Htx.
  - (* the group comes later: this turn leaves the record alone *)
    assert (Hr1 : In r (batched_transactions w1)).
    { destruct (Z.of_nat (List.length g0) >=? minimum) eqn:Hge.
      - rewrite (Hexecuted eq_refl).
        destruct (executeBatch_healthy g0 w Hne0
                    (NoDup_map_app_l _ _ _ Hnd))
          as (f & Hrows & _ & Hout & _).
        rewrite Hrows. rewrite <- (Hout r).
        + apply in_map. exact Hr.
        + intros Hin'.
          apply (NoDup_map_app_disjoint batchId g0 (List.concat rest)
                   (batchId tx) Hnd).
          * rewrite <- Hid. exact Hin'.
          * apply in_map. apply in_concat. exists g. split; assumption.
      - rewrite (Hskipped eq_refl). exact Hr. }
    apply (IH w1 (NoDup_map_app_r _ _ _ Hnd) Hne' g tx r); assumption.
Qed.

Lemma pending_rows_distinct (rows : list Db.TxRow) :
  NoDup (map Db.batch_id rows) ->
  NoDup (map Db.batch_id (filter Queries.is_pending rows)).
Proof.
  intros Hnd. induction rows as [|row rows IH]; [constructor|].
  cbn [map filter] in *.
  inversion Hnd as [|? ? Hnot Hrest]; subst.
  destruct (Queries.is_pending row); [|exact (IH Hrest)].
  cbn [map]. constructor; [|exact (IH Hrest)].
  intros Hin. apply Hnot. apply in_map_iff in Hin.
  destruct Hin as (other & Hother & Hfound). apply filter_In in Hfound.
  rewrite <- Hother. apply in_map. tauto.
Qed.

Lemma pending_identifiers_distinct (limit : Z) (w w1 : World)
    (txs : list BatchTransaction) :
  Spec.unique_ids w ->
  getPendingTransactions E limit w = (Returned txs, w1) ->
  NoDup (map batchId txs).
Proof.
  intros Hnd Hget.
  destruct (getPendingTransactions_rows E limit w w1 txs Hget)
    as (_ & Htxs & _).
  rewrite Htxs, map_map. cbn [batchId of_row].
  set (rows := Db.order_by_created_at (Queries.pending_records w)).
  assert (Hall : NoDup (map Db.batch_id rows)).
  { eapply Permutation_NoDup.
    - apply Permutation_map. symmetry. apply order_by_created_at_perm.
    - unfold Queries.pending_records. apply pending_rows_distinct.
      exact Hnd. }
  rewrite <- (firstn_skipn (Z.to_nat limit) rows) in Hall.
  exact (NoDup_map_app_l _ _ _ Hall).
Qed.

End LargeGroups.

(** X25.  [processAutoBatching] completes the groups that reach the
    minimum.  On a store that accepts every statement and whose
    identifiers are pairwise distinct, when at least
    [minTransactionCount] pending transactions were fetched and their
    amounts are integer strings, every fetched transaction whose
    (recipient, token) group has at least [minTransactionCount] members
    has its record [completed] afterwards. *)
Theorem processAutoBatching_completes_large_groups (E : Env)
    (config : BatchingService.BatchConfig) (w w1 : World)
    (pendingTransactions : list BatchingService.BatchTransaction)
    (tx : BatchingService.BatchTransaction) :
  Spec.store_healthy E ->
  Spec.unique_ids w ->
  BatchingService.getPendingTransactions E
    (BatchingService.maxBatchSize config) w
    = (Returned pendingTransactions, w1) ->
  Forall Spec.integer_amount pendingTransactions ->
  In tx pendingTransactions ->
  BatchingService.minTransactionCount config
  <= Z.of_nat
       (List.length
          (Spec.with_key (BatchingService.group_key tx) pendingTransactions)) ->
  exists r,
    In r (batched_transactions
            (snd (BatchingService.processAutoBatching E config w))) /\
    Db.batch_id r = BatchingService.batchId tx /\
    Db.status r = Db.completed.
Proof.
  intros Hhealthy Hunique Hget Hint Htx Hlarge.
  pose proof (pending_identifiers_distinct E _ w w1 _ Hunique Hget) as Hnd.
  destruct (getPendingTransactions_pending E _ w w1 _ Hget tx Htx)
    as (row & Hrow & _ & Hid).
  pose proof (same_tables_getPendingTransactions E
                (BatchingService.maxBatchSize config) w) as Htables.
  rewrite Hget in Htables. unfold Spec.same_tables, Spec.tables in Htables.
  cbn [snd] in Htables. injection Htables as Hrows _.
  unfold BatchingService.processAutoBatching, bind. rewrite Hget.
  assert (Hcount : (Z.of_nat (List.length pendingTransactions)
                    <? BatchingService.minTransactionCount config) = false).
  { apply Z.ltb_ge.
    assert (Hle : (List.length
                     (Spec.with_key (BatchingService.group_key tx)
                        pendingTransactions)
                   <= List.length pendingTransactions)%nat)
      by apply filter_length_le.
    lia. }
  rewrite Hcount. unfold lift.
  assert (Hgroups : Forall (Forall Spec.integer_amount)
                      (map snd
                         (BatchingService.group_by_key pendingTransactions))).
  { rewrite group_by_key_classes, map_map. simpl.
    apply Forall_forall. intros g Hg. apply in_map_iff in Hg.
    destruct Hg as (k & <- & _). unfold Spec.with_key.
    apply Forall_forall. intros x Hx. apply filter_In in Hx.
    rewrite Forall_forall in Hint. apply Hint. tauto. }
  destruct (sort_from_descending _ [] Hgroups (Forall_nil _)
              (SSorted_nil _)) as (groups & Hsort & _).
  unfold BatchingService.optimizeBatch, BatchingService.Array_sort.
  rewrite Hsort.
  assert (Hopt : BatchingService.optimizeBatch pendingTransactions
                 = Returned groups) by exact Hsort.
  destruct (optimizeBatch_permutation _ _ Hopt) as [Hperm Hconcat].
  apply (execute_groups_completes E Hhealthy
           (BatchingService.minTransactionCount config) groups w1)
    with (g := Spec.with_key (BatchingService.group_key tx)
                 pendingTransactions) (tx := tx) (r := row).
  - eapply Permutation_NoDup; [|exact Hnd].
    apply Permutation_map. symmetry. exact Hconcat.
  - apply Forall_forall. intros g Hg Hnil. subst g.
    apply (Permutation_in _ Hperm) in Hg.
    rewrite group_by_key_classes, map_map in Hg. simpl in Hg.
    apply in_map_iff in Hg. destruct Hg as (k & Hk & Hkin).
    apply distinct_keys_In in Hkin. destruct Hkin as (x & Hx & Hxk).
    assert (Hin : In x (Spec.with_key k pendingTransactions)).
    { unfold Spec.with_key. apply filter_In. split; [exact Hx|].
      apply String.eqb_eq. exact Hxk. }
    rewrite Hk in Hin. contradiction.
  - apply (Permutation_in _ (Permutation_sym Hperm)).
    rewrite group_by_key_classes, map_map. simpl.
    apply in_map_iff. exists (BatchingService.group_key tx).
    split; [reflexivity|]. apply distinct_keys_In. exists tx.
    split; [exact Htx|reflexivity].
  - unfold Spec.with_key. apply filter_In. split; [exact Htx|].
    apply String.eqb_refl.
  - exact Hlarge.
  - rewrite Hrows. exact Hrow.
  - symmetry. exact Hid.
Qed.

Lemma processAutoBatching_completes_large_groups_witness :
  exists r,
    In r (batched_transactions
            (snd (BatchingService.processAutoBatching Samples.env_ok
                    Lifecycle.config_two Samples.world_three_pending))) /\
    Db.batch_id r = "p2" /\ Db.status r = Db.completed.
Proof.
  apply (processAutoBatching_completes_large_groups Samples.env_ok
           Lifecycle.config_two Samples.world_three_pending
           (snd (BatchingService.getPendingTransactions Samples.env_ok 50
                   Samples.world_three_pending))
           (map BatchingService.of_row
              (batched_transactions Samples.world_three_pending))
           (BatchingService.of_row
              (Samples.row 2 "p2" Samples.addrB "6" Db.pending None None))).
  - intros n q. reflexivity.
  - unfold Spec.unique_ids. simpl.
    repeat constructor; simpl; intuition discriminate.
  - vm_compute. reflexivity.
  - repeat constructor; unfold Spec.integer_amount; vm_compute; discriminate.
  - simpl. right. left. reflexivity.
  - vm_compute. discriminate.
Defined.

(* ================================================================== *)
(** * The recommended gas price *)
(* ================================================================== *)

Section GasPriceFacts.

Lemma lit_0_95_value :
  GasPrice.lit_0_95 = S754_finite false 8556839292003942 (-53).
Proof. vm_compute. reflexivity. Qed.

(** [Math.floor(p * 0.95)] is the exact [floor(19 p / 20)] or one less. *)
Lemma floor_mul_0_95 (S : Z) :
  0 < S < 2 ^ 48 ->
  exists k,
    Js.Math_floor (Js.mul (Js.of_Z S) GasPrice.lit_0_95) = Js.of_Z k /\
    19 * S / 20 - 1 <= k <= 19 * S / 20.
Proof.
  intros HS.
  rewrite lit_0_95_value, of_Z_positive by lia.
  destruct (normal_mantissa S ltac:(lia)) as [Hm _].
  pose proof (bits_bounds S ltac:(lia)) as HbS.
  assert (Hd : 0 < Binary64.bits S <= 48).
  { split; [apply bits_pos; lia|apply bits_upper; lia]. }
  set (d := Binary64.bits S) in *.
  set (c := 2 ^ (53 - d)).
  assert (Hc : 32 <= c).
  { unfold c. change 32 with (2 ^ 5). apply Z.pow_le_mono_r; lia. }
  assert (Hcd : c * 2 ^ d = 2 ^ 53).
  { unfold c. rewrite <- Z.pow_add_r by lia. f_equal. lia. }
  assert (Hcd1 : c * 2 ^ (d - 1) = 2 ^ 52).
  { unfold c. rewrite <- Z.pow_add_r by lia. f_equal. lia. }
  assert (Hu : 2 ^ 52 <= S * c < 2 ^ 53) by nia.
  unfold Js.mul, Js.prec, Js.emax, Binary64.normal, SFmul. fold d. cbn [xorb].
  set (mS := Z.to_pos (S * 2 ^ (53 - d))) in *.
  set (M := (mS * 8556839292003942)%positive).
  assert (HMv : Z.pos M = S * c * 8556839292003942).
  { unfold M. rewrite Pos2Z.inj_mul, Hm. reflexivity. }
  pose proof (digits2_pos_bounds M) as HD.
  set (D := Z.pos (digits2_pos M)) in *.
  assert (HDr : 105 <= D <= 106).
  { split.
    - destruct (Z_lt_le_dec D 105) as [Hlt|]; [|lia].
      assert (2 ^ D <= 2 ^ 104) by (apply Z.pow_le_mono_r; lia). nia.
    - destruct (Z_lt_le_dec 106 D) as [Hlt|]; [|lia].
      assert (2 ^ 106 <= 2 ^ (D - 1)) by (apply Z.pow_le_mono_r; lia). nia. }
  destruct (round_aux_shift false M (d - 53 + -53) (D - 53))
    as (m' & e' & Hround & He' & HR); try lia.
  rewrite Hround. unfold Js.Math_floor.
  destruct (Z.leb_spec 0 e') as [Hnonneg|Hnegative]; [lia|].
  exists (Z.pos m' / 2 ^ (- e')). split; [reflexivity|].
  set (K := 19 * S / 20).
  assert (HK : 20 * K <= 19 * S < 20 * K + 20).
  { unfold K. pose proof (Z.mul_div_le (19 * S) 20 ltac:(lia)).
    pose proof (Z.mul_succ_div_gt (19 * S) 20 ltac:(lia)). lia. }
  set (W := 2 ^ (- e')).
  set (V := 2 ^ (e' - (d - 53 + -53))) in *.
  assert (HW : 0 < W) by (apply Z.pow_pos_nonneg; lia).
  assert (HV : 0 < V) by (apply Z.pow_pos_nonneg; lia).
  assert (HWV : W * V = c * 2 ^ 53).
  { unfold W, V, c. rewrite <- !Z.pow_add_r by lia. f_equal. lia. }
  assert (Hhalf : 0 < 2 ^ (D - 53 - 1) <= 2 ^ 52).
  { split; [apply Z.pow_pos_nonneg; lia|apply Z.pow_le_mono_r; lia]. }
  set (h := 2 ^ (D - 53 - 1)) in *.
  set (u := S * c) in *.
  assert (HKu : 20 * K * c <= 19 * u < 20 * K * c + 20 * c) by (unfold u; nia).
  assert (Hlow : (K - 1) * (W * V) <= Z.pos m' * V).
  { rewrite HWV. nia. }
  assert (Hhigh : Z.pos m' * V < (K + 1) * (W * V)).
  { rewrite HWV. nia. }
  split.
  - assert (K - 1 <= Z.pos m' / W); [|lia].
    apply Z.div_le_lower_bound; [exact HW|]. nia.
  - assert (Z.pos m' / W < K + 1); [|lia].
    apply Z.div_lt_upper_bound; [exact HW|]. nia.
Qed.

Lemma minimum_wei_value :
  Js.of_Z GasPrice.minimum_wei = S754_finite false 8388608000000000 (-23).
Proof. vm_compute. reflexivity. Qed.

(** [Math.max] of a safe non-negative integer and one gwei. *)
Lemma Math_max_minimum_wei (k : Z) :
  0 <= k < 2 ^ 53 ->
  GasPrice.Math_max (Js.of_Z k) (Js.of_Z GasPrice.minimum_wei)
  = Js.of_Z (Z.max k GasPrice.minimum_wei).
Proof.
  intros Hk.
  destruct (of_Z_cases k ltac:(lia)) as [[Hk0 Hzero]|(s & w & Hw & Hs & Hn)].
  - subst k. reflexivity.
  - destruct s; simpl in Hs; [lia|]. subst w.
    rewrite Hn, minimum_wei_value.
    destruct (normal_mantissa k Hw) as [Hm Hb].
    pose proof (bits_bounds k ltac:(lia)) as Hbits.
    unfold Binary64.normal in Hn.
    unfold GasPrice.Math_max, Binary64.normal, SFcompare.
    destruct (Z.compare_spec (Binary64.bits k - 53) (-23)) as [He|He|He].
    + (* thirty bits on both sides: the mantissas decide *)
      replace (Binary64.bits k) with 30 in * by lia.
      change (53 - 30) with 23 in *. change (30 - 1) with 29 in Hbits.
      rewrite Pos.compare_cont_spec.
      rewrite Pos2Z.inj_compare, Hm.
      destruct (Z.compare_spec (k * 2 ^ 23) (Z.pos 8388608000000000))
        as [Hc|Hc|Hc]; cbn [Pos.switch_Eq].
      * assert (k = GasPrice.minimum_wei)
          by (unfold GasPrice.minimum_wei; lia).
        rewrite Z.max_l by lia. rewrite Hn. reflexivity.
      * rewrite Z.max_r by (unfold GasPrice.minimum_wei; lia).
        symmetry. exact minimum_wei_value.
      * rewrite Z.max_l by (unfold GasPrice.minimum_wei; lia).
        rewrite Hn. reflexivity.
    + (* fewer bits: below one gwei *)
      assert (Hlt : k < 2 ^ 29).
      { assert (2 ^ Binary64.bits k <= 2 ^ 29)
          by (apply Z.pow_le_mono_r; lia). lia. }
      rewrite Z.max_r by (unfold GasPrice.minimum_wei; lia).
      symmetry. exact minimum_wei_value.
    + (* more bits: above one gwei *)
      assert (Hgt : 2 ^ 30 <= k).
      { assert (2 ^ 30 <= 2 ^ (Binary64.bits k - 1))
          by (apply Z.pow_le_mono_r; lia). lia. }
      rewrite Z.max_l by (unfold GasPrice.minimum_wei; lia).
      rewrite Hn. reflexivity.
Qed.

(** The recommendation for a price that parses to a safe integer. *)
Lemma recommended_price (p : Z) :
  0 <= p < 2 ^ 48 ->
  exists r,
    GasPrice.Math_max
      (Js.Math_floor (Js.mul (Js.of_Z p) GasPrice.lit_0_95))
      (Js.of_Z GasPrice.minimum_wei)
    = Js.of_Z r /\
    GasPrice.minimum_wei <= r < 2 ^ 48 /\
    (r = GasPrice.minimum_wei \/ 19 * p / 20 - 1 <= r <= 19 * p / 20).
Proof.
  intros Hp.
  assert (Hcases : p = 0 \/ 0 < p) by lia.
  destruct Hcases as [Hzero|Hpos].
  - subst p. exists GasPrice.minimum_wei.
    split; [reflexivity|]. unfold GasPrice.minimum_wei. lia.
  - destruct (floor_mul_0_95 p ltac:(lia)) as (k & Hfloor & Hk).
    assert (Hquot : 0 <= 19 * p / 20 <= p).
    { split; [apply Z.div_pos; lia|].
      apply Z.div_le_upper_bound; lia. }
    assert (Hk0 : 0 <= k).
    { destruct (Z_lt_le_dec k 0) as [Hneg|]; [|assumption].
      assert (19 * p / 20 = 0) by lia.
      assert (p = 1).
      { destruct (Z_lt_le_dec p 2) as [|Hge]; [lia|].
        assert (1 <= 19 * p / 20)
          by (apply Z.div_le_lower_bound; lia). lia. }
      subst p. assert (k = -1) by lia. subst k.
      vm_compute in Hfloor. discriminate Hfloor. }
    exists (Z.max k GasPrice.minimum_wei).
    rewrite Hfloor, Math_max_minimum_wei by lia.
    split; [reflexivity|]. unfold GasPrice.minimum_wei. lia.
Qed.

End GasPriceFacts.

(** X26.  [calculateOptimalGasPrice] never recommends less than one gwei.
    When both calls are answered and the current price parses to an
    integer [p] with [0 <= p < 2^48], the recommended price is the
    hexadecimal numeral of an integer [r] that is at least 10^9; [r] is
    10^9 itself whenever [p] is at most 10^9, so that the recommendation
    is then not below the current price; otherwise [r] is
    [floor(19 p / 20)] or one less.  The savings are computed from the
    exact difference [p - r]. *)
Theorem calculateOptimalGasPrice_recommends_at_least_one_gwei
    (rpc_gasPrice : nat -> Outcome string)
    (rpc_getNetworkAccount : nat -> Outcome GasPrice.NetworkAccount)
    (w : World) (currentGasPrice : string)
    (networkInfo : GasPrice.NetworkAccount) (p : Z) :
  rpc_gasPrice (ticks w) = Returned currentGasPrice ->
  rpc_getNetworkAccount (S (ticks w)) = Returned networkInfo ->
  Js.parseInt16 currentGasPrice = Js.of_Z p ->
  0 <= p < 2 ^ 48 ->
  exists r,
    fst (GasPrice.calculateOptimalGasPrice rpc_gasPrice
           rpc_getNetworkAccount w)
    = Returned
        (GasPrice.mkOptimalGasPrice currentGasPrice
           ("0x" ++ Js.BigInt_toString16 r)%string
           (Js.mul (Js.div (Js.of_Z (p - r)) (Js.of_Z p)) (Js.of_Z 100))) /\
    1000000000 <= r /\
    (p <= 1000000000 -> r = 1000000000 /\ p <= r) /\
    (1000000000 < r -> 19 * p / 20 - 1 <= r <= 19 * p / 20).
Proof.
  intros Hprice Haccount Hparse Hp.
  destruct (recommended_price p Hp) as (r & Hmax & Hr & Hcases).
  unfold GasPrice.minimum_wei in Hr, Hcases.
  exists r.
  unfold GasPrice.calculateOptimalGasPrice, GasPrice.getGasPrice,
    GasPrice.getNetworkAccount, bind, ret.
  rewrite Hprice. cbn [tick ticks]. rewrite Haccount. cbn [fst].
  rewrite Hparse, Hmax.
  rewrite Number_toString16_of_Z by lia.
  unfold Js.sub, Js.prec, Js.emax. rewrite sub_of_Z by lia.
  split; [reflexivity|]. split; [lia|]. split.
  - intros Hsmall.
    assert (Hquot : 19 * p / 20 <= p)
      by (apply Z.div_le_upper_bound; lia).
    lia.
  - intros Hlarge. destruct Hcases as [Heq|Hrange]; [lia|exact Hrange].
Qed.

Lemma calculateOptimalGasPrice_recommends_at_least_one_gwei_witness :
  exists r,
    fst (GasPrice.calculateOptimalGasPrice GasPrice.node_half_gwei
           GasPrice.node_account Samples.world0)
    = Returned
        (GasPrice.mkOptimalGasPrice "0x1dcd6500"
           ("0x" ++ Js.BigInt_toString16 r)%string
           (Js.mul (Js.div (Js.of_Z (500000000 - r)) (Js.of_Z 500000000))
              (Js.of_Z 100))) /\
    1000000000 <= r /\
    (500000000 <= 1000000000 -> r = 1000000000 /\ 500000000 <= r) /\
    (1000000000 < r ->
     19 * 500000000 / 20 - 1 <= r <= 19 * 500000000 / 20).
Proof.
  apply (calculateOptimalGasPrice_recommends_at_least_one_gwei
           GasPrice.node_half_gwei GasPrice.node_account Samples.world0
           "0x1dcd6500" GasPrice.sample_account 500000000).
  - reflexivity.
  - reflexivity.
  - vm_compute. reflexivity.
  - lia.
Defined.

(** X27.  [calculateOptimalGasPrice] answers exactly when the node
    answers both [eth_gasPrice] and, after it,
    [shardeum_getNetworkAccount]: a failure of the second call rejects the
    recommendation, and so does one of the first, after which the second
    call is not made. *)
Theorem calculateOptimalGasPrice_needs_both_answers
    (rpc_gasPrice : nat -> Outcome string)
    (rpc_getNetworkAccount : nat -> Outcome GasPrice.NetworkAccount)
    (w : World) :
  ((exists result,
       fst (GasPrice.calculateOptimalGasPrice rpc_gasPrice
              rpc_getNetworkAccount w) = Returned result)
   <-> (exists currentGasPrice networkInfo,
          rpc_gasPrice (ticks w) = Returned currentGasPrice /\
          rpc_getNetworkAccount (S (ticks w)) = Returned networkInfo)) /\
  (forall message,
      rpc_gasPrice (ticks w) = Thrown message ->
      GasPrice.calculateOptimalGasPrice rpc_gasPrice rpc_getNetworkAccount w
      = (Thrown message, tick w)) /\
  (forall currentGasPrice message,
      rpc_gasPrice (ticks w) = Returned currentGasPrice ->
      rpc_getNetworkAccount (S (ticks w)) = Thrown message ->
      GasPrice.calculateOptimalGasPrice rpc_gasPrice rpc_getNetworkAccount w
      = (Thrown message, tick (tick w))).
Proof.
  unfold GasPrice.calculateOptimalGasPrice, GasPrice.getGasPrice,
    GasPrice.getNetworkAccount, bind, ret.
  cbn [tick ticks].
  destruct (rpc_gasPrice (ticks w)) as [g|e] eqn:Hg.
  - destruct (rpc_getNetworkAccount (S (ticks w))) as [a|e] eqn:Ha.
    + split; [|split].
      * split; [intros _; exists g, a; split; reflexivity|].
        intros _. eexists. reflexivity.
      * intros message H. discriminate H.
      * intros g' message _ H. discriminate H.
    + split; [|split].
      * split; [intros [result H]; discriminate H|].
        intros (g' & a & _ & H). discriminate H.
      * intros message H. discriminate H.
      * intros g' message _ H. injection H as <-. reflexivity.
  - split; [|split].
    + split; [intros [result H]; discriminate H|].
      intros (g' & a & H & _). discriminate H.
    + intros message H. injection H as <-. reflexivity.
    + intros g' message H. discriminate H.
Qed.

(* ================================================================== *)
(** * The client's requests *)
(* ================================================================== *)

Section ClientFacts.

Import GasGuruSDK.

Variable Body : Type.
Variable fetch : nat -> Request Body -> FetchResult.
Variable config : Config.
Variable endpoint : string.
Variable method : Method.
Variable body : option Body.

Let request : Request Body := options Body config endpoint method body.

Lemma attempt_once_fails (net : Net Body) (message : string) :
  Transport.failure (fetch (List.length (requests net)) request)
  = Some message ->
  attempt_once Body fetch config endpoint method body net
  = (Thrown message, mkNet (requests net ++ [request]) (sleeps net)).
Proof.
  unfold attempt_once. fold request.
  destruct (fetch (List.length (requests net)) request)
    as [m|ok status statusText json]; cbn [Transport.failure].
  - intros H. injection H as <-. reflexivity.
  - destruct ok; cbn [negb].
    + destruct json as [value|m]; intros H; [discriminate H|].
      injection H as <-. reflexivity.
    + intros H. injection H as <-. reflexivity.
Qed.

Lemma attempt_once_succeeds (net : Net Body) (status : Z)
    (statusText : string) (value : Json) :
  fetch (List.length (requests net)) request
  = Responded true status statusText (Returned value) ->
  attempt_once Body fetch config endpoint method body net
  = (Returned value, mkNet (requests net ++ [request]) (sleeps net)).
Proof.
  unfold attempt_once. fold request. intros ->. reflexivity.
Qed.

Lemma failure_message (r : FetchResult) :
  Transport.failure r <> None -> exists m, Transport.failure r = Some m.
Proof.
  destruct (Transport.failure r) as [m|]; [eauto|congruence].
Qed.

Lemma backoffs_step (first : Z) (count : nat) (ms : list Z) :
  (ms ++ (if autoBackoff config then [delay first] else []))
    ++ Transport.backoffs (autoBackoff config) (first + 1) count
  = ms ++ Transport.backoffs (autoBackoff config) first (S count).
Proof.
  unfold Transport.backoffs. cbn [Transport.attempts map].
  destruct (autoBackoff config).
  - rewrite <- app_assoc. reflexivity.
  - rewrite !app_nil_r. reflexivity.
Qed.

Lemma slept (attempt : Z) (net : Net Body) :
  attempt < maxRetries config ->
  (if (attempt <? maxRetries config) && autoBackoff config
   then setTimeout Body (delay attempt) net else net)
  = mkNet (requests net)
      (sleeps net ++ (if autoBackoff config then [delay attempt] else [])).
Proof.
  intros Hlt. apply Z.ltb_lt in Hlt. rewrite Hlt. cbn [andb].
  destruct (autoBackoff config); [reflexivity|].
  rewrite app_nil_r. destruct net; reflexivity.
Qed.

(** The loop up to its first successful attempt. *)
Lemma apiCall_loop_success (status : Z) (statusText : string)
    (value : Json) :
  forall (i turns : nat) (attempt : Z) (lastError : option string)
         (net : Net Body),
    (i < turns)%nat ->
    attempt + Z.of_nat i <= maxRetries config ->
    (forall t, (t < i)%nat ->
       Transport.failure (fetch (List.length (requests net) + t) request)
       <> None) ->
    fetch (List.length (requests net) + i) request
    = Responded true status statusText (Returned value) ->
    apiCall_loop Body fetch config turns attempt lastError
      endpoint method body net
    = (Fulfilled value,
       mkNet (requests net ++ repeat request (S i))
         (sleeps net ++ Transport.backoffs (autoBackoff config) attempt i)).
Proof.
  induction i as [|i IH];
    intros turns attempt lastError net Hturns Hattempt Hfail Hok;
    (destruct turns as [|turns]; [lia|]); cbn [apiCall_loop].
  - rewrite Nat.add_0_r in Hok.
    rewrite (attempt_once_succeeds net status statusText value Hok).
    unfold Transport.backoffs. cbn [Transport.attempts map repeat].
    destruct (autoBackoff config); rewrite app_nil_r; reflexivity.
  - destruct (failure_message _ (Hfail 0%nat ltac:(lia))) as [m Hm].
    rewrite Nat.add_0_r in Hm.
    rewrite (attempt_once_fails net m Hm).
    rewrite slept by lia. cbn [requests sleeps].
    rewrite (IH turns (attempt + 1) (Some m)).
    + cbn [requests sleeps]. rewrite backoffs_step.
      rewrite <- app_assoc. reflexivity.
    + lia.
    + lia.
    + cbn [requests]. intros t Ht. rewrite length_app. cbn [List.length].
      replace (List.length (requests net) + 1 + t)%nat
        with (List.length (requests net) + S t)%nat by lia.
      apply Hfail. lia.
    + cbn [requests]. rewrite length_app. cbn [List.length].
      replace (List.length (requests net) + 1 + i)%nat
        with (List.length (requests net) + S i)%nat by lia.
      exact Hok.
Qed.

(** The loop when every attempt that is left fails. *)
Lemma apiCall_loop_failure :
  forall (turns : nat) (attempt : Z) (lastError : option string)
         (net : Net Body),
    Z.of_nat turns = Z.max 0 (maxRetries config - attempt + 1) ->
    (forall t, (t < turns)%nat ->
       Transport.failure (fetch (List.length (requests net) + t) request)
       <> None) ->
    apiCall_loop Body fetch config turns attempt lastError
      endpoint method body net
    = (throw_lastError
         (match turns with
          | O => lastError
          | S last =>
              Transport.failure
                (fetch (List.length (requests net) + last) request)
          end),
       mkNet (requests net ++ repeat request turns)
         (sleeps net
          ++ Transport.backoffs (autoBackoff config) attempt (pred turns))).
Proof.
  induction turns as [|turns IH]; intros attempt lastError net Hturns Hfail;
    cbn [apiCall_loop].
  - unfold Transport.backoffs. cbn [Transport.attempts map repeat pred].
    destruct (autoBackoff config); rewrite !app_nil_r;
      destruct net; reflexivity.
  - destruct (failure_message _ (Hfail 0%nat ltac:(lia))) as [m Hm].
    rewrite Nat.add_0_r in Hm.
    rewrite (attempt_once_fails net m Hm).
    destruct turns as [|turns'].
    + (* the last attempt: no delay after it *)
      assert (Hlast : (attempt <? maxRetries config) = false)
        by (apply Z.ltb_ge; lia).
      rewrite Hlast. cbn [andb apiCall_loop pred repeat].
      rewrite Nat.add_0_r, Hm.
      unfold Transport.backoffs. cbn [Transport.attempts map].
      destruct (autoBackoff config); rewrite !app_nil_r; reflexivity.
    + rewrite slept by lia.
      rewrite (IH (attempt + 1) (Some m)).
      * cbn [requests sleeps pred]. rewrite backoffs_step.
        rewrite length_app. cbn [List.length].
        replace (List.length (requests net) + 1 + turns')%nat
          with (List.length (requests net) + S turns')%nat by lia.
        rewrite <- app_assoc. reflexivity.
      * lia.
      * cbn [requests]. intros t Ht. rewrite length_app. cbn [List.length].
        replace (List.length (requests net) + 1 + t)%nat
          with (List.length (requests net) + S t)%nat by lia.
        apply Hfail. lia.
Qed.

End ClientFacts.

(** X28.  [apiCall] returns the body of the first attempt that is answered
    with an [ok] status and a JSON text, provided that attempt is among
    the first [maxRetries]: the same request has then been made once per
    attempt, and, with [autoBackoff], a delay of
    [min(1000 * 2^(attempt - 1), 10000)] milliseconds was waited for after
    each failed attempt (none without [autoBackoff]). *)
Theorem apiCall_returns_first_successful_attempt (Body : Type)
    (fetch : nat -> GasGuruSDK.Request Body -> GasGuruSDK.FetchResult)
    (config : GasGuruSDK.Config) (endpoint : string)
    (method : GasGuruSDK.Method) (body : option Body)
    (net : GasGuruSDK.Net Body) (failures : nat)
    (status : Z) (statusText : string) (value : GasGuruSDK.Json) :
  Z.of_nat failures < GasGuruSDK.maxRetries config ->
  (forall t, (t < failures)%nat ->
     Transport.failure
       (fetch (List.length (GasGuruSDK.requests net) + t)%nat
          (GasGuruSDK.options Body config endpoint method body))
     <> None) ->
  fetch (List.length (GasGuruSDK.requests net) + failures)%nat
    (GasGuruSDK.options Body config endpoint method body)
  = GasGuruSDK.Responded true status statusText (Returned value) ->
  GasGuruSDK.apiCall Body fetch config endpoint method body net
  = (GasGuruSDK.Fulfilled value,
     GasGuruSDK.mkNet
       (GasGuruSDK.requests net
        ++ repeat (GasGuruSDK.options Body config endpoint method body)
             (S failures))
       (GasGuruSDK.sleeps net
        ++ Transport.backoffs (GasGuruSDK.autoBackoff config) 1 failures)).
Proof.
  intros Hamong Hfail Hok. unfold GasGuruSDK.apiCall.
  apply (apiCall_loop_success Body fetch config endpoint method body
           status statusText value); try assumption; lia.
Qed.

Lemma apiCall_returns_first_successful_attempt_witness :
  GasGuruSDK.apiCall GasGuruSDK.BatchBody Transport.third_time_lucky
    Transport.defaults "/batch" GasGuruSDK.POST (Some Transport.a_body)
    Transport.net0
  = (GasGuruSDK.Fulfilled Transport.accepted,
     GasGuruSDK.mkNet
       ([] ++ repeat
                (GasGuruSDK.options GasGuruSDK.BatchBody Transport.defaults
                   "/batch" GasGuruSDK.POST (Some Transport.a_body)) 3)
       ([] ++ Transport.backoffs true 1 2)).
Proof.
  apply (apiCall_returns_first_successful_attempt GasGuruSDK.BatchBody
           Transport.third_time_lucky Transport.defaults "/batch"
           GasGuruSDK.POST (Some Transport.a_body) Transport.net0 2
           200 "OK" Transport.accepted).
  - vm_compute. reflexivity.
  - intros t Ht. destruct t as [|[|t]]; [discriminate|discriminate|lia].
  - reflexivity.
Defined.

(** X29.  [apiCall] gives up after [maxRetries] attempts.  When each of
    them fails, exactly [max(maxRetries, 0)] requests have been made, the
    delays were waited for after all failed attempts but the last, and
    the error thrown is that of the last attempt, which for a status that
    is not [ok] reads [HTTP <status>: <statusText>].  With [maxRetries]
    at most 0 no request is made at all and what is thrown is [null]. *)
Theorem apiCall_gives_up_after_maxRetries (Body : Type)
    (fetch : nat -> GasGuruSDK.Request Body -> GasGuruSDK.FetchResult)
    (config : GasGuruSDK.Config) (endpoint : string)
    (method : GasGuruSDK.Method) (body : option Body)
    (net : GasGuruSDK.Net Body) :
  (forall t, (t < Z.to_nat (GasGuruSDK.maxRetries config))%nat ->
     Transport.failure
       (fetch (List.length (GasGuruSDK.requests net) + t)%nat
          (GasGuruSDK.options Body config endpoint method body))
     <> None) ->
  GasGuruSDK.apiCall Body fetch config endpoint method body net
  = (match Z.to_nat (GasGuruSDK.maxRetries config) with
     | O => GasGuruSDK.ThrewNull
     | S last =>
         GasGuruSDK.throw_lastError
           (Transport.failure
              (fetch (List.length (GasGuruSDK.requests net) + last)%nat
                 (GasGuruSDK.options Body config endpoint method body)))
     end,
     GasGuruSDK.mkNet
       (GasGuruSDK.requests net
        ++ repeat (GasGuruSDK.options Body config endpoint method body)
             (Z.to_nat (GasGuruSDK.maxRetries config)))
       (GasGuruSDK.sleeps net
        ++ Transport.backoffs (GasGuruSDK.autoBackoff config) 1
             (pred (Z.to_nat (GasGuruSDK.maxRetries config))))).
Proof.
  intros Hfail. unfold GasGuruSDK.apiCall.
  rewrite (apiCall_loop_failure Body fetch config endpoint method body
             (Z.to_nat (GasGuruSDK.maxRetries config)) 1 None net)
    by (try assumption; lia).
  destruct (Z.to_nat (GasGuruSDK.maxRetries config)); reflexivity.
Qed.

Lemma apiCall_gives_up_after_maxRetries_witness :
  GasGuruSDK.apiCall GasGuruSDK.BatchBody Transport.always_bad_request
    Transport.defaults "/batch" GasGuruSDK.POST (Some Transport.a_body)
    Transport.net0
  = (GasGuruSDK.ThrewError "HTTP 400: Bad Request",
     GasGuruSDK.mkNet
       (repeat
          (GasGuruSDK.options GasGuruSDK.BatchBody Transport.defaults
             "/batch" GasGuruSDK.POST (Some Transport.a_body)) 3)
       [1000; 2000]).
Proof.
  exact (apiCall_gives_up_after_maxRetries GasGuruSDK.BatchBody
           Transport.always_bad_request Transport.defaults "/batch"
           GasGuruSDK.POST (Some Transport.a_body) Transport.net0
           (fun t _ => ltac:(discriminate))).
Defined.

(** X30.  The client's [addToBatch] never reads the body of an answer
    whose status is not [ok].  When the scheduled date, if any, can be
    printed and every one of the [maxRetries] attempts fails, the method
    returns [success: false] with the last attempt's error, after
    [max(maxRetries, 0)] POSTs of one and the same body: for a last answer
    with a status that is not [ok] the error reads
    [HTTP <status>: <statusText>], whatever the answer's body says, and
    with [maxRetries] at most 0 it reads [Unknown error] although nothing
    was sent. *)
Theorem sdk_addToBatch_reports_the_status_line (Date : Type)
    (toISOString : Date -> Outcome string) (text : Date -> string)
    (fetch : nat -> GasGuruSDK.Request GasGuruSDK.BatchBody
             -> GasGuruSDK.FetchResult)
    (config : GasGuruSDK.Config) (null_message : string)
    (transaction : GasGuruSDK.TransactionRequest Date)
    (net : GasGuruSDK.Net GasGuruSDK.BatchBody) :
  let request :=
    GasGuruSDK.options GasGuruSDK.BatchBody config "/batch" GasGuruSDK.POST
      (Some (GasGuruSDK.mkBatchBody
               (GasGuruSDK.tx_from transaction)
               (GasGuruSDK.tx_to transaction)
               (GasGuruSDK.tx_amount transaction)
               (GasGuruSDK.tx_tokenAddress transaction)
               (option_map text (GasGuruSDK.tx_scheduledFor transaction)))) in
  (forall date, GasGuruSDK.tx_scheduledFor transaction = Some date ->
                toISOString date = Returned (text date)) ->
  (forall t, (t < Z.to_nat (GasGuruSDK.maxRetries config))%nat ->
     Transport.failure
       (fetch (List.length (GasGuruSDK.requests net) + t)%nat request)
     <> None) ->
  exists message,
    GasGuruSDK.addToBatch Date toISOString fetch config null_message
      transaction net
    = (GasGuruSDK.mkBatchResponse false None
         (Some (GasGuruSDK.JString message)) None,
       GasGuruSDK.mkNet
         (GasGuruSDK.requests net
          ++ repeat request (Z.to_nat (GasGuruSDK.maxRetries config)))
         (GasGuruSDK.sleeps net
          ++ Transport.backoffs (GasGuruSDK.autoBackoff config) 1
               (pred (Z.to_nat (GasGuruSDK.maxRetries config))))) /\
    (GasGuruSDK.maxRetries config <= 0 -> message = "Unknown error") /\
    (forall last status statusText json,
        Z.to_nat (GasGuruSDK.maxRetries config) = S last ->
        fetch (List.length (GasGuruSDK.requests net) + last)%nat request
        = GasGuruSDK.Responded false status statusText json ->
        message
        = ("HTTP " ++ Js.BigInt_toString status ++ ": " ++ statusText)%string).
Proof.
  intros request Hdate Hfail.
  assert (Hscheduled :
            match GasGuruSDK.tx_scheduledFor transaction with
            | Some date =>
                match toISOString date with
                | Returned text0 => Returned (Some text0)
                | Thrown m => Thrown m
                end
            | None => Returned None
            end
            = Returned
                (option_map text (GasGuruSDK.tx_scheduledFor transaction))).
  { destruct (GasGuruSDK.tx_scheduledFor transaction) as [date|];
      [|reflexivity].
    rewrite (Hdate date eq_refl). reflexivity. }
  unfold GasGuruSDK.addToBatch. rewrite Hscheduled.
  unfold GasGuruSDK.apiCall.
  rewrite (apiCall_loop_failure GasGuruSDK.BatchBody fetch config "/batch"
             GasGuruSDK.POST _
             (Z.to_nat (GasGuruSDK.maxRetries config)) 1 None net)
    by (try exact Hfail; lia).
  fold request.
  destruct (Z.to_nat (GasGuruSDK.maxRetries config)) as [|last] eqn:Hturns.
  - exists "Unknown error". cbn [GasGuruSDK.throw_lastError].
    split; [reflexivity|]. split; [reflexivity|].
    intros last status statusText json Hlast. discriminate Hlast.
  - destruct (Transport.failure
                (fetch (List.length (GasGuruSDK.requests net) + last)%nat
                   request)) as [m|] eqn:Hm.
    + exists m. cbn [GasGuruSDK.throw_lastError].
      split; [reflexivity|]. split; [lia|].
      intros last' status statusText json Hlast Hanswer.
      injection Hlast as <-. rewrite Hanswer in Hm.
      cbn [Transport.failure] in Hm. injection Hm as <-. reflexivity.
    + exfalso. apply (Hfail last ltac:(lia)). exact Hm.
Qed.

Lemma sdk_addToBatch_reports_the_status_line_witness :
  exists message,
    GasGuruSDK.addToBatch Z Transport.iso_of_any
      Transport.always_bad_request Transport.defaults "null"
      Transport.a_transaction Transport.net0
    = (GasGuruSDK.mkBatchResponse false None
         (Some (GasGuruSDK.JString message)) None,
       GasGuruSDK.mkNet
         (repeat
            (GasGuruSDK.options GasGuruSDK.BatchBody Transport.defaults
               "/batch" GasGuruSDK.POST (Some Transport.a_body)) 3)
         [1000; 2000]) /\
    (3 <= 0 -> message = "Unknown error") /\
    (forall last status statusText json,
        3%nat = S last ->
        Transport.always_bad_request last
          (GasGuruSDK.options GasGuruSDK.BatchBody Transport.defaults
             "/batch" GasGuruSDK.POST (Some Transport.a_body))
        = GasGuruSDK.Responded false status statusText json ->
        message
        = ("HTTP " ++ Js.BigInt_toString status ++ ": " ++ statusText)%string).
Proof.
  exact (sdk_addToBatch_reports_the_status_line Z Transport.iso_of_any
           (fun _ => "2025-01-01T00:00:00.000Z")
           Transport.always_bad_request Transport.defaults "null"
           Transport.a_transaction Transport.net0
           (fun date H => ltac:(discriminate H))
           (fun t _ => ltac:(discriminate))).
Defined.
